(** * DepEdit: a shallow embedding of [depedit.py] and its properties

    The development follows the layout of the Python module: string
    primitives of the host language, the token and sentence classes, the
    rule compiler ([Transformation], [DefinitionMatcher], [Definition]),
    the engine ([DepEdit.process_sentence] and its helpers), the
    serializer, the driver ([DepEdit.run_depedit]) and the method that
    adds rules to an object ([DepEdit.add_transformation]).

    Python objects that are mutated in place (tokens, the annotation
    dictionary of the sentence, the shared [matchers] lists of the bins)
    are kept in explicit stores; tokens are referred to by their index in
    the sentence, which stands for object identity.  Functions of the
    [re] module and of [float] are parameters of the model.

    The model follows Python 3.  A Python string is the Rocq string of
    its code points, one [ascii] for each, so the model covers the texts
    whose code points lie below 256; the no-break space U+00A0 is the
    character ["160"%char]. *)

From Stdlib Require Import String Ascii List ZArith Lia Bool Arith DecimalString.
Import ListNotations.
Open Scope string_scope.
Open Scope Z_scope.

Set Implicit Arguments.

Infix "==?" := String.eqb (at level 70, no associativity).

(** ** Outcomes of a call *)

(** Exceptions that the modelled code can raise and never catches.
    [Unsupported] is not an exception of Python: it marks the places
    where the model stops short of the program: reading a special
    attribute of the object protocol ([__class__], [__dict__] and the
    like) from a token, the upper-case forms of U+00B5 and U+00FF, which
    lie beyond the code points of the model, a [normalize_shorthand]
    that would need more rounds than the model allows, and what lies
    beyond the instance of the libraries that the worked inputs use. *)
Inductive exn : Type :=
| IndexError | ValueError | KeyError | AttributeError | TypeError
| OverflowError | ReError | Unsupported.

(** A call returns, ends the run through [sys.exit()] after printing a
    diagnostic on the error channel, or raises. *)
Inductive outcome (A : Type) : Type :=
| Ok (a : A)
| Exit (diag : string)
| Raise (e : exn).

Arguments Ok {A} a.
Arguments Exit {A} diag.
Arguments Raise {A} e.

Definition bind {A B : Type} (m : outcome A) (k : A -> outcome B) : outcome B :=
  match m with
  | Ok a => k a
  | Exit d => Exit d
  | Raise e => Raise e
  end.

Notation "x <- m ;; k" := (bind m (fun x => k))
  (at level 61, m at next level, right associativity).
Notation "' p <- m ;; k" := (bind m (fun p => k))
  (at level 61, p pattern, m at next level, right associativity).

Definition of_option {A : Type} (e : exn) (o : option A) : outcome A :=
  match o with Some a => Ok a | None => Raise e end.

Fixpoint mapM {A B : Type} (f : A -> outcome B) (l : list A) : outcome (list B) :=
  match l with
  | [] => Ok []
  | x :: r => y <- f x ;; ys <- mapM f r ;; Ok (y :: ys)
  end.

(** ** Python string primitives *)

Module Py.

Definition chr (c : ascii) : string := String c EmptyString.

Definition len (s : string) : Z := Z.of_nat (String.length s).

(** [sub in s] *)
Fixpoint contains (sub s : string) : bool :=
  if prefix sub s then true
  else match s with
       | EmptyString => false
       | String _ r => contains sub r
       end.

Definition startswith (s p : string) : bool := prefix p s.

(** [s.find(sub)], with [-1] when [sub] does not occur. *)
Fixpoint find_from (sub s : string) (i : Z) : Z :=
  if prefix sub s then i
  else match s with
       | EmptyString => -1
       | String _ r => find_from sub r (i + 1)
       end.

Definition find (s sub : string) : Z := find_from sub s 0.

(** [s.rfind(c)] for a one-character [c]. *)
Fixpoint rfind_from (c : ascii) (s : string) (i : Z) (best : Z) : Z :=
  match s with
  | EmptyString => best
  | String a r => rfind_from c r (i + 1) (if Ascii.eqb a c then i else best)
  end.

Definition rfind (s : string) (c : ascii) : Z := rfind_from c s 0 (-1).

(** Slices [s[a:b]] with Python's treatment of negative and out-of-range
    bounds. *)
Definition norm_index (n i : Z) : Z :=
  if i <? 0 then Z.max 0 (i + n) else Z.min i n.

Definition slice (s : string) (a b : Z) : string :=
  let a' := norm_index (len s) a in
  let b' := norm_index (len s) b in
  substring (Z.to_nat a') (Z.to_nat (b' - a')) s.

Definition slice_from (s : string) (a : Z) : string := slice s a (len s).

(** [s[i]] for a non-negative [i]; [s[-1]]. *)
Definition first_char (s : string) : option ascii :=
  match s with EmptyString => None | String a _ => Some a end.

Fixpoint last_char (s : string) : option ascii :=
  match s with
  | EmptyString => None
  | String a EmptyString => Some a
  | String _ r => last_char r
  end.

Definition cons_hd (a : ascii) (l : list string) : list string :=
  match l with
  | h :: t => String a h :: t
  | [] => [chr a]
  end.

(** [s.split(sep)] for a non-empty separator: the occurrences are taken
    from the left and do not overlap; [skip] counts the characters of an
    occurrence still to be passed over. *)
Fixpoint split_go (sep : string) (skip : nat) (s : string) : list string :=
  match s with
  | EmptyString => [EmptyString]
  | String a r =>
      match skip with
      | S k => split_go sep k r
      | O => if prefix sep s
             then EmptyString :: split_go sep (String.length sep - 1) r
             else cons_hd a (split_go sep 0 r)
      end
  end.

Definition split (s sep : string) : list string := split_go sep 0 s.

(** [s.split(sep, 1)] *)
Definition split1 (s sep : string) : list string :=
  let i := find s sep in
  if i <? 0 then [s]
  else [slice s 0 i; slice_from s (i + len sep)].

(** [s.replace(old, new)] for a non-empty [old]. *)
Fixpoint replace_go (old new : string) (skip : nat) (s : string) : string :=
  match s with
  | EmptyString => EmptyString
  | String a r =>
      match skip with
      | S k => replace_go old new k r
      | O => if prefix old s
             then new ++ replace_go old new (String.length old - 1) r
             else String a (replace_go old new 0 r)
      end
  end.

Definition replace (s old new : string) : string := replace_go old new 0 s.

(** [sep.join(l)] *)
Fixpoint join (sep : string) (l : list string) : string :=
  match l with
  | [] => EmptyString
  | [x] => x
  | x :: r => x ++ sep ++ join sep r
  end.

(** White space of [str.strip()] and [str.split()]: the code points
    below 256 for which [str.isspace()] holds, U+0085 and U+00A0 among
    them. *)
Definition is_space (a : ascii) : bool :=
  let n := nat_of_ascii a in
  ((9 <=? n) && (n <=? 13) || (28 <=? n) && (n <=? 32)
   || (n =? 133) || (n =? 160))%nat.

(** White space that [int()] passes over at both ends of its argument:
    the separators U+001C to U+001F are not part of it. *)
Definition is_int_space (a : ascii) : bool :=
  let n := nat_of_ascii a in
  ((9 <=? n) && (n <=? 13) || (n =? 32) || (n =? 133) || (n =? 160))%nat.

Fixpoint lstrip_of (space : ascii -> bool) (s : string) : string :=
  match s with
  | String a r => if space a then lstrip_of space r else s
  | EmptyString => EmptyString
  end.

Fixpoint rstrip_of (space : ascii -> bool) (s : string) : string :=
  match s with
  | EmptyString => EmptyString
  | String a r =>
      match rstrip_of space r with
      | EmptyString => if space a then EmptyString else chr a
      | r' => String a r'
      end
  end.

Definition lstrip (s : string) : string := lstrip_of is_space s.

Definition rstrip (s : string) : string := rstrip_of is_space s.

Definition strip (s : string) : string := rstrip (lstrip s).

(** [s.split()] : runs of white space separate, no empty pieces. *)
Fixpoint split_ws_go (cur : option string) (s : string) : list string :=
  match s with
  | EmptyString => match cur with Some w => [w] | None => [] end
  | String a r =>
      if is_space a
      then match cur with
           | Some w => w :: split_ws_go None r
           | None => split_ws_go None r
           end
      else split_ws_go (Some (match cur with Some w => w ++ chr a | None => chr a end)) r
  end.

Definition split_ws (s : string) : list string := split_ws_go None s.

Definition is_digit (a : ascii) : bool :=
  let n := nat_of_ascii a in ((48 <=? n) && (n <=? 57))%nat.

Definition is_upper (a : ascii) : bool :=
  let n := nat_of_ascii a in ((65 <=? n) && (n <=? 90))%nat.

Definition is_lower (a : ascii) : bool :=
  let n := nat_of_ascii a in ((97 <=? n) && (n <=? 122))%nat.

Definition is_alpha (a : ascii) : bool := is_upper a || is_lower a.

Fixpoint map_chars (f : ascii -> ascii) (s : string) : string :=
  match s with
  | EmptyString => EmptyString
  | String a r => String (f a) (map_chars f r)
  end.

(** [s.lower()]: the letters A to Z and, of the code points from U+00C0
    to U+00DE, all but the multiplication sign have their lower-case form
    32 places on. *)
Definition lower_char (a : ascii) : ascii :=
  let n := nat_of_ascii a in
  if ((65 <=? n) && (n <=? 90)
      || (192 <=? n) && (n <=? 222) && negb (n =? 215))%nat
  then ascii_of_nat (n + 32) else a.

Definition lower (s : string) : string := map_chars lower_char s.

(** [s.upper()]: the sharp s becomes [SS]; the upper-case forms of the
    micro sign and of y with diaeresis are U+039C and U+0178, for which
    the result is [None]. *)
Fixpoint upper (s : string) : option string :=
  match s with
  | EmptyString => Some EmptyString
  | String a r =>
      let n := nat_of_ascii a in
      match upper r with
      | None => None
      | Some r' =>
          if ((n =? 181) || (n =? 255))%nat then None
          else if (n =? 223)%nat then Some (String "S" (String "S" r'))
          else if ((97 <=? n) && (n <=? 122)
                   || (224 <=? n) && (n <=? 254) && negb (n =? 247))%nat
               then Some (String (ascii_of_nat (n - 32)) r')
          else Some (String a r')
      end
  end.

Fixpoint all_chars (p : ascii -> bool) (s : string) : bool :=
  match s with
  | EmptyString => true
  | String a r => p a && all_chars p r
  end.

(** Value of a string of decimal digits. *)
Fixpoint digits_val (acc : Z) (s : string) : Z :=
  match s with
  | EmptyString => acc
  | String a r => digits_val (10 * acc + (Z.of_nat (nat_of_ascii a) - 48)) r
  end.

(** Digits with single underscores between them, as [int()] accepts;
    [prev] tells whether the previous character was a digit. *)
Fixpoint int_body (prev : bool) (acc : Z) (s : string) : option Z :=
  match s with
  | EmptyString => if prev then Some acc else None
  | String a r =>
      if is_digit a then int_body true (10 * acc + (Z.of_nat (nat_of_ascii a) - 48)) r
      else if Ascii.eqb a "_" then (if prev then int_body false acc r else None)
      else None
  end.

(** [int(s)] on a string: surrounding white space, an optional sign,
    decimal digits. *)
Definition int (s : string) : outcome Z :=
  let t := rstrip_of is_int_space (lstrip_of is_int_space s) in
  let '(sign, body) :=
    match t with
    | String "-" r => (-1, r)
    | String "+" r => (1, r)
    | _ => (1, t)
    end in
  match first_char body with
  | Some a => if is_digit a
              then match int_body false 0 body with
                   | Some v => Ok (sign * v)
                   | None => Raise ValueError
                   end
              else Raise ValueError
  | None => Raise ValueError
  end.

(** [str(n)] for an integer. *)
Definition str_int (z : Z) : string := NilZero.string_of_int (Z.to_int z).

(** Sequence unpacking and indexing. *)
Definition nth_or {A : Type} (e : exn) (l : list A) (i : nat) : outcome A :=
  of_option e (nth_error l i).

End Py.

(** ** Regular expressions written in the source

    The patterns that [depedit.py] hands to [re.match] only to learn
    whether they match are kept as syntax trees and run by a small
    matcher.  [run r s] lists what is left of [s] after each way of
    matching [r] at its start. *)

Module Rx.

Inductive rx : Type :=
| Lit (s : string)                 (* the characters of s *)
| Cls (p : ascii -> bool)          (* one character of a class *)
| Seq (r1 r2 : rx)
| Alt (r1 r2 : rx)
| Opt (r : rx)                     (* r? *)
| Star (r : rx)                    (* r* *)
| Plus (r : rx).                   (* r+ *)

Fixpoint drop (n : nat) (s : string) : string :=
  match n, s with
  | S k, String _ r => drop k r
  | _, _ => s
  end.

(** Zero or more rounds of [step], each of which must consume a
    character; at most [n] rounds. *)
Fixpoint rounds (step : string -> list string) (n : nat) (s : string)
  : list string :=
  s :: match n with
       | O => []
       | S k => flat_map
                  (fun t => if (String.length t <? String.length s)%nat
                            then rounds step k t else [])
                  (step s)
       end.

Fixpoint run (r : rx) : string -> list string :=
  match r with
  | Lit l => fun s => if prefix l s then [drop (String.length l) s] else []
  | Cls p => fun s => match s with
                      | String a t => if p a then [t] else []
                      | EmptyString => []
                      end
  | Seq r1 r2 => fun s => flat_map (run r2) (run r1 s)
  | Alt r1 r2 => fun s => (run r1 s ++ run r2 s)%list
  | Opt r1 => fun s => (run r1 s ++ [s])%list
  | Star r1 => fun s => rounds (run r1) (String.length s) s
  | Plus r1 => fun s =>
      flat_map (fun u => rounds (run r1) (String.length u) u) (run r1 s)
  end.

(** [re.match(r, s)] is not [None]. *)
Definition matches (r : rx) (s : string) : bool :=
  match run r s with [] => false | _ => true end.

(** [re.match(r + "$", s)] is not [None]: the end of the string, or the
    position before a final line feed. *)
Definition at_end (s : string) : bool :=
  match s with
  | EmptyString => true
  | String a EmptyString => Ascii.eqb a "010"
  | _ => false
  end.

Definition matches_end (r : rx) (s : string) : bool :=
  existsb at_end (run r s).

Definition one_of (l : list string) : rx :=
  fold_right (fun s r => Alt (Lit s) r) (Cls (fun _ => false)) l.

Definition digits : rx := Plus (Cls Py.is_digit).

Definition neither (l : list ascii) : rx :=
  Cls (fun a => negb (existsb (Ascii.eqb a) l)).

End Rx.

(** ** The classes of the module *)

(** [escape]: inside a region delimited by [border_marker], every
    [symbol_to_mask] becomes the placeholder of five percent signs. *)
Fixpoint escape_go (symbol_to_mask border_marker : ascii) (inside : bool)
         (s : string) : string :=
  match s with
  | EmptyString => EmptyString
  | String c r =>
      let inside' := if Ascii.eqb c border_marker then negb inside else inside in
      (if Ascii.eqb c symbol_to_mask && inside' then "%%%%%" else Py.chr c)
        ++ escape_go symbol_to_mask border_marker inside' r
  end.

Definition escape (s : string) (symbol_to_mask border_marker : ascii) : string :=
  escape_go symbol_to_mask border_marker false s.

(** A value that an attribute of a token holds: a string, a truth
    value, the empty list that the driver passes for [child_funcs] and
    nothing ever fills, or the [Sentence] that owns the token, which is
    the sentence of the store that holds the token. *)
Inductive pyvalue : Type :=
| PStr (s : string)
| PBool (b : bool)
| PNil
| PSentence.

(** [bool(v)] *)
Definition truthy (v : pyvalue) : bool :=
  match v with
  | PStr s => negb (s ==? EmptyString)
  | PBool b => b
  | PNil => false
  | PSentence => true
  end.

(** [v == w]: values of different kinds are never equal. *)
Definition py_eq (v w : pyvalue) : bool :=
  match v, w with
  | PStr s, PStr t => s ==? t
  | PBool a, PBool b => Bool.eqb a b
  | PNil, PNil => true
  | PSentence, PSentence => true
  | _, _ => false
  end.

(** [ParsedToken].  The attributes from [id] to [position] but for
    [child_funcs] always hold strings.  [sentence_] is the attribute
    [sentence], which the driver sets on every token it makes.  An
    action can put a string in the place of any attribute.  [extra]
    holds the attributes that [setattr] creates under other names. *)
Record ParsedToken : Type := {
  id : string;
  text : string;
  lemma : string;
  pos : string;
  cpos : string;
  morph : string;
  head : string;
  func : string;
  head2 : string;
  func2 : string;
  num : string;
  child_funcs : pyvalue;
  position : string;
  is_super_tok : pyvalue;
  sentence_ : pyvalue;
  extra : list (string * string)
}.

(** [Sentence]: the constructor ignores its [sent_num] argument and
    stores 0.  [annotations] keeps the insertion order of the
    dictionary. *)
Record Sentence : Type := {
  sentence_string : string;
  length : Z;
  annotations : list (string * string);
  sent_num : Z
}.

Definition Sentence_init (sentence_string : string) (sent_num : Z) : Sentence :=
  {| sentence_string := sentence_string;
     length := 0;
     annotations := [];
     sent_num := 0 |}.

Definition print_annos (s : Sentence) : list string :=
  map (fun kv => "# " ++ fst kv ++ "=" ++ snd kv) (annotations s).

Definition ALIASES : list (string * string) :=
  [("form", "text"); ("upostag", "pos"); ("xpostag", "cpos"); ("feats", "morph");
   ("deprel", "func"); ("deps", "head2"); ("misc", "func2")].

Fixpoint dict_get {V : Type} (d : list (string * V)) (k : string) : option V :=
  match d with
  | [] => None
  | (k', v) :: r => if String.eqb k' k then Some v else dict_get r k
  end.

(** [d[k] = v]: an existing key keeps its place. *)
Fixpoint dict_set {V : Type} (d : list (string * V)) (k : string) (v : V)
  : list (string * V) :=
  match d with
  | [] => [(k, v)]
  | (k', v') :: r => if String.eqb k' k then (k', v) :: r
                     else (k', v') :: dict_set r k v
  end.

(** The names under which every object answers without having been
    given an attribute: they begin and end with two underscores. *)
Definition special_name (name : string) : bool :=
  Py.startswith name "__" && (Py.slice name (-2) (Py.len name) ==? "__").

(** [getattr(token, name)].  A name that was never set raises
    [AttributeError]; for a special name the model gives no answer. *)
Definition getattr (t : ParsedToken) (name : string) : outcome pyvalue :=
  if name ==? "id" then Ok (PStr (id t))
  else if name ==? "text" then Ok (PStr (text t))
  else if name ==? "lemma" then Ok (PStr (lemma t))
  else if name ==? "pos" then Ok (PStr (pos t))
  else if name ==? "cpos" then Ok (PStr (cpos t))
  else if name ==? "morph" then Ok (PStr (morph t))
  else if name ==? "head" then Ok (PStr (head t))
  else if name ==? "func" then Ok (PStr (func t))
  else if name ==? "head2" then Ok (PStr (head2 t))
  else if name ==? "func2" then Ok (PStr (func2 t))
  else if name ==? "num" then Ok (PStr (num t))
  else if name ==? "child_funcs" then Ok (child_funcs t)
  else if name ==? "position" then Ok (PStr (position t))
  else if name ==? "is_super_tok" then Ok (is_super_tok t)
  else if name ==? "sentence" then Ok (sentence_ t)
  else match dict_get (extra t) name with
       | Some v => Ok (PStr v)
       | None => if special_name name then Raise Unsupported
                 else Raise AttributeError
       end.

Definition attribute_names : list string :=
  ["id"; "text"; "lemma"; "pos"; "cpos"; "morph"; "head"; "func"; "head2";
   "func2"; "num"; "child_funcs"; "position"; "is_super_tok"; "sentence"].

Definition pick (field name v old : string) : string :=
  if name ==? field then v else old.

Definition pick_value (field name v : string) (old : pyvalue) : pyvalue :=
  if name ==? field then PStr v else old.

(** [setattr(token, name, value)] for a string [value].  The class and
    the dictionary of an object take no string, and [__weakref__] cannot
    be written; every other name is set. *)
Definition setattr (t : ParsedToken) (name v : string) : outcome ParsedToken :=
  if (name ==? "__class__") || (name ==? "__dict__") then Raise TypeError
  else if name ==? "__weakref__" then Raise AttributeError
  else Ok {| id := pick "id" name v (id t);
             text := pick "text" name v (text t);
             lemma := pick "lemma" name v (lemma t);
             pos := pick "pos" name v (pos t);
             cpos := pick "cpos" name v (cpos t);
             morph := pick "morph" name v (morph t);
             head := pick "head" name v (head t);
             func := pick "func" name v (func t);
             head2 := pick "head2" name v (head2 t);
             func2 := pick "func2" name v (func2 t);
             num := pick "num" name v (num t);
             child_funcs := pick_value "child_funcs" name v (child_funcs t);
             position := pick "position" name v (position t);
             is_super_tok := pick_value "is_super_tok" name v (is_super_tok t);
             sentence_ := pick_value "sentence" name v (sentence_ t);
             extra := if existsb (String.eqb name) attribute_names then extra t
                      else dict_set (extra t) name v |}.

(** *** The [re] module

    [groups_t] is the tuple that [match.groups()] returns: a group that
    took no part in the match is [None].  A compiled pattern is known by
    its [search].  [re_compile] is [re.compile], which raises [re.error],
    here [ReError]; [re_sub pattern repl s] is [re.sub]. *)
Definition groups_t : Type := list (option string).

Definition compiled : Type := string -> option groups_t.

Record ReLib : Type := {
  re_escape : string -> string;
  re_compile : string -> outcome compiled;
  re_sub : string -> string -> string -> outcome string
}.

Inductive match_func_t : Type :=
| return_exact | return_exact_negative | return_regex | return_regex_negative
| return_true.

(** [Definition]: one field test of a node clause. *)
Record Definition_ : Type := {
  criterion : string;
  value : string;
  negative : bool;
  compiled_re : option compiled;
  match_func : match_func_t
}.

Section Compiler.

Variable re : ReLib.

Definition set_match_type (criterion value0 : string) (negative : bool)
  : outcome Definition_ :=
  let value := Py.slice value0 1 (-1) in
  if (value0 ==? "^.*$") && negb negative then
    Ok {| criterion := criterion; value := value0; negative := negative;
          compiled_re := None; match_func := return_true |}
  else if re_escape re value ==? value then
    Ok {| criterion := criterion; value := value; negative := negative;
          compiled_re := None;
          match_func := if negative then return_exact_negative else return_exact |}
  else
    c <- re_compile re value0 ;;
    Ok {| criterion := criterion; value := value0; negative := negative;
          compiled_re := Some c;
          match_func := if negative then return_regex_negative else return_regex |}.

Definition Definition_init (criterion value : string) (negative : bool)
  : outcome Definition_ :=
  set_match_type
    (match dict_get ALIASES criterion with Some c => c | None => criterion end)
    value negative.

(** [DefinitionMatcher]; the attribute [groups] is the second component
    of what [DefinitionMatcher_match] returns. *)
Record DefinitionMatcher : Type := {
  def_text : string;
  def_index : Z;
  defs : list Definition_
}.

(** The body of the loop of [DefinitionMatcher.__init__]. *)
Definition parse_def_item (def_item0 : string) : outcome Definition_ :=
  let def_item := Py.replace def_item0 "%%%%%" "&" in
  criterion <- Py.nth_or IndexError (Py.split1 def_item "=") 0 ;;
  c_last <- of_option IndexError (Py.last_char criterion) ;;
  let negative_criterion := Ascii.eqb c_last "!" in
  let criterion := if negative_criterion then Py.slice criterion 0 (-1) else criterion in
  rhs <- Py.nth_or IndexError (Py.split1 def_item "=") 1 ;;
  let def_value := Py.slice rhs 1 (-1) in
  c0 <- of_option IndexError (Py.first_char def_value) ;;
  let def_value := if negb (Ascii.eqb c0 "^") then "^" ++ def_value else def_value in
  c1 <- of_option IndexError (Py.last_char def_value) ;;
  let def_value := if negb (Ascii.eqb c1 "$") then def_value ++ "$" else def_value in
  Definition_init criterion def_value negative_criterion.

Definition DefinitionMatcher_init (def_text0 : string) (def_index : Z)
  : outcome DefinitionMatcher :=
  let def_text := escape def_text0 "&" "/" in
  defs <- mapM parse_def_item (Py.split def_text "&") ;;
  Ok {| def_text := def_text; def_index := def_index; defs := defs |}.

End Compiler.

(** What a [match_func] returns: a false value, [True], or a match
    object with its groups. *)
Inductive match_result : Type :=
| MFalse | MTrue | MObj (g : groups_t).

(** [compiled_re.search(test_val)], which takes a string only. *)
Definition search (c : compiled) (test_val : pyvalue) : outcome (option groups_t) :=
  match test_val with
  | PStr s => Ok (c s)
  | _ => Raise TypeError
  end.

Definition apply_match_func (d : Definition_) (test_val : pyvalue)
  : outcome match_result :=
  match match_func d with
  | return_exact => Ok (if py_eq test_val (PStr (value d)) then MTrue else MFalse)
  | return_exact_negative => Ok (if py_eq test_val (PStr (value d)) then MFalse else MTrue)
  | return_regex =>
      c <- of_option AttributeError (compiled_re d) ;;
      m <- search c test_val ;;
      Ok (match m with Some g => MObj g | None => MFalse end)
  | return_regex_negative =>
      c <- of_option AttributeError (compiled_re d) ;;
      m <- search c test_val ;;
      Ok (match m with Some _ => MFalse | None => MTrue end)
  | return_true => Ok MTrue
  end.

(** [DefinitionMatcher.match]: [None] for [False], otherwise the groups
    left in [self.groups]. *)
Fixpoint match_defs (ds : list Definition_) (token : ParsedToken)
         (potential_groups : list groups_t) : outcome (option (list groups_t)) :=
  match ds with
  | [] => Ok (Some potential_groups)
  | def_item :: r =>
      tok_value <- getattr token (criterion def_item) ;;
      match_obj <- apply_match_func def_item tok_value ;;
      match match_obj with
      | MFalse => Ok None
      | MTrue => match_defs r token potential_groups
      | MObj groups =>
          match_defs r token
            (match groups with
             | [] => potential_groups
             | _ => potential_groups ++ [groups]
             end)%list
      end
  end.

Definition DefinitionMatcher_match (m : DefinitionMatcher) (token : ParsedToken)
  : outcome (option (list groups_t)) :=
  match_defs (defs m) token [].

(** *** [Transformation] *)

(** The longest run of digits at the start of [s], and the rest. *)
Fixpoint scan_digits (s : string) : string * string :=
  match s with
  | String a r =>
      if Py.is_digit a
      then let '(d, rest) := scan_digits r in (String a d, rest)
      else (EmptyString, s)
  | EmptyString => (EmptyString, EmptyString)
  end.

(** [#[0-9]+] at the start of [s]. *)
Definition scan_node (s : string) : option (string * string) :=
  match s with
  | String "#" r =>
      match scan_digits r with
      | (EmptyString, _) => None
      | (d, rest) => Some (String "#" d, rest)
      end
  | _ => None
  end.

(** [>|\.(?:[0-9]+(?:,[0-9]+)?)?] at the start of [s]. *)
Definition scan_op (s : string) : option (string * string) :=
  match s with
  | String ">" r => Some (">", r)
  | String "." r =>
      match scan_digits r with
      | (EmptyString, _) => Some (".", r)
      | (d, rest) =>
          match rest with
          | String "," r2 =>
              match scan_digits r2 with
              | (EmptyString, _) => Some (String "." d, rest)
              | (d2, rest2) => Some (String "." d ++ "," ++ d2, rest2)
              end
          | _ => Some (String "." d, rest)
          end
      end
  | _ => None
  end.

(** One match of the chain pattern of [normalize_shorthand] at the start
    of [s]: its replacement [\1\2\3;\3\4] and the length of the match. *)
Definition try_chain (s : string) : option (string * nat) :=
  match scan_node s with
  | Some (g1, s1) =>
      match scan_op s1 with
      | Some (g2, s2) =>
          match scan_node s2 with
          | Some (g3, s3) =>
              match scan_op s3 with
              | Some (g4, _) =>
                  Some (g1 ++ g2 ++ g3 ++ ";" ++ g3 ++ g4,
                        (String.length g1 + String.length g2
                         + String.length g3 + String.length g4)%nat)
              | None => None
              end
          | None => None
          end
      | None => None
      end
  | None => None
  end.

(** One [re.sub] of the chain pattern over the whole string. *)
Fixpoint chain_sub_go (skip : nat) (s : string) : string :=
  match s with
  | EmptyString => EmptyString
  | String a r =>
      match skip with
      | S k => chain_sub_go k r
      | O => match try_chain s with
             | Some (repl, n) => repl ++ chain_sub_go (n - 1) r
             | None => String a (chain_sub_go 0 r)
             end
      end
  end.

Definition chain_sub (s : string) : string := chain_sub_go 0 s.

(** The [while temp != criterion_string] loop; [None] when the bound on
    the number of rounds is reached before a fixed point. *)
Fixpoint normalize_loop (fuel : nat) (criterion_string : string) : option string :=
  match fuel with
  | O => None
  | S f =>
      let next := chain_sub criterion_string in
      if next ==? criterion_string then Some criterion_string
      else normalize_loop f next
  end.

Definition normalize_shorthand (criterion_string : string) : option string :=
  let s := Py.replace criterion_string ".*" ".1,1000" in
  normalize_loop (S (String.length s)) s.

Definition handle_aliases (orig_action : string) : string :=
  fold_left
    (fun act st => Py.replace act (":" ++ fst st ++ "=") (":" ++ snd st ++ "="))
    ALIASES orig_action.

Record Transformation : Type := {
  definitions : list DefinitionMatcher;
  relations : list string;
  actions : list string;
  line : string
}.

Section Rules.

Variable re : ReLib.

Fixpoint build_definitions (l : list string) (def_index : Z)
  : outcome (list DefinitionMatcher) :=
  match l with
  | [] => Ok []
  | esc_string :: r =>
      d <- DefinitionMatcher_init re esc_string def_index ;;
      ds <- build_definitions r (def_index + 1) ;;
      Ok (d :: ds)
  end.

(** [parse_transformation]: [None] when the text has fewer than three
    tab-separated segments; unpacking more than three raises. *)
Definition parse_transformation (transformation_text : string)
  : outcome (option (list DefinitionMatcher * list string * list string)) :=
  match Py.split transformation_text (Py.chr "009") with
  | [definition_string; relation_string; action_string] =>
      relation_string <- of_option Unsupported (normalize_shorthand relation_string) ;;
      action_string <- of_option Unsupported (normalize_shorthand action_string) ;;
      let definition_string := escape definition_string ";" "/" in
      let escaped_definitions :=
        map (fun _def => Py.replace _def "%%%%%" ";") (Py.split definition_string ";") in
      definitions <- build_definitions escaped_definitions 1 ;;
      let relations := Py.split relation_string ";" in
      let actions := Py.split (Py.strip action_string) ";" in
      Ok (Some (definitions, relations, map handle_aliases actions))
  | [] | [_] | [_; _] => Ok None
  | _ => Raise ValueError
  end.

Definition malformed_instruction (line : string) : string :=
  "Depedit says: error in configuration file" ++ Py.chr "010"
  ++ "Malformed instruction on line " ++ line
  ++ " (instruction lines must contain exactly two tabs)".

Definition Transformation_init (transformation_text line : string)
  : outcome Transformation :=
  instructions <- parse_transformation transformation_text ;;
  match instructions with
  | None => Exit (malformed_instruction line)
  | Some (definitions, relations, actions) =>
      Ok {| definitions := definitions; relations := relations;
            actions := actions; line := line |}
  end.

End Rules.

(** *** [Transformation.validate] *)

Definition node_fields : list string :=
  ["text"; "pos"; "cpos"; "lemma"; "morph"; "func"; "head"; "func2"; "head2";
   "num"; "form"; "upostag"; "xpostag"; "feats"; "deprel"; "deps"; "misc"].

Definition action_fields : list string :=
  ["func"; "lemma"; "text"; "pos"; "cpos"; "morph"; "head"; "head2"; "func2";
   "num"; "form"; "upostag"; "xpostag"; "feats"; "deprel"; "deps"; "misc"].

Import Rx.

(** [(fields)!?=/[^/=]*/] *)
Definition rx_node_field : rx :=
  Seq (one_of node_fields)
      (Seq (Opt (Lit "!")) (Seq (Lit "=/") (Seq (Star (neither ["/"; "="]%char)) (Lit "/")))).

(** [position!?=/(first|last|mid)/] *)
Definition rx_node_position : rx :=
  Seq (Lit "position")
      (Seq (Opt (Lit "!")) (Seq (Lit "=/") (Seq (one_of ["first"; "last"; "mid"]) (Lit "/")))).

Definition rx_hash_num : rx := Seq (Lit "#") digits.

(** [>|\.([0-9]+(,[0-9]+)?)?] *)
Definition rx_operator : rx :=
  Alt (Lit ">") (Seq (Lit ".") (Opt (Seq digits (Opt (Seq (Lit ",") digits))))).

(** [(#[0-9]+((op)#[0-9]+)+|#[0-9]+:(fields)==#[0-9]+)] *)
Definition rx_relation : rx :=
  Alt (Seq rx_hash_num (Plus (Seq rx_operator rx_hash_num)))
      (Seq rx_hash_num (Seq (Lit ":") (Seq (one_of node_fields) (Seq (Lit "==") rx_hash_num)))).

(** [(#[0-9]+>#[0-9]+|#[0-9]+:(fields)=V)$] where [V] is [[^;]] starred *)
Definition rx_node_action : rx :=
  Alt (Seq rx_hash_num (Seq (Lit ">") rx_hash_num))
      (Seq rx_hash_num (Seq (Lit ":") (Seq (one_of action_fields)
                                           (Seq (Lit "=") (Star (neither [";"]%char)))))).

Definition is_ident_char (a : ascii) : bool := Py.is_alpha a || Ascii.eqb a "_".

(** [#S:[A-Za-z_]+=[A-Za-z_]+$|last$] *)
Definition rx_sentence_action : rx :=
  Alt (Seq (Lit "#S:") (Seq (Plus (Cls is_ident_char))
                            (Seq (Lit "=") (Plus (Cls is_ident_char)))))
      (Lit "last").

Definition concat_str (l : list string) : string := fold_right append EmptyString l.

Definition validate_definition (definition : DefinitionMatcher) : string :=
  let node := escape (def_text definition) "&" "/" in
  let criteria := map (fun _crit => Py.replace _crit "%%%%%" "&") (Py.split node "&") in
  concat_str
    (map (fun criterion =>
            if negb (matches rx_node_field criterion)
               && negb (matches rx_node_position criterion)
            then "Invalid node definition in column 1: " ++ criterion
            else EmptyString) criteria).

Definition validate_relation (t : Transformation) (relation : string) : string :=
  if (relation ==? "none") && (List.length (relations t) =? 1)%nat then
    if (1 <? List.length (definitions t))%nat
    then "Column 2 setting 'none' invalid with more than one definition in column 1"
    else EmptyString
  else if relation ==? "none" then
    "Setting 'none' invalid in column 2 when multiple relations are defined"
  else
    concat_str
      (map (fun criterion0 =>
              let criterion := Py.strip criterion0 in
              if negb (matches rx_relation criterion)
              then "Column 2 relation setting invalid criterion: " ++ criterion ++ "."
              else EmptyString) (Py.split relation ";")).

Definition validate_action (action : string) : string :=
  concat_str
    (map (fun command =>
            if negb (matches_end rx_node_action command)
               && negb (matches_end rx_sentence_action command)
            then "Column 3 invalid action definition: " ++ command
                 ++ " and the action was " ++ action
            else EmptyString) (Py.split action ";")).

Definition validate (t : Transformation) : string :=
  concat_str (map validate_definition (definitions t))
  ++ concat_str (map (validate_relation t) (relations t))
  ++ concat_str (map validate_action (actions t)).

(** *** [DepEdit.read_config_file] *)

(** The filter of the list comprehension: the line is not blank and is
    not a comment. *)
Definition is_instruction (instruction : string) : bool :=
  negb (Py.strip instruction ==? EmptyString)
  && negb (Py.startswith instruction ";" || Py.startswith instruction "#").

Section Config.

Variable re : ReLib.

(** The list comprehension that builds a [Transformation] for every
    line that is neither blank nor a comment; lines count from 1. *)
Fixpoint load_instructions (config_file : list string) (line_num : Z)
  : outcome (list Transformation) :=
  match config_file with
  | [] => Ok []
  | instruction :: r =>
      if is_instruction instruction
      then t <- Transformation_init re instruction (Py.str_int line_num) ;;
           ts <- load_instructions r (line_num + 1) ;;
           Ok (t :: ts)
      else load_instructions r (line_num + 1)
  end.

Definition line_report (t : Transformation) : string :=
  let temp_report := validate t in
  if temp_report ==? EmptyString then EmptyString
  else "On line " ++ line t ++ ": " ++ temp_report.

Definition trans_report (ts : list Transformation) : string :=
  concat_str (map line_report ts).

Definition config_error (report : string) : string :=
  "Depedit says: error in configuration file" ++ Py.chr "010" ++ Py.chr "010" ++ report.

(** [read_config_file] on the lines of the file; the result is the new
    value of [self.transformations]. *)
Definition read_config_file (transformations : list Transformation)
           (config_file : list string) (clear_transformations : bool)
  : outcome (list Transformation) :=
  let transformations := if clear_transformations then [] else transformations in
  loaded <- load_instructions config_file 1 ;;
  let transformations := (transformations ++ loaded)%list in
  let report := trans_report transformations in
  if report ==? EmptyString then Ok transformations
  else Exit (config_error report).

End Config.

(** ** The engine *)

(** [Match]: a token that a node definition accepted.  A [Match] object
    is created once for each pair of a definition and a token, so the
    pair stands for the identity of the object. *)
Record Match : Type := {
  m_def_index : Z;
  m_token : nat;
  m_groups : list groups_t
}.

Definition Match_is (a b : Match) : bool :=
  (m_def_index a =? m_def_index b) && (m_token a =? m_token b)%nat.

Fixpoint list_eqb {A : Type} (eqb : A -> A -> bool) (l1 l2 : list A) : bool :=
  match l1, l2 with
  | [], [] => true
  | x :: r1, y :: r2 => eqb x y && list_eqb eqb r1 r2
  | _, _ => false
  end.

(** Dictionaries with integer keys, in insertion order: the candidate
    lists of the nodes and the node part of a binding. *)
Fixpoint int_get {V : Type} (d : list (Z * V)) (k : Z) : option V :=
  match d with
  | [] => None
  | (k', v) :: r => if k' =? k then Some v else int_get r k
  end.

Fixpoint int_set {V : Type} (d : list (Z * V)) (k : Z) (v : V) : list (Z * V) :=
  match d with
  | [] => [(k, v)]
  | (k', v') :: r => if k' =? k then (k', v) :: r else (k', v') :: int_set r k v
  end.

(** [node_matches[k]] of the [defaultdict]. *)
Definition nm_get (node_matches : list (Z * list Match)) (k : Z) : list Match :=
  match int_get node_matches k with Some l => l | None => [] end.

(** An entry of [result_sets]: the dictionary with the node keys, ["rel"]
    and ["matchers"]. *)
Record ResultSet : Type := {
  rs_nodes : list (Z * nat);
  rs_rel : string;
  rs_matchers : list Match
}.

(** *** The [float] type

    [float_of_str] is [float(s)], which raises [ValueError];
    [int_of_float] is [int(x)], which raises on infinities and NaN;
    [str_of_float] is [str(x)], which always returns: an instance of the
    library that does not know the text of a number gives no answer. *)
Record NumLib : Type := {
  float_t : Type;
  float_of_str : string -> outcome float_t;
  float_add_int : float_t -> Z -> float_t;
  float_sub_int : float_t -> Z -> float_t;
  str_of_float : float_t -> outcome string;
  int_of_float : float_t -> outcome Z
}.

Definition is_newline (a : ascii) : bool := Ascii.eqb a "010".

(** [re.search(r':(.+)==', relation)]: the first colon of the string
    that has, on its line and at least one character later, a doubled
    equals sign; the last such sign ends the match.  The result is
    [(m.group(), m.group(1))]. *)
Fixpoint last_eqeq (s : string) (i : nat) : option nat :=
  match s with
  | EmptyString => None
  | String a r =>
      if is_newline a then None
      else match last_eqeq r (S i) with
           | Some q => Some q
           | None => if (1 <=? i)%nat && prefix "==" s then Some i else None
           end
  end.

Fixpoint search_colon_eqeq (s : string) : option (string * string) :=
  match s with
  | EmptyString => None
  | String a r =>
      match (if Ascii.eqb a ":" then last_eqeq r 0 else None) with
      | Some q => let g1 := substring 0 q r in Some (":" ++ g1 ++ "==", g1)
      | None => search_colon_eqeq r
      end
  end.

(** [re.match(r'.*\.[0-9]', relation)] is not [None]. *)
Fixpoint has_dot_digit (s : string) : bool :=
  match s with
  | EmptyString => false
  | String a r =>
      if is_newline a then false
      else (Ascii.eqb a "." && match r with
                               | String b _ => Py.is_digit b
                               | EmptyString => false
                               end)
           || has_dot_digit r
  end.

(** What follows the dot in [\.[0-9]*,?[0-9]*#]: the number of
    characters up to and including the hash sign. *)
Definition after_dot (s : string) : option nat :=
  let '(d1, r1) := scan_digits s in
  let '(c, r2) := match r1 with String "," t => (1%nat, t) | _ => (0%nat, r1) end in
  let '(d2, r3) := scan_digits r2 in
  match r3 with
  | String "#" _ => Some (String.length d1 + c + String.length d2 + 1)%nat
  | _ => None
  end.

(** [re.match(r'.*\.[0-9]*,?[0-9]*#', relation)]: the length of
    [m.group()], which ends after the hash sign that follows the last
    dot of the first line for which the pattern matches. *)
Fixpoint dot_match_end (s : string) (i : nat) : option nat :=
  match s with
  | EmptyString => None
  | String a r =>
      if is_newline a then None
      else match dot_match_end r (S i) with
           | Some e => Some e
           | None =>
               if Ascii.eqb a "." then
                 match after_dot r with
                 | Some k => Some (i + 1 + k)%nat
                 | None => None
                 end
               else None
           end
  end.

(** The first part of [matches_relation]: [operator] and [field]. *)
Definition relation_operator (relation : string)
  : outcome (option string * option string) :=
  if Py.contains "==" relation then
    '(op, field) <- of_option AttributeError (search_colon_eqeq relation) ;;
    Ok (Some op, Some field)
  else if Py.contains "." relation then
    if has_dot_digit relation then
      e <- of_option AttributeError (dot_match_end relation 0) ;;
      let operator := substring 0 e relation in
      Ok (Some (Py.slice operator (Py.find operator ".") (Py.rfind operator "#")), None)
    else Ok (Some ".", None)
  else if Py.contains ">" relation then Ok (Some ">", None)
  else Ok (None, None).

(** [relation.split(operator)] *)
Definition split_by (relation : string) (operator : option string)
  : outcome (list string) :=
  match operator with
  | None => Ok (Py.split_ws relation)
  | Some EmptyString => Raise ValueError
  | Some op => Ok (Py.split relation op)
  end.

Definition node_number (node : string) : outcome Z :=
  Py.int (Py.replace node "#" EmptyString).

(** [\.([0-9]+)(,[0-9]+)?] at the start of [operator]: groups 1 and 2. *)
Definition parse_distance (operator : string) : option (string * option string) :=
  match operator with
  | String "." r =>
      match scan_digits r with
      | (EmptyString, _) => None
      | (d, rest) =>
          match rest with
          | String "," r2 =>
              match scan_digits r2 with
              | (EmptyString, _) => Some (d, None)
              | (d2, _) => Some (d, Some (String "," d2))
              end
          | _ => Some (d, None)
          end
      end
  | _ => None
  end.

Section Relations.

Variable fl : NumLib.

(** [int(float(s))] *)
Definition int_float (s : string) : outcome Z :=
  f <- float_of_str fl s ;;
  int_of_float fl f.

(** [test_relation].  Both groups of the distance pattern always exist,
    so the branch for a single group is never taken. *)
Definition test_relation (node1 node2 : ParsedToken) (operator : option string)
  : outcome bool :=
  match operator with
  | None => Raise TypeError
  | Some operator =>
      if operator ==? "." then
        i2 <- int_float (id node2) ;;
        i1 <- int_float (id node1) ;;
        Ok (i2 =? i1 + 1)
      else if operator ==? ">" then
        h2 <- int_float (head node2) ;;
        i1 <- int_float (id node1) ;;
        Ok (h2 =? i1)
      else if Py.contains "." operator then
        '(g1, g2) <- of_option AttributeError (parse_distance operator) ;;
        min_dist <- Py.int g1 ;;
        max_dist <- match g2 with
                    | Some g => Py.int (Py.replace g "," EmptyString)
                    | None => Ok min_dist
                    end ;;
        i2 <- int_float (id node2) ;;
        i1 <- int_float (id node1) ;;
        Ok ((i2 - i1 <=? max_dist) && (min_dist <=? i2 - i1))
      else
        val1 <- getattr node1 operator ;;
        val2 <- getattr node2 operator ;;
        Ok (py_eq val1 val2)
  end.

End Relations.

Fixpoint foldM {A S : Type} (f : S -> A -> outcome S) (l : list A) (s : S)
  : outcome S :=
  match l with
  | [] => Ok s
  | x :: r => s' <- f s x ;; foldM f r s'
  end.

(** The state of one sentence: its tokens, and the owning [Sentence]
    that all of them point to. *)
Record store : Type := {
  tokens : list ParsedToken;
  sentence : Sentence
}.

Definition token_at (toks : list ParsedToken) (i : nat) : outcome ParsedToken :=
  of_option IndexError (nth_error toks i).

Section Matching.

Variable fl : NumLib.

Definition matches_add (matches : list (Z * list nat)) (node : Z) (tok : nat)
  : list (Z * list nat) :=
  int_set matches node
          (match int_get matches node with Some l => l | None => [] end ++ [tok])%list.

(** The two nested loops over the candidates of [node1] and [node2]:
    the bindings found and the [matches] dictionary. *)
Definition relate_pairs (toks : list ParsedToken) (node_matches : list (Z * list Match))
           (relation : string) (node1 node2 : Z) (operator : option string)
  : outcome (list ResultSet * list (Z * list nat)) :=
  foldM
    (fun acc matcher1 =>
       foldM
         (fun acc matcher2 =>
            let '(found, matches) := acc in
            tok1 <- token_at toks (m_token matcher1) ;;
            tok2 <- token_at toks (m_token matcher2) ;;
            b <- test_relation fl tok1 tok2 operator ;;
            if b : bool then
              Ok ((found ++ [{| rs_nodes := int_set [(node1, m_token matcher1)]
                                                    node2 (m_token matcher2);
                                rs_rel := relation;
                                rs_matchers := [matcher1; matcher2] |}])%list,
                  matches_add (matches_add matches node1 (m_token matcher1))
                              node2 (m_token matcher2))
            else Ok acc)
         (nm_get node_matches node2) acc)
    (nm_get node_matches node1) ([], []).

(** Removal from [node_matches[option]] of the candidates whose token
    took part in no binding. *)
Definition prune_node (node_matches : list (Z * list Match))
           (matches : list (Z * list nat)) (option : Z) : list (Z * list Match) :=
  int_set node_matches option
    (filter (fun matcher =>
               existsb (Nat.eqb (m_token matcher))
                       (match int_get matches option with Some l => l | None => [] end))
            (nm_get node_matches option)).

Definition relate (toks : list ParsedToken) (node_matches : list (Z * list Match))
           (relation : string) (result_sets : list ResultSet)
           (node1 node2 : Z) (operator : option string)
  : outcome (bool * list (Z * list Match) * list ResultSet) :=
  '(found, matches) <- relate_pairs toks node_matches relation node1 node2 operator ;;
  let node_matches := prune_node (prune_node node_matches matches node1) matches node2 in
  Ok (negb (List.length found =? 0)%nat, node_matches, (result_sets ++ found)%list).

(** The node numbers of a binary relation and the operator that
    [test_relation] receives: the two branches of [matches_relation]
    for relations other than ["none"]. *)
Definition relation_nodes (relation : string) (operator field : option string)
  : outcome (Z * Z * option string) :=
  if Py.contains "==" relation then
    pieces <- split_by relation operator ;;
    node1 <- Py.nth_or IndexError pieces 0 ;;
    node2 <- Py.nth_or IndexError pieces 1 ;;
    node1 <- node_number node1 ;;
    node2 <- node_number node2 ;;
    Ok (node1, node2, field)
  else
    pieces <- split_by relation operator ;;
    nodes <- mapM node_number pieces ;;
    match nodes with
    | [node1; node2] => Ok (node1, node2, operator)
    | _ => Raise ValueError
    end.

(** [matches_relation]: whether the relation had a hit, the pruned
    [node_matches] and the extended [result_sets]. *)
Definition matches_relation (toks : list ParsedToken)
           (node_matches : list (Z * list Match)) (relation : string)
           (result_sets : list ResultSet)
  : outcome (bool * list (Z * list Match) * list ResultSet) :=
  if relation ==? EmptyString then Ok (false, node_matches, result_sets)
  else
    '(operator, field) <- relation_operator relation ;;
    if relation ==? "none" then
      let node1 := 1 in
      let found :=
        map (fun matcher1 => {| rs_nodes := [(node1, m_token matcher1)];
                                rs_rel := relation;
                                rs_matchers := [matcher1] |})
            (nm_get node_matches node1) in
      Ok (negb (List.length found =? 0)%nat, node_matches, (result_sets ++ found)%list)
    else
      '(node1, node2, operator) <- relation_nodes relation operator field ;;
      relate toks node_matches relation result_sets node1 node2 operator.

(** The loop over the relations in [process_sentence]: a relation
    without a hit empties [result_sets], and the loop goes on.  The
    result is the state of [node_matches] and [result_sets] after the
    loop. *)
Fixpoint relations_loop (toks : list ParsedToken)
         (node_matches : list (Z * list Match)) (relations : list string)
         (result_sets : list ResultSet)
  : outcome (list (Z * list Match) * list ResultSet) :=
  match relations with
  | [] => Ok (node_matches, result_sets)
  | relation :: r =>
      '(hit, node_matches, result_sets) <-
         matches_relation toks node_matches relation result_sets ;;
      relations_loop toks node_matches r (if hit : bool then result_sets else [])
  end.

(** The candidates of one definition among the tokens from position [i]
    on. *)
Fixpoint candidates (def_matcher : DefinitionMatcher) (toks : list ParsedToken)
         (i : nat) : outcome (list Match) :=
  match toks with
  | [] => Ok []
  | token :: r =>
      if truthy (is_super_tok token) then candidates def_matcher r (S i)
      else
        m <- DefinitionMatcher_match def_matcher token ;;
        ms <- candidates def_matcher r (S i) ;;
        match m with
        | Some groups =>
            Ok ({| m_def_index := def_index def_matcher; m_token := i;
                   m_groups := groups |} :: ms)
        | None => Ok ms
        end
  end.

Fixpoint collect_node_matches (definitions : list DefinitionMatcher)
         (toks : list ParsedToken) (node_matches : list (Z * list Match))
  : outcome (list (Z * list Match)) :=
  match definitions with
  | [] => Ok node_matches
  | def_matcher :: r =>
      ms <- candidates def_matcher toks 0 ;;
      collect_node_matches r toks
        (match ms with
         | [] => node_matches
         | _ => int_set node_matches (def_index def_matcher)
                        (nm_get node_matches (def_index def_matcher) ++ ms)%list
         end)
  end.

End Matching.

(** *** [merge_sets]

    While the bins are grown, the list under ["matchers"] is shared
    between a bin and every bin copied from it, and [merge_bins] appends
    to it in place.  The lists therefore live in a heap and a bin holds
    a reference.  Every bin owns its ["rels"] list. *)
Record bin : Type := {
  b_nodes : list (Z * nat);
  b_rels : list string;
  b_matchers : nat
}.

Definition heap_get (h : list (list Match)) (r : nat) : list Match := nth r h [].

Fixpoint heap_set (h : list (list Match)) (r : nat) (l : list Match)
  : list (list Match) :=
  match h, r with
  | [], _ => []
  | _ :: t, O => l :: t
  | x :: t, S k => x :: heap_set t k l
  end.

Definition has_key {V : Type} (d : list (Z * V)) (k : Z) : bool :=
  match int_get d k with Some _ => true | None => false end.

(** [bins_compatible]: the keys of [bin1] are ["rels"], ["matchers"] and
    its node keys; the first two are keys of every bin. *)
Definition bins_compatible (h : list (list Match)) (bin1 bin2 : bin) : bool :=
  let overlap :=
    list_eqb String.eqb (b_rels bin1) (b_rels bin2)
    || list_eqb Match_is (heap_get h (b_matchers bin1)) (heap_get h (b_matchers bin2))
    || existsb (fun kv => match int_get (b_nodes bin2) (fst kv) with
                          | Some v => (snd kv =? v)%nat
                          | None => false
                          end) (b_nodes bin1) in
  let non_overlap := existsb (fun kv => negb (has_key (b_nodes bin2) (fst kv))) (b_nodes bin1) in
  overlap && non_overlap.

(** [merge_bins]: the matchers of [bin1] with a new [def_index] are
    appended to the shared list of [bin2]; the first node key of [bin1]
    that [bin2] lacks is added to a copy of [bin2].  [None] is returned
    when there is no such key. *)
Definition merge_bins (h : list (list Match)) (bin1 bin2 : bin)
  : list (list Match) * option bin :=
  let matchers2 :=
    fold_left
      (fun acc matcher =>
         if existsb (fun matcher2 => m_def_index matcher2 =? m_def_index matcher) acc
         then acc else (acc ++ [matcher])%list)
      (heap_get h (b_matchers bin1)) (heap_get h (b_matchers bin2)) in
  let h := heap_set h (b_matchers bin2) matchers2 in
  match filter (fun kv => negb (has_key (b_nodes bin2) (fst kv))) (b_nodes bin1) with
  | (key, tok) :: _ =>
      (h, Some {| b_nodes := (b_nodes bin2 ++ [(key, tok)])%list;
                  b_rels := match rev (b_rels bin1) with
                            | new_rel :: _ => (b_rels bin2 ++ [new_rel])%list
                            | [] => b_rels bin2
                            end;
                  b_matchers := b_matchers bin2 |})
  | [] => (h, None)
  end.

(** One round of the first loop of [merge_sets].  A [None] from
    [merge_bins] would enter [bins] and make the next use of that entry
    raise [TypeError]. *)
Definition grow_bins (st : list bin * list (list Match)) (set_to_merge : ResultSet)
  : outcome (list bin * list (list Match)) :=
  let '(bins, h) := st in
  let new_set := {| b_nodes := rs_nodes set_to_merge;
                    b_rels := [rs_rel set_to_merge];
                    b_matchers := List.length h |} in
  let h := (h ++ [rs_matchers set_to_merge])%list in
  '(h, added) <-
     foldM (fun acc my_bin =>
              let '(h, added) := acc in
              if bins_compatible h new_set my_bin then
                match merge_bins h new_set my_bin with
                | (h, Some candidate) => Ok (h, (added ++ [candidate])%list)
                | (_, None) => Raise TypeError
                end
              else Ok acc)
           bins (h, []) ;;
  Ok ((bins ++ added ++ [new_set])%list, h).

(** A bin once the shared lists no longer change; [groups] is filled by
    [add_groups]. *)
Record result : Type := {
  nodes : list (Z * nat);
  rels : list string;
  matchers : list Match;
  groups : list (option string)
}.

Definition freeze (h : list (list Match)) (b : bin) : result :=
  {| nodes := b_nodes b; rels := b_rels b;
     matchers := heap_get h (b_matchers b); groups := [] |}.

Definition with_rels (r : result) (rels : list string) : result :=
  {| nodes := nodes r; rels := rels; matchers := matchers r; groups := groups r |}.

(** The second loop of [merge_sets] for one bin: the bin as the loop
    leaves it, and whether it was appended to [solutions]. *)
Definition complete_bin (sets : list ResultSet) (node_count rel_count : nat)
           (my_bin : result) : result * bool :=
  if (List.length (nodes my_bin) + 2 =? node_count + 2)%nat then
    if (List.length (rels my_bin) =? rel_count)%nat then (my_bin, true)
    else
      let '(rels, solved) :=
        fold_left
          (fun acc set_to_merge =>
             let '(rels, solved) := acc in
             if negb (existsb (String.eqb (rs_rel set_to_merge)) rels) then
               if forallb (fun kv => has_key (nodes my_bin) (fst kv)) (rs_nodes set_to_merge)
               then
                 if forallb (fun kv => match int_get (nodes my_bin) (fst kv) with
                                       | Some v => (snd kv =? v)%nat
                                       | None => false
                                       end) (rs_nodes set_to_merge)
                 then
                   let rels := (rels ++ [rs_rel set_to_merge])%list in
                   (rels, solved || (List.length rels =? rel_count)%nat)
                 else acc
               else acc
             else acc)
          sets (rels my_bin, false) in
      (with_rels my_bin rels, solved)
  else (my_bin, false).

(** Equality of two dictionaries: the same keys with equal values,
    whatever the order of insertion. *)
Definition nodes_eqb (a b : list (Z * nat)) : bool :=
  (List.length a =? List.length b)%nat
  && forallb (fun kv => match int_get b (fst kv) with
                        | Some v => (snd kv =? v)%nat
                        | None => false
                        end) a.

Definition result_eqb (a b : result) : bool :=
  nodes_eqb (nodes a) (nodes b)
  && list_eqb String.eqb (rels a) (rels b)
  && list_eqb Match_is (matchers a) (matchers b).

(** [list.sort()] on strings. *)
Fixpoint insert_sorted (s : string) (l : list string) : list string :=
  match l with
  | [] => [s]
  | x :: r => if String.ltb s x then s :: l else x :: insert_sorted s r
  end.

Definition sort_strings (l : list string) : list string :=
  fold_left (fun acc s => insert_sorted s acc) l [].

Fixpoint replace_nth {A : Type} (l : list A) (i : nat) (x : A) : list A :=
  match l, i with
  | [], _ => []
  | _ :: t, O => x :: t
  | y :: t, S k => y :: replace_nth t k x
  end.

(** [merge_solutions].  The final [sort] acts on the object [solution];
    it shows in [merged] when that object was appended. *)
Definition merge_solutions (solution : result) (merged : list result) (rel_count : nat)
  : list result :=
  let appended := negb (existsb (result_eqb solution) merged) in
  let merged1 := if appended then (merged ++ [solution])%list else merged in
  let merges_to_add :=
    if negb (List.length (rels solution) =? rel_count)%nat then
      flat_map
        (fun candidate =>
           if negb (result_eqb candidate solution) then
             flat_map
               (fun kv =>
                  match int_get (nodes candidate) (fst kv) with
                  | Some v =>
                      if (snd kv =? v)%nat
                         && negb (forallb (fun rel => existsb (String.eqb rel) (rels candidate))
                                          (rels solution))
                      then
                        [{| nodes := fold_left (fun d kv' => int_set d (fst kv') (snd kv'))
                                               (nodes candidate) (nodes solution);
                            rels := (rels solution ++ rels candidate)%list;
                            matchers :=
                              fold_left
                                (fun acc matcher =>
                                   if existsb (Match_is matcher) acc then acc
                                   else (acc ++ [matcher])%list)
                                (matchers candidate) (matchers solution);
                            groups := [] |}]
                      else []
                  | None => []
                  end)
               (nodes solution)
           else [])
        merged1
    else [] in
  let merged2 := (merged1 ++ merges_to_add)%list in
  if appended
  then replace_nth merged2 (List.length merged)
                   (with_rels solution (sort_strings (rels solution)))
  else merged2.

Fixpoint remove_first (b : result) (l : list result) : list result :=
  match l with
  | [] => []
  | x :: r => if result_eqb x b then r else x :: remove_first b r
  end.

Definition prune_merged_bins (merged_bins : list result) (rel_count : nat)
  : list result :=
  let bins_to_delete :=
    filter (fun merged_bin => (List.length (rels merged_bin) <? rel_count)%nat) merged_bins in
  fold_left (fun acc bin_to_delete => remove_first bin_to_delete acc)
            bins_to_delete merged_bins.

Definition merge_sets (sets : list ResultSet) (node_count rel_count : nat)
  : outcome (list result) :=
  '(bins, h) <- foldM grow_bins sets ([], []) ;;
  let solutions :=
    map fst (filter snd (map (fun b => complete_bin sets node_count rel_count (freeze h b))
                             bins)) in
  let merged_bins :=
    fold_left (fun merged solution => merge_solutions solution merged rel_count)
              solutions [] in
  Ok (prune_merged_bins merged_bins rel_count).

(** *** [add_groups] *)

(** [sorted(result["matchers"], key=lambda x: x.def_index)], which is
    stable. *)
Fixpoint insert_matcher (m : Match) (l : list Match) : list Match :=
  match l with
  | [] => [m]
  | x :: r => if m_def_index m <? m_def_index x then m :: l else x :: insert_matcher m r
  end.

Definition sorted_matchers (l : list Match) : list Match :=
  fold_left (fun acc m => insert_matcher m acc) l [].

Definition add_groups_one (r : result) : outcome result :=
  gs <- mapM (fun group => Py.nth_or IndexError group 0)
             (flat_map m_groups (sorted_matchers (matchers r))) ;;
  Ok {| nodes := nodes r; rels := rels r; matchers := matchers r; groups := gs |}.

Definition add_groups (result_sets : list result) : outcome (list result) :=
  mapM add_groups_one result_sets.

(** *** [execute_action] *)

(** [re.findall(r"(\$[0-9]+[LU]?)", value)] *)
Fixpoint findall_refs_go (skip : nat) (s : string) : list string :=
  match s with
  | EmptyString => []
  | String a r =>
      match skip with
      | S k => findall_refs_go k r
      | O =>
          if Ascii.eqb a "$" then
            match scan_digits r with
            | (EmptyString, _) => findall_refs_go 0 r
            | (d, rest) =>
                let suffix :=
                  match rest with
                  | String "L" _ => "L"
                  | String "U" _ => "U"
                  | _ => EmptyString
                  end in
                (String "$" d ++ suffix)
                  :: findall_refs_go (String.length d + String.length suffix) r
            end
          else findall_refs_go 0 r
      end
  end.

Definition findall_refs (value : string) : list string := findall_refs_go 0 value.

(** [l[i]] with Python's negative indices; [None] for [IndexError]. *)
Definition py_index {A : Type} (l : list A) (i : Z) : option A :=
  let n := Z.of_nat (List.length l) in
  let j := if i <? 0 then i + n else i in
  if (j <? 0) || (n <=? j) then None else nth_error l (Z.to_nat j).

Inductive letter_case : Type := case_none | case_lower | case_upper.

Definition missing_group (action : string) (group_num : Z) : string :=
  "The action '" ++ action ++ "' refers to a missing regex bracket group '$"
  ++ Py.str_int group_num ++ "'".

Section Actions.

Variable re : ReLib.

(** The body of [for g in group_num_matches]: first the case suffix
    and the number of the reference [g] are read. *)
Definition parse_ref (g : string) : outcome (letter_case * Z) :=
  let no_dollar := Py.slice_from g 1 in
  c <- of_option IndexError (Py.last_char no_dollar) ;;
  let '(case, no_dollar) :=
    if Ascii.eqb c "U" then (case_upper, Py.slice no_dollar 0 (-1))
    else if Ascii.eqb c "L" then (case_lower, Py.slice no_dollar 0 (-1))
    else (case_none, no_dollar) in
  group_num <- Py.int no_dollar ;;
  Ok (case, group_num).

Definition expand_ref (action : string) (groups : list (option string))
           (value g : string) : outcome string :=
  '(case, group_num) <- parse_ref g ;;
  match py_index groups (group_num - 1) with
  | None => Exit (missing_group action group_num)
  | Some group_value =>
      group_value <-
        match case, group_value with
        | case_lower, Some v => Ok (Some (Py.lower v))
        | case_upper, Some v => u <- of_option Unsupported (Py.upper v) ;; Ok (Some u)
        | case_none, _ => Ok group_value
        | _, None => Raise AttributeError
        end ;;
      let group_str :=
        Py.str_int group_num
        ++ match case with
           | case_lower => "L"
           | case_upper => "U"
           | case_none => EmptyString
           end in
      repl <- of_option TypeError group_value ;;
      re_sub re ("\$" ++ group_str) repl value
  end.

Definition update_token (st : store) (i : nat) (t : ParsedToken) : store :=
  {| tokens := replace_nth (tokens st) i t; sentence := sentence st |}.

Definition annotate (st : store) (key val : string) : store :=
  {| tokens := tokens st;
     sentence := {| sentence_string := sentence_string (sentence st);
                    length := length (sentence st);
                    annotations := dict_set (annotations (sentence st)) key val;
                    sent_num := sent_num (sentence st) |} |}.

Definition bound (r : result) (node : Z) : outcome nat :=
  of_option KeyError (int_get (nodes r) node).

(** One action on one binding: the state it leaves, and whether it
    returned ["last"]. *)
Definition execute_one (r : result) (st : store) (action : string)
  : outcome (store * bool) :=
  if action ==? "last" then Ok (st, true)
  else if Py.contains ":" action then
    if Py.startswith action "#S:" then
      key_val <- Py.nth_or IndexError (Py.split action ":") 1 ;;
      match Py.split1 key_val "=" with
      | [key; val] =>
          i <- bound r 1 ;;
          tok <- token_at (tokens st) i ;;
          match sentence_ tok with
          | PSentence => Ok (annotate st key val, false)
          | _ => Raise AttributeError
          end
      | _ => Raise ValueError
      end
    else
      node_position <- Py.int (Py.slice action 1 (Py.find action ":")) ;;
      let prop := Py.slice action (Py.find action ":" + 1) (Py.find action "=") in
      let value := Py.strip (Py.slice_from action (Py.find action "=" + 1)) in
      value <- foldM (expand_ref action (groups r)) (findall_refs value) value ;;
      i <- bound r node_position ;;
      tok <- token_at (tokens st) i ;;
      tok <- setattr tok prop value ;;
      Ok (update_token st i tok, false)
  else if Py.contains ">" action then
    n1 <- Py.nth_or IndexError (Py.split action ">") 0 ;;
    node1 <- node_number n1 ;;
    n2 <- Py.nth_or IndexError (Py.split action ">") 1 ;;
    node2 <- node_number n2 ;;
    tok1 <- bound r node1 ;;
    tok2 <- bound r node2 ;;
    if negb (tok1 =? tok2)%nat then
      t1 <- token_at (tokens st) tok1 ;;
      t2 <- token_at (tokens st) tok2 ;;
      t2 <- setattr t2 "head" (id t1) ;;
      Ok (update_token st tok2 t2, false)
    else Ok (st, false)
  else Ok (st, false).

(** The loop [for action in actions] on one binding. *)
Fixpoint execute_on (r : result) (actions : list string) (st : store)
  : outcome (store * bool) :=
  match actions with
  | [] => Ok (st, false)
  | action :: rest =>
      '(st, last) <- execute_one r st action ;;
      if last : bool then Ok (st, true) else execute_on r rest st
  end.

(** [execute_action]: for each binding in turn, the actions of
    [action_list] in order.  Every binding is a non-empty dictionary.
    The flag tells whether ["last"] was returned. *)
Fixpoint execute_results (result_sets : list result) (actions : list string)
         (st : store) : outcome (store * bool) :=
  match result_sets with
  | [] => Ok (st, false)
  | r :: rest =>
      '(st, last) <- execute_on r actions st ;;
      if last : bool then Ok (st, true) else execute_results rest actions st
  end.

Definition execute_action (result_sets : list result) (action_list : string)
           (st : store) : outcome (store * bool) :=
  execute_results result_sets (Py.split action_list ";") st.

End Actions.

(** *** [process_sentence] *)

Section Engine.

Variable re : ReLib.
Variable fl : NumLib.

(** The loop [for action in transformation.actions]. *)
Fixpoint actions_loop (result_sets : list result) (actions : list string)
         (st : store) : outcome (store * bool) :=
  match actions with
  | [] => Ok (st, false)
  | action :: rest =>
      '(st, last) <- execute_action re result_sets action st ;;
      if last : bool then Ok (st, true) else actions_loop result_sets rest st
  end.

(** The bindings of one transformation on the sentence. *)
Definition find_bindings (transformation : Transformation) (toks : list ParsedToken)
  : outcome (list result) :=
  node_matches <- collect_node_matches (definitions transformation) toks [] ;;
  '(_, result_sets) <- relations_loop fl toks node_matches (relations transformation) [] ;;
  result_sets <- merge_sets result_sets (List.length (definitions transformation))
                            (List.length (relations transformation)) ;;
  add_groups result_sets.

(** The body of the loop over the transformations. *)
Definition apply_transformation (transformation : Transformation) (st : store)
  : outcome (store * bool) :=
  result_sets <- find_bindings transformation (tokens st) ;;
  match result_sets with
  | [] => Ok (st, false)
  | _ => actions_loop result_sets (actions transformation) st
  end.

(** The loop over the transformations; the flag tells whether an
    action returned ["last"], which ends the loop. *)
Fixpoint transformations_loop (transformations : list Transformation) (st : store)
  : outcome (store * bool) :=
  match transformations with
  | [] => Ok (st, false)
  | transformation :: rest =>
      '(st, last) <- apply_transformation transformation st ;;
      if last : bool then Ok (st, true) else transformations_loop rest st
  end.

Definition process_sentence (transformations : list Transformation) (st : store)
  : outcome store :=
  '(st, _) <- transformations_loop transformations st ;;
  Ok st.

End Engine.

(** ** The serializer and the driver *)

Section Driver.

Variable re : ReLib.
Variable fl : NumLib.

(** [str(float(s) - tokoffset)] *)
Definition renumber (s : string) (tokoffset : Z) : outcome string :=
  f <- float_of_str fl s ;;
  str_of_float fl (float_sub_int fl f tokoffset).

Definition serialize_token (input_mode : string) (tokoffset : Z) (tok : ParsedToken)
  : outcome string :=
  '(tok_head_string, tok_id) <-
     (if truthy (is_super_tok tok) then Ok (head tok, id tok)
      else if head tok ==? "0" then
        tok_id <- renumber (id tok) tokoffset ;;
        Ok ("0", tok_id)
      else
        tok_head_string <- renumber (head tok) tokoffset ;;
        tok_id <- renumber (id tok) tokoffset ;;
        Ok (tok_head_string, tok_id)) ;;
  let tok_id := Py.replace tok_id ".0" EmptyString in
  let tok_head_string := Py.replace tok_head_string ".0" EmptyString in
  let tok_head_string := if Py.contains "." tok_id then "_" else tok_head_string in
  let fields := [tok_id; text tok; lemma tok; pos tok; cpos tok; morph tok;
                 tok_head_string; func tok] in
  let fields := if negb (input_mode ==? "8col")
                then (fields ++ [head2 tok; func2 tok])%list else fields in
  Ok (Py.join (Py.chr "009") fields).

Definition serialize_output_tree (input_mode : string) (toks : list ParsedToken)
           (tokoffset : Z) : outcome (list string) :=
  mapM (serialize_token input_mode tokoffset) toks.

Definition make_sent_id (docname : string) (sent_id : Z) : string :=
  "# sent_id = " ++ docname ++ "-" ++ Py.str_int sent_id.

(** The local variables of [run_depedit].  [conll_tokens] is kept
    without its first entry, the integer 0, so the tokens of the current
    sentence start at index [tokoffset + supertok_offset].  The
    dictionaries [children] and [child_funcs] are filled and never read,
    and are left out, as is the warning for a missing head. *)
Record driver : Type := {
  conll_tokens : list ParsedToken;
  input_mode : string;
  tokoffset : nat;
  supertok_offset : nat;
  sentlength : nat;
  supertok_length : nat;
  output_lines : list string;
  sentence_lines : list string;
  current_sentence : Sentence
}.

Definition set_position (t : ParsedToken) (p : string) : ParsedToken :=
  {| id := id t; text := text t; lemma := lemma t; pos := pos t; cpos := cpos t;
     morph := morph t; head := head t; func := func t; head2 := head2 t;
     func2 := func2 t; num := num t; child_funcs := child_funcs t; position := p;
     is_super_tok := is_super_tok t; sentence_ := sentence_ t; extra := extra t |}.

Definition set_last (l : list ParsedToken) : list ParsedToken :=
  match rev l with
  | t :: r => rev (set_position t "last" :: r)
  | [] => []
  end.

Section Run.

Variable transformations : list Transformation.
Variable docname : string.
Variable sent_id : bool.

(** The nested function [_process_sentence]. *)
Definition _process_sentence (d : driver) : outcome driver :=
  let current_sentence :=
    {| sentence_string := sentence_string (current_sentence d);
       length := Z.of_nat (sentlength d);
       annotations := annotations (current_sentence d);
       sent_num := sent_num (current_sentence d) |} in
  let conll_tokens := set_last (conll_tokens d) in
  let start := (tokoffset d + supertok_offset d)%nat in
  let sentence_tokens := skipn start conll_tokens in
  st <- process_sentence re fl transformations
          {| tokens := sentence_tokens; sentence := current_sentence |} ;;
  tree <- serialize_output_tree (input_mode d) (tokens st) (Z.of_nat (tokoffset d)) ;;
  let transformed := (print_annos (sentence st) ++ tree)%list in
  Ok {| conll_tokens := (firstn start conll_tokens ++ tokens st)%list;
        input_mode := input_mode d;
        tokoffset := tokoffset d;
        supertok_offset := supertok_offset d;
        sentlength := sentlength d;
        supertok_length := supertok_length d;
        output_lines :=
          (output_lines d ++ transformed
           ++ (if sent_id then [make_sent_id docname (sent_num (sentence st))] else []))%list;
        sentence_lines := sentence_lines d;
        current_sentence := sentence st |}.

(** The first [if] of the loop body: a line without a tab ends a
    sentence that has at least one token. *)
Definition end_sentence (d : driver) : outcome driver :=
  d <- _process_sentence d ;;
  Ok {| conll_tokens := conll_tokens d;
        input_mode := input_mode d;
        tokoffset := (tokoffset d + sentlength d)%nat;
        supertok_offset := (supertok_offset d + supertok_length d)%nat;
        sentlength := 0;
        supertok_length := 0;
        output_lines := output_lines d;
        sentence_lines := [];
        current_sentence := Sentence_init EmptyString (sent_num (current_sentence d) + 1) |}.

Definition add_output (d : driver) (l : string) : driver :=
  {| conll_tokens := conll_tokens d; input_mode := input_mode d;
     tokoffset := tokoffset d; supertok_offset := supertok_offset d;
     sentlength := sentlength d; supertok_length := supertok_length d;
     output_lines := (output_lines d ++ [l])%list;
     sentence_lines := sentence_lines d;
     current_sentence := current_sentence d |}.

Definition shift (s : string) (tokoffset : nat) : outcome string :=
  f <- float_of_str fl s ;;
  str_of_float fl (float_add_int fl f (Z.of_nat tokoffset)).

(** The branch for a line with a tab: one more token. *)
Definition read_token (d : driver) (myline : string) : outcome driver :=
  let cols := Py.split myline (Py.chr "009") in
  let col i := Py.nth_or IndexError cols i in
  c0 <- col 0%nat ;;
  let super_tok := Py.contains "-" c0 in
  '(tok_id, head_id) <-
     (if super_tok then
        c6 <- col 6%nat ;; Ok (c0, c6)
      else
        tok_id <- shift c0 (tokoffset d) ;;
        c6 <- col 6%nat ;;
        if c6 ==? "_" then Ok (tok_id, Py.str_int (0 + Z.of_nat (tokoffset d)))
        else head_id <- shift c6 (tokoffset d) ;; Ok (tok_id, head_id)) ;;
  c1 <- col 1%nat ;; c2 <- col 2%nat ;; c3 <- col 3%nat ;;
  c4 <- col 4%nat ;; c5 <- col 5%nat ;; c6 <- col 6%nat ;; c7 <- col 7%nat ;;
  '(h2, f2, mode) <-
     (if (8 <? List.length cols)%nat then
        c8 <- col 8%nat ;; c9 <- col 9%nat ;; Ok (c8, c9, input_mode d)
      else Ok (c6, c7, "8col")) ;;
  let this_tok :=
    {| id := tok_id; text := c1; lemma := c2; pos := c3; cpos := c4; morph := c5;
       head := head_id; func := c7; head2 := h2; func2 := f2; num := c0;
       child_funcs := PNil;
       position := if (c0 ==? "1") && negb super_tok then "first" else "mid";
       is_super_tok := PBool super_tok; sentence_ := PSentence; extra := [] |} in
  Ok {| conll_tokens := (conll_tokens d ++ [this_tok])%list;
        input_mode := mode;
        tokoffset := tokoffset d;
        supertok_offset := supertok_offset d;
        sentlength := if super_tok then sentlength d else S (sentlength d);
        supertok_length := if super_tok then S (supertok_length d) else supertok_length d;
        output_lines := output_lines d;
        sentence_lines := (sentence_lines d ++ [myline])%list;
        current_sentence := current_sentence d |}.

(** The body of [for myline in infile]. *)
Definition read_line (d : driver) (myline0 : string) : outcome driver :=
  let myline := Py.strip myline0 in
  d <- (if negb (sentlength d =? 0)%nat && negb (Py.contains (Py.chr "009") myline)
        then end_sentence d else Ok d) ;;
  if Py.startswith myline "#" then Ok (add_output d myline)
  else if myline ==? EmptyString then Ok (add_output d EmptyString)
  else if 0 <? Py.find myline (Py.chr "009") then read_token d myline
  else Ok d.

Definition initial_driver : driver :=
  {| conll_tokens := []; input_mode := "10col"; tokoffset := 0; supertok_offset := 0;
     sentlength := 0; supertok_length := 0; output_lines := []; sentence_lines := [];
     current_sentence := Sentence_init EmptyString 1 |}.

(** [run_depedit] on the lines of the input; [newdoc] is the flag that
    the source calls [docname]. *)
Definition run_lines (infile : list string) (newdoc : bool) : outcome (list string) :=
  d <- foldM read_line infile initial_driver ;;
  d <- (if negb (sentlength d =? 0)%nat then _process_sentence d else Ok d) ;;
  Ok (if newdoc then ("# newdoc id = " ++ docname) :: output_lines d
      else output_lines d).

Definition run_depedit (infile : list string) (newdoc : bool) : outcome string :=
  lines <- run_lines infile newdoc ;;
  Ok (Py.join (Py.chr "010") lines).

End Run.

End Driver.

(** ** [DepEdit.add_transformation] *)

(** The attributes of a [DepEdit] object that the method reads and
    writes. *)
Record DepEdit : Type := {
  transformations : list Transformation;
  user_transformation_counter : Z
}.

(** [add_transformation] is the one function of the module that raises
    an exception of its own, [IOError]; otherwise a call ends as the
    constructor of the rule does.  When a call does not return, the
    rules appended and the counter advanced before the exception are
    not part of the outcome. *)
Inductive raised (A : Type) : Type :=
| Completed (o : outcome A)
| IOError (message : string).

Arguments Completed {A} o.
Arguments IOError {A} message.

Definition user_line (counter : Z) : string := "u" ++ Py.str_int counter.

Section UserRules.

Variable re : ReLib.

(** The body of [for transformation_string in args]: the counter is
    advanced, the rule is built with the line label [u<counter>] and
    appended; a [ValueError] becomes an [IOError]. *)
Definition add_string (d : DepEdit) (transformation_string : string) : raised DepEdit :=
  let counter := user_transformation_counter d + 1 in
  match Transformation_init re transformation_string (user_line counter) with
  | Ok new_transformation =>
      Completed (Ok {| transformations := (transformations d ++ [new_transformation])%list;
                       user_transformation_counter := counter |})
  | Raise ValueError => IOError "Invalid transformation - must be a string"
  | Raise e => Completed (Raise e)
  | Exit diag => Completed (Exit diag)
  end.

Fixpoint add_strings (args : list string) (d : DepEdit) : raised DepEdit :=
  match args with
  | [] => Completed (Ok d)
  | transformation_string :: rest =>
      match add_string d transformation_string with
      | Completed (Ok d) => add_strings rest d
      | stopped => stopped
      end
  end.

(** [add_transformation], called with strings as its positional
    arguments [args] and with lists of strings, or [None], under the
    keywords [nodes], [rels] and [actions].  A list given as the only
    positional argument stands for its entries.  The clause of the
    actions is [";".join("actions")], the letters of that word joined,
    whatever the list under [actions] holds.  With values of these types
    the test that the three keywords hold lists cannot fail. *)
Definition add_transformation (args : list string)
           (nodes rels actions : option (list string)) (d : DepEdit) : raised DepEdit :=
  match args with
  | _ :: _ => add_strings args d
  | [] =>
      match nodes, rels, actions with
      | Some nodes, Some rels, Some _ =>
          let node_clause := Py.join ";" nodes in
          let rel_clause := Py.join ";" rels in
          let actions_clause := Py.join ";" (map Py.chr (list_ascii_of_string "actions")) in
          let transformation_string :=
            Py.join (Py.chr "009") [node_clause; rel_clause; actions_clause] in
          let counter := user_transformation_counter d + 1 in
          match Transformation_init re transformation_string (user_line counter) with
          | Ok new_transformation =>
              Completed (Ok {| transformations :=
                                 (transformations d ++ [new_transformation])%list;
                               user_transformation_counter := counter |})
          | Exit diag => Completed (Exit diag)
          | Raise e => Completed (Raise e)
          end
      | _, _, _ => Completed (Ok d)
      end
  end.

End UserRules.

(** ** An instance of the libraries for the worked inputs

    The worked inputs below use replacement texts without a backslash
    and whole numbers of at most fifteen digits.  Their node patterns
    are written with literal characters, the dot, sets of characters in
    square brackets, the anchors, alternatives, groups, and the
    operators [*], [+] and [?] on a single character or set.  The
    instance compiles these patterns and runs them as Python does, by
    backtracking; for every other pattern and every other number it
    gives no answer, which shows as [Unsupported]. *)

(** The syntax that the instance compiles. *)
Inductive regex : Type :=
| Chars (p : ascii -> bool)        (* one character of a set *)
| Many (p : ascii -> bool)         (* x*: as many as possible first *)
| Maybe (p : ascii -> bool)        (* x? *)
| Cat (a b : regex)
| Or (a b : regex)                 (* a|b: a first *)
| Group (k : nat) (a : regex)      (* the pair of parentheses number k *)
| Empty
| Bol                              (* ^ *)
| Eol.                             (* $ *)

Definition captures : Type := list (option string).

(** [match_at r i s caps k]: [r] is matched against [s], which starts
    at position [i] of the subject; what follows [r] in the pattern is
    [k].  The first way to match that [k] accepts is taken. *)
Fixpoint match_at (r : regex) (i : nat) (s : string) (caps : captures)
         (k : nat -> string -> captures -> option captures) {struct r}
  : option captures :=
  match r with
  | Chars p =>
      match s with
      | String a t => if p a then k (S i) t caps else None
      | EmptyString => None
      end
  | Many p =>
      (fix go (i : nat) (s : string) {struct s} : option captures :=
         match s with
         | String a t =>
             if p a then match go (S i) t with
                         | Some c => Some c
                         | None => k i s caps
                         end
             else k i s caps
         | EmptyString => k i s caps
         end) i s
  | Maybe p =>
      match s with
      | String a t =>
          if p a then match k (S i) t caps with
                      | Some c => Some c
                      | None => k i s caps
                      end
          else k i s caps
      | EmptyString => k i s caps
      end
  | Cat a b => match_at a i s caps (fun i' s' caps' => match_at b i' s' caps' k)
  | Or a b =>
      match match_at a i s caps k with
      | Some c => Some c
      | None => match_at b i s caps k
      end
  | Group n a =>
      match_at a i s caps
               (fun i' s' caps' =>
                  k i' s' (replace_nth caps' n (Some (substring 0 (i' - i) s))))
  | Empty => k i s caps
  | Bol => if (i =? 0)%nat then k i s caps else None
  | Eol => if Rx.at_end s then k i s caps else None
  end.

(** [search]: the first position, from the left, at which the pattern
    matches; the result is [match.groups()]. *)
Fixpoint search_from (r : regex) (n i : nat) (s : string) : option captures :=
  match match_at r i s (repeat None n) (fun _ _ caps => Some caps) with
  | Some caps => Some caps
  | None =>
      match s with
      | String _ t => search_from r n (S i) t
      | EmptyString => None
      end
  end.

(** The characters with a meaning of their own in a pattern. *)
Definition is_meta (a : ascii) : bool := Py.contains (Py.chr a) ".^$*+?{}[]\|()".

Definition is_quantifier (a : ascii) : bool := Py.contains (Py.chr a) "*+?{".

(** The inside of a set in square brackets, after the opening bracket
    and the sign of negation: single characters and ranges.  A closing
    bracket in the first place stands for itself. *)
Fixpoint class_items (first : bool) (s : string) : option ((ascii -> bool) * string) :=
  match s with
  | EmptyString => None
  | String c r =>
      if Ascii.eqb c "]" && negb first then Some (fun _ => false, r)
      else if Ascii.eqb c "\" || Ascii.eqb c "[" then None
      else
        match r with
        | String "-" (String d r2) =>
            if Ascii.eqb d "]" then
              Some (fun a => Ascii.eqb a c || Ascii.eqb a "-", r2)
            else if Ascii.eqb d "\" || Ascii.eqb d "[" then None
            else if (nat_of_ascii c <=? nat_of_ascii d)%nat then
              match class_items false r2 with
              | Some (p, rest) =>
                  Some (fun a => (nat_of_ascii c <=? nat_of_ascii a)%nat
                                 && (nat_of_ascii a <=? nat_of_ascii d)%nat || p a, rest)
              | None => None
              end
            else None
        | _ =>
            match class_items false r with
            | Some (p, rest) => Some (fun a => Ascii.eqb a c || p a, rest)
            | None => None
            end
        end
  end.

Inductive atom : Type :=
| ASet (p : ascii -> bool)
| ANode (r : regex).

(** An atom with the operator that follows it, if any.  An operator
    applies to a single character or set only, and no second operator
    may follow. *)
Definition quantified (a : atom) (s : string) : option (regex * string) :=
  let plain := match a with ASet p => Chars p | ANode r => r end in
  match s with
  | String q r =>
      if is_quantifier q then
        match a with
        | ASet p =>
            let repeated :=
              if Ascii.eqb q "*" then Some (Many p)
              else if Ascii.eqb q "+" then Some (Cat (Chars p) (Many p))
              else if Ascii.eqb q "?" then Some (Maybe p)
              else None in
            match repeated, r with
            | Some node, String q2 _ => if is_quantifier q2 then None else Some (node, r)
            | Some node, EmptyString => Some (node, r)
            | None, _ => None
            end
        | ANode _ => None
        end
      else Some (plain, s)
  | EmptyString => Some (plain, s)
  end.

(** The parser: alternatives, sequences and atoms; [g] is the number of
    the next group. *)
Fixpoint parse_alt (fuel : nat) (s : string) (g : nat) : option (regex * string * nat) :=
  match fuel with
  | O => None
  | S f =>
      match parse_seq f s g with
      | Some (a, String "|" r, g1) =>
          match parse_alt f r g1 with
          | Some (b, r', g2) => Some (Or a b, r', g2)
          | None => None
          end
      | other => other
      end
  end
with parse_seq (fuel : nat) (s : string) (g : nat) : option (regex * string * nat) :=
  match fuel with
  | O => None
  | S f =>
      match s with
      | EmptyString => Some (Empty, s, g)
      | String c _ =>
          if Ascii.eqb c ")" || Ascii.eqb c "|" then Some (Empty, s, g)
          else
            match parse_atom f s g with
            | Some (a, r1, g1) =>
                match quantified a r1 with
                | Some (node, r2) =>
                    match parse_seq f r2 g1 with
                    | Some (b, r3, g2) => Some (Cat node b, r3, g2)
                    | None => None
                    end
                | None => None
                end
            | None => None
            end
      end
  end
with parse_atom (fuel : nat) (s : string) (g : nat) : option (atom * string * nat) :=
  match fuel with
  | O => None
  | S f =>
      match s with
      | EmptyString => None
      | String "(" r =>
          match r with
          | String "?" _ => None
          | _ =>
              match parse_alt f r (S g) with
              | Some (a, String ")" r', g1) => Some (ANode (Group g a), r', g1)
              | _ => None
              end
          end
      | String "[" r =>
          let '(negated, r) := match r with
                               | String "^" r' => (true, r')
                               | _ => (false, r)
                               end in
          match class_items true r with
          | Some (p, rest) => Some (ASet (fun a => xorb negated (p a)), rest, g)
          | None => None
          end
      | String "\" (String c r) =>
          if Py.is_alpha c || Py.is_digit c then None
          else Some (ASet (Ascii.eqb c), r, g)
      | String "." r => Some (ASet (fun a => negb (Ascii.eqb a "010")), r, g)
      | String "^" r => Some (ANode Bol, r, g)
      | String "$" r => Some (ANode Eol, r, g)
      | String c r => if is_meta c then None else Some (ASet (Ascii.eqb c), r, g)
      end
  end.

(** [re.compile(pattern)], with the [search] of the compiled pattern. *)
Definition compile_pattern (pattern : string) : outcome compiled :=
  match parse_alt (3 * String.length pattern + 3) pattern 0 with
  | Some (r, EmptyString, n) => Ok (search_from r n 0)
  | _ => Raise Unsupported
  end.

(** [re.escape] of Python 3.7 and later: a backslash goes before each
    special character. *)
Definition special_chars : string := "()[]{}?*+-|^$\.&~# ".

Definition is_special (a : ascii) : bool :=
  Py.contains (Py.chr a) special_chars
  || ((9 <=? nat_of_ascii a) && (nat_of_ascii a <=? 13))%nat.

Fixpoint py_escape (s : string) : string :=
  match s with
  | EmptyString => EmptyString
  | String a r => if is_special a then String "\" (String a (py_escape r))
                  else String a (py_escape r)
  end.

(** [re.sub] for a pattern that is a backslash and literal text, and a
    replacement without a backslash. *)
Definition sub_literal (pattern repl s : string) : outcome string :=
  match pattern with
  | String "\" lit =>
      if Py.contains "\" repl || (lit ==? EmptyString) then Raise Unsupported
      else Ok (Py.replace s lit repl)
  | _ => Raise Unsupported
  end.

Definition plain_re : ReLib :=
  {| re_escape := py_escape;
     re_compile := compile_pattern;
     re_sub := sub_literal |}.

(** Whole numbers written with at most fifteen digits, or with such
    digits and [.0], as [str] writes a float with a whole value below
    ten to the sixteenth. *)
Definition whole_of_str (s : string) : outcome Z :=
  let '(d, rest) := scan_digits s in
  match d with
  | EmptyString => Raise Unsupported
  | _ => if ((rest ==? EmptyString) || (rest ==? ".0"))
            && (String.length d <=? 15)%nat
         then Ok (Py.digits_val 0 d) else Raise Unsupported
  end.

Definition str_of_whole (z : Z) : outcome string :=
  if Z.abs z <? 10 ^ 15 then Ok (Py.str_int z ++ ".0") else Raise Unsupported.

Definition whole_numbers : NumLib :=
  {| float_t := Z;
     float_of_str := whole_of_str;
     float_add_int := Z.add;
     float_sub_int := Z.sub;
     str_of_float := str_of_whole;
     int_of_float := fun z => Ok z |}.


(** ** Two orders of executing the actions of a rule

    [binding_major] is the order that a reading of [execute_action]
    alone suggests: one binding at a time, all the actions of the rule
    on it.  [action_major] takes one action at a time and applies it to
    every binding. *)

Section Orders.

Variable re : ReLib.

Definition binding_major (result_sets : list result) (actions : list string)
           (st : store) : outcome (store * bool) :=
  execute_results re result_sets actions st.

Fixpoint apply_to_all (result_sets : list result) (action : string) (st : store)
  : outcome (store * bool) :=
  match result_sets with
  | [] => Ok (st, false)
  | r :: rest =>
      '(st, last) <- execute_one re r st action ;;
      if last : bool then Ok (st, true) else apply_to_all rest action st
  end.

Fixpoint action_major (result_sets : list result) (actions : list string)
         (st : store) : outcome (store * bool) :=
  match actions with
  | [] => Ok (st, false)
  | action :: rest =>
      '(st, last) <- apply_to_all result_sets action st ;;
      if last : bool then Ok (st, true) else action_major result_sets rest st
  end.

End Orders.

(** ** Worked inputs *)

Definition TAB : string := Py.chr "009".

Definition row (cols : list string) : string := Py.join TAB cols.

(** The rule on a line of a rule file, as the compiler builds it. *)
Definition compiled_rule (text line : string) : Transformation :=
  match Transformation_init plain_re text line with
  | Ok t => t
  | _ => {| definitions := []; relations := []; actions := []; line := line |}
  end.

(** A rule file and an input, run from end to end. *)
Definition depedit (config_file infile : list string) (sent_id : bool)
  : outcome (list string) :=
  ts <- read_config_file plain_re [] config_file false ;;
  run_lines plain_re whole_numbers ts "doc" sent_id infile false.

(** Three tokens: [a] is the root, [c] hangs on [a], [b] hangs on [c]. *)
Definition row_a : string := row ["1"; "a"; "_"; "X"; "_"; "_"; "0"; "root"; "_"; "_"].
Definition row_b : string := row ["2"; "b"; "_"; "X"; "_"; "_"; "3"; "dep"; "_"; "_"].
Definition row_c : string := row ["3"; "c"; "_"; "X"; "_"; "_"; "1"; "obj"; "_"; "_"].

Definition mk_token (id text lemma head func : string) (position : string)
  : ParsedToken :=
  {| id := id; text := text; lemma := lemma; pos := "X"; cpos := "_"; morph := "_";
     head := head; func := func; head2 := "_"; func2 := "_";
     num := Py.replace id ".0" EmptyString; child_funcs := PNil; position := position;
     is_super_tok := PBool false; sentence_ := PSentence; extra := [] |}.

(** The sentence of [row_a], [row_b], [row_c] as the driver hands it to
    [process_sentence]. *)
Definition st_abc : store :=
  {| tokens := [mk_token "1.0" "a" "_" "0.0" "root" "first";
                mk_token "2.0" "b" "_" "3.0" "dep" "mid";
                mk_token "3.0" "c" "_" "1.0" "obj" "last"];
     sentence := {| sentence_string := EmptyString; length := 3;
                    annotations := []; sent_num := 0 |} |}.

(** Two nodes, head and dependent; one action on each. *)
Definition rule_ab_text : string :=
  row ["pos=/X/;pos=/X/"; "#1>#2"; "#1:lemma=A;#2:lemma=B"].

Definition rule_ab : Transformation := compiled_rule rule_ab_text "1".

Definition lemmas (o : outcome (store * bool)) : list string :=
  match o with
  | Ok (st, _) => map lemma (tokens st)
  | _ => []
  end.

(** The two bindings of [rule_ab] on [st_abc]: [a] over [c], and [c]
    over [b]. *)
Definition bindings_ab : list result :=
  [{| nodes := [(1, 0%nat); (2, 2%nat)]; rels := ["#1>#2"];
      matchers := [{| m_def_index := 1; m_token := 0; m_groups := [] |};
                   {| m_def_index := 2; m_token := 2; m_groups := [] |}];
      groups := [] |};
   {| nodes := [(1, 2%nat); (2, 1%nat)]; rels := ["#1>#2"];
      matchers := [{| m_def_index := 1; m_token := 2; m_groups := [] |};
                   {| m_def_index := 2; m_token := 1; m_groups := [] |}];
      groups := [] |}].

(** A super-token row whose head column holds [3.0], and its two
    tokens. *)
Definition row_dont : string :=
  row ["1-2"; "don't"; "_"; "_"; "_"; "_"; "3.0"; "_"; "_"; "_"].
Definition row_do : string := row ["1"; "do"; "_"; "V"; "_"; "_"; "0"; "root"; "_"; "_"].
Definition row_nt : string := row ["2"; "n't"; "_"; "P"; "_"; "_"; "1"; "neg"; "_"; "_"].

(** [row_dont] with [3] in the head column. *)
Definition row_dont_written : string :=
  row ["1-2"; "don't"; "_"; "_"; "_"; "_"; "3"; "_"; "_"; "_"].

(** Column [i] of an output row. *)
Definition column (i : nat) (r : string) : string :=
  nth i (Py.split r TAB) EmptyString.

(** A rule file with an unknown field on line 1 and a line without tabs
    on line 2. *)
Definition bad_field_line : string := row ["foo=/a/"; "none"; "last"].

(** Two tokens, the second right after the first, and a rule that marks
    a token that follows another. *)
Definition row_1 : string := row ["1"; "a"; "_"; "X"; "_"; "_"; "0"; "root"; "_"; "_"].
Definition row_2 : string := row ["2"; "b"; "_"; "X"; "_"; "_"; "1"; "dep"; "_"; "_"].
Definition row_2_marked : string :=
  row ["2"; "b"; "NEXT"; "X"; "_"; "_"; "1"; "dep"; "_"; "_"].
Definition rule_next : string := row ["pos=/X/;pos=/X/"; "#1.#2"; "#2:lemma=NEXT"].

(** A rule that tags the sentence of a token [b] and stops, with one
    more action after its [last]; and a rule that would come next. *)
Definition rule_stop : Transformation :=
  compiled_rule (row ["text=/b/"; "none"; "#S:tagged=yes;last;#1:lemma=Z"]) "1".
Definition rule_after : Transformation :=
  compiled_rule (row ["text=/a/"; "none"; "#1:lemma=Q"]) "2".

Definition bindings_stop : list result :=
  [{| nodes := [(1, 1%nat)]; rels := ["none"];
      matchers := [{| m_def_index := 1; m_token := 1; m_groups := [] |}];
      groups := [] |}].

(** An assignment that refers to a third group. *)
Definition action_third_group : string := "#1:lemma=x$3".

Definition rule_bad_field : Transformation := compiled_rule bad_field_line "1".

(** A rule whose only node test has an empty pattern. *)
Definition empty_pattern_text : string := row ["text=//"; "none"; "last"].

(** A rule with four nodes: its first relation, [b] under [a], has no
    hit on [st_abc]; its second relation has two. *)
Definition rule_no_hit : Transformation :=
  compiled_rule (row ["text=/a/;text=/b/;pos=/X/;pos=/X/"; "#1>#2;#3>#4"; "#1:lemma=Z"]) "1".

(** A rule whose node tests are written with CoNLL-U names, its node
    and the first test of that node. *)
Definition rule_aliased_text : string := row ["form=/a/&upostag=/X/"; "none"; "last"].

Definition rule_aliased : Transformation := compiled_rule rule_aliased_text "1".

Definition rule_aliased_test : Definition_ :=
  {| criterion := "text"; value := "a"; negative := false; compiled_re := None;
     match_func := return_exact |}.

Definition rule_aliased_node : DefinitionMatcher :=
  {| def_text := "form=/a/&upostag=/X/"; def_index := 1;
     defs := [rule_aliased_test;
              {| criterion := "pos"; value := "X"; negative := false; compiled_re := None;
                 match_func := return_exact |}] |}.

(** The sentence of [row_dont], [row_do] and [row_nt] as the driver hands
    it to [process_sentence], a rule whose node accepts every token, and
    the candidate that it makes of the last token. *)
Definition sentence_dont : list ParsedToken :=
  match foldM (read_line plain_re whole_numbers [] "doc" false)
              [row_dont; row_do; row_nt] initial_driver with
  | Ok d => set_last (conll_tokens d)
  | _ => []
  end.

Definition rule_any : Transformation :=
  compiled_rule (row ["text=/.*/"; "none"; "last"]) "1".

Definition candidate_nt : Match :=
  {| m_def_index := 1; m_token := 2; m_groups := [] |}.

(** The candidates of [rule_ab] on [st_abc], and what [matches_relation]
    returns for them. *)
Definition candidates_ab : list (Z * list Match) :=
  match collect_node_matches (definitions rule_ab) (tokens st_abc) [] with
  | Ok node_matches => node_matches
  | _ => []
  end.

Definition related_ab : bool * list (Z * list Match) * list ResultSet :=
  match matches_relation whole_numbers (tokens st_abc) candidates_ab "#1>#2" [] with
  | Ok r => r
  | _ => (false, [], [])
  end.

(** [st_abc] after [rule_ab]. *)
Definition processed_abc : store :=
  match process_sentence plain_re whole_numbers [rule_ab] st_abc with
  | Ok st => st
  | _ => st_abc
  end.

(** The sentence with a super-token as a state, a rule that gives the
    verb a lemma, and the state after that rule. *)
Definition st_dont : store :=
  {| tokens := sentence_dont;
     sentence := {| sentence_string := EmptyString; length := 2;
                    annotations := []; sent_num := 0 |} |}.

Definition rule_verb : Transformation :=
  compiled_rule (row ["pos=/V/"; "none"; "#1:lemma=Q"]) "1".

Definition processed_dont : store :=
  match process_sentence plain_re whole_numbers [rule_verb] st_dont with
  | Ok st => st
  | _ => st_dont
  end.

(** A row of eight columns, and the driver after that row and after one
    more row of ten columns. *)
Definition row_eight : string := row ["1"; "a"; "_"; "X"; "_"; "_"; "0"; "root"].

Definition after_row_eight : driver :=
  match read_token whole_numbers initial_driver row_eight with
  | Ok d => d
  | _ => initial_driver
  end.

Definition after_row_ten : driver :=
  match foldM (read_line plain_re whole_numbers [] "doc" false) [row_2] after_row_eight with
  | Ok d => d
  | _ => initial_driver
  end.

(** The driver after a sentence with a super-token, a blank line and the
    first row of a second sentence. *)
Definition driver_mid_document : driver :=
  match foldM (read_line plain_re whole_numbers [] "doc" false)
              [row_dont; row_do; row_nt; EmptyString; row_1] initial_driver with
  | Ok d => d
  | _ => initial_driver
  end.

(** The driver after the three rows of the sentence with a super-token,
    and after that sentence has been written. *)
Definition driver_first_sentence : driver :=
  match foldM (read_line plain_re whole_numbers [] "doc" true)
              [row_dont; row_do; row_nt] initial_driver with
  | Ok d => d
  | _ => initial_driver
  end.

Definition driver_first_written : driver :=
  match _process_sentence plain_re whole_numbers [] "doc" true driver_first_sentence with
  | Ok d => d
  | _ => initial_driver
  end.

(** An object without rules, and the object that a call of
    [add_transformation] leaves. *)
Definition no_rules : DepEdit :=
  {| transformations := []; user_transformation_counter := 0 |}.

Definition after_call (r : raised DepEdit) : DepEdit :=
  match r with
  | Completed (Ok d) => d
  | _ => no_rules
  end.

(** The rule [rule_next] written with the shorthand [.*], and the
    integer-coerced ids of the tokens of [st_abc] by their places. *)
Definition rule_later : Transformation :=
  compiled_rule (row ["pos=/X/;pos=/X/"; "#1.*#2"; "#2:lemma=LATER"]) "1".

Definition ident_abc (i : nat) : Z := Z.of_nat i + 1.

Definition candidate (def_index : Z) (token : nat) : Match :=
  {| m_def_index := def_index; m_token := token; m_groups := [] |}.




(** A bin with one node and no relation. *)
Definition bin_without_relation : result :=
  {| nodes := [(1, 1%nat)]; rels := [];
     matchers := [{| m_def_index := 1; m_token := 1; m_groups := [] |}];
     groups := [] |}.

(** The pattern of the node test [text=/a.*b/], compiled. *)
Definition pattern_a_b : compiled :=
  match compile_pattern "^a.*b$" with
  | Ok c => c
  | _ => fun _ => None
  end.

(** ** Predicates of the proofs *)

(** [c] occurs in [s]. *)
Fixpoint has_char (c : ascii) (s : string) : bool :=
  match s with
  | EmptyString => false
  | String a r => Ascii.eqb a c || has_char c r
  end.

(** A non-empty string of decimal digits: the number of a node. *)
Definition digit_string (d : string) : Prop :=
  d <> EmptyString /\ Py.all_chars Py.is_digit d = true.

(** The node keys of a binding, and the node keys that the bindings of
    a relation have: they follow from the text of the relation alone. *)
Definition keys_of (s : ResultSet) : list Z := map fst (rs_nodes s).

Definition seed_keys (relation : string) : list Z :=
  if relation ==? "none" then [1]
  else match relation_operator relation with
       | Ok (operator, field) =>
           match relation_nodes relation operator field with
           | Ok (node1, node2, _) => map fst (int_set [(node1, 0%nat)] node2 0%nat)
           | _ => []
           end
       | _ => []
       end.

(** Every candidate filed under a node was made by the definition of
    that node. *)
Definition wf_node_matches (node_matches : list (Z * list Match)) : Prop :=
  forall k m, In m (nm_get node_matches k) -> m_def_index m = k.

(** A list of matchers whose first entry is for a node of [nodes]. *)
Definition headed (matchers : list Match) (nodes : list (Z * nat)) : Prop :=
  exists m ms, matchers = m :: ms /\ has_key nodes (m_def_index m) = true.

(** A binding as [matches_relation] makes them, for one of the relations
    [l]: its node keys are those of its relation, at most two, and its
    first matcher is for one of them. *)
Definition seed_of (l : list string) (s : ResultSet) : Prop :=
  keys_of s = seed_keys (rs_rel s)
  /\ In (rs_rel s) l
  /\ (List.length (rs_nodes s) <= 2)%nat
  /\ headed (rs_matchers s) (rs_nodes s).

(** What the first loop of [merge_sets] keeps true of a bin, for the
    bindings [sets] and the heap [h]: no relation twice, every relation
    that of a binding and with all its node keys in the bin, and the
    first shared matcher for a node of the bin. *)
Definition bin_inv (sets : list ResultSet) (h : list (list Match)) (b : bin) : Prop :=
  NoDup (b_rels b)
  /\ (forall x, In x (b_rels b) ->
        In x (map rs_rel sets)
        /\ forall k, In k (seed_keys x) -> has_key (b_nodes b) k = true)
  /\ headed (heap_get h (b_matchers b)) (b_nodes b).

(** The first entry of every non-empty list of [h] is still the first
    entry of that list in [h']. *)
Definition heap_ext (h h' : list (list Match)) : Prop :=
  forall r m ms, heap_get h r = m :: ms -> exists ms', heap_get h' r = m :: ms'.

(** The two links of a chain that [normalize_shorthand] is shown to
    split: dominance and adjacency. *)
Definition is_link (o : string) : Prop := o = ">" \/ o = ".".

(** The instruction lines of a rule file with their positions, counted
    from [first]. *)
Definition numbered_instructions (config_file : list string) (first : nat)
  : list (nat * string) :=
  filter (fun p => is_instruction (snd p))
         (combine (seq first (List.length config_file)) config_file).


(** What holds of a candidate [m] over the tokens [toks]: its token is
    one of the sentence and no super-token, and none of its tuples of
    groups is empty. *)
Definition sound_candidate (toks : list ParsedToken) (m : Match) : Prop :=
  (exists tok, nth_error toks (m_token m) = Some tok
                /\ truthy (is_super_tok tok) = false)
  /\ forall g, In g (m_groups m) -> g <> [].

(** [st'] has as many tokens as [st], and the sentence of [st] but for
    its annotations. *)
Definition same_frame (st st' : store) : Prop :=
  List.length (tokens st') = List.length (tokens st)
  /\ sent_num (sentence st') = sent_num (sentence st)
  /\ length (sentence st') = length (sentence st)
  /\ sentence_string (sentence st') = sentence_string (sentence st).

(** What [run_depedit] writes for an input line that holds no token:
    a comment and a blank line are kept, anything else is dropped. *)
Definition passed_line (myline0 : string) : list string :=
  let myline := Py.strip myline0 in
  if Py.startswith myline "#" then [myline]
  else if myline ==? EmptyString then [EmptyString]
  else [].

(** The counters of the driver account for every token read. *)
Definition counters_agree (d : driver) : Prop :=
  List.length (conll_tokens d)
  = (tokoffset d + supertok_offset d + sentlength d + supertok_length d)%nat.

(** The tokens that the driver has read since the last end of a
    sentence: the slice that [_process_sentence] takes. *)
Definition pending (d : driver) : list ParsedToken :=
  skipn (tokoffset d + supertok_offset d) (conll_tokens d).

Definition is_super (t : ParsedToken) : bool := truthy (is_super_tok t).

(** The slice holds the tokens of the rows of the current sentence, one
    for each row and in their order, and the two counters of the
    sentence count its tokens and its super-tokens. *)
Definition slice_agrees (d : driver) : Prop :=
  map num (pending d) = map (column 0) (sentence_lines d)
  /\ sentlength d = List.length (filter (fun t => negb (is_super t)) (pending d))
  /\ supertok_length d = List.length (filter is_super (pending d)).

(** A line that holds a token: it has a tab once stripped, and is no
    comment. *)
Definition token_line (myline0 : string) : Prop :=
  Py.contains TAB (Py.strip myline0) = true
  /\ Py.startswith (Py.strip myline0) "#" = false.

(** [t] with [h] as its head. *)
Definition with_head (t : ParsedToken) (h : string) : ParsedToken :=
  {| id := id t; text := text t; lemma := lemma t; pos := pos t; cpos := cpos t;
     morph := morph t; head := h; func := func t; head2 := head2 t;
     func2 := func2 t; num := num t; child_funcs := child_funcs t;
     position := position t; is_super_tok := is_super_tok t;
     sentence_ := sentence_ t; extra := extra t |}.

(** The binding that a rule with one node makes of a candidate: what
    [matches_relation] files for the relation [none], the bin of
    [merge_sets] for it, and the binding with its groups. *)
Definition unary_seed (m : Match) : ResultSet :=
  {| rs_nodes := [(1, m_token m)]; rs_rel := "none"; rs_matchers := [m] |}.

Fixpoint unary_bins (k : nat) (ms : list Match) : list bin :=
  match ms with
  | [] => []
  | m :: r => {| b_nodes := [(1, m_token m)]; b_rels := ["none"]; b_matchers := k |}
              :: unary_bins (S k) r
  end.

Definition unary_solution (m : Match) : result :=
  {| nodes := [(1, m_token m)]; rels := ["none"]; matchers := [m]; groups := [] |}.

Definition unary_binding (m : Match) : result :=
  {| nodes := [(1, m_token m)]; rels := ["none"]; matchers := [m];
     groups := map (hd None) (m_groups m) |}.

(** The pattern [v] of a test between its slashes, as
    [DefinitionMatcher.__init__] anchors it. *)
Definition anchored (v : string) : string :=
  let v1 := match Py.first_char v with
            | Some "^"%char => v
            | _ => "^" ++ v
            end in
  match Py.last_char v1 with
  | Some "$"%char => v1
  | _ => v1 ++ "$"
  end.

(** The bindings that a relation of distance has by the words of the
    specification.  [ident] gives the integer-coerced id of a token.  A
    candidate of the first node and a candidate of the second are
    related when the id of the second minus the id of the first lies
    between [lo] and [hi], both included; the pairs come in the order of
    the candidates of the first node and, for each, of the second. *)
Definition in_range (ident : nat -> Z) (lo hi : Z) (m1 m2 : Match) : bool :=
  (lo <=? ident (m_token m2) - ident (m_token m1))
  && (ident (m_token m2) - ident (m_token m1) <=? hi).

Definition pairs_within (ident : nat -> Z) (lo hi : Z) (c1 c2 : list Match)
  : list (Match * Match) :=
  flat_map (fun m1 => map (pair m1) (filter (in_range ident lo hi m1) c2)) c1.

(** The binding that [matches_relation] files for a pair. *)
Definition binding_of (relation : string) (node1 node2 : Z) (p : Match * Match)
  : ResultSet :=
  {| rs_nodes := int_set [(node1, m_token (fst p))] node2 (m_token (snd p));
     rs_rel := relation;
     rs_matchers := [fst p; snd p] |}.

(** The candidates of a relation are tokens of the sentence whose ids
    are numbers. *)
Definition numbered (fl : NumLib) (toks : list ParsedToken) (ident : nat -> Z)
           (c : list Match) : Prop :=
  forall m, In m c ->
    exists tok, nth_error toks (m_token m) = Some tok
                /\ int_float fl (id tok) = Ok (ident (m_token m)).

(** The dictionary [matches] of [matches_relation]: what a pair adds to
    it, and the tokens that it holds for a node. *)
Definition add_pair (node1 node2 : Z) (matches : list (Z * list nat))
           (p : Match * Match) : list (Z * list nat) :=
  matches_add (matches_add matches node1 (m_token (fst p))) node2 (m_token (snd p)).

Definition held (matches : list (Z * list nat)) (k : Z) : list nat :=
  match int_get matches k with Some l => l | None => [] end.

(** The state that [_process_sentence] hands to [process_sentence]: the
    slice of the tokens, the last token read marked as such, and the
    current sentence with its length. *)
Definition sentence_state (d : driver) : store :=
  {| tokens := skipn (tokoffset d + supertok_offset d) (set_last (conll_tokens d));
     sentence := {| sentence_string := sentence_string (current_sentence d);
                    length := Z.of_nat (sentlength d);
                    annotations := annotations (current_sentence d);
                    sent_num := sent_num (current_sentence d) |} |}.







(** A rule that sets [pos], and after it a rule whose node test
    captures one group and whose second action refers to a first and to
    a second group; the binding that the second rule has on the
    sentence of [row_1]; and the states of that sentence on the way to
    the second action. *)
Definition rule_retag : Transformation :=
  compiled_rule (row ["text=/a/"; "none"; "#1:pos=Y"]) "1".

Definition rule_two_groups : Transformation :=
  compiled_rule (row ["text=/(a)/"; "none"; "#1:func=x;#1:lemma=$1$2"]) "2".

Definition binding_one_group : result :=
  {| nodes := [(1, 0%nat)]; rels := ["none"];
     matchers := [{| m_def_index := 1; m_token := 0; m_groups := [[Some "a"]] |}];
     groups := [Some "a"] |}.

Definition driver_one_row : driver :=
  match foldM (read_line plain_re whole_numbers [rule_retag; rule_two_groups; rule_after]
                         "doc" false)
              [row_1] initial_driver with
  | Ok d => d
  | _ => initial_driver
  end.

Definition store_of (o : outcome (store * bool)) : store :=
  match o with
  | Ok (st, _) => st
  | _ => {| tokens := []; sentence := Sentence_init EmptyString 1 |}
  end.

Definition state_retagged : store :=
  store_of (transformations_loop plain_re whole_numbers [rule_retag]
                                 (sentence_state driver_one_row)).

Definition state_func_set : store :=
  store_of (actions_loop plain_re [binding_one_group] ["#1:func=x"] state_retagged).

(** * Properties *)

Unset Implicit Arguments.

(** ** The worked sentence *)

(** Reading [row_a], [row_b] and [row_c] leaves the driver with the
    tokens that [st_abc] holds, once the last one is marked. *)
Lemma st_abc_is_read :
  match foldM (read_line plain_re whole_numbers [] "doc" false)
              [row_a; row_b; row_c] initial_driver with
  | Ok d => set_last (conll_tokens d) = tokens st_abc
  | _ => False
  end.
Proof. vm_compute. reflexivity. Qed.

(** ** The sentence counter *)

(** Whatever number the driver passes, a new [Sentence] has [sent_num]
    0. *)
Lemma Sentence_init_sent_num (s : string) (n : Z) :
  sent_num (Sentence_init s n) = 0.
Proof. reflexivity. Qed.

(** C6: with the [sent_id] option, a document of two sentences gets the
    comment [# sent_id = doc-0] after the first sentence and again after
    the second: the counter does not advance, and neither sentence is
    numbered 1 or 2. *)
Theorem C6_sent_id_repeats_zero :
  depedit [] [row_1; EmptyString; row_1] true
  = Ok [row_1; "# sent_id = doc-0"; EmptyString; row_1; "# sent_id = doc-0"].
Proof. vm_compute. reflexivity. Qed.

(** ** Super-tokens *)

(** C3: the super-token row [row_dont] has [3.0] in its head column; in
    the output the id column is still [1-2] but the head column is [3],
    so the head is not the character string of the input. *)
Theorem C3_super_token_head_rewritten :
  column 6 row_dont = "3.0"
  /\ depedit [] [row_dont; row_do; row_nt] false = Ok [row_dont_written; row_do; row_nt]
  /\ column 0 row_dont_written = "1-2"
  /\ column 6 row_dont_written = "3".
Proof. repeat split; vm_compute; reflexivity. Qed.

(** ** Order of execution *)

(** C1, as stated, fails: [rule_ab] has the two bindings [bindings_ab]
    on [st_abc]; the engine leaves the lemmas [A], [B], [B], while
    running all actions on the first binding before the second leaves
    [A], [B], [A]. *)
Lemma C1_counterexample :
  find_bindings whole_numbers rule_ab (tokens st_abc) = Ok bindings_ab
  /\ lemmas (apply_transformation plain_re whole_numbers rule_ab st_abc) = ["A"; "B"; "B"]
  /\ lemmas (binding_major plain_re bindings_ab (actions rule_ab) st_abc) = ["A"; "B"; "A"]
  /\ apply_transformation plain_re whole_numbers rule_ab st_abc
     <> binding_major plain_re bindings_ab (actions rule_ab) st_abc.
Proof.
  split; [vm_compute; reflexivity |].
  split; [vm_compute; reflexivity |].
  split; [vm_compute; reflexivity |].
  intro H. apply (f_equal lemmas) in H. vm_compute in H. discriminate H.
Qed.

(** *** Strings without a given character *)

Lemma prefix_chr (c a : ascii) (r : string) :
  prefix (Py.chr c) (String a r) = Ascii.eqb a c.
Proof.
  unfold Py.chr. simpl. destruct (Ascii.ascii_dec c a) as [->|Hne].
  - rewrite Ascii.eqb_refl. destruct r; reflexivity.
  - symmetry. apply Ascii.eqb_neq. congruence.
Qed.

Lemma has_char_app (c : ascii) (s t : string) :
  has_char c (s ++ t) = has_char c s || has_char c t.
Proof.
  induction s as [|a r IH]; simpl; [reflexivity |].
  rewrite IH. apply orb_assoc.
Qed.

Lemma split_chr_pieces (c : ascii) (s : string) :
  Forall (fun p => has_char c p = false) (Py.split s (Py.chr c)).
Proof.
  unfold Py.split. induction s as [|a r IH].
  - constructor; [reflexivity | constructor].
  - cbn [Py.split_go]. rewrite prefix_chr.
    destruct (Ascii.eqb a c) eqn:E.
    + constructor; [reflexivity | exact IH].
    + destruct (Py.split_go (Py.chr c) 0 r) as [|h t]; simpl.
      * constructor; [simpl; rewrite E; reflexivity | constructor].
      * inversion IH; subst. constructor; [simpl; rewrite E; assumption | assumption].
Qed.

Lemma split_chr_none (c : ascii) (s : string) :
  has_char c s = false -> Py.split s (Py.chr c) = [s].
Proof.
  unfold Py.split. induction s as [|a r IH]; intros H; [reflexivity |].
  simpl in H. apply orb_false_iff in H. destruct H as [E H].
  cbn [Py.split_go]. rewrite prefix_chr, E, (IH H). reflexivity.
Qed.

Lemma replace_go_keeps_out (c : ascii) (old new : string) :
  has_char c new = false ->
  forall s k, has_char c s = false -> has_char c (Py.replace_go old new k s) = false.
Proof.
  intros Hn. induction s as [|a r IH]; intros k H; [reflexivity |].
  simpl in H. apply orb_false_iff in H. destruct H as [E H].
  cbn [Py.replace_go]. destruct k as [|k]; [| apply IH; exact H].
  destruct (prefix old (String a r)).
  - rewrite has_char_app, Hn. apply IH; exact H.
  - simpl. rewrite E. apply IH; exact H.
Qed.

Lemma handle_aliases_keeps_out (s : string) :
  has_char ";" s = false -> has_char ";" (handle_aliases s) = false.
Proof.
  unfold handle_aliases.
  assert (Hall : Forall (fun st => has_char ";" (":" ++ snd st ++ "=") = false) ALIASES)
    by (repeat constructor).
  revert Hall. generalize ALIASES as tbl. intros tbl Hall. revert s.
  induction Hall as [|st tbl Hst Hall IH]; intros s H; [exact H |].
  simpl. apply IH. unfold Py.replace. apply replace_go_keeps_out; assumption.
Qed.

(** The actions that the compiler stores hold no semicolon. *)
Lemma compiled_actions_single (re : ReLib) (text line : string) (t : Transformation) :
  Transformation_init re text line = Ok t ->
  Forall (fun action => has_char ";" action = false) (actions t).
Proof.
  unfold Transformation_init, parse_transformation. intros H.
  destruct (Py.split text (Py.chr "009")) as [|d [|r [|a [|x l]]]]; simpl in H;
    try discriminate H.
  destruct (normalize_shorthand r); simpl in H; [| discriminate H].
  destruct (normalize_shorthand a) as [a'|]; simpl in H; [| discriminate H].
  destruct (build_definitions re _ 1); simpl in H; try discriminate H.
  injection H as <-. simpl.
  apply Forall_map. eapply Forall_impl; [| apply (split_chr_pieces ";")].
  intros p Hp. apply handle_aliases_keeps_out. exact Hp.
Qed.

Lemma execute_on_single (re : ReLib) (r : result) (action : string) (st : store) :
  execute_on re r [action] st = execute_one re r st action.
Proof.
  simpl. destruct (execute_one re r st action) as [[st' [|]]| |]; reflexivity.
Qed.

Lemma execute_action_single (re : ReLib) (result_sets : list result)
      (action : string) (st : store) :
  has_char ";" action = false ->
  execute_action re result_sets action st = apply_to_all re result_sets action st.
Proof.
  intros H. unfold execute_action.
  change ";" with (Py.chr ";"). rewrite (split_chr_none _ _ H).
  revert st. induction result_sets as [|r rest IH]; intros st; [reflexivity |].
  cbn [execute_results apply_to_all]. rewrite execute_on_single.
  destruct (execute_one re r st action) as [[st' [|]]| |]; simpl;
    [reflexivity | apply IH | reflexivity | reflexivity].
Qed.

(** C1, amended: for every rule that the compiler builds, the executor
    is action-major: it takes the actions in declaration order and
    applies each one to every binding, in the order of the bindings,
    before it turns to the next action. *)
Theorem C1_execution_is_action_major
        (re : ReLib) (text line : string) (t : Transformation)
        (result_sets : list result) (st : store) :
  Transformation_init re text line = Ok t ->
  actions_loop re result_sets (actions t) st
  = action_major re result_sets (actions t) st.
Proof.
  intros H. apply compiled_actions_single in H.
  revert st. induction H as [|action rest Ha _ IH]; intros st; [reflexivity |].
  cbn [actions_loop action_major]. rewrite (execute_action_single re _ _ st Ha).
  destruct (apply_to_all re result_sets action st) as [[st' [|]]| |]; simpl;
    [reflexivity | apply IH | reflexivity | reflexivity].
Qed.

Lemma C1_execution_is_action_major_witness :
  Transformation_init plain_re rule_ab_text "1" = Ok rule_ab
  /\ actions_loop plain_re bindings_ab (actions rule_ab) st_abc
     = action_major plain_re bindings_ab (actions rule_ab) st_abc.
Proof.
  split; [vm_compute; reflexivity |].
  apply (@C1_execution_is_action_major plain_re rule_ab_text "1" rule_ab bindings_ab st_abc).
  vm_compute; reflexivity.
Defined.

(** ** The [last] action *)

Lemma execute_action_last (re : ReLib) (r : result) (rest : list result) (st : store) :
  execute_action re (r :: rest) "last" st = Ok (st, true).
Proof. reflexivity. Qed.

Lemma actions_loop_app (re : ReLib) (result_sets : list result)
      (pre post : list string) (st st1 : store) :
  actions_loop re result_sets pre st = Ok (st1, false) ->
  actions_loop re result_sets (pre ++ post) st = actions_loop re result_sets post st1.
Proof.
  revert st. induction pre as [|a pre IH]; intros st H.
  - simpl in H. injection H as ->. reflexivity.
  - cbn [actions_loop app] in *.
    destruct (execute_action re result_sets a st) as [[st' [|]]| |]; simpl in *;
      try discriminate H.
    apply IH. exact H.
Qed.

Lemma transformations_loop_app (re : ReLib) (fl : NumLib)
      (before rest : list Transformation) (st0 st : store) :
  transformations_loop re fl before st0 = Ok (st, false) ->
  transformations_loop re fl (before ++ rest) st0 = transformations_loop re fl rest st.
Proof.
  revert st0. induction before as [|t before IH]; intros st0 H.
  - simpl in H. injection H as ->. reflexivity.
  - cbn [transformations_loop app] in *.
    destruct (apply_transformation re fl t st0) as [[st' [|]]| |]; simpl in *;
      try discriminate H.
    apply IH. exact H.
Qed.

(** C4: when the rules before [t] have run on the sentence without a
    [last], [t] has at least one binding, and the actions of [t] before
    its [last] have run and left the state [st1], then
    [process_sentence] ends with [st1]: neither the actions [post] after
    [last] nor the rules [rest] after [t] change a token or an
    annotation. *)
Theorem C4_last_ends_the_sentence
        (re : ReLib) (fl : NumLib) (before rest : list Transformation)
        (t : Transformation) (st0 st st1 : store) (result_sets : list result)
        (pre post : list string) :
  transformations_loop re fl before st0 = Ok (st, false) ->
  find_bindings fl t (tokens st) = Ok result_sets ->
  result_sets <> [] ->
  actions t = (pre ++ "last" :: post)%list ->
  actions_loop re result_sets pre st = Ok (st1, false) ->
  process_sentence re fl (before ++ t :: rest) st0 = Ok st1.
Proof.
  intros Hb Hf Hne Ha Hp. unfold process_sentence.
  rewrite (transformations_loop_app re fl _ _ _ _ Hb).
  cbn [transformations_loop]. unfold apply_transformation. rewrite Hf. simpl.
  destruct result_sets as [|r rs]; [contradiction |].
  rewrite Ha, (actions_loop_app re _ _ _ _ _ Hp).
  cbn [actions_loop]. rewrite execute_action_last. reflexivity.
Qed.

Lemma C4_last_ends_the_sentence_witness :
  find_bindings whole_numbers rule_stop (tokens st_abc) = Ok bindings_stop
  /\ actions rule_stop = ["#S:tagged=yes"; "last"; "#1:lemma=Z"]
  /\ process_sentence plain_re whole_numbers ([] ++ rule_stop :: [rule_after]) st_abc
     = Ok (annotate st_abc "tagged" "yes").
Proof.
  split; [vm_compute; reflexivity |].
  split; [vm_compute; reflexivity |].
  apply (@C4_last_ends_the_sentence plain_re whole_numbers [] [rule_after] rule_stop
           st_abc st_abc (annotate st_abc "tagged" "yes") bindings_stop
           ["#S:tagged=yes"] ["#1:lemma=Z"]).
  - reflexivity.
  - vm_compute; reflexivity.
  - discriminate.
  - vm_compute; reflexivity.
  - vm_compute; reflexivity.
Defined.

(** ** Back-references *)

Lemma foldM_app {A S : Type} (f : S -> A -> outcome S) (l1 l2 : list A) (s s1 : S) :
  foldM f l1 s = Ok s1 -> foldM f (l1 ++ l2) s = foldM f l2 s1.
Proof.
  revert s. induction l1 as [|x l1 IH]; intros s H.
  - simpl in H. injection H as ->. reflexivity.
  - cbn [foldM app] in *. destruct (f s x); simpl in *; try discriminate H.
    apply IH. exact H.
Qed.

Lemma py_index_beyond {A : Type} (l : list A) (n : Z) :
  Z.of_nat (List.length l) < n -> py_index l (n - 1) = None.
Proof.
  intros H. unfold py_index.
  assert (E1 : (n - 1 <? 0) = false) by (apply Z.ltb_ge; lia).
  assert (E2 : (Z.of_nat (List.length l) <=? n - 1) = true) by (apply Z.leb_le; lia).
  cbv zeta. rewrite E1. cbv iota. rewrite E1, E2. reflexivity.
Qed.

Lemma expand_ref_missing (re : ReLib) (action : string) (groups : list (option string))
      (value g : string) (case : letter_case) (n : Z) :
  parse_ref g = Ok (case, n) ->
  Z.of_nat (List.length groups) < n ->
  expand_ref re action groups value g = Exit (missing_group action n).
Proof.
  intros Hg Hn. unfold expand_ref. rewrite Hg. simpl.
  rewrite (py_index_beyond _ _ Hn). reflexivity.
Qed.

Lemma apply_to_all_app (re : ReLib) (before rest : list result) (action : string)
      (st st1 : store) :
  apply_to_all re before action st = Ok (st1, false) ->
  apply_to_all re (before ++ rest) action st = apply_to_all re rest action st1.
Proof.
  revert st. induction before as [|r before IH]; intros st H.
  - simpl in H. injection H as ->. reflexivity.
  - cbn [apply_to_all app] in *.
    destruct (execute_one re r st action) as [[st' [|]]| |]; simpl in *;
      try discriminate H.
    apply IH. exact H.
Qed.

(** *** A fatal error ends the run *)

Lemma _process_sentence_exit (re : ReLib) (fl : NumLib) (ts : list Transformation)
      (docname : string) (sent_id : bool) (d : driver) (diag : string) :
  process_sentence re fl ts (sentence_state d) = Exit diag ->
  _process_sentence re fl ts docname sent_id d = Exit diag.
Proof.
  unfold _process_sentence, sentence_state. intros H. rewrite H. reflexivity.
Qed.

Lemma foldM_app_exit {A S : Type} (f : S -> A -> outcome S) (l1 l2 : list A) (x : A)
      (s s1 : S) (diag : string) :
  foldM f l1 s = Ok s1 -> f s1 x = Exit diag -> foldM f (l1 ++ x :: l2) s = Exit diag.
Proof.
  intros H1 H2. rewrite (foldM_app _ _ _ _ _ H1). cbn [foldM]. rewrite H2. reflexivity.
Qed.

Lemma run_depedit_exit (re : ReLib) (fl : NumLib) (ts : list Transformation)
      (docname : string) (sent_id newdoc : bool) (inpre : list string) (d : driver)
      (diag : string) :
  foldM (read_line re fl ts docname sent_id) inpre initial_driver = Ok d ->
  sentlength d <> 0%nat ->
  process_sentence re fl ts (sentence_state d) = Exit diag ->
  run_depedit re fl ts docname sent_id inpre newdoc = Exit diag
  /\ forall l inpost,
      Py.contains TAB (Py.strip l) = false ->
      run_depedit re fl ts docname sent_id (inpre ++ l :: inpost) newdoc = Exit diag.
Proof.
  intros Hd Hs Hp. apply Nat.eqb_neq in Hs.
  pose proof (_process_sentence_exit re fl ts docname sent_id d diag Hp) as He.
  split.
  - unfold run_depedit, run_lines. rewrite Hd. cbn [bind]. rewrite Hs. cbn [negb].
    rewrite He. reflexivity.
  - intros l inpost Hl. unfold run_depedit, run_lines.
    rewrite (foldM_app_exit _ inpre inpost l _ d diag Hd); [reflexivity |].
    unfold read_line. change (Py.chr "009") with TAB. rewrite Hl, Hs. cbn [negb andb].
    unfold end_sentence. rewrite He. reflexivity.
Qed.

(** C9: let [action] be an assignment of the rule [t], stored by the
    compiler without a semicolon, whose value holds the back-reference
    [g] with number [n], and let the references before [g] expand.  Let
    the rules before [t] and the actions of [t] before [action] run
    without a [last], and let the action reach the binding [r] after
    the bindings [before].  If [n] exceeds the number of groups
    collected for [r], executing the action is fatal: [process_sentence]
    ends the run with the diagnostic [missing_group action n], which
    quotes the action and the number, and so does [run_depedit] on every
    input whose sentence this is, whether the sentence is ended by a
    line without a tab or by the end of the input; nothing is written. *)
Theorem C9_missing_group_is_fatal
        (re : ReLib) (fl : NumLib) (tbefore trest : list Transformation)
        (t : Transformation) (st0 st st' st1 : store)
        (before : list result) (r : result) (rest : list result)
        (action : string) (apre more : list string) (node_position : Z)
        (pre post : list string) (g v : string) (case : letter_case) (n : Z) :
  has_char ";" action = false ->
  (action ==? "last") = false ->
  Py.contains ":" action = true ->
  Py.startswith action "#S:" = false ->
  Py.int (Py.slice action 1 (Py.find action ":")) = Ok node_position ->
  findall_refs (Py.strip (Py.slice_from action (Py.find action "=" + 1)))
  = (pre ++ g :: post)%list ->
  foldM (expand_ref re action (groups r)) pre
        (Py.strip (Py.slice_from action (Py.find action "=" + 1))) = Ok v ->
  parse_ref g = Ok (case, n) ->
  Z.of_nat (List.length (groups r)) < n ->
  transformations_loop re fl tbefore st0 = Ok (st, false) ->
  find_bindings fl t (tokens st) = Ok (before ++ r :: rest)%list ->
  actions t = (apre ++ action :: more)%list ->
  actions_loop re (before ++ r :: rest) apre st = Ok (st', false) ->
  apply_to_all re before action st' = Ok (st1, false) ->
  actions_loop re (before ++ r :: rest) (action :: more) st'
  = Exit (missing_group action n)
  /\ process_sentence re fl (tbefore ++ t :: trest) st0 = Exit (missing_group action n)
  /\ (forall docname sent_id newdoc inpre d,
        foldM (read_line re fl (tbefore ++ t :: trest) docname sent_id) inpre initial_driver
        = Ok d ->
        sentlength d <> 0%nat ->
        sentence_state d = st0 ->
        run_depedit re fl (tbefore ++ t :: trest) docname sent_id inpre newdoc
        = Exit (missing_group action n)
        /\ forall l inpost,
            Py.contains TAB (Py.strip l) = false ->
            run_depedit re fl (tbefore ++ t :: trest) docname sent_id
                        (inpre ++ l :: inpost) newdoc
            = Exit (missing_group action n))
  /\ missing_group action n
     = "The action '" ++ action ++ "' refers to a missing regex bracket group '$"
       ++ Py.str_int n ++ "'".
Proof.
  intros Hs Hl Hc HS Hp Hrefs Hpre Hg Hn Hb Hf Ha Hap Hbe.
  assert (H1 : actions_loop re (before ++ r :: rest) (action :: more) st'
               = Exit (missing_group action n)).
  { cbn [actions_loop]. rewrite (execute_action_single re _ _ st' Hs).
    rewrite (apply_to_all_app re _ _ _ _ _ Hbe).
    cbn [apply_to_all]. unfold execute_one.
    rewrite Hl, Hc, HS, Hp. cbn [bind].
    rewrite Hrefs, (foldM_app _ _ _ _ _ Hpre). cbn [foldM].
    rewrite (expand_ref_missing re action _ v _ _ _ Hg Hn). reflexivity. }
  assert (H2 : process_sentence re fl (tbefore ++ t :: trest) st0
               = Exit (missing_group action n)).
  { unfold process_sentence.
    rewrite (transformations_loop_app re fl _ _ _ _ Hb).
    cbn [transformations_loop]. unfold apply_transformation. rewrite Hf. cbn [bind].
    destruct (before ++ r :: rest)%list as [|b0 bs] eqn:Eb;
      [destruct before; discriminate Eb |].
    rewrite Ha, (actions_loop_app re _ _ _ _ _ Hap), H1. reflexivity. }
  split; [exact H1 |]. split; [exact H2 |]. split; [| reflexivity].
  intros docname sent_id newdoc inpre d Hd Hsl Hst.
  apply (run_depedit_exit re fl _ docname sent_id newdoc inpre d _ Hd Hsl).
  rewrite Hst. exact H2.
Qed.

Lemma C9_missing_group_is_fatal_witness :
  foldM (read_line plain_re whole_numbers ([rule_retag] ++ rule_two_groups :: [rule_after])
                   "doc" false) [row_1] initial_driver
  = Ok driver_one_row
  /\ map pos (tokens state_retagged) = ["Y"]
  /\ find_bindings whole_numbers rule_two_groups (tokens state_retagged)
     = Ok [binding_one_group]
  /\ actions rule_two_groups = ["#1:func=x"; "#1:lemma=$1$2"]
  /\ map func (tokens state_func_set) = ["x"]
  /\ process_sentence plain_re whole_numbers ([rule_retag] ++ rule_two_groups :: [rule_after])
                      (sentence_state driver_one_row)
     = Exit (missing_group "#1:lemma=$1$2" 2)
  /\ run_depedit plain_re whole_numbers ([rule_retag] ++ rule_two_groups :: [rule_after])
                 "doc" false [row_1] false
     = Exit (missing_group "#1:lemma=$1$2" 2)
  /\ run_depedit plain_re whole_numbers ([rule_retag] ++ rule_two_groups :: [rule_after])
                 "doc" false ([row_1] ++ EmptyString :: [row_2]) false
     = Exit (missing_group "#1:lemma=$1$2" 2)
  /\ missing_group "#1:lemma=$1$2" 2
     = "The action '" ++ "#1:lemma=$1$2"
       ++ "' refers to a missing regex bracket group '$" ++ Py.str_int 2 ++ "'".
Proof.
  assert (Hd : foldM (read_line plain_re whole_numbers
                                ([rule_retag] ++ rule_two_groups :: [rule_after])
                                "doc" false) [row_1] initial_driver
               = Ok driver_one_row) by (vm_compute; reflexivity).
  split; [exact Hd |].
  split; [vm_compute; reflexivity |]. split; [vm_compute; reflexivity |].
  split; [vm_compute; reflexivity |]. split; [vm_compute; reflexivity |].
  destruct (C9_missing_group_is_fatal plain_re whole_numbers [rule_retag] [rule_after]
              rule_two_groups
              (sentence_state driver_one_row) state_retagged state_func_set state_func_set
              [] binding_one_group [] "#1:lemma=$1$2" ["#1:func=x"] [] 1
              ["$1"] [] "$2" "a$2" case_none 2)
    as (_ & H2 & H3 & H4); try (vm_compute; reflexivity).
  split; [exact H2 |].
  destruct (H3 "doc" false false [row_1] driver_one_row Hd) as (R1 & R2).
  - discriminate.
  - reflexivity.
  - split; [exact R1 |]. split; [| exact H4].
    apply (R2 EmptyString [row_2]). reflexivity.
Defined.

(** ** Loading a rule file *)

Lemma contains_prefix (s t : string) : prefix s t = true -> Py.contains s t = true.
Proof. intros H. destruct t; cbn [Py.contains]; rewrite H; reflexivity. Qed.

Lemma prefix_app (s b : string) : prefix s (s ++ b) = true.
Proof.
  induction s as [|a s IH]; simpl; [destruct b; reflexivity |].
  destruct (Ascii.ascii_dec a a); [exact IH | contradiction].
Qed.

Lemma contains_app_skip (s a t : string) :
  Py.contains s t = true -> Py.contains s (a ++ t) = true.
Proof.
  intros H. induction a as [|c a IH]; [exact H |].
  cbn [append Py.contains]. rewrite IH. destruct (prefix s _); reflexivity.
Qed.

Lemma contains_middle (s a b : string) : Py.contains s (a ++ s ++ b) = true.
Proof. apply contains_app_skip, contains_prefix, prefix_app. Qed.

Lemma append_assoc (a b c : string) : (a ++ b) ++ c = a ++ b ++ c.
Proof. induction a as [|x a IH]; simpl; [reflexivity | rewrite IH; reflexivity]. Qed.


Lemma load_instructions_app (re : ReLib) (pre rest : list string) (n : Z)
      (ts : list Transformation) :
  load_instructions re pre n = Ok ts ->
  load_instructions re (pre ++ rest) n
  = (ts' <- load_instructions re rest (n + Z.of_nat (List.length pre)) ;;
     Ok (ts ++ ts')%list).
Proof.
  revert n ts. induction pre as [|l pre IH]; intros n ts H.
  - simpl in H. injection H as <-. simpl. rewrite Z.add_0_r.
    destruct (load_instructions re rest n); reflexivity.
  - cbn [load_instructions app List.length] in *.
    replace (n + Z.of_nat (S (List.length pre)))
      with (n + 1 + Z.of_nat (List.length pre)) by lia.
    destruct (is_instruction l).
    + destruct (Transformation_init re l (Py.str_int n)) as [t| |]; simpl in *;
        try discriminate H.
      destruct (load_instructions re pre (n + 1)) as [ts0| |] eqn:E; simpl in *;
        try discriminate H.
      injection H as <-. rewrite (IH _ _ E).
      destruct (load_instructions re rest _); reflexivity.
    + apply IH. exact H.
Qed.



(** ** Sentence boundaries *)

Lemma _process_sentence_counters (re : ReLib) (fl : NumLib)
      (ts : list Transformation) (docname : string) (sent_id : bool) (d d1 : driver) :
  _process_sentence re fl ts docname sent_id d = Ok d1 ->
  tokoffset d1 = tokoffset d /\ supertok_offset d1 = supertok_offset d
  /\ sentlength d1 = sentlength d /\ supertok_length d1 = supertok_length d.
Proof.
  unfold _process_sentence. intros H.
  destruct (process_sentence re fl ts _) as [st| |]; simpl in H; try discriminate H.
  destruct (serialize_output_tree fl _ _ _) as [tree| |]; simpl in H; try discriminate H.
  injection H as <-. repeat split.
Qed.

Lemma find_absent (sub s : string) (i : Z) :
  Py.contains sub s = false -> Py.find_from sub s i = -1.
Proof.
  revert i. induction s as [|a r IH]; intros i H; cbn [Py.contains Py.find_from] in *.
  - destruct (prefix sub EmptyString); [discriminate H | reflexivity].
  - destruct (prefix sub (String a r)); [discriminate H | apply IH; exact H].
Qed.

(** C8, as stated, fails: with the comment [# note] between the rows of
    two adjacent tokens, the first row is processed and numbered as a
    sentence of its own before the comment, and the rule for a token
    that follows another, which marks the second token when the rows
    are read without the comment, leaves it unmarked. *)
Lemma C8_counterexample :
  depedit [rule_next] [row_1; row_2] true
  = Ok [row_1; row_2_marked; "# sent_id = doc-0"]
  /\ depedit [rule_next] [row_1; "# note"; row_2] true
     = Ok [row_1; "# sent_id = doc-0"; "# note"; row_2; "# sent_id = doc-0"].
Proof. split; vm_compute; reflexivity. Qed.

(** ** Empty patterns *)

Lemma mapM_app_raise {A B : Type} (f : A -> outcome B) (pre post : list A) (x : A)
      (ds : list B) (e : exn) :
  mapM f pre = Ok ds -> f x = Raise e -> mapM f (pre ++ x :: post) = Raise e.
Proof.
  revert ds. induction pre as [|y pre IH]; intros ds H Hx.
  - simpl. rewrite Hx. reflexivity.
  - cbn [mapM app] in *. destruct (f y); simpl in *; try discriminate H.
    destruct (mapM f pre) as [ys| |]; simpl in *; try discriminate H.
    rewrite (IH ys eq_refl Hx). reflexivity.
Qed.

Lemma build_definitions_app_raise (re : ReLib) (dpre dpost : list string)
      (clause : string) (k : Z) (dms : list DefinitionMatcher) (e : exn) :
  build_definitions re dpre k = Ok dms ->
  (forall i, DefinitionMatcher_init re clause i = Raise e) ->
  build_definitions re (dpre ++ clause :: dpost) k = Raise e.
Proof.
  revert k dms. induction dpre as [|y dpre IH]; intros k dms H Hx.
  - simpl. rewrite Hx. reflexivity.
  - cbn [build_definitions app] in *.
    destruct (DefinitionMatcher_init re y k); simpl in *; try discriminate H.
    destruct (build_definitions re dpre (k + 1)) as [ys| |] eqn:E; simpl in *;
      try discriminate H.
    rewrite (IH _ ys E Hx). reflexivity.
Qed.

Lemma parse_def_item_empty_pattern (re : ReLib) (f : string) (negated : bool) :
  In f node_fields ->
  parse_def_item re (f ++ (if negated then "!" else EmptyString) ++ "=//")
  = Raise IndexError.
Proof.
  intros H. unfold node_fields in H. simpl in H.
  repeat (destruct H as [<- | H]; [destruct negated; reflexivity |]).
  contradiction.
Qed.

Lemma empty_pattern_validates (f : string) (negated : bool) :
  In f node_fields ->
  Rx.matches rx_node_field (f ++ (if negated then "!" else EmptyString) ++ "=//") = true.
Proof.
  intros H. unfold node_fields in H. simpl in H.
  repeat (destruct H as [<- | H]; [destruct negated; vm_compute; reflexivity |]).
  contradiction.
Qed.

(** C10: let a rule line have three segments whose relations and actions
    normalize, and let a node clause of it hold the sub-clause
    [f=//] or [f!=//] for one of the field names [f] of the validation
    pattern, the node clauses and sub-clauses before it being
    well-formed.  The validation pattern accepts the sub-clause, but
    building the [Transformation] raises [IndexError], so that
    [read_config_file] raises too and reports nothing. *)
Theorem C10_empty_pattern_raises
        (re : ReLib) (text line d r a r' a' : string)
        (dpre dpost : list string) (clause : string) (dms : list DefinitionMatcher)
        (pre post : list string) (ds : list Definition_) (f : string) (negated : bool) :
  In f node_fields ->
  Py.split text TAB = [d; r; a] ->
  normalize_shorthand r = Some r' ->
  normalize_shorthand a = Some a' ->
  map (fun _def => Py.replace _def "%%%%%" ";") (Py.split (escape d ";" "/") ";")
  = (dpre ++ clause :: dpost)%list ->
  build_definitions re dpre 1 = Ok dms ->
  Py.split (escape clause "&" "/") "&"
  = (pre ++ (f ++ (if negated then "!" else EmptyString) ++ "=//")%string :: post)%list ->
  mapM (parse_def_item re) pre = Ok ds ->
  Rx.matches rx_node_field (f ++ (if negated then "!" else EmptyString) ++ "=//") = true
  /\ Transformation_init re text line = Raise IndexError
  /\ (is_instruction text = true ->
      forall old clear, read_config_file re old [text] clear = Raise IndexError).
Proof.
  intros Hf Hs Hr Ha Hd Hb Hc Hp.
  assert (Hinit : forall i, DefinitionMatcher_init re clause i = Raise IndexError).
  { intros i. unfold DefinitionMatcher_init. rewrite Hc.
    rewrite (mapM_app_raise _ _ _ _ _ _ Hp (parse_def_item_empty_pattern re f negated Hf)).
    reflexivity. }
  assert (Ht : forall l, Transformation_init re text l = Raise IndexError).
  { intros l. unfold Transformation_init, parse_transformation.
    change (Py.chr "009") with TAB. rewrite Hs, Hr, Ha. cbn [of_option bind].
    rewrite Hd, (build_definitions_app_raise re _ _ _ _ _ _ Hb Hinit). reflexivity. }
  split; [apply empty_pattern_validates; exact Hf |].
  split; [apply Ht |].
  intros Hi old clear. unfold read_config_file. cbn [load_instructions].
  rewrite Hi, Ht. reflexivity.
Qed.

Lemma C10_empty_pattern_raises_witness :
  Rx.matches rx_node_field ("text" ++ EmptyString ++ "=//") = true
  /\ Transformation_init plain_re empty_pattern_text "1" = Raise IndexError
  /\ (is_instruction empty_pattern_text = true ->
      forall old clear,
        read_config_file plain_re old [empty_pattern_text] clear = Raise IndexError).
Proof.
  apply (@C10_empty_pattern_raises plain_re empty_pattern_text "1" "text=//" "none" "last"
           "none" "last" [] [] "text=//" [] [] [] [] "text" false);
    vm_compute; auto.
Defined.

(** ** The shorthand [.*] *)

Lemma append_empty (s : string) : s ++ EmptyString = s.
Proof. induction s as [|a s IH]; simpl; [reflexivity | rewrite IH; reflexivity]. Qed.

Lemma length_append (s t : string) :
  String.length (s ++ t) = (String.length s + String.length t)%nat.
Proof. induction s as [|a s IH]; simpl; [reflexivity | rewrite IH; reflexivity]. Qed.

(** What the scanners need to know about a digit. *)
Lemma digit_facts (a : ascii) :
  Py.is_digit a = true ->
  Ascii.eqb a "#" = false /\ Ascii.eqb a "." = false /\ Ascii.eqb a "," = false
  /\ Ascii.eqb a "=" = false /\ Ascii.eqb a ">" = false /\ Ascii.eqb a "_" = false
  /\ is_newline a = false /\ Py.is_space a = false
  /\ Ascii.eqb a "-" = false /\ Ascii.eqb a "+" = false.
Proof.
  destruct a as [[|] [|] [|] [|] [|] [|] [|] [|]]; vm_compute; intros H;
    try discriminate H; repeat split.
Qed.

Ltac digit_cases a H :=
  destruct (digit_facts a H) as
    (Ehash & Edot & Ecomma & Eeq & Egt & Eunder & Enl & Esp & Eminus & Eplus).

Lemma all_digits_cons (a : ascii) (d : string) :
  Py.all_chars Py.is_digit (String a d) = true ->
  Py.is_digit a = true /\ Py.all_chars Py.is_digit d = true.
Proof. simpl. intros H. apply andb_true_iff in H. exact H. Qed.

Lemma scan_digits_app (d t : string) :
  Py.all_chars Py.is_digit d = true ->
  (match t with String b _ => Py.is_digit b | EmptyString => false end) = false ->
  scan_digits (d ++ t) = (d, t).
Proof.
  intros Hd Ht. induction d as [|a d IH].
  - simpl. destruct t as [|b t]; [reflexivity |]. simpl. rewrite Ht. reflexivity.
  - apply all_digits_cons in Hd. destruct Hd as [Ha Hd].
    cbn [append scan_digits]. rewrite Ha, (IH Hd). reflexivity.
Qed.

Lemma has_char_digits (c : ascii) (d : string) :
  Py.is_digit c = false -> Py.all_chars Py.is_digit d = true -> has_char c d = false.
Proof.
  intros Hc. induction d as [|a d IH]; intros Hd; [reflexivity |].
  apply all_digits_cons in Hd. destruct Hd as [Ha Hd]. simpl. rewrite (IH Hd).
  destruct (Ascii.eqb a c) eqn:E; [| reflexivity].
  apply Ascii.eqb_eq in E. subst. congruence.
Qed.

Lemma contains_absent_char (c : ascii) (x s : string) :
  has_char c s = false -> Py.contains (String c x) s = false.
Proof.
  induction s as [|a s IH]; intros H; [reflexivity |].
  simpl in H. apply orb_false_iff in H. destruct H as [E H].
  cbn [Py.contains prefix].
  destruct (Ascii.ascii_dec c a) as [->|_].
  - rewrite Ascii.eqb_refl in E. discriminate E.
  - apply IH. exact H.
Qed.

Lemma is_digit_cases (a : ascii) :
  Py.is_digit a = true ->
  a = "0"%char \/ a = "1"%char \/ a = "2"%char \/ a = "3"%char \/ a = "4"%char
  \/ a = "5"%char \/ a = "6"%char \/ a = "7"%char \/ a = "8"%char \/ a = "9"%char.
Proof.
  destruct a as [[|] [|] [|] [|] [|] [|] [|] [|]]; vm_compute; intros H;
    try discriminate H; tauto.
Qed.

(** Case analysis on a digit, for goals that compute once the digit is
    known. *)
Ltac by_digit a H :=
  destruct (is_digit_cases a H)
    as [-> | [-> | [-> | [-> | [-> | [-> | [-> | [-> | [-> | ->]]]]]]]]].

Lemma replace_go_digits (c : ascii) (x new d t : string) :
  Py.is_digit c = false ->
  Py.all_chars Py.is_digit d = true ->
  Py.replace_go (String c x) new 0 (d ++ t) = d ++ Py.replace_go (String c x) new 0 t.
Proof.
  intros Hc Hd. induction d as [|a d IH]; [reflexivity |].
  apply all_digits_cons in Hd. destruct Hd as [Ha Hd].
  cbn [append Py.replace_go prefix].
  destruct (Ascii.ascii_dec c a) as [->|_]; [congruence |].
  rewrite (IH Hd). reflexivity.
Qed.

Lemma scan_node_digit (a : ascii) (r : string) :
  Py.is_digit a = true -> scan_node (String a r) = None.
Proof. intros H. by_digit a H; reflexivity. Qed.

Lemma chain_sub_go_digits (d t : string) :
  Py.all_chars Py.is_digit d = true ->
  chain_sub_go 0 (d ++ t) = d ++ chain_sub_go 0 t.
Proof.
  intros Hd. induction d as [|a d IH]; [reflexivity |].
  apply all_digits_cons in Hd. destruct Hd as [Ha Hd].
  cbn [append chain_sub_go]. unfold try_chain. rewrite (scan_node_digit _ _ Ha), (IH Hd).
  reflexivity.
Qed.

Lemma has_dot_digit_digits (d t : string) :
  Py.all_chars Py.is_digit d = true -> has_dot_digit (d ++ t) = has_dot_digit t.
Proof.
  intros Hd. induction d as [|a d IH]; [reflexivity |].
  apply all_digits_cons in Hd. destruct Hd as [Ha Hd].
  cbn [append has_dot_digit]. digit_cases a Ha. rewrite Enl, Edot, (IH Hd). reflexivity.
Qed.

Lemma dot_match_end_digits (d t : string) (i : nat) :
  Py.all_chars Py.is_digit d = true ->
  dot_match_end (d ++ t) i = dot_match_end t (i + String.length d).
Proof.
  intros Hd. revert i. induction d as [|a d IH]; intros i.
  - simpl. rewrite Nat.add_0_r. reflexivity.
  - apply all_digits_cons in Hd. destruct Hd as [Ha Hd].
    cbn [append dot_match_end String.length]. digit_cases a Ha.
    rewrite Enl, Edot, (IH Hd).
    replace (i + S (String.length d))%nat with (S i + String.length d)%nat by lia.
    destruct (dot_match_end t (S i + String.length d)); reflexivity.
Qed.

Lemma dot_match_end_no_dot (s : string) (i : nat) :
  has_char "." s = false -> dot_match_end s i = None.
Proof.
  revert i. induction s as [|a s IH]; intros i H; [reflexivity |].
  simpl in H. apply orb_false_iff in H. destruct H as [E H].
  cbn [dot_match_end]. rewrite (IH _ H), E.
  destruct (is_newline a); reflexivity.
Qed.

Lemma prefix_digit (c a : ascii) (x r : string) :
  Py.is_digit c = false -> Py.is_digit a = true ->
  prefix (String c x) (String a r) = false.
Proof.
  intros Hc Ha. simpl. destruct (Ascii.ascii_dec c a) as [->|_]; [congruence | reflexivity].
Qed.

Lemma split_go_digits (c : ascii) (x d t h : string) (tl : list string) :
  Py.is_digit c = false ->
  Py.all_chars Py.is_digit d = true ->
  Py.split_go (String c x) 0 t = h :: tl ->
  Py.split_go (String c x) 0 (d ++ t) = (d ++ h) :: tl.
Proof.
  intros Hc Hd Ht. induction d as [|a d IH]; [exact Ht |].
  apply all_digits_cons in Hd. destruct Hd as [Ha Hd].
  cbn [append Py.split_go]. rewrite (prefix_digit _ _ _ _ Hc Ha), (IH Hd). reflexivity.
Qed.

Lemma find_from_digits (c : ascii) (x d t : string) (i : Z) :
  Py.is_digit c = false ->
  Py.all_chars Py.is_digit d = true ->
  Py.find_from (String c x) (d ++ t) i = Py.find_from (String c x) t (i + Py.len d).
Proof.
  intros Hc Hd. revert i. induction d as [|a d IH]; intros i.
  - simpl. unfold Py.len. simpl. rewrite Z.add_0_r. reflexivity.
  - apply all_digits_cons in Hd. destruct Hd as [Ha Hd].
    cbn [append Py.find_from]. rewrite (prefix_digit _ _ _ _ Hc Ha), (IH Hd).
    unfold Py.len. cbn [String.length]. f_equal. lia.
Qed.

Lemma rfind_from_last (c : ascii) (s : string) (i best : Z) :
  Py.rfind_from c (s ++ Py.chr c) i best = i + Py.len s.
Proof.
  revert i best. induction s as [|a s IH]; intros i best.
  - simpl. rewrite Ascii.eqb_refl. unfold Py.len. simpl. lia.
  - cbn [append Py.rfind_from]. rewrite IH. unfold Py.len. cbn [String.length]. lia.
Qed.

Lemma substring_skip (p t : string) (m : nat) :
  substring (String.length p) m (p ++ t) = substring 0 m t.
Proof. induction p as [|a p IH]; [reflexivity | exact IH]. Qed.

Lemma substring_prefix (p t : string) :
  substring 0 (String.length p) (p ++ t) = p.
Proof.
  induction p as [|a p IH]; simpl.
  - destruct t; reflexivity.
  - rewrite IH. reflexivity.
Qed.

Lemma strip_of_digits (space : ascii -> bool) (d : string) :
  (forall a, Py.is_digit a = true -> space a = false) ->
  Py.all_chars Py.is_digit d = true ->
  Py.rstrip_of space (Py.lstrip_of space d) = d.
Proof.
  intros Hsp Hd.
  assert (Hl : forall d, Py.all_chars Py.is_digit d = true -> Py.lstrip_of space d = d).
  { intros [|a r] Hr; [reflexivity |].
    apply all_digits_cons in Hr. destruct Hr as [Ha _].
    simpl. rewrite (Hsp a Ha). reflexivity. }
  rewrite (Hl d Hd). induction d as [|a d IH]; [reflexivity |].
  apply all_digits_cons in Hd. destruct Hd as [Ha Hd].
  cbn [Py.rstrip_of]. rewrite (IH Hd), (Hsp a Ha).
  destruct d; reflexivity.
Qed.

Lemma strip_digits (d : string) :
  Py.all_chars Py.is_digit d = true -> Py.strip d = d.
Proof.
  intros Hd. apply strip_of_digits; [| exact Hd].
  intros a Ha. digit_cases a Ha. exact Esp.
Qed.

Lemma int_strip_digits (d : string) :
  Py.all_chars Py.is_digit d = true ->
  Py.rstrip_of Py.is_int_space (Py.lstrip_of Py.is_int_space d) = d.
Proof.
  intros Hd. apply strip_of_digits; [| exact Hd].
  intros a Ha. by_digit a Ha; reflexivity.
Qed.

Lemma int_body_digits (d : string) (prev : bool) (acc : Z) :
  Py.all_chars Py.is_digit d = true ->
  (d <> EmptyString \/ prev = true) ->
  Py.int_body prev acc d = Some (Py.digits_val acc d).
Proof.
  revert prev acc. induction d as [|a d IH]; intros prev acc Hd Hne.
  - destruct Hne as [Hne | ->]; [contradiction | reflexivity].
  - apply all_digits_cons in Hd. destruct Hd as [Ha Hd].
    cbn [Py.int_body Py.digits_val]. rewrite Ha. apply IH; [exact Hd | right; reflexivity].
Qed.

Lemma int_digits (d : string) :
  digit_string d -> Py.int d = Ok (Py.digits_val 0 d).
Proof.
  intros [Hne Hd]. unfold Py.int. rewrite (int_strip_digits _ Hd).
  destruct d as [|a r]; [contradiction |].
  pose proof (int_body_digits _ false 0 Hd (or_introl Hne)) as Hb.
  apply all_digits_cons in Hd. destruct Hd as [Ha Hr].
  by_digit a Ha; cbn [Py.first_char Py.is_digit] in *; simpl Py.is_digit;
    cbv iota beta; rewrite Hb; simpl; rewrite ?Z.add_0_l;
    try reflexivity; destruct (Py.digits_val _ r); reflexivity.
Qed.

Lemma prefix_empty (s : string) : prefix EmptyString s = true.
Proof. destruct s; reflexivity. Qed.

Lemma node_number_digits (d : string) :
  digit_string d -> node_number (String "#" d) = Ok (Py.digits_val 0 d).
Proof.
  intros Hd.
  assert (E : Py.replace_go "#" EmptyString 0 d = d).
  { rewrite <- (append_empty d) at 1.
    rewrite (replace_go_digits "#" EmptyString EmptyString d EmptyString eq_refl (proj2 Hd)).
    cbn [Py.replace_go]. apply append_empty. }
  unfold node_number, Py.replace. cbn [Py.replace_go prefix].
  destruct (Ascii.ascii_dec "#" "#") as [_|Hn]; [| contradiction].
  rewrite prefix_empty. cbn [String.length Nat.sub append].
  rewrite E. apply int_digits. exact Hd.
Qed.

Lemma replace_go_all_digits (c : ascii) (x new d : string) :
  Py.is_digit c = false ->
  Py.all_chars Py.is_digit d = true ->
  Py.replace_go (String c x) new 0 d = d.
Proof.
  intros Hc Hd. rewrite <- (append_empty d) at 1.
  rewrite (replace_go_digits c x new d EmptyString Hc Hd). apply append_empty.
Qed.

Lemma star_replaced (di dj : string) :
  digit_string di -> digit_string dj ->
  Py.replace ("#" ++ di ++ ".*#" ++ dj) ".*" ".1,1000" = "#" ++ di ++ ".1,1000#" ++ dj.
Proof.
  intros [_ Hi] [_ Hj]. unfold Py.replace. cbn [append Py.replace_go prefix].
  destruct (Ascii.ascii_dec "." "#") as [E|_]; [discriminate E |].
  rewrite (replace_go_digits "." "*" ".1,1000" di _ eq_refl Hi).
  f_equal. f_equal. cbn.
  rewrite (replace_go_all_digits "." "*" ".1,1000" dj eq_refl Hj). reflexivity.
Qed.

Lemma scan_node_digits (d t : string) :
  digit_string d ->
  (match t with String b _ => Py.is_digit b | EmptyString => false end) = false ->
  scan_node (String "#" (d ++ t)) = Some (String "#" d, t).
Proof.
  intros [Hne Hd] Ht. cbn [scan_node]. rewrite (scan_digits_app d t Hd Ht).
  destruct d; [contradiction | reflexivity].
Qed.

Lemma try_chain_ranged (di dj : string) :
  digit_string di -> digit_string dj ->
  try_chain (String "#" (di ++ ".1,1000#" ++ dj)) = None
  /\ try_chain (String "#" dj) = None.
Proof.
  intros Hi Hj.
  assert (Ej : scan_node (String "#" dj) = Some (String "#" dj, EmptyString)).
  { rewrite <- (append_empty dj) at 1. apply scan_node_digits; [exact Hj | reflexivity]. }
  split.
  - unfold try_chain. rewrite (scan_node_digits di (".1,1000#" ++ dj) Hi eq_refl).
    assert (Eop : scan_op (".1,1000#" ++ dj) = Some (".1,1000", String "#" dj))
      by reflexivity.
    rewrite Eop, Ej. reflexivity.
  - unfold try_chain. rewrite Ej. reflexivity.
Qed.

Lemma chain_sub_ranged (di dj : string) :
  digit_string di -> digit_string dj ->
  chain_sub ("#" ++ di ++ ".1,1000#" ++ dj) = "#" ++ di ++ ".1,1000#" ++ dj.
Proof.
  intros Hi Hj. destruct (try_chain_ranged di dj Hi Hj) as [E1 E2].
  cbn [append] in E1. unfold chain_sub. cbn [append chain_sub_go]. rewrite E1.
  rewrite (chain_sub_go_digits di _ (proj2 Hi)).
  f_equal. f_equal. cbn. rewrite E2.
  rewrite <- (append_empty dj) at 1.
  rewrite (chain_sub_go_digits dj EmptyString (proj2 Hj)). cbn.
  rewrite append_empty. reflexivity.
Qed.

Lemma normalize_ranged (di dj : string) :
  digit_string di -> digit_string dj ->
  normalize_shorthand ("#" ++ di ++ ".*#" ++ dj) = Some ("#" ++ di ++ ".1,1000#" ++ dj)
  /\ normalize_shorthand ("#" ++ di ++ ".1,1000#" ++ dj)
     = Some ("#" ++ di ++ ".1,1000#" ++ dj).
Proof.
  intros Hi Hj.
  assert (Hloop : forall n, normalize_loop (S n) ("#" ++ di ++ ".1,1000#" ++ dj)
                            = Some ("#" ++ di ++ ".1,1000#" ++ dj)).
  { intros n. cbn [normalize_loop]. rewrite (chain_sub_ranged di dj Hi Hj).
    rewrite String.eqb_refl. reflexivity. }
  split.
  - unfold normalize_shorthand. rewrite (star_replaced di dj Hi Hj). apply Hloop.
  - unfold normalize_shorthand.
    assert (E : Py.replace ("#" ++ di ++ ".1,1000#" ++ dj) ".*" ".1,1000"
                = "#" ++ di ++ ".1,1000#" ++ dj).
    { unfold Py.replace. cbn [append Py.replace_go prefix].
      destruct (Ascii.ascii_dec "." "#") as [E|_]; [discriminate E |].
      rewrite (replace_go_digits "." "*" ".1,1000" di _ eq_refl (proj2 Hi)).
      f_equal. f_equal. cbn.
      rewrite (replace_go_all_digits "." "*" ".1,1000" dj eq_refl (proj2 Hj)).
      reflexivity. }
    rewrite E. apply Hloop.
Qed.

Lemma ranged_split (di dj : string) :
  "#" ++ di ++ ".1,1000#" ++ dj = (String "#" di ++ ".1,1000#") ++ dj.
Proof. cbn [append]. rewrite append_assoc. reflexivity. Qed.

Lemma relation_operator_ranged (di dj : string) :
  digit_string di -> digit_string dj ->
  relation_operator ("#" ++ di ++ ".1,1000#" ++ dj) = Ok (Some ".1,1000", None).
Proof.
  intros Hi Hj. unfold relation_operator.
  (* no doubled equals sign *)
  assert (E1 : Py.contains "==" ("#" ++ di ++ ".1,1000#" ++ dj) = false).
  { apply contains_absent_char. cbn [append has_char]. rewrite has_char_app.
    rewrite (has_char_digits "=" di eq_refl (proj2 Hi)). cbn [append has_char].
    rewrite (has_char_digits "=" dj eq_refl (proj2 Hj)). reflexivity. }
  rewrite E1.
  (* a dot, followed by a digit *)
  assert (E2 : Py.contains "." ("#" ++ di ++ ".1,1000#" ++ dj) = true).
  { apply (contains_app_skip "." (String "#" di) (".1,1000#" ++ dj)). reflexivity. }
  rewrite E2.
  assert (E3 : has_dot_digit ("#" ++ di ++ ".1,1000#" ++ dj) = true).
  { cbn [append has_dot_digit]. rewrite (has_dot_digit_digits di _ (proj2 Hi)).
    reflexivity. }
  rewrite E3.
  (* the match ends after the hash sign *)
  assert (E4 : dot_match_end ("#" ++ di ++ ".1,1000#" ++ dj) 0
               = Some (String.length (String "#" di ++ ".1,1000#"))).
  { cbn [append dot_match_end]. rewrite (dot_match_end_digits di _ 1 (proj2 Hi)).
    cbn [dot_match_end].
    rewrite dot_match_end_no_dot.
    2:{ cbn [has_char]. rewrite (has_char_digits "." dj eq_refl (proj2 Hj)). reflexivity. }
    assert (Ea : after_dot (String "1" (String "," (String "1" (String "0" (String "0"
                   (String "0" (String "#" dj))))))) = Some 7%nat) by reflexivity.
    cbn [is_newline Ascii.eqb Bool.eqb]. rewrite Ea.
    cbn [is_newline Ascii.eqb Bool.eqb String.length]. rewrite length_append.
    cbn [String.length]. f_equal. lia. }
  rewrite E4. cbn [of_option bind].
  rewrite (ranged_split di dj), substring_prefix.
  (* from the first dot to the last hash sign *)
  assert (E5 : Py.find (String "#" di ++ ".1,1000#") "." = 1 + Py.len di).
  { unfold Py.find. cbn [append Py.find_from prefix].
    destruct (Ascii.ascii_dec "." "#") as [E|_]; [discriminate E |].
    rewrite (find_from_digits "." EmptyString di _ (0 + 1) eq_refl (proj2 Hi)).
    reflexivity. }
  assert (E6 : Py.rfind (String "#" di ++ ".1,1000#") "#" = 1 + Py.len di + 7).
  { unfold Py.rfind.
    replace (String "#" di ++ ".1,1000#") with ((String "#" di ++ ".1,1000") ++ Py.chr "#")
      by (rewrite append_assoc; reflexivity).
    rewrite rfind_from_last. unfold Py.len. rewrite length_append.
    cbn [String.length]. lia. }
  rewrite E5, E6. unfold Py.slice, Py.norm_index, Py.len.
  rewrite length_append. cbn [String.length].
  assert (L1 : (1 + Z.of_nat (String.length di) <? 0) = false) by (apply Z.ltb_ge; lia).
  assert (L2 : (1 + Z.of_nat (String.length di) + 7 <? 0) = false) by (apply Z.ltb_ge; lia).
  rewrite L1, L2.
  replace (Z.to_nat (Z.min (1 + Z.of_nat (String.length di))
                           (Z.of_nat (S (String.length di) + 8))))
    with (String.length (String "#" di)) by (cbn [String.length]; lia).
  replace (Z.to_nat (Z.min (1 + Z.of_nat (String.length di) + 7)
                           (Z.of_nat (S (String.length di) + 8))
                     - Z.min (1 + Z.of_nat (String.length di))
                             (Z.of_nat (S (String.length di) + 8))))
    with 7%nat by lia.
  rewrite substring_skip. reflexivity.
Qed.

Lemma split_ranged (di dj : string) :
  digit_string di -> digit_string dj ->
  Py.split ("#" ++ di ++ ".1,1000#" ++ dj) ".1,1000" = [String "#" di; String "#" dj].
Proof.
  intros Hi Hj. unfold Py.split. cbn [append Py.split_go prefix].
  destruct (Ascii.ascii_dec "." "#") as [E|_]; [discriminate E |].
  assert (Ej : Py.split_go ".1,1000" 0 dj = [dj]).
  { rewrite <- (append_empty dj) at 1.
    rewrite (split_go_digits "." "1,1000" dj EmptyString EmptyString [] eq_refl (proj2 Hj) eq_refl).
    rewrite append_empty. reflexivity. }
  rewrite (split_go_digits "." "1,1000" di _ EmptyString [String "#" dj] eq_refl (proj2 Hi)).
  - rewrite append_empty. reflexivity.
  - cbn. rewrite Ej. reflexivity.
Qed.

Lemma relation_nodes_ranged (di dj : string) :
  digit_string di -> digit_string dj ->
  relation_nodes ("#" ++ di ++ ".1,1000#" ++ dj) (Some ".1,1000") None
  = Ok (Py.digits_val 0 di, Py.digits_val 0 dj, Some ".1,1000").
Proof.
  intros Hi Hj. unfold relation_nodes.
  assert (E1 : Py.contains "==" ("#" ++ di ++ ".1,1000#" ++ dj) = false).
  { apply contains_absent_char. cbn [append has_char]. rewrite has_char_app.
    rewrite (has_char_digits "=" di eq_refl (proj2 Hi)). cbn [append has_char].
    rewrite (has_char_digits "=" dj eq_refl (proj2 Hj)). reflexivity. }
  rewrite E1. cbn [split_by bind]. rewrite (split_ranged di dj Hi Hj).
  cbn [mapM]. rewrite (node_number_digits di Hi), (node_number_digits dj Hj).
  reflexivity.
Qed.

Lemma test_relation_ranged (fl : NumLib) (tok_i tok_j : ParsedToken) (a b : Z) :
  int_float fl (id tok_j) = Ok a ->
  int_float fl (id tok_i) = Ok b ->
  test_relation fl tok_i tok_j (Some ".1,1000")
  = Ok ((a - b <=? 1000) && (1 <=? a - b)).
Proof.
  intros Ha Hb. unfold test_relation.
  change (".1,1000" ==? ".") with false. change (".1,1000" ==? ">") with false.
  change (Py.contains "." ".1,1000") with true.
  change (parse_distance ".1,1000") with (Some ("1", Some ",1000")).
  cbn [of_option bind].
  change (Py.int "1") with (Ok 1).
  change (Py.int (Py.replace ",1000" "," EmptyString)) with (Ok 1000).
  cbn [bind]. rewrite Ha, Hb. reflexivity.
Qed.

(** ** Rules with a relation that has no hit *)

Lemma foldM_invariant {A S : Type} (P : S -> Prop) (f : S -> A -> outcome S)
      (l : list A) :
  forall (s s' : S),
    (forall s x s', In x l -> P s -> f s x = Ok s' -> P s') ->
    P s -> foldM f l s = Ok s' -> P s'.
Proof.
  induction l as [|x l IH]; intros s s' Hf Hs H.
  - simpl in H. injection H as <-. exact Hs.
  - cbn [foldM] in H. destruct (f s x) as [s1| |] eqn:E; simpl in H; try discriminate H.
    apply (IH s1 s').
    + intros s2 y s3 Hy. apply Hf. right. exact Hy.
    + apply (Hf s x s1); [left; reflexivity | exact Hs | exact E].
    + exact H.
Qed.

Lemma int_get_set {V : Type} (d : list (Z * V)) (k k' : Z) (v : V) :
  int_get (int_set d k v) k' = if k' =? k then Some v else int_get d k'.
Proof.
  induction d as [|[k0 v0] d IH]; simpl.
  - rewrite (Z.eqb_sym k k'). reflexivity.
  - destruct (k0 =? k) eqn:E; simpl.
    + apply Z.eqb_eq in E. subst k0. rewrite (Z.eqb_sym k k').
      destruct (k' =? k); reflexivity.
    + destruct (k0 =? k') eqn:E'; [| exact IH].
      apply Z.eqb_eq in E'. subst k0. rewrite E. reflexivity.
Qed.

Lemma has_key_In {V : Type} (d : list (Z * V)) (k : Z) :
  has_key d k = true <-> In k (map fst d).
Proof.
  unfold has_key. induction d as [|[k0 v0] d IH]; simpl.
  - split; [discriminate | contradiction].
  - destruct (k0 =? k) eqn:E.
    + apply Z.eqb_eq in E. split; [intros _; left; exact E | reflexivity].
    + apply Z.eqb_neq in E. rewrite IH. split; [intros H; right; exact H |].
      intros [H | H]; [contradiction | exact H].
Qed.

Lemma has_key_app {V : Type} (d e : list (Z * V)) (k : Z) :
  has_key d k = true -> has_key (d ++ e) k = true.
Proof.
  intros H. apply has_key_In. rewrite map_app. apply in_or_app. left.
  apply has_key_In. exact H.
Qed.

Lemma keys_pair (n1 n2 : Z) (t1 t2 : nat) :
  map fst (int_set [(n1, t1)] n2 t2) = map fst (int_set [(n1, 0%nat)] n2 0%nat).
Proof. simpl. destruct (n1 =? n2); reflexivity. Qed.

Lemma pair_shape (n1 n2 : Z) (t1 t2 : nat) :
  (List.length (int_set [(n1, t1)] n2 t2) <= 2)%nat
  /\ has_key (int_set [(n1, t1)] n2 t2) n1 = true.
Proof.
  unfold has_key. simpl. destruct (n1 =? n2) eqn:E; simpl; rewrite ?Z.eqb_refl;
    split; solve [lia | reflexivity].
Qed.

Lemma relate_pairs_seeds (fl : NumLib) (toks : list ParsedToken)
      (node_matches : list (Z * list Match)) (relation : string) (node1 node2 : Z)
      (operator : option string) (found : list ResultSet) (matches : list (Z * list nat)) :
  wf_node_matches node_matches ->
  relate_pairs fl toks node_matches relation node1 node2 operator = Ok (found, matches) ->
  Forall (fun s => rs_rel s = relation
                   /\ keys_of s = map fst (int_set [(node1, 0%nat)] node2 0%nat)
                   /\ (List.length (rs_nodes s) <= 2)%nat
                   /\ headed (rs_matchers s) (rs_nodes s)) found.
Proof.
  intros Hwf. unfold relate_pairs. intros H.
  set (Q := fun s => rs_rel s = relation
                     /\ keys_of s = map fst (int_set [(node1, 0%nat)] node2 0%nat)
                     /\ (List.length (rs_nodes s) <= 2)%nat
                     /\ headed (rs_matchers s) (rs_nodes s)).
  apply (foldM_invariant (fun acc => Forall Q (fst acc)) _ _ _ _) in H;
    [exact H | | constructor].
  intros acc matcher1 acc' Hin1 Hacc H1.
  apply (foldM_invariant (fun acc => Forall Q (fst acc)) _ _ _ _) in H1;
    [exact H1 | | exact Hacc].
  clear H1 Hacc acc acc' H. intros [fnd mts] matcher2 acc' _ Hacc H2.
  destruct (token_at toks (m_token matcher1)) as [tok1| |]; simpl in H2; try discriminate H2.
  destruct (token_at toks (m_token matcher2)) as [tok2| |]; simpl in H2; try discriminate H2.
  destruct (test_relation fl tok1 tok2 operator) as [[|]| |]; simpl in H2;
    try discriminate H2; injection H2 as <-; [| exact Hacc].
  cbn [fst]. apply Forall_app. split; [exact Hacc |].
  constructor; [| constructor]. unfold Q, keys_of. cbn [rs_nodes rs_rel rs_matchers].
  destruct (pair_shape node1 node2 (m_token matcher1) (m_token matcher2)) as [Hl Hk].
  split; [reflexivity |]. split; [apply keys_pair |]. split; [exact Hl |].
  exists matcher1, [matcher2]. split; [reflexivity |].
  rewrite (Hwf node1 matcher1 Hin1). exact Hk.
Qed.

Lemma prune_node_wf (node_matches : list (Z * list Match))
      (matches : list (Z * list nat)) (option : Z) :
  wf_node_matches node_matches -> wf_node_matches (prune_node node_matches matches option).
Proof.
  intros Hwf k m. unfold prune_node, nm_get. rewrite int_get_set.
  destruct (k =? option) eqn:E.
  - apply Z.eqb_eq in E. subst k. intros H. apply filter_In in H. destruct H as [H _].
    apply (Hwf option m H).
  - apply (Hwf k m).
Qed.

Lemma matches_relation_seeds (fl : NumLib) (toks : list ParsedToken)
      (node_matches node_matches' : list (Z * list Match)) (relation : string)
      (result_sets result_sets' : list ResultSet) (hit : bool) :
  wf_node_matches node_matches ->
  matches_relation fl toks node_matches relation result_sets
  = Ok (hit, node_matches', result_sets') ->
  wf_node_matches node_matches'
  /\ exists found,
       result_sets' = (result_sets ++ found)%list
       /\ Forall (seed_of [relation]) found.
Proof.
  intros Hwf. unfold matches_relation. intros H.
  destruct (relation ==? EmptyString).
  { injection H as _ <- <-. split; [exact Hwf |].
    exists []. split; [symmetry; apply app_nil_r | constructor]. }
  unfold seed_of, seed_keys.
  destruct (relation_operator relation) as [[operator field]| |] eqn:Eo; simpl in H;
    try discriminate H.
  destruct (relation ==? "none") eqn:En.
  { injection H as _ <- <-. split; [exact Hwf |].
    eexists. split; [reflexivity |].
    apply Forall_map. apply Forall_forall. intros m Hm. cbn [rs_rel rs_nodes rs_matchers].
    rewrite En. split; [reflexivity |]. split; [left; reflexivity |].
    split; [simpl; lia |]. exists m, []. split; [reflexivity |].
    rewrite (Hwf 1 m Hm). reflexivity. }
  destruct (relation_nodes relation operator field) as [[[node1 node2] op]| |] eqn:Er;
    simpl in H; try discriminate H.
  unfold relate in H.
  destruct (relate_pairs fl toks node_matches relation node1 node2 op)
    as [[found matches]| |] eqn:E; simpl in H; try discriminate H.
  injection H as _ <- <-. split; [do 2 apply prune_node_wf; exact Hwf |].
  exists found. split; [reflexivity |].
  eapply Forall_impl; [| exact (relate_pairs_seeds _ _ _ _ _ _ _ _ _ Hwf E)].
  intros s (Hr & Hk & Hl & Hh). rewrite Hr, En, Eo, Er.
  split; [exact Hk |]. split; [left; reflexivity |]. split; assumption.
Qed.

Lemma seed_of_incl (l l' : list string) (s : ResultSet) :
  incl l l' -> seed_of l s -> seed_of l' s.
Proof.
  intros Hi (Hk & Hin & Hl & Hh). split; [exact Hk |]. split; [apply Hi; exact Hin |].
  split; assumption.
Qed.

Lemma relations_loop_seeds (fl : NumLib) (toks : list ParsedToken)
      (relations : list string) :
  forall (done : list string) (node_matches node_matches' : list (Z * list Match))
         (result_sets result_sets' : list ResultSet),
    wf_node_matches node_matches ->
    Forall (seed_of done) result_sets ->
    relations_loop fl toks node_matches relations result_sets
    = Ok (node_matches', result_sets') ->
    Forall (seed_of (done ++ relations)) result_sets'.
Proof.
  induction relations as [|relation rest IH];
    intros done node_matches node_matches' result_sets result_sets' Hwf Hinv H.
  - simpl in H. injection H as _ <-. rewrite app_nil_r. exact Hinv.
  - cbn [relations_loop] in H.
    destruct (matches_relation fl toks node_matches relation result_sets)
      as [[[hit nm1] rs1]| |] eqn:E; simpl in H; try discriminate H.
    destruct (matches_relation_seeds _ _ _ _ _ _ _ _ Hwf E) as (Hwf1 & found & -> & Hfound).
    replace (done ++ relation :: rest)%list with ((done ++ [relation]) ++ rest)%list
      by (rewrite <- app_assoc; reflexivity).
    apply (IH (done ++ [relation])%list nm1 node_matches'
              (if hit then (result_sets ++ found)%list else []) result_sets');
      [exact Hwf1 | | exact H].
    destruct hit; [| constructor].
    apply Forall_app. split.
    + eapply Forall_impl; [| exact Hinv]. intros s. apply seed_of_incl.
      apply incl_appl, incl_refl.
    + eapply Forall_impl; [| exact Hfound]. intros s. apply seed_of_incl.
      apply incl_appr, incl_refl.
Qed.

Lemma relations_loop_wf (fl : NumLib) (toks : list ParsedToken)
      (relations : list string) :
  forall (node_matches node_matches' : list (Z * list Match))
         (result_sets result_sets' : list ResultSet),
    wf_node_matches node_matches ->
    relations_loop fl toks node_matches relations result_sets
    = Ok (node_matches', result_sets') ->
    wf_node_matches node_matches'.
Proof.
  induction relations as [|relation rest IH];
    intros node_matches node_matches' result_sets result_sets' Hwf H.
  - simpl in H. injection H as <- _. exact Hwf.
  - cbn [relations_loop] in H.
    destruct (matches_relation fl toks node_matches relation result_sets)
      as [[[hit nm1] rs1]| |] eqn:E; simpl in H; try discriminate H.
    destruct (matches_relation_seeds _ _ _ _ _ _ _ _ Hwf E) as (Hwf1 & _).
    exact (IH _ _ _ _ Hwf1 H).
Qed.

Lemma relations_loop_app (fl : NumLib) (toks : list ParsedToken)
      (pre : list string) :
  forall (rest : list string) (node_matches nm1 : list (Z * list Match))
         (result_sets rs1 : list ResultSet),
    relations_loop fl toks node_matches pre result_sets = Ok (nm1, rs1) ->
    relations_loop fl toks node_matches (pre ++ rest) result_sets
    = relations_loop fl toks nm1 rest rs1.
Proof.
  induction pre as [|relation pre IH]; intros rest node_matches nm1 result_sets rs1 H.
  - simpl in H. injection H as <- <-. reflexivity.
  - cbn [relations_loop app] in *.
    destruct (matches_relation fl toks node_matches relation result_sets)
      as [[[hit nm] rs]| |]; simpl in *; try discriminate H.
    apply IH. exact H.
Qed.

Lemma candidates_index (def_matcher : DefinitionMatcher) (toks : list ParsedToken) :
  forall (i : nat) (ms : list Match),
    candidates def_matcher toks i = Ok ms ->
    Forall (fun m => m_def_index m = def_index def_matcher) ms.
Proof.
  induction toks as [|token toks IH]; intros i ms H.
  - simpl in H. injection H as <-. constructor.
  - cbn [candidates] in H. destruct (truthy (is_super_tok token)); [exact (IH _ _ H) |].
    destruct (DefinitionMatcher_match def_matcher token) as [m| |]; simpl in H;
      try discriminate H.
    destruct (candidates def_matcher toks (S i)) as [ms'| |] eqn:E; simpl in H;
      try discriminate H.
    specialize (IH _ _ E).
    destruct m; injection H as <-; [constructor; [reflexivity | exact IH] | exact IH].
Qed.

Lemma collect_node_matches_wf (definitions : list DefinitionMatcher)
      (toks : list ParsedToken) :
  forall (node_matches node_matches' : list (Z * list Match)),
    wf_node_matches node_matches ->
    collect_node_matches definitions toks node_matches = Ok node_matches' ->
    wf_node_matches node_matches'.
Proof.
  induction definitions as [|dm rest IH]; intros nm nm' Hwf H.
  - simpl in H. injection H as <-. exact Hwf.
  - cbn [collect_node_matches] in H.
    destruct (candidates dm toks 0) as [ms| |] eqn:E; simpl in H; try discriminate H.
    apply (IH _ _) in H; [exact H |].
    destruct ms as [|m0 ms0]; [exact Hwf |].
    intros k m. unfold nm_get at 1. rewrite int_get_set.
    destruct (k =? def_index dm) eqn:Ek; [| apply (Hwf k m)].
    apply Z.eqb_eq in Ek. subst k. intros Hin. apply in_app_or in Hin.
    destruct Hin as [Hin | Hin]; [apply (Hwf _ m Hin) |].
    pose proof (candidates_index _ _ _ _ E) as Hall.
    rewrite Forall_forall in Hall. apply Hall. exact Hin.
Qed.

(** *** The heap of matcher lists *)

Lemma heap_ext_refl (h : list (list Match)) : heap_ext h h.
Proof. intros r m ms H. exists ms. exact H. Qed.

Lemma heap_ext_trans (h1 h2 h3 : list (list Match)) :
  heap_ext h1 h2 -> heap_ext h2 h3 -> heap_ext h1 h3.
Proof.
  intros H12 H23 r m ms H. destruct (H12 r m ms H) as [ms' H']. exact (H23 r m ms' H').
Qed.

Lemma heap_get_snoc (h : list (list Match)) (l : list Match) :
  heap_get (h ++ [l]) (List.length h) = l.
Proof. unfold heap_get. rewrite nth_middle. reflexivity. Qed.

Lemma heap_ext_snoc (h : list (list Match)) (l : list Match) : heap_ext h (h ++ [l]).
Proof.
  intros r m ms H. exists ms. unfold heap_get in *.
  destruct (Nat.lt_ge_cases r (List.length h)) as [Hlt | Hge].
  - rewrite app_nth1; assumption.
  - rewrite (nth_overflow h [] Hge) in H. discriminate H.
Qed.

Lemma heap_ext_set (h : list (list Match)) :
  forall (r : nat) (l : list Match),
    (forall m ms, heap_get h r = m :: ms -> exists ms', l = m :: ms') ->
    heap_ext h (heap_set h r l).
Proof.
  unfold heap_ext, heap_get.
  induction h as [|x h IH]; intros r l Hl r' m ms H.
  - destruct r'; discriminate H.
  - destruct r as [|r]; destruct r' as [|r']; cbn [heap_set nth] in *.
    + apply (Hl m ms H).
    + exists ms. exact H.
    + exists ms. exact H.
    + apply (IH r l Hl r' m ms H).
Qed.

Lemma fold_keeps_head {A : Type} (f : list A -> A -> list A) (l1 : list A) :
  (forall acc x, exists extra, f acc x = (acc ++ extra)%list) ->
  forall (l2 : list A) (m : A) (ms : list A),
    l2 = m :: ms -> exists ms', fold_left f l1 l2 = m :: ms'.
Proof.
  intros Hf. induction l1 as [|x l1 IH]; intros l2 m ms ->.
  - exists ms. reflexivity.
  - cbn [fold_left]. destruct (Hf (m :: ms) x) as [extra ->].
    apply (IH _ m (ms ++ extra)%list). reflexivity.
Qed.

Lemma bin_inv_ext (sets : list ResultSet) (h h' : list (list Match)) (b : bin) :
  heap_ext h h' -> bin_inv sets h b -> bin_inv sets h' b.
Proof.
  intros He (Hn & Hr & m & ms & Hm & Hk). split; [exact Hn |]. split; [exact Hr |].
  destruct (He _ m ms Hm) as [ms' Hm']. exists m, ms'. split; assumption.
Qed.

(** *** [bins_compatible] and [merge_bins] *)

Lemma merge_bins_spec (h h' : list (list Match)) (bin1 bin2 : bin) (o : option bin) :
  merge_bins h bin1 bin2 = (h', o) ->
  heap_ext h h'
  /\ match o with
     | Some c =>
         exists key tok rest,
           filter (fun kv => negb (has_key (b_nodes bin2) (fst kv))) (b_nodes bin1)
           = (key, tok) :: rest
           /\ b_nodes c = (b_nodes bin2 ++ [(key, tok)])%list
           /\ b_matchers c = b_matchers bin2
           /\ b_rels c = match rev (b_rels bin1) with
                         | new_rel :: _ => (b_rels bin2 ++ [new_rel])%list
                         | [] => b_rels bin2
                         end
     | None =>
         filter (fun kv => negb (has_key (b_nodes bin2) (fst kv))) (b_nodes bin1) = []
     end.
Proof.
  unfold merge_bins. intros H.
  assert (He : heap_ext h
                 (heap_set h (b_matchers bin2)
                    (fold_left
                       (fun acc matcher =>
                          if existsb (fun matcher2 => m_def_index matcher2 =? m_def_index matcher) acc
                          then acc else (acc ++ [matcher])%list)
                       (heap_get h (b_matchers bin1)) (heap_get h (b_matchers bin2))))).
  { apply heap_ext_set. intros m ms Hm. apply (fold_keeps_head _ _) with (ms := ms).
    - intros acc x. destruct (existsb _ acc).
      + exists []. symmetry. apply app_nil_r.
      + exists [x]. reflexivity.
    - exact Hm. }
  destruct (filter (fun kv => negb (has_key (b_nodes bin2) (fst kv))) (b_nodes bin1))
    as [|[key tok] rest] eqn:E; injection H as <- <-.
  - split; [exact He | reflexivity].
  - split; [exact He |]. exists key, tok, rest. repeat split.
Qed.

Lemma filter_first_In {A : Type} (p : A -> bool) (l : list A) (x : A) (rest : list A) :
  filter p l = x :: rest -> In x l /\ p x = true.
Proof.
  intros H. apply filter_In. rewrite H. left. reflexivity.
Qed.

Lemma list_eqb_single (r : string) (l : list string) :
  list_eqb String.eqb [r] l = true -> l = [r].
Proof.
  destruct l as [|x [|y l]]; simpl; intros H; try discriminate H.
  - rewrite andb_true_r in H. apply String.eqb_eq in H. subst. reflexivity.
  - rewrite andb_false_r in H. discriminate H.
Qed.

Lemma list_eqb_heads (m1 m2 : Match) (l1 l2 : list Match) :
  list_eqb Match_is (m1 :: l1) (m2 :: l2) = true -> m_def_index m1 = m_def_index m2.
Proof.
  simpl. intros H. apply andb_true_iff in H. destruct H as [H _].
  unfold Match_is in H. apply andb_true_iff in H. destruct H as [H _].
  apply Z.eqb_eq in H. exact H.
Qed.

(** Of at most two node keys, one that is present and one that is
    missing are all there are. *)
Lemma two_keys (l : list (Z * nat)) (k0 key : Z) :
  (List.length l <= 2)%nat -> In k0 (map fst l) -> In key (map fst l) -> k0 <> key ->
  forall k, In k (map fst l) -> k = k0 \/ k = key.
Proof.
  intros Hl H0 Hkey Hne k Hk.
  destruct l as [|[a ta] [|[b tb] [|c l]]]; simpl in *; try lia;
    intuition (subst; auto; congruence).
Qed.

(** The keys of a binding that [bins_compatible] accepts against a bin:
    one of them is in the bin. *)
Lemma compatible_shares_key (sets : list ResultSet) (h : list (list Match))
      (new_set my_bin : bin) :
  bin_inv sets h new_set -> bin_inv sets h my_bin ->
  (exists r, b_rels new_set = [r]) ->
  bins_compatible h new_set my_bin = true ->
  (exists r, b_rels new_set = [r] /\ In r (b_rels my_bin))
  \/ exists k0, In k0 (map fst (b_nodes new_set)) /\ has_key (b_nodes my_bin) k0 = true.
Proof.
  intros (_ & _ & m1 & ms1 & Hm1 & Hk1) (_ & _ & m2 & ms2 & Hm2 & Hk2) [r Hr] H.
  unfold bins_compatible in H. apply andb_true_iff in H. destruct H as [H _].
  apply orb_true_iff in H. destruct H as [H | H].
  - apply orb_true_iff in H. destruct H as [H | H].
    + left. exists r. split; [exact Hr |]. rewrite Hr in H.
      apply list_eqb_single in H. rewrite H. left. reflexivity.
    + right. rewrite Hm1, Hm2 in H. apply list_eqb_heads in H.
      exists (m_def_index m1). split; [apply has_key_In; exact Hk1 |].
      rewrite H. exact Hk2.
  - right. apply existsb_exists in H. destruct H as ([k v] & Hin & Hv).
    exists k. split; [apply in_map_iff; exists (k, v); split; [reflexivity | exact Hin] |].
    unfold has_key. cbn [fst] in Hv. destruct (int_get (b_nodes my_bin) k);
      [reflexivity | discriminate Hv].
Qed.

Lemma NoDup_snoc {A : Type} (l : list A) (x : A) :
  NoDup l -> ~ In x l -> NoDup (l ++ [x]).
Proof.
  intros Hn Hx. induction Hn as [|y l Hy Hn IH]; simpl.
  - constructor; [intros [] | constructor].
  - constructor.
    + intros H. apply in_app_or in H. destruct H as [H | [H | []]].
      * contradiction.
      * subst. apply Hx. left. reflexivity.
    + apply IH. intros H. apply Hx. right. exact H.
Qed.

(** A bin that [merge_bins] makes from a binding and a compatible bin
    satisfies the invariant. *)
Lemma candidate_inv (sets : list ResultSet) (h h' : list (list Match))
      (new_set my_bin c : bin) (r : string) :
  b_rels new_set = [r] ->
  In r (map rs_rel sets) ->
  map fst (b_nodes new_set) = seed_keys r ->
  (List.length (b_nodes new_set) <= 2)%nat ->
  bin_inv sets h new_set -> bin_inv sets h my_bin ->
  bins_compatible h new_set my_bin = true ->
  merge_bins h new_set my_bin = (h', Some c) ->
  bin_inv sets h' c.
Proof.
  intros Hr Hin Hkeys Hlen Hnew Hmy Hcompat Hmerge.
  destruct (merge_bins_spec _ _ _ _ _ Hmerge)
    as (Hext & key & tok & rest & Hfilter & Hnodes & Hmatchers & Hrels).
  rewrite Hr in Hrels. cbn [rev app] in Hrels.
  destruct (filter_first_In _ _ _ _ Hfilter) as [Hkin Hmissing].
  cbn [fst] in Hmissing. apply negb_true_iff in Hmissing.
  assert (Hkey : In key (map fst (b_nodes new_set))).
  { apply in_map_iff. exists (key, tok). split; [reflexivity | exact Hkin]. }
  pose proof Hmy as (Hnd & Hall & m & ms & Hm & Hk).
  assert (Hfresh : ~ In r (b_rels my_bin)).
  { intros Hold. destruct (Hall r Hold) as [_ Hpresent].
    rewrite <- Hkeys in Hpresent. rewrite (Hpresent key Hkey) in Hmissing.
    discriminate Hmissing. }
  split; [rewrite Hrels; apply NoDup_snoc; assumption |].
  split.
  - intros x Hx. rewrite Hrels in Hx. rewrite Hnodes.
    apply in_app_or in Hx. destruct Hx as [Hx | [<- | []]].
    + destruct (Hall x Hx) as [Hxin Hxk]. split; [exact Hxin |].
      intros k Hkx. apply has_key_app. apply Hxk. exact Hkx.
    + split; [exact Hin |]. intros k Hkr. rewrite <- Hkeys in Hkr.
      destruct (compatible_shares_key sets h new_set my_bin Hnew Hmy
                  (ex_intro _ r Hr) Hcompat) as [(r' & Hr' & Hold) | (k0 & Hk0 & Hpresent)].
      * rewrite Hr in Hr'. injection Hr' as <-. contradiction.
      * assert (Hne : k0 <> key) by (intros ->; congruence).
        destruct (two_keys _ k0 key Hlen Hk0 Hkey Hne k Hkr) as [-> | ->].
        -- apply has_key_app. exact Hpresent.
        -- apply has_key_In. rewrite map_app. apply in_or_app. right. left. reflexivity.
  - destruct (Hext _ m ms Hm) as [ms' Hm']. exists m, ms'.
    rewrite Hmatchers, Hnodes. split; [exact Hm' | apply has_key_app; exact Hk].
Qed.

Lemma new_set_inv (sets : list ResultSet) (l : list string) (h : list (list Match))
      (s : ResultSet) :
  In s sets -> seed_of l s ->
  bin_inv sets (h ++ [rs_matchers s])
          {| b_nodes := rs_nodes s; b_rels := [rs_rel s]; b_matchers := List.length h |}.
Proof.
  intros Hin (Hkeys & _ & _ & Hhead). unfold bin_inv. cbn [b_nodes b_rels b_matchers].
  split; [constructor; [intros [] | constructor] |]. split.
  - intros x [<- | []]. split; [apply in_map; exact Hin |].
    intros k Hk. apply has_key_In. rewrite <- Hkeys in Hk. exact Hk.
  - rewrite heap_get_snoc. exact Hhead.
Qed.

Lemma grow_bins_inv (sets : list ResultSet) (l : list string) (s : ResultSet)
      (bins bins' : list bin) (h h' : list (list Match)) :
  In s sets -> seed_of l s ->
  Forall (bin_inv sets h) bins ->
  grow_bins (bins, h) s = Ok (bins', h') ->
  Forall (bin_inv sets h') bins'.
Proof.
  intros Hin Hseed Hbins H. unfold grow_bins in H.
  set (new_set := {| b_nodes := rs_nodes s; b_rels := [rs_rel s];
                     b_matchers := List.length h |}) in *.
  set (h1 := (h ++ [rs_matchers s])%list) in *.
  pose proof (new_set_inv sets l h s Hin Hseed) as Hnew. fold new_set h1 in Hnew.
  destruct (foldM _ bins (h1, [])) as [[h2 added]| |] eqn:E; simpl in H; try discriminate H.
  injection H as <- <-.
  apply (foldM_invariant
           (fun acc => heap_ext h1 (fst acc) /\ Forall (bin_inv sets (fst acc)) (snd acc))
           _ _ _ _) in E.
  - destruct E as [Hext Hadded]. cbn [fst snd] in *.
    apply Forall_app. split.
    + eapply Forall_impl; [| exact Hbins]. intros b. apply bin_inv_ext.
      eapply heap_ext_trans; [apply heap_ext_snoc | exact Hext].
    + apply Forall_app. split; [exact Hadded |].
      constructor; [| constructor]. exact (bin_inv_ext _ _ _ _ Hext Hnew).
  - intros [hacc acc] my_bin [hacc' acc'] Hmy [Hext Hadded] Hstep. cbn [fst snd] in *.
    destruct (bins_compatible hacc new_set my_bin) eqn:Hc;
      [| injection Hstep as <- <-; split; assumption].
    destruct (merge_bins hacc new_set my_bin) as [h3 [c|]] eqn:Hm; [| discriminate Hstep].
    injection Hstep as <- <-.
    destruct (merge_bins_spec _ _ _ _ _ Hm) as [Hext3 _].
    assert (Hmy' : bin_inv sets hacc my_bin).
    { rewrite Forall_forall in Hbins. eapply bin_inv_ext; [| exact (Hbins my_bin Hmy)].
      eapply heap_ext_trans; [apply heap_ext_snoc | exact Hext]. }
    split; [eapply heap_ext_trans; eassumption |].
    apply Forall_app. split.
    + eapply Forall_impl; [| exact Hadded]. intros b. apply bin_inv_ext. exact Hext3.
    + constructor; [| constructor].
      destruct Hseed as (Hkeys & _ & Hlen & _).
      apply (candidate_inv sets hacc h3 new_set my_bin c (rs_rel s)).
      * reflexivity.
      * apply in_map. exact Hin.
      * exact Hkeys.
      * exact Hlen.
      * exact (bin_inv_ext _ _ _ _ Hext Hnew).
      * exact Hmy'.
      * exact Hc.
      * exact Hm.
  - split; [apply heap_ext_refl | constructor].
Qed.

Lemma foldM_total {A S : Type} (f : S -> A -> outcome S) (l : list A) :
  (forall s x, exists s', f s x = Ok s') ->
  forall s, exists s', foldM f l s = Ok s'.
Proof.
  intros Hf. induction l as [|x l IH]; intros s.
  - exists s. reflexivity.
  - destruct (Hf s x) as [s1 E]. destruct (IH s1) as [s2 E2].
    exists s2. cbn [foldM]. rewrite E. exact E2.
Qed.

Lemma compatible_merges (h : list (list Match)) (bin1 bin2 : bin) :
  bins_compatible h bin1 bin2 = true ->
  exists h' c, merge_bins h bin1 bin2 = (h', Some c).
Proof.
  intros H. unfold bins_compatible in H. apply andb_true_iff in H. destruct H as [_ H].
  apply existsb_exists in H. destruct H as (kv & Hin & Hkv).
  unfold merge_bins.
  destruct (filter (fun kv => negb (has_key (b_nodes bin2) (fst kv))) (b_nodes bin1))
    as [|[key tok] rest] eqn:E.
  - assert (Hf : In kv (filter (fun kv => negb (has_key (b_nodes bin2) (fst kv)))
                               (b_nodes bin1)))
      by (apply filter_In; split; assumption).
    rewrite E in Hf. contradiction.
  - eexists. eexists. reflexivity.
Qed.

(** The first loop of [merge_sets] never meets a [None]. *)
Lemma grow_bins_total (st : list bin * list (list Match)) (s : ResultSet) :
  exists st', grow_bins st s = Ok st'.
Proof.
  destruct st as [bins h]. unfold grow_bins.
  match goal with
  | |- context [foldM ?f bins ?init] =>
      destruct (foldM_total f bins) with (s := init) as [[h2 added] E]
  end.
  - intros [hacc acc] my_bin.
    destruct (bins_compatible hacc _ my_bin) eqn:Hc; [| eexists; reflexivity].
    destruct (compatible_merges _ _ _ Hc) as (h3 & c & Hm). rewrite Hm.
    eexists. reflexivity.
  - rewrite E. eexists. reflexivity.
Qed.

Lemma fold_left_invariant {A S : Type} (P : S -> Prop) (f : S -> A -> S) (l : list A) :
  forall s : S,
    (forall s x, In x l -> P s -> P (f s x)) -> P s -> P (fold_left f l s).
Proof.
  induction l as [|x l IH]; intros s Hf Hs; [exact Hs |].
  cbn [fold_left]. apply IH.
  - intros s1 y Hy. apply Hf. right. exact Hy.
  - apply Hf; [left; reflexivity | exact Hs].
Qed.

Lemma existsb_eqb_false (x : string) (l : list string) :
  existsb (String.eqb x) l = false -> ~ In x l.
Proof.
  intros H Hin. assert (E : existsb (String.eqb x) l = true).
  { apply existsb_exists. exists x. split; [exact Hin | apply String.eqb_refl]. }
  congruence.
Qed.

(** When no list of distinct relations of the bindings has [rel_count]
    members, no bin becomes a solution. *)
Lemma complete_bin_unsolved (sets : list ResultSet) (node_count rel_count : nat)
      (my_bin : result) :
  (forall l, NoDup l -> incl l (map rs_rel sets) -> List.length l <> rel_count) ->
  NoDup (rels my_bin) -> incl (rels my_bin) (map rs_rel sets) ->
  snd (complete_bin sets node_count rel_count my_bin) = false.
Proof.
  intros Hfew Hnd Hincl. unfold complete_bin.
  destruct (List.length (nodes my_bin) + 2 =? node_count + 2)%nat; [| reflexivity].
  destruct (List.length (rels my_bin) =? rel_count)%nat eqn:E.
  { apply Nat.eqb_eq in E. exfalso. exact (Hfew _ Hnd Hincl E). }
  match goal with
  | |- snd (let '(rels, solved) := fold_left ?f sets ?init in _) = false =>
      assert (Hinv : NoDup (fst (fold_left f sets init))
                     /\ incl (fst (fold_left f sets init)) (map rs_rel sets)
                     /\ snd (fold_left f sets init) = false);
      [| destruct (fold_left f sets init) as [rels0 solved]; apply Hinv]
  end.
  apply (fold_left_invariant
           (fun acc => NoDup (fst acc) /\ incl (fst acc) (map rs_rel sets)
                       /\ snd acc = false)).
  - intros [rels0 solved] s Hs (Hn & Hi & Hf). cbn [fst snd] in *.
    destruct (existsb (String.eqb (rs_rel s)) rels0) eqn:Ee; cbn [negb];
      [repeat split; assumption |].
    destruct (forallb _ (rs_nodes s)); [| repeat split; assumption].
    destruct (forallb _ (rs_nodes s)); [| repeat split; assumption].
    cbn [fst snd].
    assert (Hn' : NoDup (rels0 ++ [rs_rel s]))
      by (apply NoDup_snoc; [exact Hn | apply existsb_eqb_false; exact Ee]).
    assert (Hi' : incl (rels0 ++ [rs_rel s]) (map rs_rel sets)).
    { apply incl_app; [exact Hi |]. intros x [<- | []]. apply in_map. exact Hs. }
    split; [exact Hn' |]. split; [exact Hi' |]. rewrite Hf. cbn [orb].
    apply Nat.eqb_neq. exact (Hfew _ Hn' Hi').
  - cbn [fst snd]. repeat split; assumption.
Qed.

Lemma filter_none {A : Type} (p : A -> bool) (l : list A) :
  Forall (fun x => p x = false) l -> filter p l = [].
Proof.
  induction 1 as [|x l Hx _ IH]; [reflexivity |]. simpl. rewrite Hx. exact IH.
Qed.

(** Bindings of fewer relations than the rule has give no complete
    binding. *)
Lemma merge_sets_few_relations (sets : list ResultSet) (l : list string)
      (node_count rel_count : nat) :
  Forall (seed_of l) sets ->
  (List.length l < rel_count)%nat ->
  merge_sets sets node_count rel_count = Ok [].
Proof.
  intros Hseeds Hlen. unfold merge_sets.
  destruct (foldM_total grow_bins sets grow_bins_total ([], [])) as [[bins h] E].
  rewrite E. cbn [bind].
  assert (Hinv : Forall (bin_inv sets h) bins).
  { apply (foldM_invariant (fun st => Forall (bin_inv sets (snd st)) (fst st))
                           _ _ _ _) in E; [exact E | | constructor].
    intros [bins0 h0] s [bins1 h1] Hs Hst Hstep. cbn [fst snd] in *.
    rewrite Forall_forall in Hseeds.
    exact (grow_bins_inv sets l s bins0 bins1 h0 h1 Hs (Hseeds s Hs) Hst Hstep). }
  assert (Hfew : forall x, NoDup x -> incl x (map rs_rel sets) ->
                           List.length x <> rel_count).
  { intros x Hnd Hincl.
    assert (Hx : incl x l).
    { intros r Hr. apply Hincl in Hr. apply in_map_iff in Hr.
      destruct Hr as (s & <- & Hs). rewrite Forall_forall in Hseeds.
      destruct (Hseeds s Hs) as (_ & Hin & _). exact Hin. }
    pose proof (NoDup_incl_length Hnd Hx). lia. }
  rewrite filter_none; [reflexivity |].
  apply Forall_map. eapply Forall_impl; [| exact Hinv].
  intros b (Hnd & Hall & _). apply complete_bin_unsolved; cbn [freeze rels].
  - exact Hfew.
  - exact Hnd.
  - intros x Hx. apply (Hall x Hx).
Qed.

(** C2: let the candidates of the nodes of a rule be collected on a
    sentence, and let the relations of the rule be evaluated in order
    without an exception.  If one of them, [r], has no hit when its turn
    comes, the rule has no complete binding: it returns the state of the
    sentence as it received it, and no ["last"]. *)
Theorem C2_relation_without_hit_no_firing
        (re : ReLib) (fl : NumLib) (t : Transformation) (st : store)
        (node_matches nm1 nm2 nm3 : list (Z * list Match))
        (pre post : list string) (r : string) (rs1 rs2 rs3 : list ResultSet) :
  collect_node_matches (definitions t) (tokens st) [] = Ok node_matches ->
  relations t = (pre ++ r :: post)%list ->
  relations_loop fl (tokens st) node_matches pre [] = Ok (nm1, rs1) ->
  matches_relation fl (tokens st) nm1 r rs1 = Ok (false, nm2, rs2) ->
  relations_loop fl (tokens st) nm2 post [] = Ok (nm3, rs3) ->
  find_bindings fl t (tokens st) = Ok []
  /\ apply_transformation re fl t st = Ok (st, false).
Proof.
  intros Hc Hrels Hpre Hr Hpost.
  assert (Hwf : wf_node_matches node_matches).
  { apply (collect_node_matches_wf _ _ _ _ (fun k m (H : In m (nm_get [] k)) =>
                                              match H with end) Hc). }
  assert (Hwf1 : wf_node_matches nm1) by exact (relations_loop_wf _ _ _ _ _ _ _ Hwf Hpre).
  destruct (matches_relation_seeds _ _ _ _ _ _ _ _ Hwf1 Hr) as [Hwf2 _].
  assert (Hseeds : Forall (seed_of ([] ++ post)) rs3)
    by exact (relations_loop_seeds fl _ post [] nm2 nm3 [] rs3 Hwf2 (Forall_nil _) Hpost).
  assert (Hfind : find_bindings fl t (tokens st) = Ok []).
  { unfold find_bindings. rewrite Hc. cbn [bind]. rewrite Hrels.
    rewrite (relations_loop_app fl _ pre (r :: post) _ _ _ _ Hpre).
    cbn [relations_loop]. rewrite Hr. cbn [bind]. rewrite Hpost. cbn [bind].
    rewrite (merge_sets_few_relations rs3 ([] ++ post) _ _ Hseeds).
    - reflexivity.
    - cbn [app]. rewrite length_app. cbn [List.length]. lia. }
  split; [exact Hfind |].
  unfold apply_transformation. rewrite Hfind. reflexivity.
Qed.

Lemma C2_relation_without_hit_no_firing_witness :
  relations rule_no_hit = ([] ++ "#1>#2" :: ["#3>#4"])%list
  /\ find_bindings whole_numbers rule_no_hit (tokens st_abc) = Ok []
  /\ apply_transformation plain_re whole_numbers rule_no_hit st_abc = Ok (st_abc, false).
Proof.
  split; [vm_compute; reflexivity |].
  eapply (C2_relation_without_hit_no_firing plain_re whole_numbers rule_no_hit st_abc
            _ _ _ _ [] ["#3>#4"] "#1>#2" _ _ _).
  - lazy; reflexivity.
  - lazy; reflexivity.
  - lazy; reflexivity.
  - lazy; reflexivity.
  - lazy; reflexivity.
Defined.

(** * Further properties of the rule compiler *)

(** ** [escape] *)

Lemma escape_go_no_border (sym border : ascii) (s : string) :
  has_char border s = false -> escape_go sym border false s = s.
Proof.
  induction s as [|c r IH]; intros H; [reflexivity |].
  simpl in H. apply orb_false_iff in H. destruct H as [E H].
  cbn [escape_go]. rewrite E, andb_false_r, (IH H). reflexivity.
Qed.

Lemma escape_go_no_symbol (sym border : ascii) (s : string) :
  has_char sym s = false -> forall inside, escape_go sym border inside s = s.
Proof.
  induction s as [|c r IH]; intros H inside; [reflexivity |].
  simpl in H. apply orb_false_iff in H. destruct H as [E H].
  cbn [escape_go]. rewrite E, (IH H). reflexivity.
Qed.

(** X1: [escape] returns its argument unchanged when the border marker
    does not occur in it, and also when the symbol to mask does not: nothing
    is masked outside a pair of border markers. *)
Theorem escape_leaves_unquoted_text (s : string) (symbol_to_mask border_marker : ascii) :
  has_char border_marker s = false \/ has_char symbol_to_mask s = false ->
  escape s symbol_to_mask border_marker = s.
Proof.
  unfold escape. intros [H | H].
  - apply escape_go_no_border. exact H.
  - apply escape_go_no_symbol. exact H.
Qed.

Lemma escape_leaves_unquoted_text_witness :
  escape "a;b" ";" "/" = "a;b".
Proof.
  apply (escape_leaves_unquoted_text "a;b" ";" "/"). left. reflexivity.
Defined.

Lemma replace_go_skip (old new p t : string) :
  Py.replace_go old new (String.length p) (p ++ t) = Py.replace_go old new 0 t.
Proof. induction p as [|a p IH]; [reflexivity | exact IH]. Qed.

Lemma replace_go_hit (a : ascii) (x new t : string) :
  Py.replace_go (String a x) new 0 (String a x ++ t)
  = new ++ Py.replace_go (String a x) new 0 t.
Proof.
  change (String a x ++ t) with (String a (x ++ t)).
  cbn [Py.replace_go].
  change (String a (x ++ t)) with (String a x ++ t). rewrite prefix_app.
  replace (String.length (String a x) - 1)%nat with (String.length x)
    by (cbn [String.length]; lia).
  rewrite replace_go_skip. reflexivity.
Qed.

Lemma unmask_go (sym border : ascii) (s : string) :
  has_char "%" s = false ->
  forall inside,
    Py.replace_go "%%%%%" (Py.chr sym) 0 (escape_go sym border inside s) = s.
Proof.
  induction s as [|c r IH]; intros H inside; [reflexivity |].
  simpl in H. apply orb_false_iff in H. destruct H as [E H].
  cbn [escape_go].
  destruct (Ascii.eqb c sym && (if Ascii.eqb c border then negb inside else inside)) eqn:M.
  - apply andb_true_iff in M. destruct M as [M _]. apply Ascii.eqb_eq in M. subst c.
    rewrite replace_go_hit, (IH H). reflexivity.
  - cbn [Py.chr append Py.replace_go prefix].
    destruct (Ascii.ascii_dec "%" c) as [<-|_]; [discriminate E |].
    rewrite (IH H). reflexivity.
Qed.

(** X2: replacing the placeholder of five percent signs by the masked
    symbol undoes [escape], for every text without a percent sign: this is
    the round trip that [parse_transformation], [DefinitionMatcher] and
    [validate] make around their [split]. *)
Theorem escape_round_trip (s : string) (symbol_to_mask border_marker : ascii) :
  has_char "%" s = false ->
  Py.replace (escape s symbol_to_mask border_marker) "%%%%%" (Py.chr symbol_to_mask) = s.
Proof. intros H. apply unmask_go. exact H. Qed.

Lemma escape_round_trip_witness :
  Py.replace (escape "text=/a;b/;pos=/X/" ";" "/") "%%%%%" (Py.chr ";")
  = "text=/a;b/;pos=/X/".
Proof. apply (escape_round_trip "text=/a;b/;pos=/X/" ";" "/"). reflexivity. Defined.

(** ** The parts of a compiled rule *)

Lemma build_definitions_numbered (re : ReLib) (l : list string) :
  forall (k : Z) (ds : list DefinitionMatcher),
    build_definitions re l k = Ok ds ->
    List.length ds = List.length l
    /\ forall i d, nth_error ds i = Some d -> def_index d = k + Z.of_nat i.
Proof.
  induction l as [|x l IH]; intros k ds H.
  - simpl in H. injection H as <-. split; [reflexivity |].
    intros [|i] d Hd; discriminate Hd.
  - cbn [build_definitions] in H.
    destruct (DefinitionMatcher_init re x k) as [dm| |] eqn:E; simpl in H;
      try discriminate H.
    destruct (build_definitions re l (k + 1)) as [ds'| |] eqn:E'; simpl in H;
      try discriminate H.
    injection H as <-. destruct (IH _ _ E') as [Hl Hi]. split.
    + simpl. rewrite Hl. reflexivity.
    + intros [|i] d Hd.
      * simpl in Hd. injection Hd as <-.
        unfold DefinitionMatcher_init in E.
        destruct (mapM _ _); simpl in E; try discriminate E.
        injection E as <-. simpl. lia.
      * simpl in Hd. rewrite (Hi _ _ Hd). lia.
Qed.

Lemma Transformation_init_parts (re : ReLib) (text label : string) (t : Transformation) :
  Transformation_init re text label = Ok t ->
  exists d r a r' a',
    Py.split text TAB = [d; r; a]
    /\ normalize_shorthand r = Some r'
    /\ normalize_shorthand a = Some a'
    /\ build_definitions re
         (map (fun _def => Py.replace _def "%%%%%" ";")
              (Py.split (escape d ";" "/") ";")) 1 = Ok (definitions t)
    /\ relations t = Py.split r' ";"
    /\ actions t = map handle_aliases (Py.split (Py.strip a') ";")
    /\ line t = label.
Proof.
  unfold Transformation_init, parse_transformation. change (Py.chr "009") with TAB.
  intros H.
  destruct (Py.split text TAB) as [|d [|r [|a [|x l]]]]; simpl in H; try discriminate H.
  destruct (normalize_shorthand r) as [r'|] eqn:Er; simpl in H; try discriminate H.
  destruct (normalize_shorthand a) as [a'|] eqn:Ea; simpl in H; try discriminate H.
  destruct (build_definitions re _ 1) as [ds| |] eqn:E; simpl in H; try discriminate H.
  injection H as <-. exists d, r, a, r', a'. simpl. repeat split; assumption.
Qed.

(** X3: the node definitions of a compiled rule are numbered from 1 in
    the order of the first column, so [#n] names the n-th definition. *)
Theorem definitions_are_numbered_from_one
        (re : ReLib) (text line : string) (t : Transformation) :
  Transformation_init re text line = Ok t ->
  forall (i : nat) (d : DefinitionMatcher),
    nth_error (definitions t) i = Some d -> def_index d = Z.of_nat (S i).
Proof.
  intros H i d Hd.
  destruct (Transformation_init_parts _ _ _ _ H) as (ds & r & a & r' & a' & _ & _ & _ & Hb & _).
  destruct (build_definitions_numbered _ _ _ _ Hb) as [_ Hi].
  rewrite (Hi _ _ Hd). lia.
Qed.

Lemma definitions_are_numbered_from_one_witness :
  exists d, nth_error (definitions rule_ab) 1 = Some d /\ def_index d = Z.of_nat 2.
Proof.
  assert (Hinit : Transformation_init plain_re rule_ab_text "1" = Ok rule_ab)
    by (vm_compute; reflexivity).
  destruct (nth_error (definitions rule_ab) 1) as [d|] eqn:E.
  - exists d. split; [reflexivity |].
    apply (definitions_are_numbered_from_one plain_re rule_ab_text "1" rule_ab Hinit 1 d E).
  - vm_compute in E. discriminate E.
Defined.

(** ** More than two tabs *)

Lemma split_go_nonempty (sep s : string) (k : nat) : Py.split_go sep k s <> [].
Proof.
  revert k. induction s as [|a s IH]; intros k; [discriminate |].
  cbn [Py.split_go]. destruct k as [|k]; [| apply IH].
  destruct (prefix sep (String a s)); [discriminate |].
  specialize (IH 0%nat). destruct (Py.split_go sep 0 s); [contradiction | discriminate].
Qed.

Lemma split_chr_app (c : ascii) (x y : string) :
  Py.split (x ++ String c y) (Py.chr c)
  = (Py.split x (Py.chr c) ++ Py.split y (Py.chr c))%list.
Proof.
  unfold Py.split. induction x as [|a x IH].
  - cbn [append Py.split_go]. rewrite prefix_chr, Ascii.eqb_refl. reflexivity.
  - cbn [append Py.split_go]. rewrite !prefix_chr.
    destruct (Ascii.eqb a c) eqn:E.
    + cbn [Py.chr String.length Nat.sub]. rewrite IH. reflexivity.
    + rewrite IH. pose proof (split_go_nonempty (Py.chr c) x 0) as Hn.
      destruct (Py.split_go (Py.chr c) 0 x) as [|h tl]; [contradiction | reflexivity].
Qed.

Lemma split_length_pos (s sep : string) : (1 <= List.length (Py.split s sep))%nat.
Proof.
  unfold Py.split. pose proof (split_go_nonempty sep s 0) as Hn.
  destruct (Py.split_go sep 0 s); [contradiction | simpl; lia].
Qed.

Lemma Transformation_init_many_tabs (re : ReLib) (a b c d line : string) :
  Transformation_init re (a ++ TAB ++ b ++ TAB ++ c ++ TAB ++ d) line = Raise ValueError.
Proof.
  unfold Transformation_init, parse_transformation. change (Py.chr "009") with TAB.
  unfold TAB, Py.chr. cbn [append].
  rewrite !split_chr_app.
  pose proof (split_length_pos a (Py.chr "009")) as Ha.
  pose proof (split_length_pos b (Py.chr "009")) as Hb.
  pose proof (split_length_pos c (Py.chr "009")) as Hc.
  pose proof (split_length_pos d (Py.chr "009")) as Hd.
  destruct (Py.split a (Py.chr "009")) as [|a1 la]; [simpl in Ha; lia |].
  destruct (Py.split b (Py.chr "009")) as [|b1 lb]; [simpl in Hb; lia |].
  destruct (Py.split c (Py.chr "009")) as [|c1 lc]; [simpl in Hc; lia |].
  destruct (Py.split d (Py.chr "009")) as [|d1 ld]; [simpl in Hd; lia |].
  destruct la as [|a2 [|a3 [|a4 la]]]; destruct lb as [|b2 [|b3 lb]];
    destruct lc as [|c2 lc]; reflexivity.
Qed.

(** X4: an instruction line with three tabs or more makes the load of
    the rule file raise [ValueError], from the unpacking in
    [parse_transformation]; the diagnostic for a malformed instruction is
    printed only for fewer than two tabs. *)
Theorem many_tabs_raise_ValueError
        (re : ReLib) (a b c d : string) (pre post : list string)
        (ts old : list Transformation) (clear : bool) :
  load_instructions re pre 1 = Ok ts ->
  is_instruction (a ++ TAB ++ b ++ TAB ++ c ++ TAB ++ d) = true ->
  read_config_file re old (pre ++ (a ++ TAB ++ b ++ TAB ++ c ++ TAB ++ d) :: post) clear
  = Raise ValueError.
Proof.
  intros Hpre Hi. unfold read_config_file.
  rewrite (load_instructions_app re pre _ 1 ts Hpre).
  cbn [load_instructions]. rewrite Hi, Transformation_init_many_tabs. reflexivity.
Qed.

Lemma many_tabs_raise_ValueError_witness :
  read_config_file plain_re [] ([] ++ ("text=/a/" ++ TAB ++ "none" ++ TAB ++ "last" ++ TAB ++ "x") :: [])
                   false
  = Raise ValueError.
Proof.
  apply (many_tabs_raise_ValueError plain_re "text=/a/" "none" "last" "x" [] [] [] [] false);
    reflexivity.
Defined.

(** ** Aliases of the criteria *)

Lemma mapM_In {A B : Type} (f : A -> outcome B) (l : list A) :
  forall ys, mapM f l = Ok ys -> forall y, In y ys -> exists x, In x l /\ f x = Ok y.
Proof.
  induction l as [|x l IH]; intros ys H y Hy.
  - simpl in H. injection H as <-. contradiction.
  - cbn [mapM] in H. destruct (f x) as [y0| |] eqn:E; simpl in H; try discriminate H.
    destruct (mapM f l) as [ys0| |]; simpl in H; try discriminate H.
    injection H as <-. destruct Hy as [<- | Hy].
    + exists x. split; [left; reflexivity | exact E].
    + destruct (IH _ eq_refl _ Hy) as (x' & Hin & Hx'). exists x'. split; [right |]; assumption.
Qed.

Lemma alias_target (c s : string) :
  dict_get ALIASES c = Some s -> dict_get ALIASES s = None.
Proof.
  unfold ALIASES. cbn [dict_get].
  repeat match goal with
         | |- context [if ?b then _ else _] =>
             destruct b; [intros H; injection H as <-; reflexivity |]
         end.
  discriminate.
Qed.

Lemma Definition_init_criterion (re : ReLib) (c v : string) (neg : bool) (d : Definition_) :
  Definition_init re c v neg = Ok d ->
  criterion d = match dict_get ALIASES c with Some x => x | None => c end
  /\ negative d = neg.
Proof.
  unfold Definition_init, set_match_type. intros H.
  destruct ((v ==? "^.*$") && negb neg).
  - injection H as <-. split; reflexivity.
  - destruct (re_escape re (Py.slice v 1 (-1)) ==? Py.slice v 1 (-1)).
    + injection H as <-. split; reflexivity.
    + destruct (re_compile re v); simpl in H; try discriminate H.
      injection H as <-. split; reflexivity.
Qed.

Lemma build_definitions_In (re : ReLib) (l : list string) :
  forall (k : Z) (ds : list DefinitionMatcher) (dm : DefinitionMatcher),
    build_definitions re l k = Ok ds -> In dm ds ->
    exists x i, In x l /\ DefinitionMatcher_init re x i = Ok dm.
Proof.
  induction l as [|x l IH]; intros k ds dm H Hin.
  - simpl in H. injection H as <-. contradiction.
  - cbn [build_definitions] in H.
    destruct (DefinitionMatcher_init re x k) as [d0| |] eqn:E; simpl in H;
      try discriminate H.
    destruct (build_definitions re l (k + 1)) as [ds'| |] eqn:E'; simpl in H;
      try discriminate H.
    injection H as <-. destruct Hin as [<- | Hin].
    + exists x, k. split; [left; reflexivity | exact E].
    + destruct (IH _ _ _ E' Hin) as (x' & i & Hx & Hi). exists x', i.
      split; [right |]; assumption.
Qed.

(** X5: no test of a compiled rule keeps a CoNLL-U alias as its
    criterion: [Definition.__init__] has replaced [form], [upostag],
    [xpostag], [feats], [deprel], [deps] and [misc] by the attribute of the
    token that they stand for. *)
Theorem compiled_criteria_are_not_aliases
        (re : ReLib) (text line : string) (t : Transformation) :
  Transformation_init re text line = Ok t ->
  forall (dm : DefinitionMatcher) (d : Definition_),
    In dm (definitions t) -> In d (defs dm) ->
    dict_get ALIASES (criterion d) = None.
Proof.
  intros H dm d Hdm Hd.
  destruct (Transformation_init_parts _ _ _ _ H) as (ds & r & a & r' & a' & _ & _ & _ & Hb & _).
  destruct (build_definitions_In _ _ _ _ _ Hb Hdm) as (x & i & _ & Hi).
  unfold DefinitionMatcher_init in Hi.
  destruct (mapM (parse_def_item re) _) as [items| |] eqn:Em; simpl in Hi;
    try discriminate Hi.
  injection Hi as <-. simpl in Hd.
  destruct (mapM_In _ _ _ Em _ Hd) as (item & _ & Hitem).
  unfold parse_def_item in Hitem.
  repeat match type of Hitem with
         | bind ?m _ = Ok _ => destruct m; simpl in Hitem; try discriminate Hitem
         end.
  apply Definition_init_criterion in Hitem. destruct Hitem as [-> _].
  match goal with
  | |- context [dict_get ALIASES ?c] =>
      destruct (dict_get ALIASES c) as [s|] eqn:E;
      [exact (alias_target _ _ E) | exact E]
  end.
Qed.

Lemma compiled_criteria_are_not_aliases_witness :
  In rule_aliased_node (definitions rule_aliased)
  /\ In rule_aliased_test (defs rule_aliased_node)
  /\ dict_get ALIASES (criterion rule_aliased_test) = None.
Proof.
  assert (Hinit : Transformation_init plain_re rule_aliased_text "1" = Ok rule_aliased)
    by (vm_compute; reflexivity).
  assert (Hdm : In rule_aliased_node (definitions rule_aliased))
    by (vm_compute; left; reflexivity).
  assert (Hd : In rule_aliased_test (defs rule_aliased_node))
    by (vm_compute; left; reflexivity).
  split; [exact Hdm |]. split; [exact Hd |].
  apply (compiled_criteria_are_not_aliases plain_re rule_aliased_text "1" rule_aliased Hinit
           rule_aliased_node rule_aliased_test Hdm Hd).
Defined.

(** ** [normalize_shorthand] *)

Lemma replace_go_absent (c : ascii) (x new s : string) :
  has_char c s = false -> Py.replace_go (String c x) new 0 s = s.
Proof.
  induction s as [|a s IH]; intros H; [reflexivity |].
  simpl in H. apply orb_false_iff in H. destruct H as [E H].
  cbn [Py.replace_go prefix].
  destruct (Ascii.ascii_dec c a) as [->|_].
  - rewrite Ascii.eqb_refl in E. discriminate E.
  - rewrite (IH H). reflexivity.
Qed.

Lemma scan_digits_split (s : string) :
  s = fst (scan_digits s) ++ snd (scan_digits s).
Proof.
  induction s as [|a s IH]; [reflexivity |].
  cbn [scan_digits]. destruct (Py.is_digit a); [| reflexivity].
  destruct (scan_digits s) as [d rest]. simpl in *. rewrite <- IH. reflexivity.
Qed.

Lemma scan_op_absent (s : string) :
  has_char "." s = false -> has_char ">" s = false -> scan_op s = None.
Proof.
  destruct s as [|a s]; [reflexivity |]. simpl. intros H1 H2.
  apply orb_false_iff in H1. destruct H1 as [E1 _].
  apply orb_false_iff in H2. destruct H2 as [E2 _].
  apply Ascii.eqb_neq in E1, E2.
  destruct a as [[|] [|] [|] [|] [|] [|] [|] [|]]; try reflexivity; congruence.
Qed.

Lemma try_chain_absent (s : string) :
  has_char "." s = false -> has_char ">" s = false -> try_chain s = None.
Proof.
  intros H1 H2. unfold try_chain.
  destruct (scan_node s) as [[g1 s1]|] eqn:E; [| reflexivity].
  assert (Hs : has_char "." s1 = false /\ has_char ">" s1 = false).
  { unfold scan_node in E. destruct s as [|a r]; [discriminate E |].
    pose proof (scan_digits_split r) as Hr.
    destruct (scan_digits r) as [d rest]. simpl in Hr.
    assert (s1 = rest).
    { destruct a as [[|] [|] [|] [|] [|] [|] [|] [|]]; try discriminate E.
      destruct d; [discriminate E |]. injection E as _ <-. reflexivity. }
    subst s1. simpl in H1, H2.
    apply orb_false_iff in H1. destruct H1 as [_ H1].
    apply orb_false_iff in H2. destruct H2 as [_ H2].
    rewrite Hr, has_char_app in H1, H2.
    apply orb_false_iff in H1. apply orb_false_iff in H2. tauto. }
  destruct Hs as [Hd Hg]. rewrite (scan_op_absent _ Hd Hg). reflexivity.
Qed.

Lemma chain_sub_go_absent (s : string) :
  has_char "." s = false -> has_char ">" s = false -> chain_sub_go 0 s = s.
Proof.
  induction s as [|a s IH]; intros H1 H2; [reflexivity |].
  cbn [chain_sub_go]. rewrite (try_chain_absent _ H1 H2).
  simpl in H1, H2.
  apply orb_false_iff in H1. destruct H1 as [_ H1].
  apply orb_false_iff in H2. destruct H2 as [_ H2].
  rewrite (IH H1 H2). reflexivity.
Qed.

(** X6: [normalize_shorthand] returns a text without a dot and without
    a [>] unchanged, after a single round of its loop. *)
Theorem normalize_shorthand_without_operators (criterion_string : string) :
  has_char "." criterion_string = false ->
  has_char ">" criterion_string = false ->
  normalize_shorthand criterion_string = Some criterion_string.
Proof.
  intros H1 H2. unfold normalize_shorthand, Py.replace.
  rewrite (replace_go_absent "." "*" ".1,1000" _ H1).
  cbn [normalize_loop]. unfold chain_sub.
  rewrite (chain_sub_go_absent _ H1 H2), String.eqb_refl. reflexivity.
Qed.

Lemma normalize_shorthand_without_operators_witness :
  normalize_shorthand "#1:func==#2" = Some "#1:func==#2".
Proof. apply (normalize_shorthand_without_operators "#1:func==#2"); reflexivity. Defined.

Lemma chain_sub_go_skip (p t : string) :
  chain_sub_go (String.length p) (p ++ t) = chain_sub_go 0 t.
Proof. induction p as [|a p IH]; [reflexivity | exact IH]. Qed.

Ltac scan_at d Hd :=
  match goal with
  | |- context [scan_node (String "#" (d ++ ?t))] =>
      rewrite (scan_node_digits d t Hd eq_refl)
  end.

Lemma chain_skip (a1 a2 : ascii) (i j x : string) (g2 g4 : string) :
  String.length g2 = 1%nat -> String.length g4 = 1%nat ->
  chain_sub_go (String.length (String "#" i) + String.length g2
                + String.length (String "#" j) + String.length g4 - 1)
               (i ++ String a1 (String "#" (j ++ String a2 x)))
  = chain_sub_go 0 x.
Proof.
  intros E2 E4.
  replace (i ++ String a1 (String "#" (j ++ String a2 x)))
    with ((i ++ String a1 (String "#" (j ++ String a2 EmptyString))) ++ x)
    by (rewrite append_assoc; cbn [append]; rewrite append_assoc; reflexivity).
  replace (String.length (String "#" i) + String.length g2
           + String.length (String "#" j) + String.length g4 - 1)%nat
    with (String.length (i ++ String a1 (String "#" (j ++ String a2 EmptyString)))).
  - apply chain_sub_go_skip.
  - rewrite length_append. cbn [String.length]. rewrite length_append.
    cbn [String.length]. lia.
Qed.

Lemma chain_first_round (o1 o2 i j k : string) :
  is_link o1 -> is_link o2 -> digit_string i -> digit_string j -> digit_string k ->
  chain_sub ("#" ++ i ++ o1 ++ "#" ++ j ++ o2 ++ "#" ++ k)
  = "#" ++ i ++ o1 ++ "#" ++ j ++ ";#" ++ j ++ o2 ++ "#" ++ k.
Proof.
  intros H1 H2 Hi Hj Hk. unfold chain_sub.
  assert (Ek : chain_sub_go 0 ("#" ++ k) = "#" ++ k).
  { cbn [append chain_sub_go]. unfold try_chain.
    rewrite <- (append_empty k) at 1.
    rewrite (scan_node_digits k EmptyString Hk eq_refl). cbn [scan_op].
    rewrite <- (append_empty k) at 1.
    destruct Hk as [_ Hk]. rewrite (chain_sub_go_digits _ _ Hk). cbn [chain_sub_go].
    rewrite !append_empty. reflexivity. }
  destruct H1 as [-> | ->], H2 as [-> | ->];
    cbn [append chain_sub_go]; unfold try_chain;
    scan_at i Hi; cbn [scan_op scan_digits]; change (Py.is_digit "#") with false; cbv iota.
  all: scan_at j Hj; cbn [scan_op scan_digits]; change (Py.is_digit "#") with false;
    cbv iota; rewrite chain_skip by reflexivity;
    change (String "#" k) with ("#" ++ k); rewrite Ek;
    repeat (rewrite ?append_assoc; cbn [append]); reflexivity.
Qed.

Lemma scan_node_end (k : string) :
  digit_string k -> scan_node (String "#" k) = Some (String "#" k, EmptyString).
Proof.
  intros Hk. rewrite <- (append_empty k) at 1.
  apply (scan_node_digits k EmptyString Hk eq_refl).
Qed.

Lemma chain_sub_go_other (c : ascii) (r : string) :
  Ascii.eqb c "#" = false -> chain_sub_go 0 (String c r) = String c (chain_sub_go 0 r).
Proof.
  intros H. cbn [chain_sub_go]. unfold try_chain, scan_node.
  destruct c as [[|] [|] [|] [|] [|] [|] [|] [|]]; try reflexivity; discriminate H.
Qed.

Lemma chain_sub_go_no_chain (d t : string) :
  digit_string d ->
  try_chain (String "#" (d ++ t)) = None ->
  chain_sub_go 0 (String "#" (d ++ t)) = String "#" (d ++ chain_sub_go 0 t).
Proof.
  intros Hd H. cbn [chain_sub_go]. rewrite H.
  rewrite (chain_sub_go_digits d t (proj2 Hd)). reflexivity.
Qed.

Ltac no_chain d Hd :=
  match goal with
  | |- context [chain_sub_go 0 (String "#" (d ++ ?t))] =>
      rewrite (chain_sub_go_no_chain d t Hd)
  end.

Lemma chain_second_round (o1 o2 i j k : string) :
  is_link o1 -> is_link o2 -> digit_string i -> digit_string j -> digit_string k ->
  chain_sub ("#" ++ i ++ o1 ++ "#" ++ j ++ ";#" ++ j ++ o2 ++ "#" ++ k)
  = "#" ++ i ++ o1 ++ "#" ++ j ++ ";#" ++ j ++ o2 ++ "#" ++ k.
Proof.
  intros H1 H2 Hi Hj Hk. unfold chain_sub.
  assert (Ek : chain_sub_go 0 (String "#" k) = String "#" k).
  { rewrite <- (append_empty k) at 1. rewrite chain_sub_go_no_chain.
    - cbn [chain_sub_go]. rewrite append_empty. reflexivity.
    - exact Hk.
    - rewrite append_empty. unfold try_chain. rewrite (scan_node_end k Hk). reflexivity. }
  destruct H1 as [-> | ->], H2 as [-> | ->]; cbn [append].
  all: no_chain i Hi;
    [| unfold try_chain; scan_at i Hi; cbn [scan_op scan_digits];
       change (Py.is_digit "#") with false; cbv iota; scan_at j Hj; reflexivity].
  all: rewrite chain_sub_go_other by reflexivity.
  all: no_chain j Hj; [| unfold try_chain; scan_at j Hj; reflexivity].
  all: rewrite chain_sub_go_other by reflexivity.
  all: no_chain j Hj;
    [| unfold try_chain; scan_at j Hj; cbn [scan_op scan_digits];
       change (Py.is_digit "#") with false; cbv iota;
       rewrite (scan_node_end k Hk); reflexivity].
  all: rewrite chain_sub_go_other by reflexivity.
  all: rewrite Ek; reflexivity.
Qed.

Lemma replace_go_miss (old new : string) (a : ascii) (r : string) :
  prefix old (String a r) = false ->
  Py.replace_go old new 0 (String a r) = String a (Py.replace_go old new 0 r).
Proof. intros H. cbn [Py.replace_go]. rewrite H. reflexivity. Qed.

Ltac keep_digits d Hd :=
  match goal with
  | |- context [Py.replace_go ".*" ?new 0 (d ++ ?t)] =>
      rewrite (replace_go_digits "." "*" new d t eq_refl (proj2 Hd))
  end.

Lemma chain_has_no_star (o1 o2 i j k : string) :
  is_link o1 -> is_link o2 -> digit_string i -> digit_string j -> digit_string k ->
  Py.replace ("#" ++ i ++ o1 ++ "#" ++ j ++ o2 ++ "#" ++ k) ".*" ".1,1000"
  = "#" ++ i ++ o1 ++ "#" ++ j ++ o2 ++ "#" ++ k.
Proof.
  intros H1 H2 Hi Hj Hk. unfold Py.replace.
  destruct H1 as [-> | ->], H2 as [-> | ->]; cbn [append].
  all: rewrite replace_go_miss by reflexivity; keep_digits i Hi.
  all: rewrite replace_go_miss by reflexivity; rewrite replace_go_miss by reflexivity;
    keep_digits j Hj.
  all: rewrite replace_go_miss by reflexivity; rewrite replace_go_miss by reflexivity.
  all: rewrite (replace_go_all_digits "." "*" _ k eq_refl (proj2 Hk)); reflexivity.
Qed.

(** X7: [normalize_shorthand] splits a chain of three nodes into its
    two links, [#i o1 #j o2 #k] into [#i o1 #j;#j o2 #k], for links [>] and
    [.] and all node numbers. *)
Theorem normalize_shorthand_splits_chain (o1 o2 i j k : string) :
  is_link o1 -> is_link o2 -> digit_string i -> digit_string j -> digit_string k ->
  normalize_shorthand ("#" ++ i ++ o1 ++ "#" ++ j ++ o2 ++ "#" ++ k)
  = Some ("#" ++ i ++ o1 ++ "#" ++ j ++ ";#" ++ j ++ o2 ++ "#" ++ k).
Proof.
  intros H1 H2 Hi Hj Hk. unfold normalize_shorthand.
  rewrite (chain_has_no_star _ _ _ _ _ H1 H2 Hi Hj Hk).
  cbn [normalize_loop]. rewrite (chain_first_round _ _ _ _ _ H1 H2 Hi Hj Hk).
  match goal with
  | |- (if ?a ==? ?b then _ else _) = _ =>
      assert (E : (a ==? b) = false)
  end.
  { apply String.eqb_neq. intros E. apply (f_equal String.length) in E.
    repeat (rewrite length_append in E; cbn [String.length] in E). lia. }
  rewrite E. cbn [append String.length normalize_loop].
  change (String "#" (i ++ o1 ++ String "#" (j ++ String ";" (String "#" (j ++ o2 ++ String "#" k)))))
    with ("#" ++ i ++ o1 ++ "#" ++ j ++ ";#" ++ j ++ o2 ++ "#" ++ k).
  rewrite (chain_second_round _ _ _ _ _ H1 H2 Hi Hj Hk), String.eqb_refl. reflexivity.
Qed.

Lemma normalize_shorthand_splits_chain_witness :
  normalize_shorthand ("#" ++ "1" ++ ">" ++ "#" ++ "2" ++ "." ++ "#" ++ "3")
  = Some ("#" ++ "1" ++ ">" ++ "#" ++ "2" ++ ";#" ++ "2" ++ "." ++ "#" ++ "3").
Proof.
  apply (normalize_shorthand_splits_chain ">" "." "1" "2" "3");
    try (left; reflexivity); try (right; reflexivity);
    (split; [discriminate | reflexivity]).
Defined.

(** ** [validate] on a node definition *)

Lemma prefix_split (l s : string) :
  prefix l s = true -> s = l ++ drop (String.length l) s.
Proof.
  revert s. induction l as [|a l IH]; intros s H.
  - destruct s; reflexivity.
  - destruct s as [|b s]; [discriminate H |]. simpl in H.
    destruct (Ascii.ascii_dec a b) as [->|_]; [| discriminate H].
    cbn [String.length drop append]. rewrite <- (IH _ H). reflexivity.
Qed.

Lemma drop_app (l r : string) : drop (String.length l) (l ++ r) = r.
Proof. induction l as [|a l IH]; [destruct r; reflexivity | exact IH]. Qed.

Lemma rounds_app (step : string -> list string) (t : string) :
  (forall a b, In b (step a) -> In (b ++ t) (step (a ++ t))) ->
  forall (n m : nat) (s u : string),
    (n <= m)%nat -> In u (rounds step n s) -> In (u ++ t) (rounds step m (s ++ t)).
Proof.
  intros Hstep. induction n as [|k IH]; intros m s u Hm Hu.
  - destruct Hu as [<- | []]. destruct m; left; reflexivity.
  - cbn [rounds] in Hu. destruct Hu as [<- | Hu]; [destruct m; left; reflexivity |].
    destruct m as [|m]; [lia |]. cbn [rounds]. right.
    apply in_flat_map in Hu. destruct Hu as (b & Hb & Hu).
    apply in_flat_map. exists (b ++ t). split; [apply Hstep; exact Hb |].
    destruct (String.length b <? String.length s)%nat eqn:E; [| contradiction].
    apply Nat.ltb_lt in E.
    assert (E' : (String.length (b ++ t) <? String.length (s ++ t))%nat = true).
    { apply Nat.ltb_lt. rewrite !length_append. lia. }
    rewrite E'. apply IH; [lia | exact Hu].
Qed.

Lemma run_app (r : rx) (t : string) :
  forall s u, In u (run r s) -> In (u ++ t) (run r (s ++ t)).
Proof.
  induction r as [l | p | r1 IH1 r2 IH2 | r1 IH1 r2 IH2 | r1 IH1 | r1 IH1 | r1 IH1];
    intros s u Hu; cbn [run] in *.
  - destruct (prefix l s) eqn:E; [| contradiction].
    destruct Hu as [<- | []].
    pose proof (prefix_split _ _ E) as Hs.
    remember (drop (String.length l) s) as rest eqn:Hr. clear Hr. subst s.
    rewrite append_assoc, prefix_app, drop_app. left. reflexivity.
  - destruct s as [|a s]; [contradiction |]. cbn [append].
    destruct (p a); [| contradiction]. destruct Hu as [<- | []]. left. reflexivity.
  - apply in_flat_map in Hu. destruct Hu as (v & Hv & Hu).
    apply in_flat_map. exists (v ++ t). split; [apply IH1 | apply IH2]; assumption.
  - apply in_app_or in Hu. apply in_or_app.
    destruct Hu as [Hu | Hu]; [left; apply IH1 | right; apply IH2]; assumption.
  - apply in_app_or in Hu. apply in_or_app.
    destruct Hu as [Hu | [<- | []]]; [left; apply IH1; assumption | right; left; reflexivity].
  - apply (rounds_app (run r1) t IH1 (String.length s)); [| exact Hu].
    rewrite length_append. lia.
  - apply in_flat_map in Hu. destruct Hu as (v & Hv & Hu).
    apply in_flat_map. exists (v ++ t). split; [apply IH1; exact Hv |].
    apply (rounds_app (run r1) t IH1 (String.length v)); [| exact Hu].
    rewrite length_append. lia.
Qed.

Lemma matches_app (r : rx) (s t : string) :
  matches r s = true -> matches r (s ++ t) = true.
Proof.
  unfold matches. intros H.
  destruct (run r s) as [|u l] eqn:E; [discriminate H |].
  assert (Hin : In (u ++ t) (run r (s ++ t))) by (apply run_app; rewrite E; left; reflexivity).
  destruct (run r (s ++ t)); [contradiction | reflexivity].
Qed.

Lemma validate_definition_single (dm : DefinitionMatcher) :
  has_char "&" (def_text dm) = false ->
  has_char "%" (def_text dm) = false ->
  validate_definition dm
  = if negb (matches rx_node_field (def_text dm))
       && negb (matches rx_node_position (def_text dm))
    then "Invalid node definition in column 1: " ++ def_text dm
    else EmptyString.
Proof.
  intros Ha Hp. unfold validate_definition, escape.
  rewrite (escape_go_no_symbol _ _ _ Ha).
  change (Py.split (def_text dm) "&") with (Py.split (def_text dm) (Py.chr "&")).
  rewrite (split_chr_none _ _ Ha).
  cbn [map]. unfold Py.replace. rewrite (replace_go_absent "%" "%%%%" _ _ Hp).
  unfold concat_str. cbn [map fold_right]. apply append_empty.
Qed.

(** X8: [validate] tests a node definition with [re.match], which is
    not anchored at the end: a definition that passes still passes with any
    text appended to it (without [&] and percent signs). *)
Theorem validate_definition_ignores_tail
        (clause tail : string) (i j : Z) (ds ds' : list Definition_) :
  has_char "&" (clause ++ tail) = false ->
  has_char "%" (clause ++ tail) = false ->
  validate_definition {| def_text := clause; def_index := i; defs := ds |}
  = EmptyString ->
  validate_definition {| def_text := clause ++ tail; def_index := j; defs := ds' |}
  = EmptyString.
Proof.
  intros Ha Hp H.
  rewrite has_char_app in Ha, Hp.
  apply orb_false_iff in Ha, Hp. destruct Ha as [Ha Ha'], Hp as [Hp Hp'].
  rewrite validate_definition_single in H by assumption.
  rewrite validate_definition_single
    by (cbn [def_text]; rewrite has_char_app; apply orb_false_iff; split; assumption).
  cbn [def_text] in *.
  destruct (matches rx_node_field clause) eqn:E1.
  - rewrite (matches_app _ _ tail E1). reflexivity.
  - destruct (matches rx_node_position clause) eqn:E2.
    + rewrite (matches_app _ _ tail E2), andb_false_r. reflexivity.
    + discriminate H.
Qed.

Lemma validate_definition_ignores_tail_witness :
  validate_definition {| def_text := "text=/a/" ++ "b=c"; def_index := 1; defs := [] |}
  = EmptyString.
Proof.
  apply (validate_definition_ignores_tail "text=/a/" "b=c" 1 1 [] []); reflexivity.
Defined.

(** ** Line numbers of the rules of a file *)

Lemma Transformation_init_keeps_line (re : ReLib) (text l : string) (t : Transformation) :
  Transformation_init re text l = Ok t -> line t = l.
Proof.
  unfold Transformation_init. intros H.
  destruct (parse_transformation re text) as [[[[ds rls] acts]|]| |]; simpl in *;
    try discriminate H.
  injection H as <-. reflexivity.
Qed.

Lemma load_instructions_lines (re : ReLib) (config_file : list string) :
  forall (first : nat) (ts : list Transformation),
    load_instructions re config_file (Z.of_nat first) = Ok ts ->
    map line ts
    = map (fun p => Py.str_int (Z.of_nat (fst p))) (numbered_instructions config_file first).
Proof.
  unfold numbered_instructions.
  induction config_file as [|x cfg IH]; intros first ts H.
  - simpl in H. injection H as <-. reflexivity.
  - cbn [load_instructions] in H. cbn [List.length seq combine filter snd].
    replace (Z.of_nat first + 1) with (Z.of_nat (S first)) in H by lia.
    destruct (is_instruction x).
    + destruct (Transformation_init re x _) as [t| |] eqn:E; simpl in H; try discriminate H.
      destruct (load_instructions re cfg _) as [ts'| |] eqn:E'; simpl in H;
        try discriminate H.
      injection H as <-. cbn [map fst]. rewrite (IH (S first) _ E').
      rewrite (Transformation_init_keeps_line _ _ _ _ E). reflexivity.
    + apply (IH (S first)). exact H.
Qed.

(** X9: [read_config_file] builds one rule for each instruction line
    and labels it with the number of that line in the file, counted from 1
    with the comment lines and the blank lines; the rules loaded before stay
    in front unless they are cleared. *)
Theorem rules_carry_their_line_numbers
        (re : ReLib) (old : list Transformation) (config_file : list string)
        (clear : bool) (ts : list Transformation) :
  read_config_file re old config_file clear = Ok ts ->
  exists loaded,
    ts = ((if clear then [] else old) ++ loaded)%list
    /\ map line loaded
       = map (fun p => Py.str_int (Z.of_nat (fst p))) (numbered_instructions config_file 1).
Proof.
  unfold read_config_file. intros H.
  destruct (load_instructions re config_file 1) as [loaded| |] eqn:E; simpl in H;
    try discriminate H.
  destruct (trans_report _ ==? EmptyString); [| discriminate H].
  injection H as <-. exists loaded. split; [reflexivity |].
  apply (load_instructions_lines re config_file 1 loaded E).
Qed.

Lemma rules_carry_their_line_numbers_witness :
  exists loaded,
    [compiled_rule rule_ab_text "3"] = ((if false then [] else []) ++ loaded)%list
    /\ map line loaded
       = map (fun p => Py.str_int (Z.of_nat (fst p)))
             (numbered_instructions ["# a comment"; EmptyString; rule_ab_text] 1).
Proof.
  apply (rules_carry_their_line_numbers plain_re [] ["# a comment"; EmptyString; rule_ab_text]
           false).
  vm_compute. reflexivity.
Defined.

(** ** [add_transformation] *)

Lemma split_singleton (x : string) (l1 l2 : list string) (a b c : string) :
  (Py.split x TAB ++ l1 ++ l2 = [a; b; c])%list -> l1 <> [] -> l2 <> [] ->
  (l1 ++ l2)%list = [b; c].
Proof.
  intros H H1 H2. pose proof (split_length_pos x TAB) as Hx.
  destruct (Py.split x TAB) as [|h [|h2 t]]; [simpl in Hx; lia | |].
  - simpl in H. injection H as _ H. exact H.
  - exfalso. destruct l1 as [|p l1]; [contradiction |]. destruct l2 as [|q l2]; [contradiction |].
    apply (f_equal (@List.length string)) in H.
    rewrite !length_app in H. simpl in H. lia.
Qed.

(** X10: the keyword form of [add_transformation] ignores the actions
    it is given: the clause is built from the letters of the word
    [actions], so the rule added has the seven actions [a], [c], [t], [i],
    [o], [n], [s], whatever the nodes and relations. *)
Theorem add_transformation_ignores_actions
        (re : ReLib) (nodes rels given : list string) (d d' : DepEdit) :
  add_transformation re [] (Some nodes) (Some rels) (Some given) d = Completed (Ok d') ->
  exists t,
    transformations d' = (transformations d ++ [t])%list
    /\ actions t = ["a"; "c"; "t"; "i"; "o"; "n"; "s"]
    /\ line t = user_line (user_transformation_counter d + 1)
    /\ user_transformation_counter d' = user_transformation_counter d + 1.
Proof.
  unfold add_transformation. intros H.
  destruct (Transformation_init re _ _) as [t| |] eqn:E; try discriminate H.
  injection H as <-. exists t. cbn [transformations user_transformation_counter].
  split; [reflexivity |].
  destruct (Transformation_init_parts _ _ _ _ E)
    as (dd & r & a & r' & a' & Hs & Hr & Ha & _ & _ & Hact & Hl).
  split; [| split; [exact Hl | reflexivity]].
  change (Py.join ";" (map Py.chr (list_ascii_of_string "actions"))) with "a;c;t;i;o;n;s" in Hs.
  cbn [Py.join] in Hs. change (Py.chr "009") with (String "009" EmptyString) in Hs.
  cbn [append] in Hs. unfold TAB in Hs.
  rewrite !split_chr_app in Hs.
  assert (Htail : a = "a;c;t;i;o;n;s").
  { change (Py.chr "009") with TAB in Hs.
    apply split_singleton in Hs.
    - pose proof (split_length_pos (Py.join ";" rels) TAB) as Hx.
      destruct (Py.split (Py.join ";" rels) TAB) as [|h [|h2 t']]; [simpl in Hx; lia | |].
      + simpl in Hs. injection Hs as _ Hs. symmetry. exact Hs.
      + apply (f_equal (@List.length string)) in Hs. simpl in Hs.
        rewrite length_app in Hs. simpl in Hs. lia.
    - pose proof (split_length_pos (Py.join ";" rels) TAB) as Hx.
      destruct (Py.split (Py.join ";" rels) TAB); [simpl in Hx; lia | discriminate].
    - discriminate. }
  subst a. vm_compute in Ha. injection Ha as <-. rewrite Hact. vm_compute. reflexivity.
Qed.

Lemma add_transformation_ignores_actions_witness :
  exists t,
    transformations
      (after_call (add_transformation plain_re [] (Some ["text=/a/"]) (Some ["none"])
                                      (Some ["#1:lemma=b"]) no_rules))
    = (transformations no_rules ++ [t])%list
    /\ actions t = ["a"; "c"; "t"; "i"; "o"; "n"; "s"]
    /\ line t = user_line (user_transformation_counter no_rules + 1)
    /\ user_transformation_counter
         (after_call (add_transformation plain_re [] (Some ["text=/a/"]) (Some ["none"])
                                         (Some ["#1:lemma=b"]) no_rules))
       = user_transformation_counter no_rules + 1.
Proof.
  apply (add_transformation_ignores_actions plain_re ["text=/a/"] ["none"] ["#1:lemma=b"]).
  vm_compute. reflexivity.
Defined.

Lemma add_strings_labels (re : ReLib) (args : list string) :
  forall (d d' : DepEdit),
    add_strings re args d = Completed (Ok d') ->
    exists ts,
      transformations d' = (transformations d ++ ts)%list
      /\ map line ts
         = map (fun i => user_line (user_transformation_counter d + 1 + Z.of_nat i))
               (seq 0 (List.length args))
      /\ user_transformation_counter d'
         = user_transformation_counter d + Z.of_nat (List.length args).
Proof.
  induction args as [|s args IH]; intros d d' H.
  - simpl in H. injection H as <-. exists []. split; [rewrite app_nil_r; reflexivity |].
    split; [reflexivity | simpl; lia].
  - cbn [add_strings] in H. unfold add_string in H.
    destruct (Transformation_init re s _) as [t| |e] eqn:E;
      [| discriminate H | destruct e; discriminate H].
    destruct (IH _ _ H) as (ts & Ht & Hl & Hc).
    cbn [transformations user_transformation_counter] in Ht, Hl, Hc.
    exists (t :: ts). split; [rewrite Ht, <- app_assoc; reflexivity |].
    split.
    + cbn [map List.length seq]. f_equal.
      * destruct (Transformation_init_parts _ _ _ _ E) as (? & ? & ? & ? & ? & H').
        destruct H' as (_ & _ & _ & _ & _ & _ & ->). f_equal. simpl. lia.
      * rewrite Hl, <- seq_shift, map_map. apply map_ext. intros i. f_equal. lia.
    + rewrite Hc. cbn [List.length]. lia.
Qed.

(** X11: the positional form of [add_transformation] appends one rule
    for each string, in order, after the rules already there, labels them
    [u<n>] with consecutive values of the counter, and advances the counter
    by the number of strings. *)
Theorem add_transformation_labels
        (re : ReLib) (text : string) (more : list string)
        (nodes rels actions : option (list string)) (d d' : DepEdit) :
  add_transformation re (text :: more) nodes rels actions d = Completed (Ok d') ->
  exists ts,
    transformations d' = (transformations d ++ ts)%list
    /\ map line ts
       = map (fun i => user_line (user_transformation_counter d + 1 + Z.of_nat i))
             (seq 0 (List.length (text :: more)))
    /\ user_transformation_counter d'
       = user_transformation_counter d + Z.of_nat (List.length (text :: more)).
Proof. intros H. apply (add_strings_labels re (text :: more) d d' H). Qed.

Lemma add_transformation_labels_witness :
  exists ts,
    transformations (after_call (add_transformation plain_re [rule_ab_text; rule_next]
                                                    None None None no_rules))
    = (transformations no_rules ++ ts)%list
    /\ map line ts
       = map (fun i => user_line (user_transformation_counter no_rules + 1 + Z.of_nat i))
             (seq 0 (List.length [rule_ab_text; rule_next]))
    /\ user_transformation_counter
         (after_call (add_transformation plain_re [rule_ab_text; rule_next]
                                         None None None no_rules))
       = user_transformation_counter no_rules + Z.of_nat (List.length [rule_ab_text; rule_next]).
Proof.
  apply (add_transformation_labels plain_re rule_ab_text [rule_next] None None None no_rules).
  vm_compute. reflexivity.
Defined.

(** X12: a rule text with three tabs or more makes the positional form
    of [add_transformation] raise [IOError] with the message that the
    transformation must be a string; the same fault in the keyword form
    leaves the [ValueError] of the constructor uncaught. *)
Theorem add_transformation_many_tabs
        (re : ReLib) (a b c x : string) (more : list string)
        (nodes rels actions : option (list string)) (rs acts : list string) (d : DepEdit) :
  add_transformation re ((a ++ TAB ++ b ++ TAB ++ c ++ TAB ++ x) :: more) nodes rels actions d
  = IOError "Invalid transformation - must be a string"
  /\ add_transformation re [] (Some [a ++ TAB ++ b]) (Some rs) (Some acts) d
     = Completed (Raise ValueError).
Proof.
  split.
  - cbn [add_transformation add_strings]. unfold add_string.
    rewrite Transformation_init_many_tabs. reflexivity.
  - unfold add_transformation. cbn [Py.join].
    change (Py.chr "009") with TAB. rewrite !append_assoc.
    rewrite Transformation_init_many_tabs. reflexivity.
Qed.

Lemma Transformation_init_line (re : ReLib) (text l l' : string) (t : Transformation) :
  Transformation_init re text l = Ok t ->
  Transformation_init re text l'
  = Ok {| definitions := definitions t; relations := relations t;
          actions := actions t; line := l' |}.
Proof.
  unfold Transformation_init. intros H.
  destruct (parse_transformation re text) as [[[[ds rls] acts]|]| |]; simpl in *;
    try discriminate H.
  injection H as <-. reflexivity.
Qed.

Lemma validate_line (t : Transformation) (l : string) :
  validate {| definitions := definitions t; relations := relations t;
              actions := actions t; line := l |}
  = validate t.
Proof. reflexivity. Qed.

(** X13: [add_transformation] never validates: a rule that
    [read_config_file] rejects with its report is added by
    [add_transformation], with the same faults. *)
Theorem add_transformation_does_not_validate
        (re : ReLib) (text : string) (t : Transformation) (d : DepEdit) :
  is_instruction text = true ->
  Transformation_init re text (Py.str_int 1) = Ok t ->
  validate t <> EmptyString ->
  read_config_file re [] [text] false
  = Exit (config_error ("On line " ++ Py.str_int 1 ++ ": " ++ validate t))
  /\ exists t',
      add_transformation re [text] None None None d
      = Completed (Ok {| transformations := (transformations d ++ [t'])%list;
                         user_transformation_counter := user_transformation_counter d + 1 |})
      /\ validate t' = validate t.
Proof.
  intros Hi Ht Hv. split.
  - unfold read_config_file. cbn [load_instructions]. rewrite Hi, Ht.
    cbn [bind app]. unfold trans_report. cbn [map concat_str fold_right].
    unfold line_report.
    destruct (validate t ==? EmptyString) eqn:E;
      [apply String.eqb_eq in E; contradiction |].
    rewrite append_empty.
    destruct (Transformation_init_parts _ _ _ _ Ht) as (? & ? & ? & ? & ? & H').
    destruct H' as (_ & _ & _ & _ & _ & _ & ->).
    reflexivity.
  - eexists. split.
    + cbn [add_transformation add_strings]. unfold add_string.
      rewrite (Transformation_init_line re text _ (user_line (user_transformation_counter d + 1)) t Ht).
      reflexivity.
    + apply validate_line.
Qed.

Lemma add_transformation_does_not_validate_witness :
  read_config_file plain_re [] [bad_field_line] false
  = Exit (config_error ("On line " ++ Py.str_int 1 ++ ": " ++ validate rule_bad_field))
  /\ exists t',
      add_transformation plain_re [bad_field_line] None None None no_rules
      = Completed (Ok {| transformations := (transformations no_rules ++ [t'])%list;
                         user_transformation_counter :=
                           user_transformation_counter no_rules + 1 |})
      /\ validate t' = validate rule_bad_field.
Proof.
  apply (add_transformation_does_not_validate plain_re bad_field_line rule_bad_field no_rules).
  - reflexivity.
  - vm_compute. reflexivity.
  - vm_compute. discriminate.
Defined.

(** * Further properties of the engine *)

(** ** Candidates of the nodes *)

Lemma match_defs_groups (ds : list Definition_) (token : ParsedToken) :
  forall (pg gs : list groups_t),
    match_defs ds token pg = Ok (Some gs) ->
    (forall g, In g pg -> g <> []) -> forall g, In g gs -> g <> [].
Proof.
  induction ds as [|d ds IH]; intros pg gs H Hpg.
  - simpl in H. injection H as <-. exact Hpg.
  - cbn [match_defs] in H.
    destruct (getattr token (criterion d)) as [v| |]; simpl in H; try discriminate H.
    destruct (apply_match_func d v) as [[| |g0]| |]; simpl in H; try discriminate H.
    + apply (IH _ _ H Hpg).
    + apply (IH _ _ H). destruct g0 as [|x g0]; [exact Hpg |].
      intros g Hg. apply in_app_or in Hg. destruct Hg as [Hg | [<- | []]].
      * apply Hpg. exact Hg.
      * discriminate.
Qed.

Lemma candidates_sound (def_matcher : DefinitionMatcher) (toks : list ParsedToken) :
  forall (i : nat) (ms : list Match),
    candidates def_matcher toks i = Ok ms ->
    forall m, In m ms ->
      (i <= m_token m)%nat
      /\ (exists tok, nth_error toks (m_token m - i) = Some tok /\ truthy (is_super_tok tok) = false)
      /\ forall g, In g (m_groups m) -> g <> [].
Proof.
  induction toks as [|token toks IH]; intros i ms H m Hm.
  - simpl in H. injection H as <-. contradiction.
  - cbn [candidates] in H.
    assert (Hrest : forall ms', candidates def_matcher toks (S i) = Ok ms' -> In m ms' ->
              (i <= m_token m)%nat
              /\ (exists tok, nth_error (token :: toks) (m_token m - i) = Some tok
                              /\ truthy (is_super_tok tok) = false)
              /\ forall g, In g (m_groups m) -> g <> []).
    { intros ms' H' Hin. destruct (IH _ _ H' _ Hin) as (Hle & (tok & Ht & Hs) & Hg).
      split; [lia |]. split; [| exact Hg]. exists tok. split; [| exact Hs].
      replace (m_token m - i)%nat with (S (m_token m - S i)) by lia. exact Ht. }
    destruct (truthy (is_super_tok token)) eqn:Es; [apply (Hrest _ H Hm) |].
    unfold DefinitionMatcher_match in H.
    destruct (match_defs (defs def_matcher) token []) as [o| |] eqn:Em; simpl in H;
      try discriminate H.
    destruct (candidates def_matcher toks (S i)) as [ms'| |] eqn:Ec; simpl in H;
      try discriminate H.
    destruct o as [gs|]; injection H as <-; [| apply (Hrest _ eq_refl Hm)].
    destruct Hm as [<- | Hm]; [| apply (Hrest _ eq_refl Hm)].
    cbn [m_token m_groups]. split; [lia |]. split.
    + exists token. rewrite Nat.sub_diag. split; [reflexivity | exact Es].
    + apply (match_defs_groups _ _ _ _ Em). intros g [].
Qed.

Lemma collect_node_matches_sound (definitions : list DefinitionMatcher)
      (toks : list ParsedToken) :
  forall (node_matches node_matches' : list (Z * list Match)),
    (forall k m, In m (nm_get node_matches k) -> sound_candidate toks m) ->
    collect_node_matches definitions toks node_matches = Ok node_matches' ->
    forall k m, In m (nm_get node_matches' k) -> sound_candidate toks m.
Proof.
  induction definitions as [|dm dms IH]; intros nm nm' Hnm H.
  - simpl in H. injection H as <-. exact Hnm.
  - cbn [collect_node_matches] in H.
    destruct (candidates dm toks 0) as [ms| |] eqn:Ec; simpl in H; try discriminate H.
    refine (IH _ _ _ H). intros k m.
    destruct ms as [|m0 ms]; [apply Hnm |].
    unfold nm_get. rewrite int_get_set.
    destruct (k =? def_index dm) eqn:E; [| apply Hnm].
    intros Hin. apply in_app_or in Hin. destruct Hin as [Hin | Hin].
    + apply (Hnm (def_index dm)). exact Hin.
    + destruct (candidates_sound _ _ _ _ Ec _ Hin) as (_ & Ht & Hg).
      rewrite Nat.sub_0_r in Ht. split; assumption.
Qed.

(** X14: every candidate that [process_sentence] files under a node was
    made by the definition of that node from a token of the sentence that
    is no super-token, and none of its tuples of groups is empty. *)
Theorem super_tokens_are_never_candidates
        (definitions : list DefinitionMatcher) (toks : list ParsedToken)
        (node_matches : list (Z * list Match)) (k : Z) (m : Match) :
  collect_node_matches definitions toks [] = Ok node_matches ->
  In m (nm_get node_matches k) ->
  m_def_index m = k
  /\ (exists tok, nth_error toks (m_token m) = Some tok /\ truthy (is_super_tok tok) = false)
  /\ forall g, In g (m_groups m) -> g <> [].
Proof.
  intros H Hm. split.
  - assert (Hwf : wf_node_matches []) by (intros k' m' []).
    apply (collect_node_matches_wf _ _ _ _ Hwf H k m Hm).
  - refine (collect_node_matches_sound definitions toks [] node_matches _ H k m Hm).
    intros k' m' [].
Qed.

Lemma super_tokens_are_never_candidates_witness :
  m_def_index candidate_nt = 1
  /\ (exists tok, nth_error sentence_dont (m_token candidate_nt) = Some tok
                  /\ truthy (is_super_tok tok) = false)
  /\ forall g, In g (m_groups candidate_nt) -> g <> [].
Proof.
  eapply (super_tokens_are_never_candidates (definitions rule_any) sentence_dont _ 1
            candidate_nt).
  - vm_compute. reflexivity.
  - vm_compute. auto.
Defined.

(** ** [matches_relation] *)

Lemma relate_pairs_rel (fl : NumLib) (toks : list ParsedToken)
      (node_matches : list (Z * list Match)) (relation : string) (node1 node2 : Z)
      (operator : option string) (found : list ResultSet) (matches : list (Z * list nat)) :
  relate_pairs fl toks node_matches relation node1 node2 operator = Ok (found, matches) ->
  Forall (fun s => rs_rel s = relation) found.
Proof.
  unfold relate_pairs. intros H.
  refine (foldM_invariant
            (fun acc : list ResultSet * list (Z * list nat) =>
               Forall (fun s => rs_rel s = relation) (fst acc))
            _ _ _ _ _ _ H); [| constructor].
  intros acc m1 acc' _ Hacc H1.
  refine (foldM_invariant
            (fun acc : list ResultSet * list (Z * list nat) =>
               Forall (fun s => rs_rel s = relation) (fst acc))
            _ _ _ _ _ Hacc H1).
  intros [f ms] m2 acc2 _ Hf H2. simpl in Hf.
  destruct (token_at toks (m_token m1)) as [t1| |]; simpl in H2; try discriminate H2.
  destruct (token_at toks (m_token m2)) as [t2| |]; simpl in H2; try discriminate H2.
  destruct (test_relation fl t1 t2 operator) as [[|]| |]; simpl in H2; try discriminate H2;
    injection H2 as <-; simpl; [| exact Hf].
  apply Forall_app. split; [exact Hf |]. constructor; [reflexivity | constructor].
Qed.

Lemma prune_node_incl (node_matches : list (Z * list Match))
      (matches : list (Z * list nat)) (option k : Z) (m : Match) :
  In m (nm_get (prune_node node_matches matches option) k) -> In m (nm_get node_matches k).
Proof.
  unfold prune_node. unfold nm_get at 1. rewrite int_get_set.
  destruct (k =? option) eqn:E; [| exact (fun H => H)].
  apply Z.eqb_eq in E. subst k. intros H. apply filter_In in H. exact (proj1 H).
Qed.

(** X15: [matches_relation] never adds a candidate to a node, appends to
    [result_sets] bindings of the relation at hand and no other, and
    returns a true value exactly when it appended one. *)
Theorem matches_relation_only_prunes
        (fl : NumLib) (toks : list ParsedToken)
        (node_matches node_matches' : list (Z * list Match)) (relation : string)
        (result_sets result_sets' : list ResultSet) (hit : bool) :
  matches_relation fl toks node_matches relation result_sets
  = Ok (hit, node_matches', result_sets') ->
  (forall k m, In m (nm_get node_matches' k) -> In m (nm_get node_matches k))
  /\ exists found,
      result_sets' = (result_sets ++ found)%list
      /\ hit = negb (List.length found =? 0)%nat
      /\ Forall (fun s => rs_rel s = relation) found.
Proof.
  unfold matches_relation. intros H.
  destruct (relation ==? EmptyString).
  { injection H as <- <- <-. split; [tauto |]. exists []. rewrite app_nil_r.
    repeat split. constructor. }
  destruct (relation_operator relation) as [[operator field]| |]; simpl in H;
    try discriminate H.
  destruct (relation ==? "none").
  { injection H as <- <- <-. split; [tauto |].
    eexists. split; [reflexivity |]. split; [reflexivity |].
    apply Forall_forall. intros s Hs. apply in_map_iff in Hs.
    destruct Hs as (m & <- & _). reflexivity. }
  destruct (relation_nodes relation operator field) as [[[node1 node2] op]| |];
    simpl in H; try discriminate H.
  unfold relate in H.
  destruct (relate_pairs fl toks node_matches relation node1 node2 op)
    as [[found matches]| |] eqn:E; simpl in H; try discriminate H.
  injection H as <- <- <-. split.
  - intros k m Hm. apply prune_node_incl in Hm. apply prune_node_incl in Hm. exact Hm.
  - exists found. split; [reflexivity |]. split; [reflexivity |].
    apply (relate_pairs_rel _ _ _ _ _ _ _ _ _ E).
Qed.

Lemma matches_relation_only_prunes_witness :
  (forall k m, In m (nm_get (snd (fst related_ab)) k) -> In m (nm_get candidates_ab k))
  /\ exists found,
      snd related_ab = ([] ++ found)%list
      /\ fst (fst related_ab) = negb (List.length found =? 0)%nat
      /\ Forall (fun s => rs_rel s = "#1>#2") found.
Proof.
  apply (matches_relation_only_prunes whole_numbers (tokens st_abc) candidates_ab
           (snd (fst related_ab)) "#1>#2" [] (snd related_ab) (fst (fst related_ab))).
  vm_compute. reflexivity.
Defined.

(** ** The shorthand [.*] on a sentence *)

Lemma pairs_within_In (ident : nat -> Z) (lo hi : Z) (c1 c2 : list Match) (m1 m2 : Match) :
  In (m1, m2) (pairs_within ident lo hi c1 c2)
  <-> In m1 c1 /\ In m2 c2
      /\ lo <= ident (m_token m2) - ident (m_token m1) <= hi.
Proof.
  unfold pairs_within. rewrite in_flat_map. split.
  - intros (x & Hx & Hin). apply in_map_iff in Hin. destruct Hin as (y & E & Hy).
    injection E as -> ->. apply filter_In in Hy. destruct Hy as [Hy Hr].
    unfold in_range in Hr. apply andb_true_iff in Hr. destruct Hr as [H1 H2].
    apply Z.leb_le in H1. apply Z.leb_le in H2. repeat split; assumption.
  - intros (H1 & H2 & Hlo & Hhi). exists m1. split; [exact H1 |].
    apply in_map. apply filter_In. split; [exact H2 |].
    unfold in_range. apply andb_true_iff. split; apply Z.leb_le; assumption.
Qed.

Section Distance.

Variable fl : NumLib.
Variable toks : list ParsedToken.
Variable ident : nat -> Z.
Variable relation : string.
Variable node1 node2 : Z.
Variable lo hi : Z.
Variable operator : string.

(** What [test_relation] is assumed to answer for [operator]. *)
Hypothesis test_operator :
  forall tok1 tok2 a b,
    int_float fl (id tok2) = Ok a -> int_float fl (id tok1) = Ok b ->
    test_relation fl tok1 tok2 (Some operator) = Ok ((a - b <=? hi) && (lo <=? a - b)).

Lemma relate_inner (m1 : Match) (c2 : list Match) :
  numbered fl toks ident [m1] -> numbered fl toks ident c2 ->
  forall found matches,
    foldM
      (fun acc matcher2 =>
         let '(found, matches) := acc in
         tok1 <- token_at toks (m_token m1) ;;
         tok2 <- token_at toks (m_token matcher2) ;;
         b <- test_relation fl tok1 tok2 (Some operator) ;;
         if b : bool then
           Ok ((found ++ [{| rs_nodes := int_set [(node1, m_token m1)]
                                                 node2 (m_token matcher2);
                             rs_rel := relation;
                             rs_matchers := [m1; matcher2] |}])%list,
               matches_add (matches_add matches node1 (m_token m1))
                           node2 (m_token matcher2))
         else Ok acc)
      c2 (found, matches)
    = Ok ((found ++ map (binding_of relation node1 node2)
                        (map (pair m1) (filter (in_range ident lo hi m1) c2)))%list,
          fold_left (add_pair node1 node2) (map (pair m1) (filter (in_range ident lo hi m1) c2)) matches).
Proof.
  intros H1 H2. destruct (H1 m1 (or_introl eq_refl)) as (tok1 & Ht1 & Hi1).
  induction c2 as [|m2 c2 IH]; intros found matches.
  - cbn. rewrite app_nil_r. reflexivity.
  - destruct (H2 m2 (or_introl eq_refl)) as (tok2 & Ht2 & Hi2).
    cbn [foldM]. unfold token_at at 1 2. rewrite Ht1, Ht2. cbn [of_option bind].
    assert (Et : test_relation fl tok1 tok2 (Some operator)
                 = Ok (in_range ident lo hi m1 m2)).
    { rewrite (test_operator _ _ _ _ Hi2 Hi1). unfold in_range.
      rewrite andb_comm. reflexivity. }
    rewrite Et. cbn [bind filter].
    destruct (in_range ident lo hi m1 m2).
    + cbn [bind map fold_left]. rewrite IH.
      * rewrite <- app_assoc. reflexivity.
      * intros m Hm. apply H2. right. exact Hm.
    + cbn [bind]. apply IH. intros m Hm. apply H2. right. exact Hm.
Qed.

Lemma relate_outer (c2 c1 : list Match) :
  numbered fl toks ident c1 -> numbered fl toks ident c2 ->
  forall found matches,
    foldM
      (fun acc matcher1 =>
         foldM
           (fun acc matcher2 =>
              let '(found, matches) := acc in
              tok1 <- token_at toks (m_token matcher1) ;;
              tok2 <- token_at toks (m_token matcher2) ;;
              b <- test_relation fl tok1 tok2 (Some operator) ;;
              if b : bool then
                Ok ((found ++ [{| rs_nodes := int_set [(node1, m_token matcher1)]
                                                      node2 (m_token matcher2);
                                  rs_rel := relation;
                                  rs_matchers := [matcher1; matcher2] |}])%list,
                    matches_add (matches_add matches node1 (m_token matcher1))
                                node2 (m_token matcher2))
              else Ok acc)
           c2 acc)
      c1 (found, matches)
    = Ok ((found ++ map (binding_of relation node1 node2)
                        (pairs_within ident lo hi c1 c2))%list,
          fold_left (add_pair node1 node2) (pairs_within ident lo hi c1 c2) matches).
Proof.
  intros H1 H2. induction c1 as [|m1 c1 IH]; intros found matches.
  - cbn. rewrite app_nil_r. reflexivity.
  - cbn [foldM]. rewrite (relate_inner m1 c2).
    + cbn [bind]. rewrite IH.
      * unfold pairs_within. cbn [flat_map].
        rewrite map_app, fold_left_app, <- app_assoc. reflexivity.
      * intros m Hm. apply H1. right. exact Hm.
    + intros m [<- | []]. apply H1. left. reflexivity.
    + exact H2.
Qed.

Lemma relate_pairs_within (node_matches : list (Z * list Match)) :
  numbered fl toks ident (nm_get node_matches node1) ->
  numbered fl toks ident (nm_get node_matches node2) ->
  relate_pairs fl toks node_matches relation node1 node2 (Some operator)
  = Ok (map (binding_of relation node1 node2)
            (pairs_within ident lo hi (nm_get node_matches node1)
                          (nm_get node_matches node2)),
        fold_left (add_pair node1 node2)
                  (pairs_within ident lo hi (nm_get node_matches node1)
                                (nm_get node_matches node2)) []).
Proof.
  intros H1 H2. unfold relate_pairs.
  rewrite (relate_outer _ _ H1 H2 [] []). reflexivity.
Qed.

Lemma held_add (matches : list (Z * list nat)) (k node : Z) (tok : nat) :
  held (matches_add matches node tok) k
  = if k =? node then (held matches node ++ [tok])%list else held matches k.
Proof.
  unfold held, matches_add. rewrite int_get_set.
  destruct (k =? node); reflexivity.
Qed.

Lemma held_pairs (pairs : list (Match * Match)) :
  node1 <> node2 ->
  forall matches tok,
    (In tok (held (fold_left (add_pair node1 node2) pairs matches) node1)
     <-> In tok (held matches node1) \/ exists p, In p pairs /\ m_token (fst p) = tok)
    /\ (In tok (held (fold_left (add_pair node1 node2) pairs matches) node2)
        <-> In tok (held matches node2) \/ exists p, In p pairs /\ m_token (snd p) = tok).
Proof.
  intros Hne. induction pairs as [|p pairs IH]; intros matches tok.
  - cbn [fold_left]. split; (split; [intros H; left; exact H | intros [H | (p & [] & _)]; exact H]).
  - cbn [fold_left]. destruct (IH ((add_pair node1 node2) matches p) tok) as [I1 I2].
    assert (E1 : held ((add_pair node1 node2) matches p) node1
                 = (held matches node1 ++ [m_token (fst p)])%list).
    { unfold add_pair. rewrite held_add.
      destruct (node1 =? node2) eqn:E; [apply Z.eqb_eq in E; contradiction |].
      rewrite held_add, Z.eqb_refl. reflexivity. }
    assert (E2 : held ((add_pair node1 node2) matches p) node2
                 = (held matches node2 ++ [m_token (snd p)])%list).
    { unfold add_pair. rewrite held_add, Z.eqb_refl. rewrite held_add.
      destruct (node2 =? node1) eqn:E; [apply Z.eqb_eq in E; congruence |].
      reflexivity. }
    rewrite E1 in I1. rewrite E2 in I2. split.
    + rewrite I1. split.
      * intros [H | (q & Hq & Et)].
        -- apply in_app_or in H. destruct H as [H | [<- | []]];
             [left; exact H | right; exists p; split; [left; reflexivity | reflexivity]].
        -- right. exists q. split; [right; exact Hq | exact Et].
      * intros [H | (q & [<- | Hq] & Et)].
        -- left. apply in_or_app. left. exact H.
        -- left. apply in_or_app. right. left. exact Et.
        -- right. exists q. split; assumption.
    + rewrite I2. split.
      * intros [H | (q & Hq & Et)].
        -- apply in_app_or in H. destruct H as [H | [<- | []]];
             [left; exact H | right; exists p; split; [left; reflexivity | reflexivity]].
        -- right. exists q. split; [right; exact Hq | exact Et].
      * intros [H | (q & [<- | Hq] & Et)].
        -- left. apply in_or_app. left. exact H.
        -- left. apply in_or_app. right. left. exact Et.
        -- right. exists q. split; assumption.
Qed.

Lemma nm_get_prune (node_matches : list (Z * list Match))
      (matches : list (Z * list nat)) (option k : Z) :
  nm_get (prune_node node_matches matches option) k
  = if k =? option
    then filter (fun matcher => existsb (Nat.eqb (m_token matcher)) (held matches option))
                (nm_get node_matches option)
    else nm_get node_matches k.
Proof.
  unfold prune_node. unfold nm_get at 1. rewrite int_get_set.
  destruct (k =? option); reflexivity.
Qed.

Lemma existsb_In (tok : nat) (l : list nat) :
  existsb (Nat.eqb tok) l = true <-> In tok l.
Proof.
  rewrite existsb_exists. split.
  - intros (x & Hx & E). apply Nat.eqb_eq in E. subst x. exact Hx.
  - intros H. exists tok. split; [exact H | apply Nat.eqb_refl].
Qed.

(** What [relate] returns for a relation of distance. *)
Lemma relate_within (node_matches : list (Z * list Match)) (result_sets : list ResultSet) :
  numbered fl toks ident (nm_get node_matches node1) ->
  numbered fl toks ident (nm_get node_matches node2) ->
  exists node_matches',
    relate fl toks node_matches relation result_sets node1 node2 (Some operator)
    = Ok (negb (List.length (pairs_within ident lo hi (nm_get node_matches node1)
                                          (nm_get node_matches node2)) =? 0)%nat,
          node_matches',
          (result_sets
           ++ map (binding_of relation node1 node2)
                  (pairs_within ident lo hi (nm_get node_matches node1)
                                (nm_get node_matches node2)))%list)
    /\ (node1 <> node2 ->
        forall m,
          (In m (nm_get node_matches' node1)
           <-> In m (nm_get node_matches node1)
               /\ exists m2, In m2 (nm_get node_matches node2)
                             /\ lo <= ident (m_token m2) - ident (m_token m) <= hi)
          /\ (In m (nm_get node_matches' node2)
              <-> In m (nm_get node_matches node2)
                  /\ exists m1, In m1 (nm_get node_matches node1)
                                /\ lo <= ident (m_token m) - ident (m_token m1) <= hi)
          /\ forall k, k <> node1 -> k <> node2 ->
                nm_get node_matches' k = nm_get node_matches k).
Proof.
  intros H1 H2. unfold relate. rewrite (relate_pairs_within _ H1 H2). cbn [bind].
  rewrite length_map. eexists. split; [reflexivity |].
  intros Hne m.
  set (pairs := pairs_within ident lo hi (nm_get node_matches node1)
                             (nm_get node_matches node2)).
  assert (N1 : (node1 =? node2) = false) by (apply Z.eqb_neq; exact Hne).
  assert (N2 : (node2 =? node1) = false) by (apply Z.eqb_neq; congruence).
  destruct (held_pairs pairs Hne [] (m_token m)) as [Hh1 Hh2].
  split; [| split].
  - rewrite nm_get_prune, N1, nm_get_prune, Z.eqb_refl.
    rewrite filter_In, existsb_In, Hh1. split.
    + intros (Hin & [[] | ([p1 p2] & Hp & Et)]). split; [exact Hin |].
      apply pairs_within_In in Hp. destruct Hp as (_ & Hp2 & Hr).
      cbn [fst] in Et. exists p2. split; [exact Hp2 |]. rewrite <- Et. exact Hr.
    + intros (Hin & m2 & Hm2 & Hr). split; [exact Hin |]. right.
      exists (m, m2). split; [| reflexivity].
      apply pairs_within_In. repeat split; try assumption; apply Hr.
  - rewrite nm_get_prune, Z.eqb_refl, nm_get_prune, N2.
    rewrite filter_In, existsb_In, Hh2. split.
    + intros (Hin & [[] | ([p1 p2] & Hp & Et)]). split; [exact Hin |].
      apply pairs_within_In in Hp. destruct Hp as (Hp1 & _ & Hr).
      cbn [snd] in Et. exists p1. split; [exact Hp1 |]. rewrite <- Et. exact Hr.
    + intros (Hin & m1 & Hm1 & Hr). split; [exact Hin |]. right.
      exists (m1, m). split; [| reflexivity].
      apply pairs_within_In. repeat split; try assumption; apply Hr.
  - intros k Hk1 Hk2. rewrite !nm_get_prune.
    destruct (k =? node2) eqn:E2; [apply Z.eqb_eq in E2; contradiction |].
    destruct (k =? node1) eqn:E1; [apply Z.eqb_eq in E1; contradiction |].
    reflexivity.
Qed.

End Distance.

Lemma ranged_single (di dj : string) :
  digit_string di -> digit_string dj ->
  Py.split ("#" ++ di ++ ".1,1000#" ++ dj) ";" = ["#" ++ di ++ ".1,1000#" ++ dj].
Proof.
  intros [_ Hi] [_ Hj]. change ";" with (Py.chr ";"). apply split_chr_none.
  cbn [append has_char Ascii.eqb Bool.eqb orb]. rewrite has_char_app.
  rewrite (has_char_digits ";" di eq_refl Hi). cbn [append has_char Ascii.eqb Bool.eqb orb].
  apply (has_char_digits ";" dj eq_refl Hj).
Qed.

(** C5: the relation written [#di.*#dj] in a rule is stored as
    [#di.1,1000#dj], the text that [#di.1,1000#dj] itself is stored as.
    Evaluated on a sentence, it has exactly the bindings of the
    specification for the distances 1 to 1000, both included: a
    candidate of node [di] and a candidate of node [dj] are bound
    together, in that orientation, exactly when the integer-coerced id
    of the second minus that of the first is at least 1 and at most
    1000; the relation had a hit exactly when there is such a pair, and
    of the candidates of the two nodes those remain that take part in
    one.  The test of a single pair of tokens holds under the same
    condition. *)
Theorem C5_star_is_1_to_1000 (fl : NumLib) (di dj : string) :
  digit_string di -> digit_string dj ->
  normalize_shorthand ("#" ++ di ++ ".*#" ++ dj) = Some ("#" ++ di ++ ".1,1000#" ++ dj)
  /\ normalize_shorthand ("#" ++ di ++ ".1,1000#" ++ dj)
     = Some ("#" ++ di ++ ".1,1000#" ++ dj)
  /\ (forall re text line d a t,
        Py.split text TAB = [d; "#" ++ di ++ ".*#" ++ dj; a] ->
        Transformation_init re text line = Ok t ->
        relations t = ["#" ++ di ++ ".1,1000#" ++ dj])
  /\ (forall tok_i tok_j a b,
        int_float fl (id tok_j) = Ok a -> int_float fl (id tok_i) = Ok b ->
        (test_relation fl tok_i tok_j (Some ".1,1000") = Ok true <-> 1 <= a - b <= 1000))
  /\ (forall toks ident node_matches result_sets,
        numbered fl toks ident (nm_get node_matches (Py.digits_val 0 di)) ->
        numbered fl toks ident (nm_get node_matches (Py.digits_val 0 dj)) ->
        exists node_matches',
          matches_relation fl toks node_matches ("#" ++ di ++ ".1,1000#" ++ dj) result_sets
          = Ok (negb (List.length
                        (pairs_within ident 1 1000
                           (nm_get node_matches (Py.digits_val 0 di))
                           (nm_get node_matches (Py.digits_val 0 dj))) =? 0)%nat,
                node_matches',
                (result_sets
                 ++ map (binding_of ("#" ++ di ++ ".1,1000#" ++ dj)
                                    (Py.digits_val 0 di) (Py.digits_val 0 dj))
                        (pairs_within ident 1 1000
                           (nm_get node_matches (Py.digits_val 0 di))
                           (nm_get node_matches (Py.digits_val 0 dj))))%list)
          /\ (forall m1 m2,
                In (m1, m2) (pairs_within ident 1 1000
                               (nm_get node_matches (Py.digits_val 0 di))
                               (nm_get node_matches (Py.digits_val 0 dj)))
                <-> In m1 (nm_get node_matches (Py.digits_val 0 di))
                    /\ In m2 (nm_get node_matches (Py.digits_val 0 dj))
                    /\ 1 <= ident (m_token m2) - ident (m_token m1) <= 1000)
          /\ (Py.digits_val 0 di <> Py.digits_val 0 dj ->
              forall m,
                (In m (nm_get node_matches' (Py.digits_val 0 di))
                 <-> In m (nm_get node_matches (Py.digits_val 0 di))
                     /\ exists m2, In m2 (nm_get node_matches (Py.digits_val 0 dj))
                                   /\ 1 <= ident (m_token m2) - ident (m_token m) <= 1000)
                /\ (In m (nm_get node_matches' (Py.digits_val 0 dj))
                    <-> In m (nm_get node_matches (Py.digits_val 0 dj))
                        /\ exists m1, In m1 (nm_get node_matches (Py.digits_val 0 di))
                                      /\ 1 <= ident (m_token m) - ident (m_token m1) <= 1000)
                /\ forall k, k <> Py.digits_val 0 di -> k <> Py.digits_val 0 dj ->
                      nm_get node_matches' k = nm_get node_matches k)).
Proof.
  intros Hi Hj.
  destruct (normalize_ranged di dj Hi Hj) as [N1 N2].
  split; [exact N1 |]. split; [exact N2 |]. split; [| split].
  - intros re text line d a t Hs Ht.
    destruct (Transformation_init_parts _ _ _ _ Ht)
      as (d0 & r0 & a0 & r' & a' & Hs' & Hr & _ & _ & Hrel & _).
    assert (Er : r0 = "#" ++ di ++ ".*#" ++ dj) by congruence.
    rewrite Er, N1 in Hr. injection Hr as <-. rewrite Hrel.
    apply (ranged_single di dj Hi Hj).
  - intros tok_i tok_j a b Ha Hb.
    rewrite (test_relation_ranged fl tok_i tok_j a b Ha Hb). split.
    + intros H. injection H as H. apply andb_true_iff in H. destruct H as [H1 H2].
      apply Z.leb_le in H1. apply Z.leb_le in H2. lia.
    + intros [H1 H2]. f_equal. apply andb_true_iff. split; apply Z.leb_le; lia.
  - intros toks ident node_matches result_sets Hn1 Hn2.
    destruct (relate_within fl toks ident ("#" ++ di ++ ".1,1000#" ++ dj)
                (Py.digits_val 0 di) (Py.digits_val 0 dj) 1 1000 ".1,1000"
                (test_relation_ranged fl) node_matches result_sets Hn1 Hn2)
      as (nm' & Hrel & Hsurv).
    exists nm'. split; [| split].
    + unfold matches_relation.
      change (("#" ++ di ++ ".1,1000#" ++ dj) ==? EmptyString) with false.
      rewrite (relation_operator_ranged di dj Hi Hj). cbn [bind].
      change (("#" ++ di ++ ".1,1000#" ++ dj) ==? "none") with false.
      rewrite (relation_nodes_ranged di dj Hi Hj). cbn [bind]. exact Hrel.
    + intros m1 m2. apply pairs_within_In.
    + exact Hsurv.
Qed.

Lemma C5_star_is_1_to_1000_witness :
  normalize_shorthand ("#" ++ "1" ++ ".*#" ++ "2") = Some ("#" ++ "1" ++ ".1,1000#" ++ "2")
  /\ relations rule_later = ["#" ++ "1" ++ ".1,1000#" ++ "2"]
  /\ (test_relation whole_numbers (mk_token "1.0" "a" "_" "0.0" "root" "first")
                    (mk_token "3.0" "c" "_" "1.0" "obj" "last") (Some ".1,1000") = Ok true
      <-> 1 <= 3 - 1 <= 1000)
  /\ nm_get candidates_ab 1 = [candidate 1 0; candidate 1 1; candidate 1 2]
  /\ nm_get candidates_ab 2 = [candidate 2 0; candidate 2 1; candidate 2 2]
  /\ exists node_matches',
      matches_relation whole_numbers (tokens st_abc) candidates_ab
                       ("#" ++ "1" ++ ".1,1000#" ++ "2") []
      = Ok (true, node_matches',
            map (binding_of ("#" ++ "1" ++ ".1,1000#" ++ "2") 1 2)
                [(candidate 1 0, candidate 2 1); (candidate 1 0, candidate 2 2);
                 (candidate 1 1, candidate 2 2)])
      /\ forall m,
          (In m (nm_get node_matches' 1)
           <-> In m (nm_get candidates_ab 1)
               /\ exists m2, In m2 (nm_get candidates_ab 2)
                             /\ 1 <= ident_abc (m_token m2) - ident_abc (m_token m) <= 1000)
          /\ (In m (nm_get node_matches' 2)
              <-> In m (nm_get candidates_ab 2)
                  /\ exists m1, In m1 (nm_get candidates_ab 1)
                                /\ 1 <= ident_abc (m_token m) - ident_abc (m_token m1) <= 1000).
Proof.
  assert (Hd1 : digit_string "1") by (split; [discriminate | reflexivity]).
  assert (Hd2 : digit_string "2") by (split; [discriminate | reflexivity]).
  destruct (C5_star_is_1_to_1000 whole_numbers "1" "2" Hd1 Hd2) as (N1 & _ & R & T & M).
  split; [exact N1 |].
  split.
  { apply (R plain_re (row ["pos=/X/;pos=/X/"; "#1.*#2"; "#2:lemma=LATER"]) "1"
             "pos=/X/;pos=/X/" "#2:lemma=LATER" rule_later); vm_compute; reflexivity. }
  split.
  { apply (T (mk_token "1.0" "a" "_" "0.0" "root" "first")
             (mk_token "3.0" "c" "_" "1.0" "obj" "last") 3 1); vm_compute; reflexivity. }
  split; [vm_compute; reflexivity |]. split; [vm_compute; reflexivity |].
  assert (Hn : forall k, numbered whole_numbers (tokens st_abc) ident_abc
                                  (nm_get candidates_ab k)).
  { intros k m Hm.
    assert (Hk : In m ([candidate 1 0; candidate 1 1; candidate 1 2]
                       ++ [candidate 2 0; candidate 2 1; candidate 2 2])).
    { destruct (k =? 1) eqn:E1; [apply Z.eqb_eq in E1; subst k; apply in_or_app; left; exact Hm |].
      destruct (k =? 2) eqn:E2; [apply Z.eqb_eq in E2; subst k; apply in_or_app; right; exact Hm |].
      exfalso. revert Hm. unfold nm_get, candidates_ab.
      change (collect_node_matches (definitions rule_ab) (tokens st_abc) [])
        with (@Ok (list (Z * list Match))
                  [(1, [candidate 1 0; candidate 1 1; candidate 1 2]);
                   (2, [candidate 2 0; candidate 2 1; candidate 2 2])]).
      cbn [int_get]. rewrite (Z.eqb_sym 1 k), (Z.eqb_sym 2 k), E1, E2. intros []. }
    simpl in Hk.
    repeat (destruct Hk as [<- | Hk]; [eexists; split; vm_compute; reflexivity |]).
    contradiction. }
  destruct (M (tokens st_abc) ident_abc candidates_ab [] (Hn 1) (Hn 2))
    as (nm' & Hm & _ & Hs).
  exists nm'. split; [exact Hm |].
  intros m. destruct (Hs ltac:(discriminate) m) as (S1 & S2 & _). split; assumption.
Defined.

(** ** [test_relation] *)

Lemma scan_digits_all (d : string) :
  Py.all_chars Py.is_digit d = true -> scan_digits d = (d, EmptyString).
Proof.
  intros Hd. rewrite <- (append_empty d) at 1. apply scan_digits_app; [exact Hd | reflexivity].
Qed.

Lemma parse_distance_single (d : string) :
  digit_string d -> parse_distance ("." ++ d) = Some (d, None).
Proof.
  intros [Hne Hd]. cbn [append parse_distance]. rewrite (scan_digits_all _ Hd).
  destruct d; [contradiction | reflexivity].
Qed.

Lemma parse_distance_range (d e : string) :
  digit_string d -> digit_string e ->
  parse_distance ("." ++ d ++ "," ++ e) = Some (d, Some ("," ++ e)).
Proof.
  intros [Hne Hd] [Hne' He]. cbn [append parse_distance].
  rewrite (scan_digits_app d (String "," e) Hd eq_refl).
  destruct d as [|a d]; [contradiction |].
  rewrite (scan_digits_all _ He). destruct e; [contradiction | reflexivity].
Qed.

Lemma distance_is_no_keyword (t : string) :
  t <> EmptyString ->
  ("." ++ t ==? ".") = false /\ ("." ++ t ==? ">") = false
  /\ Py.contains "." ("." ++ t) = true.
Proof.
  intros H. destruct t as [|a t]; [contradiction |]. repeat split.
Qed.

(** X16: for [test_relation], the distance [.d] is the range [.d,d],
    and adjacency [.] is the distance [.1]: the calls return the same
    value or raise the same exception. *)
Theorem distance_d_is_range_d_d
        (fl : NumLib) (node1 node2 : ParsedToken) (d : string) :
  digit_string d ->
  test_relation fl node1 node2 (Some ("." ++ d ++ "," ++ d))
  = test_relation fl node1 node2 (Some ("." ++ d))
  /\ test_relation fl node1 node2 (Some ".1") = test_relation fl node1 node2 (Some ".").
Proof.
  intros Hd. split.
  - unfold test_relation.
    destruct (distance_is_no_keyword d (proj1 Hd)) as (E1 & E2 & E3).
    assert (Hne : d ++ "," ++ d <> EmptyString)
      by (destruct d; [exact (False_ind _ (proj1 Hd eq_refl)) | discriminate]).
    destruct (distance_is_no_keyword (d ++ "," ++ d) Hne) as (F1 & F2 & F3).
    rewrite E1, E2, E3, F1, F2, F3.
    rewrite (parse_distance_single d Hd), (parse_distance_range d d Hd Hd).
    cbn [of_option bind]. rewrite (int_digits d Hd). cbn [bind].
    unfold Py.replace. rewrite (replace_go_hit "," EmptyString EmptyString d).
    rewrite (replace_go_all_digits "," EmptyString EmptyString d eq_refl (proj2 Hd)).
    cbn [append]. rewrite (int_digits d Hd). reflexivity.
  - unfold test_relation. cbn.
    destruct (int_float fl (id node2)) as [i2| |]; simpl; try reflexivity.
    destruct (int_float fl (id node1)) as [i1| |]; simpl; try reflexivity.
    f_equal. destruct (i2 =? i1 + 1) eqn:E.
    + apply Z.eqb_eq in E. apply andb_true_iff. split; apply Z.leb_le; lia.
    + apply Z.eqb_neq in E. apply andb_false_iff.
      destruct (Z.le_gt_cases (i2 - i1) 1); [right; apply Z.leb_gt; lia | left; apply Z.leb_gt; lia].
Qed.

Lemma distance_d_is_range_d_d_witness :
  test_relation whole_numbers (mk_token "1.0" "a" "_" "0.0" "root" "first")
                (mk_token "3.0" "c" "_" "1.0" "obj" "last") (Some ("." ++ "2" ++ "," ++ "2"))
  = test_relation whole_numbers (mk_token "1.0" "a" "_" "0.0" "root" "first")
                  (mk_token "3.0" "c" "_" "1.0" "obj" "last") (Some ("." ++ "2"))
  /\ test_relation whole_numbers (mk_token "1.0" "a" "_" "0.0" "root" "first")
                   (mk_token "3.0" "c" "_" "1.0" "obj" "last") (Some ".1")
     = test_relation whole_numbers (mk_token "1.0" "a" "_" "0.0" "root" "first")
                     (mk_token "3.0" "c" "_" "1.0" "obj" "last") (Some ".").
Proof.
  apply (distance_d_is_range_d_d whole_numbers (mk_token "1.0" "a" "_" "0.0" "root" "first")
           (mk_token "3.0" "c" "_" "1.0" "obj" "last") "2").
  split; [discriminate | reflexivity].
Defined.

(** ** [prune_merged_bins] *)

Lemma list_eqb_length {A : Type} (eqb : A -> A -> bool) (l1 l2 : list A) :
  list_eqb eqb l1 l2 = true -> List.length l1 = List.length l2.
Proof.
  revert l2. induction l1 as [|x l1 IH]; intros [|y l2] H; simpl in *;
    try discriminate H; [reflexivity |].
  apply andb_true_iff in H. destruct H as [_ H]. rewrite (IH _ H). reflexivity.
Qed.

Lemma result_eqb_rels (a b : result) :
  result_eqb a b = true -> List.length (rels a) = List.length (rels b).
Proof.
  unfold result_eqb. intros H. apply andb_true_iff in H. destruct H as [H _].
  apply andb_true_iff in H. destruct H as [_ H]. apply (list_eqb_length _ _ _ H).
Qed.

Lemma remove_first_short (rel_count : nat) (x : result) (acc l : list result) :
  (List.length (rels x) <? rel_count)%nat = true ->
  result_eqb x x = true ->
  Forall (fun b => (List.length (rels b) <? rel_count)%nat = false) acc ->
  remove_first x (acc ++ x :: l) = (acc ++ l)%list.
Proof.
  intros Hx Hr Hacc. induction Hacc as [|y acc Hy _ IH]; simpl.
  - rewrite Hr. reflexivity.
  - destruct (result_eqb y x) eqn:E.
    + apply result_eqb_rels in E. rewrite E in Hy. congruence.
    + rewrite IH. reflexivity.
Qed.

Lemma prune_fold (rel_count : nat) (l : list result) :
  Forall (fun b => result_eqb b b = true) l ->
  forall acc,
    Forall (fun b => (List.length (rels b) <? rel_count)%nat = false) acc ->
    fold_left (fun acc bin_to_delete => remove_first bin_to_delete acc)
              (filter (fun b => (List.length (rels b) <? rel_count)%nat) l) (acc ++ l)%list
    = (acc ++ filter (fun b => negb (List.length (rels b) <? rel_count)%nat) l)%list.
Proof.
  induction 1 as [|x l Hx _ IH]; intros acc Hacc; [reflexivity |].
  cbn [filter]. destruct (List.length (rels x) <? rel_count)%nat eqn:E; cbn [negb fold_left].
  - rewrite (remove_first_short rel_count x acc l E Hx Hacc). apply IH. exact Hacc.
  - replace (acc ++ x :: l)%list with ((acc ++ [x]) ++ l)%list
      by (rewrite <- app_assoc; reflexivity).
    rewrite IH.
    + rewrite <- app_assoc. reflexivity.
    + apply Forall_app. split; [exact Hacc |]. constructor; [exact E | constructor].
Qed.

Lemma prune_merged_bins_is_a_filter (merged_bins : list result) (rel_count : nat) :
  Forall (fun b => result_eqb b b = true) merged_bins ->
  prune_merged_bins merged_bins rel_count
  = filter (fun b => (rel_count <=? List.length (rels b))%nat) merged_bins.
Proof.
  intros H. unfold prune_merged_bins.
  pose proof (prune_fold rel_count merged_bins H [] (Forall_nil _)) as Hf.
  cbn [app] in Hf. cbv zeta. rewrite Hf.
  apply filter_ext. intros b.
  destruct (List.length (rels b) <? rel_count)%nat eqn:E; simpl; symmetry.
  - apply Nat.ltb_lt in E. apply Nat.leb_gt. exact E.
  - apply Nat.ltb_ge in E. apply Nat.leb_le. exact E.
Qed.

Lemma int_get_NoDup (d : list (Z * nat)) (k : Z) (v : nat) :
  NoDup (map fst d) -> In (k, v) d -> int_get d k = Some v.
Proof.
  induction d as [|[k0 v0] d IH]; intros Hn Hin; [contradiction |].
  simpl in Hn. inversion Hn as [|? ? Hk0 Hn']; subst. simpl.
  destruct Hin as [E | Hin].
  - injection E as -> ->. rewrite Z.eqb_refl. reflexivity.
  - destruct (k0 =? k) eqn:E.
    + apply Z.eqb_eq in E. subst k0. exfalso. apply Hk0.
      apply in_map_iff. exists (k, v). split; [reflexivity | exact Hin].
    + apply IH; assumption.
Qed.

Lemma list_eqb_refl {A : Type} (eqb : A -> A -> bool) (l : list A) :
  (forall x, eqb x x = true) -> list_eqb eqb l l = true.
Proof.
  intros H. induction l as [|x l IH]; [reflexivity |]. simpl. rewrite H, IH. reflexivity.
Qed.

Lemma result_eqb_refl (b : result) :
  NoDup (map fst (nodes b)) -> result_eqb b b = true.
Proof.
  intros Hn. unfold result_eqb, nodes_eqb. rewrite Nat.eqb_refl. cbn [andb].
  rewrite (list_eqb_refl String.eqb _ String.eqb_refl).
  rewrite (list_eqb_refl Match_is).
  - rewrite !andb_true_r. apply forallb_forall. intros [k v] Hin. cbn [fst snd].
    rewrite (int_get_NoDup _ _ _ Hn Hin). apply Nat.eqb_refl.
  - intros m. unfold Match_is. rewrite Z.eqb_refl, Nat.eqb_refl. reflexivity.
Qed.

(** X17: [prune_merged_bins] keeps exactly the bins that have at least
    [rel_count] relations, in their order, whenever no bin has a node key
    twice, as is true of every dictionary. *)
Theorem prune_merged_bins_keeps_the_complete
        (merged_bins : list result) (rel_count : nat) :
  Forall (fun b => NoDup (map fst (nodes b))) merged_bins ->
  prune_merged_bins merged_bins rel_count
  = filter (fun b => (rel_count <=? List.length (rels b))%nat) merged_bins.
Proof.
  intros H. apply prune_merged_bins_is_a_filter.
  apply Forall_forall. intros b Hb. apply result_eqb_refl.
  rewrite Forall_forall in H. apply H. exact Hb.
Qed.

Lemma prune_merged_bins_keeps_the_complete_witness :
  prune_merged_bins (bin_without_relation :: bindings_ab ++ [bin_without_relation]) 1
  = filter (fun b => (1 <=? List.length (rels b))%nat)
           (bin_without_relation :: bindings_ab ++ [bin_without_relation])
  /\ filter (fun b => (1 <=? List.length (rels b))%nat)
            (bin_without_relation :: bindings_ab ++ [bin_without_relation])
     = bindings_ab.
Proof.
  split; [| reflexivity].
  apply (prune_merged_bins_keeps_the_complete
           (bin_without_relation :: bindings_ab ++ [bin_without_relation]) 1).
  repeat constructor; simpl; intuition discriminate.
Defined.

(** ** [add_groups] *)

Lemma insert_matcher_In (m x : Match) (l : list Match) :
  In x (insert_matcher m l) -> x = m \/ In x l.
Proof.
  induction l as [|y l IH]; simpl.
  - intros [<- | []]. left. reflexivity.
  - destruct (m_def_index m <? m_def_index y); simpl.
    + intros [<- | H]; [left; reflexivity | right; exact H].
    + intros [<- | H]; [right; left; reflexivity |].
      destruct (IH H) as [-> | H']; [left; reflexivity | right; right; exact H'].
Qed.

Lemma sorted_matchers_In (l : list Match) (x : Match) :
  In x (sorted_matchers l) -> In x l.
Proof.
  unfold sorted_matchers.
  assert (G : forall acc, In x (fold_left (fun acc m => insert_matcher m acc) l acc) ->
                          In x acc \/ In x l).
  { induction l as [|m l IH]; intros acc H; [left; exact H |].
    simpl in H. destruct (IH _ H) as [H' | H'].
    - destruct (insert_matcher_In _ _ _ H') as [-> | H'']; [right; left; reflexivity | left; exact H''].
    - right. right. exact H'. }
  intros H. destruct (G [] H) as [[] | H']. exact H'.
Qed.

Lemma mapM_total {A B : Type} (f : A -> outcome B) (l : list A) :
  (forall x, In x l -> exists y, f x = Ok y) -> exists ys, mapM f l = Ok ys.
Proof.
  induction l as [|x l IH]; intros H.
  - exists []. reflexivity.
  - destruct (H x (or_introl eq_refl)) as [y Hy].
    destruct (IH (fun x' Hx' => H x' (or_intror Hx'))) as [ys Hys].
    exists (y :: ys). cbn [mapM]. rewrite Hy, Hys. reflexivity.
Qed.

Lemma add_groups_one_total (r : result) :
  (forall m g, In m (matchers r) -> In g (m_groups m) -> g <> []) ->
  exists gs,
    add_groups_one r
    = Ok {| nodes := nodes r; rels := rels r; matchers := matchers r; groups := gs |}.
Proof.
  intros H. unfold add_groups_one.
  destruct (mapM_total (fun group => Py.nth_or IndexError group 0)
                       (flat_map m_groups (sorted_matchers (matchers r)))) as [gs Hgs].
  - intros g Hg. apply in_flat_map in Hg. destruct Hg as (m & Hm & Hg).
    apply sorted_matchers_In in Hm. specialize (H m g Hm Hg).
    destruct g as [|x g]; [contradiction |]. exists x. reflexivity.
  - exists gs. rewrite Hgs. reflexivity.
Qed.

(** X18: [add_groups] raises nothing on bindings whose matchers have no
    empty tuple of groups, as the candidates of X14 are, and it changes
    nothing of a binding but its groups. *)
Theorem add_groups_only_adds_groups (result_sets : list result) :
  (forall r m g, In r result_sets -> In m (matchers r) -> In g (m_groups m) -> g <> []) ->
  exists result_sets',
    add_groups result_sets = Ok result_sets'
    /\ map nodes result_sets' = map nodes result_sets
    /\ map rels result_sets' = map rels result_sets
    /\ map matchers result_sets' = map matchers result_sets.
Proof.
  unfold add_groups. induction result_sets as [|r l IH]; intros H.
  - exists []. repeat split.
  - destruct (add_groups_one_total r (fun m g => H r m g (or_introl eq_refl))) as [gs Hr].
    destruct (IH (fun r' m g Hr' => H r' m g (or_intror Hr'))) as (l' & Hl & Hn & Hrel & Hm).
    eexists. cbn [mapM]. rewrite Hr, Hl. cbn [bind]. split; [reflexivity |].
    cbn [map nodes rels matchers]. rewrite Hn, Hrel, Hm. repeat split.
Qed.

Lemma add_groups_only_adds_groups_witness :
  exists result_sets',
    add_groups bindings_ab = Ok result_sets'
    /\ map nodes result_sets' = map nodes bindings_ab
    /\ map rels result_sets' = map rels bindings_ab
    /\ map matchers result_sets' = map matchers bindings_ab.
Proof.
  apply (add_groups_only_adds_groups bindings_ab).
  intros r m g Hr Hm Hg. simpl in Hr.
  destruct Hr as [<- | [<- | []]]; simpl in Hm; destruct Hm as [<- | [<- | []]];
    destruct Hg.
Defined.

(** ** What no action changes *)

Lemma same_frame_refl (st : store) : same_frame st st.
Proof. repeat split. Qed.

Lemma same_frame_trans (a b c : store) : same_frame a b -> same_frame b c -> same_frame a c.
Proof.
  intros (A1 & A2 & A3 & A4) (B1 & B2 & B3 & B4).
  repeat split; congruence.
Qed.

Lemma replace_nth_length {A : Type} (l : list A) (i : nat) (x : A) :
  List.length (replace_nth l i x) = List.length l.
Proof.
  revert i. induction l as [|y l IH]; intros [|i]; simpl; try reflexivity.
  rewrite IH. reflexivity.
Qed.

Lemma replace_nth_map {A B : Type} (f : A -> B) (l : list A) (i : nat) (x y : A) :
  nth_error l i = Some y -> f x = f y -> map f (replace_nth l i x) = map f l.
Proof.
  revert i. induction l as [|z l IH]; intros [|i] Hy Hf; simpl in *; try discriminate Hy.
  - injection Hy as ->. rewrite Hf. reflexivity.
  - rewrite (IH _ Hy Hf). reflexivity.
Qed.

Lemma update_token_frame (st : store) (i : nat) (t : ParsedToken) :
  same_frame st (update_token st i t).
Proof. unfold update_token. repeat split. cbn [tokens]. apply replace_nth_length. Qed.

Ltac run_bind H :=
  repeat match type of H with
         | bind ?m _ = Ok _ =>
             let E := fresh "E" in
             destruct m eqn:E; cbn [bind] in H; try discriminate H
         end.

Lemma execute_one_frame (re : ReLib) (r : result) (st st' : store) (action : string)
      (last : bool) :
  execute_one re r st action = Ok (st', last) -> same_frame st st'.
Proof.
  unfold execute_one. intros H.
  destruct (action ==? "last"); [injection H as <- _; apply same_frame_refl |].
  destruct (Py.contains ":" action).
  - destruct (Py.startswith action "#S:").
    + run_bind H. destruct (Py.split1 _ "=") as [|key [|val [|x l]]]; try discriminate H.
      run_bind H. destruct (sentence_ _); try discriminate H.
      injection H as <- _. repeat split.
    + run_bind H. injection H as <- _. apply update_token_frame.
  - destruct (Py.contains ">" action); [| injection H as <- _; apply same_frame_refl].
    run_bind H.
    match type of H with
    | (if ?b then _ else _) = _ => destruct b
    end.
    + run_bind H. injection H as <- _. apply update_token_frame.
    + injection H as <- _. apply same_frame_refl.
Qed.

(** *** Pieces of a text *)

Lemma prefix_app_r (x p b : string) : prefix x p = true -> prefix x (p ++ b) = true.
Proof.
  revert p. induction x as [|c x IH]; intros p H; [destruct (p ++ b); reflexivity |].
  destruct p as [|a p]; [discriminate H |]. simpl in *.
  destruct (Ascii.ascii_dec c a); [apply IH; exact H | discriminate H].
Qed.

Lemma contains_app_r (x p b : string) :
  Py.contains x p = true -> Py.contains x (p ++ b) = true.
Proof.
  induction p as [|a p IH]; intros H.
  - simpl in H. destruct x; [| discriminate H]. destruct b; reflexivity.
  - cbn [Py.contains] in H. cbn [append Py.contains].
    destruct (prefix x (String a p)) eqn:E.
    + change (String a (p ++ b)) with (String a p ++ b). rewrite (prefix_app_r _ _ b E).
      reflexivity.
    + rewrite (IH H). destruct (prefix x (String a (p ++ b))); reflexivity.
Qed.

Lemma contains_inside (x a p b : string) :
  Py.contains x p = true -> Py.contains x (a ++ p ++ b) = true.
Proof. intros H. apply contains_app_skip, contains_app_r. exact H. Qed.

Lemma substring_inside (s : string) :
  forall n m, exists a b, s = a ++ substring n m s ++ b.
Proof.
  induction s as [|c s IH]; intros n m.
  - exists EmptyString, EmptyString. destruct n, m; reflexivity.
  - destruct n as [|n].
    + destruct m as [|m].
      * exists EmptyString, (String c s). reflexivity.
      * destruct (IH 0%nat m) as (a & b & E). cbn [substring].
        assert (Ha : substring 0 m s = substring 0 m s) by reflexivity.
        clear a b E Ha.
        assert (G : forall s m, exists b, s = substring 0 m s ++ b).
        { clear. induction s as [|c s IH]; intros m.
          - exists EmptyString. destruct m; reflexivity.
          - destruct m as [|m]; [exists (String c s); reflexivity |].
            destruct (IH m) as (b & E). exists b. cbn [substring append]. rewrite <- E.
            reflexivity. }
        destruct (G s m) as (b & E). exists EmptyString, b.
        cbn [append]. rewrite <- E. reflexivity.
    + destruct (IH n m) as (a & b & E). exists (String c a), b.
      cbn [substring append]. rewrite <- E. reflexivity.
Qed.

Lemma slice_inside (s : string) (i j : Z) : exists a b, s = a ++ Py.slice s i j ++ b.
Proof. unfold Py.slice. apply substring_inside. Qed.

Lemma split_go_inside (c : ascii) (s : string) :
  forall p, In p (Py.split_go (Py.chr c) 0 s) -> exists a b, s = a ++ p ++ b.
Proof.
  induction s as [|x s IH]; intros p Hp.
  - destruct Hp as [<- | []]. exists EmptyString, EmptyString. reflexivity.
  - cbn [Py.split_go] in Hp. rewrite prefix_chr in Hp.
    destruct (Ascii.eqb x c) eqn:E.
    + cbn [Py.chr String.length Nat.sub] in Hp. destruct Hp as [<- | Hp].
      * exists EmptyString, (String x s). reflexivity.
      * destruct (IH _ Hp) as (a & b & Es). exists (String x a), b.
        cbn [append]. rewrite <- Es. reflexivity.
    + destruct (Py.split_go (Py.chr c) 0 s) as [|h t] eqn:Eg; cbn [Py.cons_hd] in Hp.
      * destruct Hp as [<- | []]. exists EmptyString, s. reflexivity.
      * destruct Hp as [<- | Hp].
        -- destruct (IH h (or_introl eq_refl)) as (a & b & Es).
           (* the first piece starts the text *)
           assert (G : forall s h t, Py.split_go (Py.chr c) 0 s = h :: t ->
                                     exists b, s = h ++ b).
           { clear. induction s as [|y s IH]; intros h t H.
             - injection H as <- _. exists EmptyString. reflexivity.
             - cbn [Py.split_go] in H. rewrite prefix_chr in H.
               destruct (Ascii.eqb y c).
               + injection H as <- _. exists (String y s). reflexivity.
               + destruct (Py.split_go (Py.chr c) 0 s) as [|h' t'] eqn:E';
                   cbn [Py.cons_hd] in H.
                 * injection H as <- _. exists s. reflexivity.
                 * injection H as <- _. destruct (IH _ _ eq_refl) as (b & ->).
                   exists b. reflexivity. }
           destruct (G _ _ _ Eg) as (b' & ->). exists EmptyString, b'. reflexivity.
        -- destruct (IH _ (or_intror Hp)) as (a & b & Es). exists (String x a), b.
           cbn [append]. rewrite <- Es. reflexivity.
Qed.

Lemma split_piece_contains (x s p : string) (c : ascii) :
  In p (Py.split s (Py.chr c)) -> Py.contains x p = true -> Py.contains x s = true.
Proof.
  intros Hp Hx. destruct (split_go_inside c s p Hp) as (a & b & ->).
  apply contains_inside. exact Hx.
Qed.

(** *** The flag of a super-token *)

Lemma setattr_kind (t t' : ParsedToken) (name v : string) :
  setattr t name v = Ok t' -> (name ==? "is_super_tok") = false ->
  is_super_tok t' = is_super_tok t.
Proof.
  unfold setattr. intros H Hn.
  destruct ((name ==? "__class__") || (name ==? "__dict__")); [discriminate H |].
  destruct (name ==? "__weakref__"); [discriminate H |].
  injection H as <-. cbn [is_super_tok]. unfold pick_value. rewrite Hn. reflexivity.
Qed.

Lemma update_token_kind (st : store) (i : nat) (t t' : ParsedToken) (name v : string) :
  token_at (tokens st) i = Ok t -> setattr t name v = Ok t' ->
  (name ==? "is_super_tok") = false ->
  map is_super_tok (tokens (update_token st i t')) = map is_super_tok (tokens st).
Proof.
  unfold token_at. intros Ht Hs Hn.
  destruct (nth_error (tokens st) i) as [t0|] eqn:E; simpl in Ht; try discriminate Ht.
  injection Ht as ->. cbn [update_token tokens].
  apply (replace_nth_map is_super_tok _ _ _ t E (setattr_kind _ _ _ _ Hs Hn)).
Qed.

Lemma execute_one_kind (re : ReLib) (r : result) (st st' : store) (action : string)
      (last : bool) :
  Py.contains "is_super_tok" action = false ->
  execute_one re r st action = Ok (st', last) ->
  map is_super_tok (tokens st') = map is_super_tok (tokens st).
Proof.
  unfold execute_one. intros Hc H.
  destruct (action ==? "last"); [injection H as <- _; reflexivity |].
  destruct (Py.contains ":" action).
  - destruct (Py.startswith action "#S:").
    + run_bind H. destruct (Py.split1 _ "=") as [|key [|val [|x l]]]; try discriminate H.
      run_bind H. destruct (sentence_ _); try discriminate H.
      injection H as <- _. reflexivity.
    + run_bind H. injection H as <- _.
      eapply update_token_kind; [eassumption | eassumption |].
      destruct (_ ==? "is_super_tok") eqn:En; [| reflexivity].
      apply String.eqb_eq in En.
      destruct (slice_inside action (Py.find action ":" + 1) (Py.find action "="))
        as (pa & pb & Ea).
      rewrite En in Ea. rewrite Ea in Hc.
      rewrite (contains_inside "is_super_tok" pa "is_super_tok" pb eq_refl) in Hc.
      discriminate Hc.
  - destruct (Py.contains ">" action); [| injection H as <- _; reflexivity].
    run_bind H.
    match type of H with
    | (if ?b then _ else _) = _ => destruct b
    end.
    + run_bind H. injection H as <- _.
      eapply update_token_kind; [eassumption | eassumption | reflexivity].
    + injection H as <- _. reflexivity.
Qed.

(** What the loops over the actions and the bindings keep, for a
    property of a state that each single action keeps. *)
Section Kept.

Variable re : ReLib.
Variable keeps : string -> Prop.
Variable P : store -> store -> Prop.
Hypothesis P_refl : forall st, P st st.
Hypothesis P_trans : forall a b c, P a b -> P b c -> P a c.
Hypothesis P_one : forall r st st' action last,
    keeps action -> execute_one re r st action = Ok (st', last) -> P st st'.

Lemma execute_on_kept (r : result) (actions : list string) :
  Forall keeps actions ->
  forall (st st' : store) (last : bool),
    execute_on re r actions st = Ok (st', last) -> P st st'.
Proof.
  induction 1 as [|a l Ha _ IH]; intros st st' last H.
  - simpl in H. injection H as <- _. apply P_refl.
  - cbn [execute_on] in H.
    destruct (execute_one re r st a) as [[st1 [|]]| |] eqn:E; simpl in H; try discriminate H.
    + injection H as <- _. apply (P_one _ _ _ _ _ Ha E).
    + apply (P_trans _ st1); [apply (P_one _ _ _ _ _ Ha E) |]. apply (IH _ _ _ H).
Qed.

Lemma execute_results_kept (result_sets : list result) (actions : list string) :
  Forall keeps actions ->
  forall (st st' : store) (last : bool),
    execute_results re result_sets actions st = Ok (st', last) -> P st st'.
Proof.
  intros Ha. induction result_sets as [|r l IH]; intros st st' last H.
  - simpl in H. injection H as <- _. apply P_refl.
  - cbn [execute_results] in H.
    destruct (execute_on re r actions st) as [[st1 [|]]| |] eqn:E; simpl in H;
      try discriminate H.
    + injection H as <- _. apply (execute_on_kept _ _ Ha _ _ _ E).
    + apply (P_trans _ st1); [apply (execute_on_kept _ _ Ha _ _ _ E) |].
      apply (IH _ _ _ H).
Qed.

Hypothesis keeps_pieces : forall action piece,
    keeps action -> In piece (Py.split action ";") -> keeps piece.

Lemma actions_loop_kept (result_sets : list result) (actions : list string) :
  Forall keeps actions ->
  forall (st st' : store) (last : bool),
    actions_loop re result_sets actions st = Ok (st', last) -> P st st'.
Proof.
  induction 1 as [|a l Ha _ IH]; intros st st' last H.
  - simpl in H. injection H as <- _. apply P_refl.
  - cbn [actions_loop] in H. unfold execute_action in H.
    assert (Hp : Forall keeps (Py.split a ";")).
    { apply Forall_forall. intros p Hp. apply (keeps_pieces a p Ha Hp). }
    destruct (execute_results re result_sets _ st) as [[st1 [|]]| |] eqn:E; simpl in H;
      try discriminate H.
    + injection H as <- _. apply (execute_results_kept _ _ Hp _ _ _ E).
    + apply (P_trans _ st1); [apply (execute_results_kept _ _ Hp _ _ _ E) |].
      apply (IH _ _ _ H).
Qed.

Lemma transformations_loop_kept (fl : NumLib) (ts : list Transformation) :
  Forall (fun t => Forall keeps (actions t)) ts ->
  forall (st st' : store) (last : bool),
    transformations_loop re fl ts st = Ok (st', last) -> P st st'.
Proof.
  induction 1 as [|t l Ht _ IH]; intros st st' last H.
  - simpl in H. injection H as <- _. apply P_refl.
  - cbn [transformations_loop] in H.
    destruct (apply_transformation re fl t st) as [[st1 b]| |] eqn:E; simpl in H;
      try discriminate H.
    assert (F : P st st1).
    { unfold apply_transformation in E.
      destruct (find_bindings fl t (tokens st)) as [[|r rs]| |]; simpl in E;
        try discriminate E.
      - injection E as <- _. apply P_refl.
      - apply (actions_loop_kept _ _ Ht _ _ _ E). }
    destruct b.
    + injection H as <- _. exact F.
    + apply (P_trans _ st1 _ F). apply (IH _ _ _ H).
Qed.

End Kept.

Lemma transformations_loop_frame (re : ReLib) (fl : NumLib) (ts : list Transformation) :
  forall (st st' : store) (last : bool),
    transformations_loop re fl ts st = Ok (st', last) -> same_frame st st'.
Proof.
  apply (transformations_loop_kept re (fun _ => True) same_frame
           same_frame_refl same_frame_trans).
  - intros r st st' action last _ H. apply (execute_one_frame _ _ _ _ _ _ H).
  - intros; exact I.
  - apply Forall_forall. intros t _. apply Forall_forall. intros a _. exact I.
Qed.

Lemma transformations_loop_kind (re : ReLib) (fl : NumLib) (ts : list Transformation) :
  Forall (fun t => Forall (fun action => Py.contains "is_super_tok" action = false)
                          (actions t)) ts ->
  forall (st st' : store) (last : bool),
    transformations_loop re fl ts st = Ok (st', last) ->
    map is_super_tok (tokens st') = map is_super_tok (tokens st).
Proof.
  apply (transformations_loop_kept re
           (fun action => Py.contains "is_super_tok" action = false)
           (fun st st' => map is_super_tok (tokens st') = map is_super_tok (tokens st))).
  - reflexivity.
  - intros a b c H1 H2. congruence.
  - intros r st st' action last Hk H. apply (execute_one_kind _ _ _ _ _ _ Hk H).
  - intros action piece Hk Hp.
    destruct (Py.contains "is_super_tok" piece) eqn:E; [| reflexivity].
    rewrite <- Hk. symmetry. apply (split_piece_contains _ _ piece ";" Hp E).
Qed.

(** X19: [process_sentence] neither adds nor removes a token, and of
    the sentence it changes at most the annotations; it turns no token
    into a super-token or back unless an action of a rule names the
    attribute [is_super_tok]. *)
Theorem process_sentence_keeps_the_tokens
        (re : ReLib) (fl : NumLib) (transformations : list Transformation) (st st' : store) :
  process_sentence re fl transformations st = Ok st' ->
  List.length (tokens st') = List.length (tokens st)
  /\ sent_num (sentence st') = sent_num (sentence st)
  /\ length (sentence st') = length (sentence st)
  /\ sentence_string (sentence st') = sentence_string (sentence st)
  /\ (Forall (fun t => Forall (fun action => Py.contains "is_super_tok" action = false)
                              (actions t)) transformations ->
      map is_super_tok (tokens st') = map is_super_tok (tokens st)).
Proof.
  unfold process_sentence. intros H.
  destruct (transformations_loop re fl transformations st) as [[st1 b]| |] eqn:E;
    simpl in H; try discriminate H.
  injection H as <-.
  destruct (transformations_loop_frame _ _ _ _ _ _ E) as (F1 & F2 & F3 & F4).
  repeat split; try assumption.
  intros Hk. apply (transformations_loop_kind _ _ _ Hk _ _ _ E).
Qed.

Lemma process_sentence_keeps_the_tokens_witness :
  List.length (tokens processed_dont) = List.length (tokens st_dont)
  /\ sent_num (sentence processed_dont) = sent_num (sentence st_dont)
  /\ length (sentence processed_dont) = length (sentence st_dont)
  /\ sentence_string (sentence processed_dont) = sentence_string (sentence st_dont)
  /\ Forall (fun t => Forall (fun action => Py.contains "is_super_tok" action = false)
                             (actions t)) [rule_verb]
  /\ map is_super_tok (tokens processed_dont) = [PBool true; PBool false; PBool false]
  /\ map is_super_tok (tokens st_dont) = [PBool true; PBool false; PBool false].
Proof.
  assert (Hk : Forall (fun t => Forall (fun action => Py.contains "is_super_tok" action = false)
                                       (actions t)) [rule_verb])
    by (repeat constructor).
  destruct (process_sentence_keeps_the_tokens plain_re whole_numbers [rule_verb] st_dont
              processed_dont) as (H1 & H2 & H3 & H4 & H5).
  - vm_compute. reflexivity.
  - split; [exact H1 |]. split; [exact H2 |]. split; [exact H3 |]. split; [exact H4 |].
    split; [exact Hk |].
    split; [rewrite (H5 Hk); vm_compute; reflexivity | vm_compute; reflexivity].
Defined.

(** * Further properties of the driver *)

Section TablessInput.

Variable re : ReLib.
Variable fl : NumLib.
Variable transformations : list Transformation.
Variable docname : string.
Variable sent_id : bool.

Lemma read_line_tabless (d : driver) (myline : string) :
  sentlength d = 0%nat ->
  Py.contains TAB (Py.strip myline) = false ->
  exists d',
    read_line re fl transformations docname sent_id d myline = Ok d'
    /\ sentlength d' = 0%nat
    /\ output_lines d' = (output_lines d ++ passed_line myline)%list.
Proof.
  intros Hs Ht. unfold read_line, passed_line. rewrite Hs. cbn [Nat.eqb negb andb bind].
  destruct (Py.startswith (Py.strip myline) "#").
  - eexists. split; [reflexivity |]. split; [exact Hs | reflexivity].
  - destruct (Py.strip myline ==? EmptyString).
    + eexists. split; [reflexivity |]. split; [exact Hs | reflexivity].
    + unfold Py.find. change (Py.chr "009") with TAB.
      rewrite (find_absent _ _ 0 Ht). cbn [Z.ltb Z.compare].
      exists d. split; [reflexivity |]. split; [exact Hs | rewrite app_nil_r; reflexivity].
Qed.

Lemma read_lines_tabless (infile : list string) :
  Forall (fun myline => Py.contains TAB (Py.strip myline) = false) infile ->
  forall d, sentlength d = 0%nat ->
    exists d',
      foldM (read_line re fl transformations docname sent_id) infile d = Ok d'
      /\ sentlength d' = 0%nat
      /\ output_lines d' = (output_lines d ++ flat_map passed_line infile)%list.
Proof.
  induction 1 as [|l infile Hl _ IH]; intros d Hs.
  - exists d. split; [reflexivity |]. split; [exact Hs | rewrite app_nil_r; reflexivity].
  - destruct (read_line_tabless d l Hs Hl) as (d1 & H1 & Hs1 & Ho1).
    destruct (IH d1 Hs1) as (d2 & H2 & Hs2 & Ho2).
    exists d2. cbn [foldM]. rewrite H1. cbn [bind]. split; [exact H2 |].
    split; [exact Hs2 |]. rewrite Ho2, Ho1, <- app_assoc. reflexivity.
Qed.

End TablessInput.

(** X20: for an input without a token line, [run_depedit] writes the
    comment lines and the blank lines, stripped, in their order, and drops
    every other line; the rules play no part. *)
Theorem input_without_tokens
        (re : ReLib) (fl : NumLib) (transformations : list Transformation)
        (docname : string) (sent_id newdoc : bool) (infile : list string) :
  Forall (fun myline => Py.contains TAB (Py.strip myline) = false) infile ->
  run_lines re fl transformations docname sent_id infile newdoc
  = Ok ((if newdoc then [("# newdoc id = " ++ docname)%string] else [])
        ++ flat_map passed_line infile)%list.
Proof.
  intros H. unfold run_lines.
  destruct (read_lines_tabless re fl transformations docname sent_id infile H
                               initial_driver eq_refl) as (d & Hd & Hs & Ho).
  rewrite Hd. cbn [bind]. rewrite Hs. cbn [Nat.eqb negb bind]. rewrite Ho.
  destruct newdoc; reflexivity.
Qed.

Lemma input_without_tokens_witness :
  run_lines plain_re whole_numbers [] "doc" false
            ["# a comment"; " "; "stray text"; String "160" "# note"; String "160" ""] true
  = Ok ((if true then [("# newdoc id = " ++ "doc")%string] else [])
        ++ flat_map passed_line
             ["# a comment"; " "; "stray text"; String "160" "# note"; String "160" ""])%list
  /\ flat_map passed_line
       ["# a comment"; " "; "stray text"; String "160" "# note"; String "160" ""]
     = ["# a comment"; ""; "# note"; ""].
Proof.
  split; [| reflexivity].
  apply (input_without_tokens plain_re whole_numbers [] "doc" false true
           ["# a comment"; " "; "stray text"; String "160" "# note"; String "160" ""]).
  repeat constructor.
Defined.

(** ** The input mode *)

Lemma _process_sentence_mode (re : ReLib) (fl : NumLib) (ts : list Transformation)
      (docname : string) (sent_id : bool) (d d1 : driver) :
  _process_sentence re fl ts docname sent_id d = Ok d1 -> input_mode d1 = input_mode d.
Proof.
  unfold _process_sentence. intros H.
  destruct (process_sentence re fl ts _) as [st| |]; simpl in H; try discriminate H.
  destruct (serialize_output_tree fl _ _ _) as [tree| |]; simpl in H; try discriminate H.
  injection H as <-. reflexivity.
Qed.

Lemma read_token_mode (fl : NumLib) (d d1 : driver) (myline : string) :
  read_token fl d myline = Ok d1 ->
  input_mode d1
  = if (8 <? List.length (Py.split myline TAB))%nat then input_mode d else "8col".
Proof.
  unfold read_token. change (Py.chr "009") with TAB. intros H.
  repeat match type of H with
         | bind ?m _ = Ok _ =>
             let E := fresh "E" in
             destruct m eqn:E; cbn [bind] in H; try discriminate H
         | (let '(_, _) := ?p in _) = _ => destruct p
         end.
  injection H as <-. cbn [input_mode].
  match goal with
  | E : (if ?b then _ else _) = Ok (_, _, ?m) |- ?m = _ =>
      destruct b;
      [ repeat match type of E with
               | bind ?x _ = Ok _ => destruct x; cbn [bind] in E; try discriminate E
               end
      | ];
      injection E as _ _ <-; reflexivity
  end.
Qed.

Section Modes.

Variable re : ReLib.
Variable fl : NumLib.
Variable transformations : list Transformation.
Variable docname : string.
Variable sent_id : bool.

Lemma read_line_mode (d d1 : driver) (myline : string) :
  read_line re fl transformations docname sent_id d myline = Ok d1 ->
  input_mode d = "8col" -> input_mode d1 = "8col".
Proof.
  unfold read_line. intros H Hm.
  destruct (negb (sentlength d =? 0)%nat && negb (Py.contains (Py.chr "009") (Py.strip myline))).
  - unfold end_sentence in H.
    destruct (_process_sentence re fl transformations docname sent_id d) as [d2| |] eqn:E;
      cbn [bind] in H; try discriminate H.
    apply _process_sentence_mode in E.
    destruct (Py.startswith (Py.strip myline) "#");
      [injection H as <-; cbn [add_output input_mode]; congruence |].
    destruct (Py.strip myline ==? EmptyString);
      [injection H as <-; cbn [add_output input_mode]; congruence |].
    destruct (0 <? Py.find (Py.strip myline) (Py.chr "009")).
    + apply read_token_mode in H. rewrite H. cbn [input_mode].
      destruct (8 <? _)%nat; [congruence | reflexivity].
    + injection H as <-. cbn [input_mode]. congruence.
  - cbn [bind] in H.
    destruct (Py.startswith (Py.strip myline) "#");
      [injection H as <-; exact Hm |].
    destruct (Py.strip myline ==? EmptyString);
      [injection H as <-; exact Hm |].
    destruct (0 <? Py.find (Py.strip myline) (Py.chr "009")).
    + apply read_token_mode in H. rewrite H.
      destruct (8 <? _)%nat; [exact Hm | reflexivity].
    + injection H as <-. exact Hm.
Qed.

Lemma read_lines_mode (infile : list string) :
  forall d d1,
    foldM (read_line re fl transformations docname sent_id) infile d = Ok d1 ->
    input_mode d = "8col" -> input_mode d1 = "8col".
Proof.
  intros d d1 H Hm.
  refine (foldM_invariant (fun d => input_mode d = "8col") _ infile d d1 _ Hm H).
  intros s x s' _ Hs Hx. apply (read_line_mode _ _ _ Hx Hs).
Qed.

End Modes.

(** X21: a row of at most eight columns sets the input mode to [8col],
    and nothing sets it back: it is [8col] after every further line of the
    document. *)
Theorem eight_column_mode_is_kept
        (re : ReLib) (fl : NumLib) (transformations : list Transformation)
        (docname : string) (sent_id : bool) (d0 d1 d2 : driver)
        (row : string) (rest : list string) :
  (List.length (Py.split row TAB) <= 8)%nat ->
  read_token fl d0 row = Ok d1 ->
  foldM (read_line re fl transformations docname sent_id) rest d1 = Ok d2 ->
  input_mode d1 = "8col" /\ input_mode d2 = "8col".
Proof.
  intros Hl H1 H2.
  assert (E : input_mode d1 = "8col").
  { rewrite (read_token_mode _ _ _ _ H1).
    destruct (8 <? List.length (Py.split row TAB))%nat eqn:E; [| reflexivity].
    apply Nat.ltb_lt in E. lia. }
  split; [exact E |]. apply (read_lines_mode _ _ _ _ _ _ _ _ H2 E).
Qed.

Lemma eight_column_mode_is_kept_witness :
  input_mode after_row_eight = "8col" /\ input_mode after_row_ten = "8col".
Proof.
  apply (eight_column_mode_is_kept plain_re whole_numbers [] "doc" false initial_driver
           after_row_eight after_row_ten row_eight [row_2]).
  - vm_compute. lia.
  - vm_compute. reflexivity.
  - vm_compute. reflexivity.
Defined.

(** ** The counters of the driver *)


Lemma set_last_length (l : list ParsedToken) : List.length (set_last l) = List.length l.
Proof.
  unfold set_last. destruct (rev l) as [|t r] eqn:E.
  - apply (f_equal (@List.length _)) in E. rewrite length_rev in E. simpl in E.
    rewrite E. reflexivity.
  - rewrite length_rev. apply (f_equal (@List.length _)) in E. rewrite length_rev in E.
    simpl in *. congruence.
Qed.

Section Counters.

Variable re : ReLib.
Variable fl : NumLib.
Variable transformations : list Transformation.
Variable docname : string.
Variable sent_id : bool.

Lemma _process_sentence_tokens (d d1 : driver) :
  _process_sentence re fl transformations docname sent_id d = Ok d1 ->
  List.length (conll_tokens d1) = List.length (conll_tokens d).
Proof.
  unfold _process_sentence. intros H.
  destruct (process_sentence re fl transformations _) as [st| |] eqn:E; simpl in H;
    try discriminate H.
  destruct (serialize_output_tree fl _ _ _) as [tree| |]; simpl in H; try discriminate H.
  injection H as <-. cbn [conll_tokens].
  unfold process_sentence in E.
  destruct (transformations_loop re fl transformations _) as [[st1 b]| |] eqn:E1;
    simpl in E; try discriminate E.
  injection E as <-. apply transformations_loop_frame in E1.
  destruct E1 as (El & _). cbn [tokens] in El.
  rewrite length_app, El, <- length_app, firstn_skipn. apply set_last_length.
Qed.

Lemma read_line_counters (d d1 : driver) (myline : string) :
  read_line re fl transformations docname sent_id d myline = Ok d1 ->
  counters_agree d -> counters_agree d1.
Proof.
  unfold read_line, counters_agree. intros H Hc.
  assert (G : forall d2, counters_agree d2 ->
            (if Py.startswith (Py.strip myline) "#" then Ok (add_output d2 (Py.strip myline))
             else if Py.strip myline ==? EmptyString then Ok (add_output d2 EmptyString)
             else if 0 <? Py.find (Py.strip myline) (Py.chr "009")
                  then read_token fl d2 (Py.strip myline)
             else Ok d2) = Ok d1 -> counters_agree d1).
  { unfold counters_agree. intros d2 H2 H'.
    destruct (Py.startswith (Py.strip myline) "#"); [injection H' as <-; exact H2 |].
    destruct (Py.strip myline ==? EmptyString); [injection H' as <-; exact H2 |].
    destruct (0 <? Py.find (Py.strip myline) (Py.chr "009")); [| injection H' as <-; exact H2].
    unfold read_token in H'.
    repeat match type of H' with
           | bind ?m _ = Ok _ =>
               let E := fresh "E" in
               destruct m eqn:E; cbn [bind] in H'; try discriminate H'
           | (let '(_, _) := ?p in _) = _ => destruct p
           end.
    injection H' as <-.
    cbn [conll_tokens tokoffset supertok_offset sentlength supertok_length].
    rewrite length_app. cbn [List.length].
    destruct (Py.contains "-" _); lia. }
  destruct (negb (sentlength d =? 0)%nat && negb (Py.contains (Py.chr "009") (Py.strip myline))).
  - unfold end_sentence in H.
    destruct (_process_sentence re fl transformations docname sent_id d) as [d2| |] eqn:E;
      cbn [bind] in H; try discriminate H.
    refine (G _ _ H). unfold counters_agree.
    cbn [conll_tokens tokoffset supertok_offset sentlength supertok_length].
    rewrite (_process_sentence_tokens _ _ E).
    destruct (_process_sentence_counters _ _ _ _ _ _ _ E) as (-> & -> & -> & ->). lia.
  - cbn [bind] in H. apply (G d Hc H).
Qed.

End Counters.

(** ** The slice of the current sentence *)

(** *** Stripped lines *)

Lemma lstrip_of_first (space : ascii -> bool) (s : string) (a : ascii) (r : string) :
  Py.lstrip_of space s = String a r -> space a = false.
Proof.
  induction s as [|x s IH]; cbn [Py.lstrip_of]; [discriminate |].
  destruct (space x) eqn:E; [exact IH |]. intros H. injection H as <- _. exact E.
Qed.

Lemma rstrip_of_first (space : ascii -> bool) (s : string) (a : ascii) (r : string) :
  space a = false ->
  exists r', Py.rstrip_of space (String a s) = String a r'.
Proof.
  intros Ha. cbn [Py.rstrip_of]. rewrite Ha.
  destruct (Py.rstrip_of space s); eexists; reflexivity.
Qed.

Lemma strip_first (s : string) (a : ascii) (r : string) :
  Py.strip s = String a r -> Py.is_space a = false.
Proof.
  unfold Py.strip, Py.rstrip, Py.lstrip.
  destruct (Py.lstrip_of Py.is_space s) as [|x t] eqn:E; [discriminate |].
  pose proof (lstrip_of_first _ _ _ _ E) as Hx.
  destruct (rstrip_of_first Py.is_space t x t Hx) as (r' & Er).
  rewrite Er. intros H. injection H as <- _. exact Hx.
Qed.

Lemma find_from_present (sub s : string) (i : Z) :
  Py.contains sub s = true -> i <= Py.find_from sub s i.
Proof.
  revert i. induction s as [|a s IH]; intros i H; cbn [Py.contains Py.find_from] in *.
  - destruct (prefix sub EmptyString); [lia | discriminate H].
  - destruct (prefix sub (String a s)); [lia |]. specialize (IH (i + 1) H). lia.
Qed.

Lemma token_line_find (myline0 : string) :
  Py.contains TAB (Py.strip myline0) = true ->
  (0 <? Py.find (Py.strip myline0) (Py.chr "009")) = true.
Proof.
  intros H. apply Z.ltb_lt. unfold Py.find. change (Py.chr "009") with TAB.
  destruct (Py.strip myline0) as [|a r] eqn:E; [discriminate H |].
  pose proof (strip_first _ _ _ E) as Ha.
  cbn [Py.find_from]. unfold TAB at 1. rewrite prefix_chr.
  destruct (Ascii.eqb a "009") eqn:Et.
  - apply Ascii.eqb_eq in Et. subst a. discriminate Ha.
  - cbn [Py.contains] in H. unfold TAB in H at 1. rewrite prefix_chr, Et in H.
    pose proof (find_from_present _ _ (0 + 1) H). lia.
Qed.

(** *** One more token *)

Lemma read_token_appends (fl : NumLib) (d d1 : driver) (myline : string) :
  read_token fl d myline = Ok d1 ->
  exists tok,
    conll_tokens d1 = (conll_tokens d ++ [tok])%list
    /\ num tok = column 0 myline
    /\ is_super_tok tok = PBool (Py.contains "-" (column 0 myline))
    /\ sentence_ tok = PSentence
    /\ sentence_lines d1 = (sentence_lines d ++ [myline])%list
    /\ tokoffset d1 = tokoffset d /\ supertok_offset d1 = supertok_offset d
    /\ sentlength d1 = (if Py.contains "-" (column 0 myline)
                        then sentlength d else S (sentlength d))
    /\ supertok_length d1 = (if Py.contains "-" (column 0 myline)
                             then S (supertok_length d) else supertok_length d)
    /\ output_lines d1 = output_lines d
    /\ current_sentence d1 = current_sentence d.
Proof.
  unfold read_token, column. change (Py.chr "009") with TAB. intros H.
  destruct (Py.nth_or IndexError (Py.split myline TAB) 0) as [c0| |] eqn:E0;
    cbn [bind] in H; try discriminate H.
  assert (Ec : nth 0 (Py.split myline TAB) EmptyString = c0).
  { unfold Py.nth_or in E0. destruct (Py.split myline TAB) as [|x l]; [discriminate E0 |].
    simpl in E0. injection E0 as <-. reflexivity. }
  rewrite Ec.
  repeat match type of H with
         | bind ?m _ = Ok _ =>
             let E := fresh "E" in
             destruct m eqn:E; cbn [bind] in H; try discriminate H
         | (let '(_, _) := ?p in _) = _ => destruct p
         end.
  injection H as <-. eexists. cbn.
  repeat split.
Qed.

(** *** The slice of the current sentence *)

Lemma pending_app (d : driver) (toks : list ParsedToken) (tok : ParsedToken) :
  counters_agree d ->
  skipn (tokoffset d + supertok_offset d) (conll_tokens d ++ [tok])
  = (pending d ++ [tok])%list.
Proof.
  unfold counters_agree, pending. intros Hc.
  rewrite skipn_app.
  replace (tokoffset d + supertok_offset d - List.length (conll_tokens d))%nat with 0%nat
    by lia.
  reflexivity.
Qed.

Section Slices.

Variable re : ReLib.
Variable fl : NumLib.
Variable transformations : list Transformation.
Variable docname : string.
Variable sent_id : bool.

Lemma read_token_slice (d d1 : driver) (myline : string) :
  counters_agree d -> slice_agrees d ->
  read_token fl d myline = Ok d1 -> slice_agrees d1.
Proof.
  intros Hc (S1 & S2 & S3) H.
  destruct (read_token_appends _ _ _ _ H)
    as (tok & Et & En & Es & _ & El & Eo & Eso & Esl & Esu & _).
  unfold slice_agrees, pending. rewrite Et, El, Eo, Eso, Esl, Esu.
  rewrite (pending_app d [] tok Hc).
  rewrite !map_app, !filter_app, !length_app. cbn [map filter].
  unfold is_super at 2 4. rewrite Es. cbn [truthy].
  rewrite S1, En. split; [reflexivity |].
  destruct (Py.contains "-" (column 0 myline)); cbn [negb List.length]; lia.
Qed.

Lemma end_sentence_slice (d d2 : driver) :
  counters_agree d ->
  end_sentence re fl transformations docname sent_id d = Ok d2 ->
  counters_agree d2
  /\ pending d2 = [] /\ sentence_lines d2 = []
  /\ sentlength d2 = 0%nat /\ supertok_length d2 = 0%nat.
Proof.
  unfold counters_agree, end_sentence. intros Hc H.
  destruct (_process_sentence re fl transformations docname sent_id d) as [d1| |] eqn:E;
    cbn [bind] in H; try discriminate H.
  injection H as <-. unfold pending.
  cbn [conll_tokens tokoffset supertok_offset sentlength supertok_length sentence_lines].
  pose proof (_process_sentence_tokens _ _ _ _ _ _ _ E) as Et.
  destruct (_process_sentence_counters _ _ _ _ _ _ _ E) as (-> & -> & -> & ->).
  split; [lia |]. repeat split. apply skipn_all2. lia.
Qed.

Lemma read_line_slice (d d1 : driver) (myline : string) :
  counters_agree d -> slice_agrees d ->
  read_line re fl transformations docname sent_id d myline = Ok d1 ->
  slice_agrees d1.
Proof.
  intros Hc Hs H. unfold read_line in H.
  assert (G : forall d2, counters_agree d2 -> slice_agrees d2 ->
            (if Py.startswith (Py.strip myline) "#" then Ok (add_output d2 (Py.strip myline))
             else if Py.strip myline ==? EmptyString then Ok (add_output d2 EmptyString)
             else if 0 <? Py.find (Py.strip myline) (Py.chr "009")
                  then read_token fl d2 (Py.strip myline)
             else Ok d2) = Ok d1 -> slice_agrees d1).
  { intros d2 Hc2 Hs2 H'.
    destruct (Py.startswith (Py.strip myline) "#"); [injection H' as <-; exact Hs2 |].
    destruct (Py.strip myline ==? EmptyString); [injection H' as <-; exact Hs2 |].
    destruct (0 <? Py.find (Py.strip myline) (Py.chr "009")); [| injection H' as <-; exact Hs2].
    apply (read_token_slice _ _ _ Hc2 Hs2 H'). }
  destruct (negb (sentlength d =? 0)%nat && negb (Py.contains (Py.chr "009") (Py.strip myline))).
  - destruct (end_sentence re fl transformations docname sent_id d) as [d2| |] eqn:E;
      cbn [bind] in H; try discriminate H.
    destruct (end_sentence_slice _ _ Hc E) as (Hc2 & Ep & El & Es & Eu).
    refine (G d2 Hc2 _ H).
    unfold slice_agrees. rewrite Ep, El, Es, Eu. repeat split.
  - cbn [bind] in H. apply (G d Hc Hs H).
Qed.

Lemma read_lines_slice (infile : list string) :
  forall d d1,
    counters_agree d -> slice_agrees d ->
    foldM (read_line re fl transformations docname sent_id) infile d = Ok d1 ->
    counters_agree d1 /\ slice_agrees d1.
Proof.
  intros d d1 Hc Hs H.
  refine (foldM_invariant (fun d => counters_agree d /\ slice_agrees d) _ infile d d1
                          _ (conj Hc Hs) H).
  intros s x s' _ [Hcs Hss] Hx. split.
  - apply (read_line_counters _ _ _ _ _ _ _ _ Hx Hcs).
  - apply (read_line_slice _ _ _ Hcs Hss Hx).
Qed.

(** Rows read one after the other join the rows of the sentence. *)
Lemma read_token_line (d d1 : driver) (myline : string) :
  token_line myline ->
  read_line re fl transformations docname sent_id d myline = Ok d1 ->
  read_token fl d (Py.strip myline) = Ok d1.
Proof.
  intros [Ht Hh] H. unfold read_line in H. change (Py.chr "009") with TAB in H.
  rewrite Ht, andb_false_r in H. cbn [bind] in H. rewrite Hh in H.
  destruct (Py.strip myline ==? EmptyString) eqn:E.
  { apply String.eqb_eq in E. rewrite E in Ht. discriminate Ht. }
  change TAB with (Py.chr "009") in H. rewrite (token_line_find _ Ht) in H. exact H.
Qed.

Lemma read_rows_lines (rows : list string) :
  Forall token_line rows ->
  forall d d1,
    foldM (read_line re fl transformations docname sent_id) rows d = Ok d1 ->
    sentence_lines d1 = (sentence_lines d ++ map Py.strip rows)%list
    /\ exists toks, conll_tokens d1 = (conll_tokens d ++ toks)%list
                    /\ List.length toks = List.length rows
    /\ tokoffset d1 = tokoffset d /\ supertok_offset d1 = supertok_offset d
    /\ output_lines d1 = output_lines d
    /\ current_sentence d1 = current_sentence d.
Proof.
  induction 1 as [|l rows Hl _ IH]; intros d d1 H.
  - simpl in H. injection H as <-. rewrite app_nil_r. split; [reflexivity |].
    exists []. rewrite app_nil_r. repeat split.
  - cbn [foldM] in H.
    destruct (read_line re fl transformations docname sent_id d l) as [d0| |] eqn:E;
      cbn [bind] in H; try discriminate H.
    apply (read_token_line _ _ _ Hl) in E.
    destruct (read_token_appends _ _ _ _ E)
      as (tok & Et & _ & _ & _ & El & Eo & Eso & _ & _ & Eout & Ecs).
    destruct (IH _ _ H) as (Il & toks & It & Ilen & Io & Iso & Iout & Ics).
    split; [rewrite Il, El, <- app_assoc; reflexivity |].
    exists (tok :: toks). rewrite It, Et, <- app_assoc.
    repeat split; try congruence. cbn [List.length]. rewrite Ilen. reflexivity.
Qed.

End Slices.

(** X22: after any number of input lines the four counters of
    [run_depedit] add up to the number of tokens read so far, and the
    slice that [_process_sentence] takes holds the tokens of the rows of
    the current sentence and no other: one token for each row read
    since the last end of a sentence, in the order of the rows, of which
    [sentlength] are tokens and [supertok_length] are super-tokens. *)
Theorem driver_counters_agree
        (re : ReLib) (fl : NumLib) (transformations : list Transformation)
        (docname : string) (sent_id : bool) (infile : list string) (d : driver) :
  foldM (read_line re fl transformations docname sent_id) infile initial_driver = Ok d ->
  List.length (conll_tokens d)
  = (tokoffset d + supertok_offset d + sentlength d + supertok_length d)%nat
  /\ map num (pending d) = map (column 0) (sentence_lines d)
  /\ sentlength d = List.length (filter (fun t => negb (is_super t)) (pending d))
  /\ supertok_length d = List.length (filter is_super (pending d)).
Proof.
  intros H.
  assert (Hc : counters_agree initial_driver) by reflexivity.
  assert (Hs : slice_agrees initial_driver) by (repeat split).
  destruct (read_lines_slice re fl transformations docname sent_id infile _ _ Hc Hs H)
    as [Hc1 Hs1].
  split; [exact Hc1 | exact Hs1].
Qed.

Lemma driver_counters_agree_witness :
  List.length (conll_tokens driver_mid_document)
  = (tokoffset driver_mid_document + supertok_offset driver_mid_document
     + sentlength driver_mid_document + supertok_length driver_mid_document)%nat
  /\ map num (pending driver_mid_document)
     = map (column 0) (sentence_lines driver_mid_document)
  /\ sentlength driver_mid_document
     = List.length (filter (fun t => negb (is_super t)) (pending driver_mid_document))
  /\ supertok_length driver_mid_document
     = List.length (filter is_super (pending driver_mid_document))
  /\ map num (conll_tokens driver_mid_document) = ["1-2"; "1"; "2"; "1"]
  /\ sentence_lines driver_mid_document = [row_1]
  /\ map text (pending driver_mid_document) = ["a"].
Proof.
  destruct (driver_counters_agree plain_re whole_numbers [] "doc" false
              [row_dont; row_do; row_nt; EmptyString; row_1] driver_mid_document)
    as (H1 & H2 & H3 & H4).
  - vm_compute. reflexivity.
  - split; [exact H1 |]. split; [exact H2 |]. split; [exact H3 |]. split; [exact H4 |].
    repeat split; vm_compute; reflexivity.
Defined.

(** C8, amended: a line without a tab ends the current sentence as soon
    as the sentence has a token, and a comment line is no exception.
    The rules see the tokens read since the last end of a sentence and
    no other.  After the line no token and no super-token is pending,
    both offsets have moved past those of the sentence, and a new
    [Sentence] is current; a comment line, like a blank one, stands in the
    output after the rows of the sentence that it ends.  The tokens of
    the rows that follow the line are alone in the slice of the next
    sentence. *)
Theorem C8_tabless_line_ends_the_sentence
        (re : ReLib) (fl : NumLib) (ts : list Transformation) (docname : string)
        (sent_id : bool) (d d1 : driver) (myline : string) :
  sentlength d <> 0%nat ->
  Py.contains TAB (Py.strip myline) = false ->
  _process_sentence re fl ts docname sent_id d = Ok d1 ->
  (exists st,
      process_sentence re fl ts
        {| tokens := skipn (tokoffset d + supertok_offset d) (set_last (conll_tokens d));
           sentence := {| sentence_string := sentence_string (current_sentence d);
                          length := Z.of_nat (sentlength d);
                          annotations := annotations (current_sentence d);
                          sent_num := sent_num (current_sentence d) |} |} = Ok st
      /\ conll_tokens d1
         = (firstn (tokoffset d + supertok_offset d) (set_last (conll_tokens d))
            ++ tokens st)%list)
  /\ exists d2,
      read_line re fl ts docname sent_id d myline = Ok d2
      /\ sentlength d2 = 0%nat
      /\ supertok_length d2 = 0%nat
      /\ tokoffset d2 = (tokoffset d + sentlength d)%nat
      /\ supertok_offset d2 = (supertok_offset d + supertok_length d)%nat
      /\ sentence_lines d2 = []
      /\ conll_tokens d2 = conll_tokens d1
      /\ current_sentence d2
         = Sentence_init EmptyString (sent_num (current_sentence d1) + 1)
      /\ output_lines d2
         = (output_lines d1
            ++ (if Py.startswith (Py.strip myline) "#" then [Py.strip myline]
                else if Py.strip myline ==? EmptyString then [EmptyString]
                else []))%list
      /\ (counters_agree d ->
          pending d2 = []
          /\ forall rows d3,
              Forall token_line rows ->
              foldM (read_line re fl ts docname sent_id) rows d2 = Ok d3 ->
              map num (pending d3) = map (column 0) (map Py.strip rows)
              /\ List.length (pending d3) = List.length rows).
Proof.
  intros Hs Ht Hp.
  split.
  { unfold _process_sentence in Hp.
    destruct (process_sentence re fl ts _) as [st| |] eqn:E; simpl in Hp; try discriminate Hp.
    destruct (serialize_output_tree fl _ _ _) as [tree| |]; simpl in Hp; try discriminate Hp.
    injection Hp as <-. exists st. split; reflexivity. }
  destruct (_process_sentence_counters _ _ _ _ _ _ _ Hp) as (E1 & E2 & E3 & E4).
  assert (He : exists d0,
             end_sentence re fl ts docname sent_id d = Ok d0
             /\ sentlength d0 = 0%nat /\ supertok_length d0 = 0%nat
             /\ tokoffset d0 = (tokoffset d + sentlength d)%nat
             /\ supertok_offset d0 = (supertok_offset d + supertok_length d)%nat
             /\ sentence_lines d0 = [] /\ conll_tokens d0 = conll_tokens d1
             /\ current_sentence d0
                = Sentence_init EmptyString (sent_num (current_sentence d1) + 1)
             /\ output_lines d0 = output_lines d1).
  { unfold end_sentence. rewrite Hp. cbn [bind]. eexists. split; [reflexivity |].
    cbn. rewrite E1, E2, E3, E4. repeat split. }
  destruct He as (d0 & He & A1 & A2 & A3 & A4 & A5 & A6 & A7 & A8).
  assert (Hr : read_line re fl ts docname sent_id d myline
               = (if Py.startswith (Py.strip myline) "#"
                  then Ok (add_output d0 (Py.strip myline))
                  else if Py.strip myline ==? EmptyString
                       then Ok (add_output d0 EmptyString)
                       else Ok d0)).
  { unfold read_line. change (Py.chr "009") with TAB. rewrite Ht.
    apply Nat.eqb_neq in Hs. rewrite Hs. cbn [negb andb]. rewrite He. cbn [bind].
    unfold Py.find. rewrite (find_absent _ _ 0 Ht). change (0 <? -1) with false.
    reflexivity. }
  assert (Hd2 : exists d2,
             read_line re fl ts docname sent_id d myline = Ok d2
             /\ sentlength d2 = sentlength d0 /\ supertok_length d2 = supertok_length d0
             /\ tokoffset d2 = tokoffset d0 /\ supertok_offset d2 = supertok_offset d0
             /\ sentence_lines d2 = sentence_lines d0 /\ conll_tokens d2 = conll_tokens d0
             /\ current_sentence d2 = current_sentence d0
             /\ output_lines d2
                = (output_lines d0
                   ++ (if Py.startswith (Py.strip myline) "#" then [Py.strip myline]
                       else if Py.strip myline ==? EmptyString then [EmptyString]
                       else []))%list).
  { rewrite Hr.
    destruct (Py.startswith (Py.strip myline) "#");
      [| destruct (Py.strip myline ==? EmptyString)];
      (eexists; split; [reflexivity |]); cbn; rewrite ?app_nil_r; repeat split. }
  destruct Hd2 as (d2 & Hd2 & B1 & B2 & B3 & B4 & B5 & B6 & B7 & B8).
  exists d2. split; [exact Hd2 |].
  rewrite B1, B2, B3, B4, B5, B6, B7, B8, A1, A2, A3, A4, A5, A6, A7, A8.
  repeat (split; [reflexivity |]).
  intros Hc.
  destruct (end_sentence_slice re fl ts docname sent_id d d0 Hc He)
    as (Hc0 & Hp0 & _).
  assert (Hp2 : pending d2 = []).
  { unfold pending. rewrite B3, B4, B6. exact Hp0. }
  assert (Hc2 : counters_agree d2).
  { unfold counters_agree in *. rewrite B1, B2, B3, B4, B6. exact Hc0. }
  assert (Hs2 : slice_agrees d2).
  { unfold slice_agrees. rewrite Hp2, B5, A5, B1, A1, B2, A2. repeat split. }
  split; [exact Hp2 |].
  intros rows d3 Hrows H3.
  destruct (read_lines_slice re fl ts docname sent_id rows _ _ Hc2 Hs2 H3)
    as [_ (S1 & _)].
  destruct (read_rows_lines re fl ts docname sent_id rows Hrows _ _ H3) as (L1 & _).
  rewrite B5, A5 in L1. cbn [app] in L1. rewrite L1 in S1. split; [exact S1 |].
  apply (f_equal (@List.length _)) in S1. rewrite !length_map in S1. exact S1.
Qed.

Lemma C8_tabless_line_ends_the_sentence_witness :
  sentlength driver_first_sentence = 2%nat
  /\ supertok_length driver_first_sentence = 1%nat
  /\ exists d2,
      read_line plain_re whole_numbers [] "doc" true driver_first_sentence "# note" = Ok d2
      /\ sentlength d2 = 0%nat
      /\ supertok_length d2 = 0%nat
      /\ tokoffset d2 = (tokoffset driver_first_sentence + sentlength driver_first_sentence)%nat
      /\ supertok_offset d2
         = (supertok_offset driver_first_sentence
            + supertok_length driver_first_sentence)%nat
      /\ sentence_lines d2 = []
      /\ output_lines d2 = (output_lines driver_first_written ++ ["# note"])%list
      /\ pending d2 = []
      /\ exists d3,
          foldM (read_line plain_re whole_numbers [] "doc" true) [row_1; row_2] d2 = Ok d3
          /\ map num (pending d3) = map (column 0) (map Py.strip [row_1; row_2])
          /\ List.length (pending d3) = List.length [row_1; row_2]
          /\ List.length (conll_tokens d3) = 5%nat.
Proof.
  split; [vm_compute; reflexivity |]. split; [vm_compute; reflexivity |].
  destruct (C8_tabless_line_ends_the_sentence plain_re whole_numbers [] "doc" true
              driver_first_sentence driver_first_written "# note")
    as (_ & d2 & Hd2 & H1 & H2 & H3 & H4 & H5 & _ & _ & H8 & H9).
  - vm_compute. discriminate.
  - vm_compute. reflexivity.
  - vm_compute. reflexivity.
  - destruct (H9 ltac:(vm_compute; reflexivity)) as (Hp & Hrows).
    exists d2. repeat (split; [assumption |]).
    destruct (foldM (read_line plain_re whole_numbers [] "doc" true) [row_1; row_2] d2)
      as [d3| |] eqn:E3.
    + exists d3. split; [reflexivity |].
      assert (Hr : Forall token_line [row_1; row_2])
        by (repeat constructor).
      destruct (Hrows [row_1; row_2] d3 Hr E3) as (R1 & R2).
      split; [exact R1 |]. split; [exact R2 |].
      vm_compute in Hd2. injection Hd2 as <-. vm_compute in E3. injection E3 as <-.
      reflexivity.
    + exfalso. vm_compute in Hd2. injection Hd2 as <-. vm_compute in E3. discriminate E3.
    + exfalso. vm_compute in Hd2. injection Hd2 as <-. vm_compute in E3. discriminate E3.
Defined.

(** * Further properties of the actions and relations *)

(** ** The action that sets a head *)


Lemma head_action_shape (i j : string) :
  digit_string i -> digit_string j ->
  Py.contains ":" ("#" ++ i ++ ">#" ++ j) = false
  /\ Py.contains ">" ("#" ++ i ++ ">#" ++ j) = true
  /\ Py.split ("#" ++ i ++ ">#" ++ j) ">" = ["#" ++ i; "#" ++ j].
Proof.
  intros [_ Hi] [_ Hj].
  assert (E : "#" ++ i ++ ">#" ++ j = ("#" ++ i) ++ String ">" ("#" ++ j)) by reflexivity.
  assert (Hi' : forall c, Py.is_digit c = false -> Ascii.eqb "#" c = false ->
                          has_char c ("#" ++ i) = false).
  { intros c Hd Hh. cbn [append has_char]. rewrite Hh.
    rewrite (has_char_digits c i Hd Hi). reflexivity. }
  assert (Hj' : forall c, Py.is_digit c = false -> Ascii.eqb "#" c = false ->
                          has_char c ("#" ++ j) = false).
  { intros c Hd Hh. cbn [append has_char]. rewrite Hh.
    rewrite (has_char_digits c j Hd Hj). reflexivity. }
  split; [| split].
  - apply contains_absent_char. rewrite E, has_char_app. cbn [has_char].
    rewrite (Hi' ":"%char eq_refl eq_refl), (Hj' ":"%char eq_refl eq_refl). reflexivity.
  - rewrite E. apply contains_app_skip. reflexivity.
  - rewrite E.
    change (Py.split (("#" ++ i) ++ String ">" ("#" ++ j)) ">")
      with (Py.split (("#" ++ i) ++ String ">" ("#" ++ j)) (Py.chr ">")).
    rewrite split_chr_app.
    rewrite (split_chr_none _ _ (Hi' ">"%char eq_refl eq_refl)).
    rewrite (split_chr_none _ _ (Hj' ">"%char eq_refl eq_refl)). reflexivity.
Qed.

(** X23: the action [#i>#j] on a binding gives the token of node j the
    id of the token of node i as its head and changes nothing else; when
    both nodes are bound to the same token, nothing changes. *)
Theorem head_action_sets_the_head
        (re : ReLib) (r : result) (st : store) (i j : string) (t1 t2 : nat)
        (tok1 tok2 : ParsedToken) :
  digit_string i -> digit_string j ->
  int_get (nodes r) (Py.digits_val 0 i) = Some t1 ->
  int_get (nodes r) (Py.digits_val 0 j) = Some t2 ->
  nth_error (tokens st) t1 = Some tok1 ->
  nth_error (tokens st) t2 = Some tok2 ->
  execute_one re r st ("#" ++ i ++ ">#" ++ j)
  = Ok (if (t1 =? t2)%nat then st
        else update_token st t2 (with_head tok2 (id tok1)), false).
Proof.
  intros Hi Hj H1 H2 Hk1 Hk2.
  destruct (head_action_shape i j Hi Hj) as (Ec & Eg & Es).
  unfold execute_one.
  change ("#" ++ i ++ ">#" ++ j ==? "last") with false. cbv iota.
  rewrite Ec, Eg, Es. cbn [Py.nth_or nth_error of_option bind].
  change ("#" ++ i) with (String "#" i). change ("#" ++ j) with (String "#" j).
  rewrite (node_number_digits i Hi), (node_number_digits j Hj). cbn [bind].
  unfold bound. rewrite H1, H2. cbn [of_option bind].
  destruct (t1 =? t2)%nat; cbn [negb]; [reflexivity |].
  unfold token_at. rewrite Hk1, Hk2. cbn [of_option bind]. reflexivity.
Qed.

Lemma head_action_sets_the_head_witness :
  execute_one plain_re
              {| nodes := [(1, 0%nat); (2, 2%nat)]; rels := ["#1>#2"]; matchers := [];
                 groups := [] |}
              st_abc ("#" ++ "2" ++ ">#" ++ "1")
  = Ok (if (2 =? 0)%nat then st_abc
        else update_token st_abc 0
               (with_head (mk_token "1.0" "a" "_" "0.0" "root" "first")
                          (id (mk_token "3.0" "c" "_" "1.0" "obj" "last"))), false).
Proof.
  apply (head_action_sets_the_head plain_re
           {| nodes := [(1, 0%nat); (2, 2%nat)]; rels := ["#1>#2"]; matchers := [];
              groups := [] |}
           st_abc "2" "1" 2 0
           (mk_token "3.0" "c" "_" "1.0" "obj" "last")
           (mk_token "1.0" "a" "_" "0.0" "root" "first"));
    try reflexivity; split; solve [discriminate | reflexivity].
Defined.

(** ** Equality of a field *)

Lemma getattr_same_exception (node1 node2 : ParsedToken) (name : string) (e : exn) :
  getattr node1 name = Raise e ->
  (exists v, getattr node2 name = Ok v) \/ getattr node2 name = Raise e.
Proof.
  unfold getattr.
  repeat match goal with
         | |- context [if ?b then Ok _ else _] => destruct b; [discriminate |]
         end.
  destruct (dict_get (extra node1) name); [discriminate |]. intros H.
  destruct (dict_get (extra node2) name) as [v|]; [left; eexists; reflexivity | right; exact H].
Qed.

Lemma getattr_never_exits (node : ParsedToken) (name diag : string) :
  getattr node name <> Exit diag.
Proof.
  unfold getattr.
  repeat match goal with
         | |- context [if ?b then Ok _ else _] => destruct b; [discriminate |]
         end.
  destruct (dict_get (extra node) name); [discriminate |].
  destruct (special_name name); discriminate.
Qed.

Lemma py_eq_sym (v w : pyvalue) : py_eq v w = py_eq w v.
Proof.
  destruct v as [s|a| |], w as [t|b| |]; try reflexivity.
  - apply String.eqb_sym.
  - destruct a, b; reflexivity.
Qed.

(** X24: the test of [#i:field==#j] is symmetric in its two tokens:
    [test_relation] on a field name returns the same value, or raises the
    same exception, with the tokens exchanged. *)
Theorem field_equality_is_symmetric
        (fl : NumLib) (node1 node2 : ParsedToken) (field : string) :
  (field ==? ".") = false -> (field ==? ">") = false -> Py.contains "." field = false ->
  test_relation fl node1 node2 (Some field) = test_relation fl node2 node1 (Some field).
Proof.
  intros E1 E2 E3. unfold test_relation. rewrite E1, E2, E3.
  destruct (getattr node1 field) as [v1|d1|e1] eqn:G1;
    destruct (getattr node2 field) as [v2|d2|e2] eqn:G2; cbn [bind];
    try (exfalso; eapply getattr_never_exits; eassumption).
  - rewrite py_eq_sym. reflexivity.
  - reflexivity.
  - reflexivity.
  - destruct (getattr_same_exception _ node2 _ _ G1) as [[v Hv] | H]; congruence.
Qed.

Lemma field_equality_is_symmetric_witness :
  test_relation whole_numbers (mk_token "1.0" "a" "_" "0.0" "root" "first")
                (mk_token "3.0" "c" "_" "1.0" "obj" "last") (Some "func")
  = test_relation whole_numbers (mk_token "3.0" "c" "_" "1.0" "obj" "last")
                  (mk_token "1.0" "a" "_" "0.0" "root" "first") (Some "func").
Proof.
  apply (field_equality_is_symmetric whole_numbers
           (mk_token "1.0" "a" "_" "0.0" "root" "first")
           (mk_token "3.0" "c" "_" "1.0" "obj" "last") "func"); reflexivity.
Defined.

(** * Rules with one node *)

Lemma candidates_distinct (def_matcher : DefinitionMatcher) (toks : list ParsedToken) :
  forall (i : nat) (ms : list Match),
    candidates def_matcher toks i = Ok ms -> NoDup (map m_token ms).
Proof.
  induction toks as [|token toks IH]; intros i ms H.
  - simpl in H. injection H as <-. constructor.
  - cbn [candidates] in H.
    destruct (truthy (is_super_tok token)); [apply (IH _ _ H) |].
    destruct (DefinitionMatcher_match def_matcher token) as [o| |]; simpl in H;
      try discriminate H.
    destruct (candidates def_matcher toks (S i)) as [ms'| |] eqn:Ec; simpl in H;
      try discriminate H.
    destruct o as [gs|]; injection H as <-; [| apply (IH _ _ Ec)].
    cbn [map m_token]. constructor; [| apply (IH _ _ Ec)].
    intros Hin. apply in_map_iff in Hin. destruct Hin as (m & Hm & Hin).
    destruct (candidates_sound _ _ _ _ Ec _ Hin) as (Hle & _). lia.
Qed.

Lemma unary_bins_keys (k : nat) (ms : list Match) (b : bin) :
  In b (unary_bins k ms) -> has_key (b_nodes b) 1 = true.
Proof.
  revert k. induction ms as [|m r IH]; intros k H; [contradiction |].
  destruct H as [<- | H]; [reflexivity | apply (IH _ H)].
Qed.

Lemma grow_bins_unary (bins : list bin) (h : list (list Match)) (m : Match) :
  (forall b, In b bins -> has_key (b_nodes b) 1 = true) ->
  grow_bins (bins, h) (unary_seed m)
  = Ok ((bins ++ [{| b_nodes := [(1, m_token m)]; b_rels := ["none"];
                     b_matchers := List.length h |}])%list,
        (h ++ [[m]])%list).
Proof.
  intros Hk. unfold grow_bins. cbn [unary_seed rs_nodes rs_rel rs_matchers].
  match goal with
  | |- context [foldM ?f bins ?init] =>
      assert (E : foldM f bins init = Ok init)
  end.
  { induction bins as [|b bins IH]; [reflexivity |].
    cbn [foldM]. unfold bins_compatible at 1. cbn [b_nodes existsb fst].
    rewrite (Hk b (or_introl eq_refl)). cbn [negb orb]. rewrite andb_false_r.
    cbn [bind]. apply IH. intros b' Hb'. apply Hk. right. exact Hb'. }
  rewrite E. reflexivity.
Qed.

Lemma grow_all_unary (ms : list Match) :
  forall (bins : list bin) (h : list (list Match)),
    (forall b, In b bins -> has_key (b_nodes b) 1 = true) ->
    foldM grow_bins (map unary_seed ms) (bins, h)
    = Ok ((bins ++ unary_bins (List.length h) ms)%list,
          (h ++ map (fun m => [m]) ms)%list).
Proof.
  induction ms as [|m r IH]; intros bins h Hk.
  - cbn. rewrite !app_nil_r. reflexivity.
  - cbn [map foldM]. rewrite (grow_bins_unary bins h m Hk). cbn [bind].
    rewrite IH.
    + rewrite length_app. cbn [List.length unary_bins map].
      rewrite Nat.add_1_r, <- !app_assoc. reflexivity.
    + intros b Hb. apply in_app_or in Hb. destruct Hb as [Hb | [<- | []]];
        [apply Hk; exact Hb | reflexivity].
Qed.

Lemma freeze_unary (ms : list Match) :
  forall (hp : list (list Match)),
    map (freeze (hp ++ map (fun m => [m]) ms)) (unary_bins (List.length hp) ms)
    = map unary_solution ms.
Proof.
  induction ms as [|m r IH]; intros hp; [reflexivity |].
  cbn [map unary_bins]. f_equal.
  - unfold freeze, unary_solution. cbn [b_nodes b_rels b_matchers]. f_equal.
    unfold heap_get. rewrite app_nth2 by lia. rewrite Nat.sub_diag. reflexivity.
  - specialize (IH (hp ++ [[m]])%list). rewrite length_app in IH. cbn [List.length] in IH.
    rewrite Nat.add_1_r, <- app_assoc in IH. exact IH.
Qed.

Lemma complete_unary (sets : list ResultSet) (ms : list Match) :
  map fst (filter snd (map (complete_bin sets 1 1) (map unary_solution ms)))
  = map unary_solution ms.
Proof.
  induction ms as [|m r IH]; [reflexivity |].
  cbn [map]. unfold complete_bin at 1. cbn. rewrite IH. reflexivity.
Qed.

Lemma replace_nth_end {A : Type} (acc : list A) (x y : A) :
  replace_nth (acc ++ [x]) (List.length acc) y = (acc ++ [y])%list.
Proof. induction acc as [|a acc IH]; [reflexivity |]. simpl. rewrite IH. reflexivity. Qed.

Lemma unary_solutions_differ (m m' : Match) :
  m_token m <> m_token m' -> result_eqb (unary_solution m) (unary_solution m') = false.
Proof.
  intros H. unfold result_eqb, nodes_eqb, unary_solution. cbn.
  apply Nat.eqb_neq in H. rewrite H. reflexivity.
Qed.

Lemma merge_unary (ms : list Match) :
  NoDup (map m_token ms) ->
  forall acc,
    (forall m a, In m ms -> In a acc -> result_eqb (unary_solution m) a = false) ->
    fold_left (fun merged solution => merge_solutions solution merged 1)
              (map unary_solution ms) acc
    = (acc ++ map unary_solution ms)%list.
Proof.
  induction ms as [|m r IH]; intros Hn acc Hacc.
  - cbn. rewrite app_nil_r. reflexivity.
  - cbn [map fold_left]. inversion Hn as [|? ? Hm Hr]; subst.
    assert (E : merge_solutions (unary_solution m) acc 1 = (acc ++ [unary_solution m])%list).
    { unfold merge_solutions.
      assert (Ee : existsb (result_eqb (unary_solution m)) acc = false).
      { destruct (existsb _ acc) eqn:Ee; [| reflexivity].
        apply existsb_exists in Ee. destruct Ee as (a & Ha & Ea).
        rewrite (Hacc m a (or_introl eq_refl) Ha) in Ea. discriminate Ea. }
      rewrite Ee. cbn [negb unary_solution rels List.length Nat.eqb]. cbv iota.
      rewrite app_nil_r. apply replace_nth_end. }
    rewrite E, IH.
    + rewrite <- app_assoc. reflexivity.
    + exact Hr.
    + intros m' a Hm' Ha. apply in_app_or in Ha. destruct Ha as [Ha | [<- | []]].
      * apply Hacc; [right; exact Hm' | exact Ha].
      * apply unary_solutions_differ. intros Heq. apply Hm.
        apply in_map_iff. exists m'. split; [exact Heq | exact Hm'].
Qed.

Lemma prune_unary (ms : list Match) :
  prune_merged_bins (map unary_solution ms) 1 = map unary_solution ms.
Proof.
  unfold prune_merged_bins. rewrite filter_none; [reflexivity |].
  apply Forall_forall. intros b Hb. apply in_map_iff in Hb.
  destruct Hb as (m & <- & _). reflexivity.
Qed.

Lemma merge_sets_unary (ms : list Match) :
  NoDup (map m_token ms) ->
  merge_sets (map unary_seed ms) 1 1 = Ok (map unary_solution ms).
Proof.
  intros Hn. unfold merge_sets.
  rewrite (grow_all_unary ms [] [] (fun b H => False_ind _ H)). cbn [bind app List.length].
  rewrite (freeze_unary ms []) || idtac.
  rewrite <- (map_map (freeze (map (fun m => [m]) ms)) (complete_bin (map unary_seed ms) 1 1)).
  pose proof (freeze_unary ms []) as Ef. cbn [app List.length] in Ef. rewrite Ef.
  rewrite complete_unary.
  rewrite (merge_unary ms Hn [] (fun m a _ H => False_ind _ H)). cbn [app].
  rewrite prune_unary. reflexivity.
Qed.

Lemma first_groups (gs : list groups_t) :
  (forall g, In g gs -> g <> []) ->
  mapM (fun group => Py.nth_or IndexError group 0) gs = Ok (map (hd None) gs).
Proof.
  induction gs as [|g gs IH]; intros H; [reflexivity |].
  cbn [mapM map]. rewrite (IH (fun g' Hg' => H g' (or_intror Hg'))).
  specialize (H g (or_introl eq_refl)). destruct g as [|x g]; [contradiction |]. reflexivity.
Qed.

Lemma add_groups_unary (ms : list Match) :
  (forall m g, In m ms -> In g (m_groups m) -> g <> []) ->
  add_groups (map unary_solution ms) = Ok (map unary_binding ms).
Proof.
  unfold add_groups. induction ms as [|m r IH]; intros H; [reflexivity |].
  cbn [map mapM]. rewrite (IH (fun m' g Hm' => H m' g (or_intror Hm'))).
  unfold add_groups_one at 1. cbn [unary_solution matchers sorted_matchers fold_left
                                   insert_matcher flat_map].
  rewrite app_nil_r, (first_groups _ (fun g => H m g (or_introl eq_refl))). reflexivity.
Qed.

(** X25: a rule with one node definition and the relation [none] has
    exactly one binding for each candidate of the node, in the order of the
    sentence: node 1 is the token, the relation list is [none], and the
    groups are the first groups of the tests that captured any. *)
Theorem unary_rule_binds_every_candidate
        (fl : NumLib) (t : Transformation) (dm : DefinitionMatcher)
        (toks : list ParsedToken) (ms : list Match) :
  definitions t = [dm] -> def_index dm = 1 -> relations t = ["none"] ->
  candidates dm toks 0 = Ok ms ->
  find_bindings fl t toks = Ok (map unary_binding ms).
Proof.
  intros Hd Hi Hr Hc. unfold find_bindings. rewrite Hd, Hr.
  cbn [collect_node_matches]. rewrite Hc. cbn [bind]. rewrite Hi.
  assert (Hnm : forall nm, nm = match ms with
                                | [] => []
                                | _ :: _ => int_set [] 1 (nm_get [] 1 ++ ms)%list
                                end -> nm_get nm 1 = ms).
  { intros nm ->. destruct ms; reflexivity. }
  cbn [relations_loop]. unfold matches_relation.
  change ("none" ==? EmptyString) with false. cbv iota.
  change (relation_operator "none") with (@Ok (option string * option string) (None, None)).
  cbn [bind]. change ("none" ==? "none") with true. cbv iota.
  rewrite (Hnm _ eq_refl). cbn [bind].
  change (map (fun matcher1 : Match =>
                  {| rs_nodes := [(1, m_token matcher1)]; rs_rel := "none";
                     rs_matchers := [matcher1] |}) ms) with (map unary_seed ms).
  assert (Hs : forall found : list ResultSet,
             (if negb (List.length found =? 0)%nat then ([] ++ found)%list else [])
             = found) by (intros [|x l]; reflexivity).
  rewrite Hs. cbn [List.length].
  rewrite (merge_sets_unary ms (candidates_distinct _ _ _ _ Hc)). cbn [bind].
  apply add_groups_unary. intros m g Hm Hg.
  destruct (candidates_sound _ _ _ _ Hc _ Hm) as (_ & _ & Hne). apply Hne. exact Hg.
Qed.

Lemma unary_rule_binds_every_candidate_witness :
  find_bindings whole_numbers rule_after (tokens st_abc)
  = Ok (map unary_binding [{| m_def_index := 1; m_token := 0; m_groups := [] |}]).
Proof.
  eapply (unary_rule_binds_every_candidate whole_numbers rule_after _ (tokens st_abc) _);
    vm_compute; reflexivity.
Defined.

(** * Further properties of the actions *)

(** ** Positions in a text *)

Lemma find_from_char (c : ascii) (p r : string) (i : Z) :
  has_char c p = false ->
  Py.find_from (Py.chr c) (p ++ String c r) i = i + Py.len p.
Proof.
  revert i. induction p as [|a p IH]; intros i H.
  - cbn [append Py.find_from]. rewrite prefix_chr, Ascii.eqb_refl. unfold Py.len. simpl. lia.
  - simpl in H. apply orb_false_iff in H. destruct H as [E H].
    cbn [append Py.find_from]. rewrite prefix_chr, E, (IH _ H).
    unfold Py.len. cbn [String.length]. lia.
Qed.

Lemma slice_middle (a p t : string) :
  Py.slice (a ++ p ++ t) (Py.len a) (Py.len a + Py.len p) = p.
Proof.
  unfold Py.slice, Py.norm_index, Py.len. rewrite !length_append.
  destruct (Z.of_nat (String.length a) <? 0) eqn:E1; [apply Z.ltb_lt in E1; lia |].
  destruct (Z.of_nat (String.length a) + Z.of_nat (String.length p) <? 0) eqn:E2;
    [apply Z.ltb_lt in E2; lia |].
  rewrite !Z.min_l by lia.
  replace (Z.to_nat (Z.of_nat (String.length a))) with (String.length a) by lia.
  replace (Z.to_nat (Z.of_nat (String.length a) + Z.of_nat (String.length p)
                     - Z.of_nat (String.length a))) with (String.length p) by lia.
  rewrite substring_skip. apply substring_prefix.
Qed.

Lemma substring_all (s : string) : substring 0 (String.length s) s = s.
Proof. induction s as [|a s IH]; simpl; [reflexivity | rewrite IH; reflexivity]. Qed.

Lemma slice_from_tail (a t : string) :
  Py.slice_from (a ++ t) (Py.len a) = t.
Proof.
  unfold Py.slice_from, Py.slice, Py.norm_index, Py.len. rewrite !length_append.
  destruct (Z.of_nat (String.length a) <? 0) eqn:E1; [apply Z.ltb_lt in E1; lia |].
  destruct (Z.of_nat (String.length a + String.length t) <? 0) eqn:E2;
    [apply Z.ltb_lt in E2; lia |].
  rewrite Z.min_l by lia. rewrite Z.min_id.
  replace (Z.to_nat (Z.of_nat (String.length a))) with (String.length a) by lia.
  replace (Z.to_nat (Z.of_nat (String.length a + String.length t)
                     - Z.of_nat (String.length a))) with (String.length t) by lia.
  rewrite substring_skip. apply substring_all.
Qed.

Lemma split1_at (key val : string) (c : ascii) :
  has_char c key = false ->
  Py.split1 (key ++ String c val) (Py.chr c) = [key; val].
Proof.
  intros H. unfold Py.split1, Py.find. rewrite (find_from_char c key val 0 H).
  cbn [Z.add].
  destruct (Py.len key <? 0) eqn:E; [apply Z.ltb_lt in E; unfold Py.len in E; lia |].
  f_equal.
  - pose proof (slice_middle EmptyString key (String c val)) as Hs.
    cbn [append] in Hs. change (Py.len EmptyString) with 0 in Hs. exact Hs.
  - f_equal. change (Py.len (Py.chr c)) with 1.
    replace (key ++ String c val) with ((key ++ Py.chr c) ++ val)
      by (rewrite append_assoc; reflexivity).
    replace (Py.len key + 1) with (Py.len (key ++ Py.chr c))
      by (unfold Py.len; rewrite length_append; cbn [Py.chr String.length]; lia).
    apply slice_from_tail.
Qed.

(** ** The action that annotates the sentence *)

(** X26: the action [#S:key=val] stores [val] under [key] in the
    annotations of the sentence, so the sentence is written with the
    comment line [# key=val]; the binding must have a node 1.  The
    sentence is reached through the token of node 1: when an action has
    put a string in the place of its attribute [sentence], the action
    raises [AttributeError] instead. *)
Theorem sentence_action_annotates
        (re : ReLib) (r : result) (st : store) (key val : string) (t1 : nat)
        (tok : ParsedToken) :
  has_char ":" key = false -> has_char "=" key = false -> has_char ":" val = false ->
  int_get (nodes r) 1 = Some t1 ->
  nth_error (tokens st) t1 = Some tok ->
  execute_one re r st ("#S:" ++ key ++ "=" ++ val)
  = (if py_eq (sentence_ tok) PSentence then Ok (annotate st key val, false)
     else Raise AttributeError)
  /\ In ("# " ++ key ++ "=" ++ val) (print_annos (sentence (annotate st key val))).
Proof.
  intros Hk Hke Hv Hb Ht. split.
  - unfold execute_one.
    change ("#S:" ++ key ++ "=" ++ val ==? "last") with false. cbv iota.
    assert (Ec : Py.contains ":" ("#S:" ++ key ++ "=" ++ val) = true)
      by (apply (contains_middle ":" "#S" (key ++ "=" ++ val))).
    rewrite Ec.
    unfold Py.startswith. rewrite prefix_app.
    assert (Es : Py.split ("#S:" ++ key ++ "=" ++ val) ":" = ["#S"; key ++ "=" ++ val]).
    { change (Py.split ("#S:" ++ key ++ "=" ++ val) ":")
        with (Py.split ("#S" ++ String ":" (key ++ "=" ++ val)) (Py.chr ":")).
      rewrite split_chr_app.
      rewrite (split_chr_none ":" "#S" eq_refl), (split_chr_none ":" (key ++ "=" ++ val)).
      - reflexivity.
      - rewrite has_char_app, Hk. cbn [append has_char Ascii.eqb]. exact Hv. }
    rewrite Es. cbn [Py.nth_or nth_error of_option bind].
    change (Py.split1 (key ++ "=" ++ val) "=")
      with (Py.split1 (key ++ String "=" val) (Py.chr "=")).
    rewrite (split1_at key val "=" Hke).
    unfold bound, token_at. rewrite Hb. cbn [of_option bind]. rewrite Ht.
    cbn [of_option bind]. destruct (sentence_ tok); reflexivity.
  - unfold print_annos, annotate. cbn [sentence annotations].
    apply in_map_iff. exists (key, val). split; [reflexivity |].
    generalize (annotations (sentence st)) as d.
    induction d as [|[k v] d IH]; cbn [dict_set]; [left; reflexivity |].
    destruct (k ==? key) eqn:E.
    + apply String.eqb_eq in E. subst k. left. reflexivity.
    + right. exact IH.
Qed.

Lemma sentence_action_annotates_witness :
  execute_one plain_re
              {| nodes := [(1, 1%nat)]; rels := ["none"]; matchers := []; groups := [] |}
              st_abc ("#S:" ++ "tagged" ++ "=" ++ "yes")
  = (if py_eq (sentence_ (mk_token "2.0" "b" "_" "3.0" "dep" "mid")) PSentence
     then Ok (annotate st_abc "tagged" "yes", false)
     else Raise AttributeError)
  /\ In ("# " ++ "tagged" ++ "=" ++ "yes")
        (print_annos (sentence (annotate st_abc "tagged" "yes"))).
Proof.
  apply (sentence_action_annotates plain_re
           {| nodes := [(1, 1%nat)]; rels := ["none"]; matchers := []; groups := [] |}
           st_abc "tagged" "yes" 1 (mk_token "2.0" "b" "_" "3.0" "dep" "mid")); reflexivity.
Defined.

(** ** The action that sets an attribute *)

Lemma findall_refs_absent (s : string) :
  has_char "$" s = false -> findall_refs s = [].
Proof.
  unfold findall_refs. induction s as [|a s IH]; intros H; [reflexivity |].
  simpl in H. apply orb_false_iff in H. destruct H as [E H].
  cbn [findall_refs_go]. rewrite E. apply IH. exact H.
Qed.

Lemma digit_is_no_S (a : ascii) : Py.is_digit a = true -> Ascii.eqb a "S" = false.
Proof. intros H. by_digit a H; reflexivity. Qed.

Lemma dict_get_set_same {V : Type} (d : list (string * V)) (k : string) (v : V) :
  dict_get (dict_set d k v) k = Some v.
Proof.
  induction d as [|[k' v'] d IH]; simpl.
  - rewrite String.eqb_refl. reflexivity.
  - destruct (k' ==? k) eqn:E; simpl; rewrite E; [reflexivity | exact IH].
Qed.

Lemma dict_get_set_other {V : Type} (d : list (string * V)) (k k0 : string) (v : V) :
  (k0 ==? k) = false -> dict_get (dict_set d k v) k0 = dict_get d k0.
Proof.
  intros Hk. induction d as [|[k' v'] d IH]; simpl.
  - rewrite String.eqb_sym, Hk. reflexivity.
  - destruct (k' ==? k) eqn:E; simpl.
    + apply String.eqb_eq in E. subst k'. rewrite String.eqb_sym, Hk. reflexivity.
    + rewrite IH. reflexivity.
Qed.

Lemma replace_nth_here {A : Type} (l : list A) (i : nat) (x y : A) :
  nth_error l i = Some x -> nth_error (replace_nth l i y) i = Some y.
Proof.
  revert i. induction l as [|a l IH]; intros [|i] H; try discriminate H.
  - reflexivity.
  - simpl in *. apply IH. exact H.
Qed.

Lemma setattr_then_getattr (t t' : ParsedToken) (name v : string) :
  setattr t name v = Ok t' -> getattr t' name = Ok (PStr v).
Proof.
  unfold setattr.
  destruct ((name ==? "__class__") || (name ==? "__dict__")); [discriminate |].
  destruct (name ==? "__weakref__"); [discriminate |].
  intros H. injection H as <-. unfold getattr, pick, pick_value.
  cbn [id text lemma pos cpos morph head func head2 func2 num child_funcs position
       is_super_tok sentence_ extra existsb attribute_names].
  repeat match goal with
         | |- (if ?b then _ else _) = _ => destruct b eqn:?; [reflexivity |]
         end.
  cbn [orb]. rewrite dict_get_set_same. reflexivity.
Qed.

Lemma setattr_keeps_the_others (t t' : ParsedToken) (name v other : string) :
  setattr t name v = Ok t' -> (other ==? name) = false ->
  getattr t' other = getattr t other.
Proof.
  unfold setattr.
  destruct ((name ==? "__class__") || (name ==? "__dict__")); [discriminate |].
  destruct (name ==? "__weakref__"); [discriminate |].
  intros H Hn. injection H as <-. unfold getattr, pick, pick_value.
  cbn [id text lemma pos cpos morph head func head2 func2 num child_funcs position
       is_super_tok sentence_ extra].
  repeat match goal with
         | |- (if other ==? ?f then _ else _) = _ =>
             let E := fresh "E" in
             destruct (other ==? f) eqn:E;
             [apply String.eqb_eq in E; subst other;
              rewrite String.eqb_sym in Hn; rewrite Hn; reflexivity |]
         end.
  match goal with
  | |- context [dict_get (if ?b then _ else _) _] => destruct b; [reflexivity |]
  end.
  rewrite (dict_get_set_other _ _ _ _ Hn). reflexivity.
Qed.

(** X27: the action [#n:prop=value] without a reference to a group
    sets the attribute [prop] of the token of node n to [value], stripped
    of white space at both ends; everything after the first equals sign
    is the value.  But for the three names that take no string, the
    action succeeds: afterwards the token of node n answers to [prop]
    with the stripped value, and to every other name as before. *)
Theorem attribute_action_sets_the_attribute
        (re : ReLib) (r : result) (st : store) (n prop value : string) (i : nat)
        (tok : ParsedToken) :
  digit_string n ->
  has_char ":" prop = false -> has_char "=" prop = false ->
  has_char "$" (Py.strip value) = false ->
  int_get (nodes r) (Py.digits_val 0 n) = Some i ->
  nth_error (tokens st) i = Some tok ->
  execute_one re r st ("#" ++ n ++ ":" ++ prop ++ "=" ++ value)
  = (tok' <- setattr tok prop (Py.strip value) ;; Ok (update_token st i tok', false))
  /\ (existsb (String.eqb prop) ["__class__"; "__dict__"; "__weakref__"] = false ->
      exists tok',
        execute_one re r st ("#" ++ n ++ ":" ++ prop ++ "=" ++ value)
        = Ok (update_token st i tok', false)
        /\ nth_error (tokens (update_token st i tok')) i = Some tok'
        /\ getattr tok' prop = Ok (PStr (Py.strip value))
        /\ forall other, (other ==? prop) = false -> getattr tok' other = getattr tok other).
Proof.
  intros Hn Hp Hpe Hv Hb Ht.
  assert (EQ : execute_one re r st ("#" ++ n ++ ":" ++ prop ++ "=" ++ value)
               = (tok' <- setattr tok prop (Py.strip value) ;;
                  Ok (update_token st i tok', false))).
  { unfold execute_one.
    change ("#" ++ n ++ ":" ++ prop ++ "=" ++ value ==? "last") with false. cbv iota.
    assert (Ec : Py.contains ":" ("#" ++ n ++ ":" ++ prop ++ "=" ++ value) = true).
    { change ("#" ++ n ++ ":" ++ prop ++ "=" ++ value)
        with ("#" ++ (n ++ ":" ++ prop ++ "=" ++ value)).
      apply contains_app_skip. apply contains_middle. }
    rewrite Ec.
    assert (Es : Py.startswith ("#" ++ n ++ ":" ++ prop ++ "=" ++ value) "#S:" = false).
    { destruct Hn as [Hne Hd]. destruct n as [|a n]; [contradiction |].
      apply all_digits_cons in Hd. destruct Hd as [Ha _].
      unfold Py.startswith. cbn [append prefix].
      destruct (Ascii.ascii_dec "#" "#") as [_|N]; [| contradiction].
      destruct (Ascii.ascii_dec "S" a) as [<-|_]; [discriminate Ha | reflexivity]. }
    rewrite Es.
    assert (Hhn : forall c, Py.is_digit c = false -> Ascii.eqb "#" c = false ->
                            has_char c ("#" ++ n) = false).
    { intros c Hd Hh. cbn [append has_char]. rewrite Hh.
      rewrite (has_char_digits c n Hd (proj2 Hn)). reflexivity. }
    assert (Ef1 : Py.find ("#" ++ n ++ ":" ++ prop ++ "=" ++ value) ":" = Py.len ("#" ++ n)).
    { unfold Py.find.
      change (Py.find_from ":" ("#" ++ n ++ ":" ++ prop ++ "=" ++ value) 0)
        with (Py.find_from (Py.chr ":") (("#" ++ n) ++ String ":" (prop ++ "=" ++ value)) 0).
      rewrite (find_from_char ":" _ _ 0 (Hhn ":"%char eq_refl eq_refl)). reflexivity. }
    assert (Ef2 : Py.find ("#" ++ n ++ ":" ++ prop ++ "=" ++ value) "="
                  = Py.len (("#" ++ n) ++ ":" ++ prop)).
    { unfold Py.find.
      replace ("#" ++ n ++ ":" ++ prop ++ "=" ++ value)
        with ((("#" ++ n) ++ ":" ++ prop) ++ String "=" value)
        by (cbn [append]; rewrite !append_assoc; reflexivity).
      change (Py.find_from "=" ((("#" ++ n) ++ ":" ++ prop) ++ String "=" value) 0)
        with (Py.find_from (Py.chr "=") ((("#" ++ n) ++ ":" ++ prop) ++ String "=" value) 0).
      rewrite find_from_char; [reflexivity |].
      rewrite has_char_app, (Hhn "="%char eq_refl eq_refl). cbn [append has_char Ascii.eqb orb].
      exact Hpe. }
    rewrite Ef1, Ef2.
    assert (E1 : Py.slice ("#" ++ n ++ ":" ++ prop ++ "=" ++ value) 1 (Py.len ("#" ++ n)) = n).
    { pose proof (slice_middle "#" n (":" ++ prop ++ "=" ++ value)) as Hs.
      change (Py.len "#") with 1 in Hs.
      replace (Py.len ("#" ++ n)) with (1 + Py.len n)
        by (unfold Py.len; cbn [append String.length]; lia).
      exact Hs. }
    rewrite E1, (int_digits n Hn). cbn [bind].
    assert (E2 : Py.slice ("#" ++ n ++ ":" ++ prop ++ "=" ++ value)
                          (Py.len ("#" ++ n) + 1) (Py.len (("#" ++ n) ++ ":" ++ prop)) = prop).
    { pose proof (slice_middle (("#" ++ n) ++ ":") prop ("=" ++ value)) as Hs.
      replace (((("#" ++ n) ++ ":") ++ prop ++ "=" ++ value))
        with ("#" ++ n ++ ":" ++ prop ++ "=" ++ value) in Hs
        by (cbn [append]; rewrite !append_assoc; reflexivity).
      replace (Py.len ("#" ++ n) + 1) with (Py.len (("#" ++ n) ++ ":"))
        by (unfold Py.len; rewrite !length_append; cbn [String.length]; lia).
      replace (Py.len (("#" ++ n) ++ ":" ++ prop))
        with (Py.len (("#" ++ n) ++ ":") + Py.len prop)
        by (unfold Py.len; rewrite !length_append; cbn [String.length]; lia).
      exact Hs. }
    rewrite E2.
    assert (E3 : Py.slice_from ("#" ++ n ++ ":" ++ prop ++ "=" ++ value)
                               (Py.len (("#" ++ n) ++ ":" ++ prop) + 1) = value).
    { pose proof (slice_from_tail ((("#" ++ n) ++ ":" ++ prop) ++ "=") value) as Hs.
      replace (((("#" ++ n) ++ ":" ++ prop) ++ "=") ++ value)
        with ("#" ++ n ++ ":" ++ prop ++ "=" ++ value) in Hs
        by (cbn [append]; rewrite !append_assoc; reflexivity).
      replace (Py.len (("#" ++ n) ++ ":" ++ prop) + 1)
        with (Py.len ((("#" ++ n) ++ ":" ++ prop) ++ "="))
        by (unfold Py.len; rewrite !length_append; cbn [String.length]; lia).
      exact Hs. }
    rewrite E3, (findall_refs_absent _ Hv). cbn [foldM bind].
    unfold bound. rewrite Hb. cbn [of_option bind].
    unfold token_at. rewrite Ht. reflexivity. }
  split; [exact EQ |].
  intros Hs. cbn [existsb] in Hs. rewrite orb_false_r in Hs.
  apply orb_false_iff in Hs. destruct Hs as [H1 Hs].
  apply orb_false_iff in Hs. destruct Hs as [H2 H3].
  destruct (setattr tok prop (Py.strip value)) as [tok'| |] eqn:Es;
    [| unfold setattr in Es; rewrite H1, H2, H3 in Es; discriminate Es ..].
  exists tok'. split; [exact EQ |]. split; [| split].
  - unfold update_token. cbn [tokens]. apply (replace_nth_here _ _ tok _ Ht).
  - apply (setattr_then_getattr _ _ _ _ Es).
  - intros other Ho. apply (setattr_keeps_the_others _ _ _ _ _ Es Ho).
Qed.

Lemma attribute_action_sets_the_attribute_witness :
  (execute_one plain_re
               {| nodes := [(1, 1%nat)]; rels := ["none"]; matchers := []; groups := [] |}
               st_abc ("#" ++ "1" ++ ":" ++ "lemma" ++ "=" ++ String "160" " Q=x ")
   = (tok' <- setattr (mk_token "2.0" "b" "_" "3.0" "dep" "mid") "lemma"
                      (Py.strip (String "160" " Q=x ")) ;;
      Ok (update_token st_abc 1 tok', false)))
  /\ (exists tok',
        execute_one plain_re
                    {| nodes := [(1, 1%nat)]; rels := ["none"]; matchers := []; groups := [] |}
                    st_abc ("#" ++ "1" ++ ":" ++ "is_super_tok" ++ "=" ++ "yes")
        = Ok (update_token st_abc 1 tok', false)
        /\ nth_error (tokens (update_token st_abc 1 tok')) 1 = Some tok'
        /\ getattr tok' "is_super_tok" = Ok (PStr (Py.strip "yes"))
        /\ getattr tok' "lemma" = Ok (PStr "_"))
  /\ Py.strip (String "160" " Q=x ") = "Q=x".
Proof.
  split; [| split; [| reflexivity]].
  - apply (attribute_action_sets_the_attribute plain_re
             {| nodes := [(1, 1%nat)]; rels := ["none"]; matchers := []; groups := [] |}
             st_abc "1" "lemma" (String "160" " Q=x ") 1
             (mk_token "2.0" "b" "_" "3.0" "dep" "mid"));
      try reflexivity.
    split; [discriminate | reflexivity].
  - destruct (attribute_action_sets_the_attribute plain_re
                {| nodes := [(1, 1%nat)]; rels := ["none"]; matchers := []; groups := [] |}
                st_abc "1" "is_super_tok" "yes" 1
                (mk_token "2.0" "b" "_" "3.0" "dep" "mid")) as [_ H];
      try reflexivity.
    + split; [discriminate | reflexivity].
    + destruct (H eq_refl) as (tok' & E & Hn & Hg & Ho).
      exists tok'. split; [exact E |]. split; [exact Hn |]. split; [exact Hg |].
      rewrite (Ho "lemma" eq_refl). reflexivity.
Defined.

(** * The compiled tests *)

Lemma last_char_app (s : string) (c : ascii) : Py.last_char (s ++ Py.chr c) = Some c.
Proof.
  induction s as [|a s IH]; [reflexivity |].
  cbn [append Py.last_char]. rewrite IH.
  destruct (s ++ Py.chr c) eqn:E; [| reflexivity].
  destruct s; discriminate E.
Qed.

Lemma norm_index_last (n : Z) : 1 <= n -> Py.norm_index n (-1) = n - 1.
Proof. intros H. unfold Py.norm_index. change (-1 <? 0) with true. cbv iota. lia. Qed.

Lemma norm_index_small (n k : Z) : 0 <= k <= n -> Py.norm_index n k = k.
Proof.
  intros H. unfold Py.norm_index.
  destruct (k <? 0) eqn:E; [apply Z.ltb_lt in E; lia | lia].
Qed.

Lemma slice_drop_last (s : string) (c : ascii) : Py.slice (s ++ Py.chr c) 0 (-1) = s.
Proof.
  unfold Py.slice.
  assert (Hn : Py.len (s ++ Py.chr c) = Z.of_nat (String.length s) + 1)
    by (unfold Py.len; rewrite length_append; cbn [Py.chr String.length]; lia).
  rewrite Hn, norm_index_last by lia. rewrite norm_index_small by lia.
  replace (Z.to_nat 0) with 0%nat by reflexivity.
  replace (Z.to_nat (Z.of_nat (String.length s) + 1 - 1 - 0)) with (String.length s) by lia.
  apply substring_prefix.
Qed.

Lemma slice_between (a c : ascii) (v : string) :
  Py.slice (String a (v ++ Py.chr c)) 1 (-1) = v.
Proof.
  unfold Py.slice.
  assert (Hn : Py.len (String a (v ++ Py.chr c)) = Z.of_nat (String.length v) + 2)
    by (unfold Py.len; cbn [String.length]; rewrite length_append;
        cbn [Py.chr String.length]; lia).
  rewrite Hn, norm_index_last by lia. rewrite norm_index_small by lia.
  replace (Z.to_nat 1) with 1%nat by reflexivity.
  replace (Z.to_nat (Z.of_nat (String.length v) + 2 - 1 - 1)) with (String.length v) by lia.
  cbn [substring]. apply substring_prefix.
Qed.

Lemma last_char_none (s : string) : Py.last_char s = None -> s = EmptyString.
Proof.
  induction s as [|a s IH]; [reflexivity |].
  cbn [Py.last_char]. destruct s as [|b s]; [discriminate |].
  intros H. specialize (IH H). discriminate IH.
Qed.

Lemma anchored_steps (v : string) (c0 : ascii) :
  Py.first_char v = Some c0 ->
  exists c1,
    Py.last_char (if negb (Ascii.eqb c0 "^") then "^" ++ v else v) = Some c1
    /\ (if negb (Ascii.eqb c1 "$")
        then (if negb (Ascii.eqb c0 "^") then "^" ++ v else v) ++ "$"
        else (if negb (Ascii.eqb c0 "^") then "^" ++ v else v)) = anchored v.
Proof.
  intros H. unfold anchored. rewrite H.
  assert (E : (if negb (Ascii.eqb c0 "^") then "^" ++ v else v)
              = match c0 with "^"%char => v | _ => "^" ++ v end).
  { destruct (Ascii.eqb c0 "^") eqn:E.
    - apply Ascii.eqb_eq in E. subst c0. reflexivity.
    - apply Ascii.eqb_neq in E.
      destruct c0 as [[|] [|] [|] [|] [|] [|] [|] [|]]; try reflexivity.
      contradiction. }
  rewrite E.
  set (v1 := match c0 with "^"%char => v | _ => "^" ++ v end).
  assert (Hne : v1 <> EmptyString).
  { subst v1. destruct v as [|x v]; [discriminate H |].
    destruct c0 as [[|] [|] [|] [|] [|] [|] [|] [|]]; discriminate. }
  destruct (Py.last_char v1) as [c1|] eqn:El.
  - exists c1. split; [reflexivity |].
    destruct (Ascii.eqb c1 "$") eqn:E1.
    + apply Ascii.eqb_eq in E1. subst c1. reflexivity.
    + apply Ascii.eqb_neq in E1.
      destruct c1 as [[|] [|] [|] [|] [|] [|] [|] [|]]; try reflexivity.
      contradiction.
  - exfalso. apply Hne. apply last_char_none. exact El.
Qed.

Lemma parse_def_item_anchors
        (re : ReLib) (crit v : string) (negated : bool) :
  v <> EmptyString -> crit <> EmptyString ->
  Py.last_char crit <> Some "!"%char ->
  has_char "=" crit = false ->
  has_char "%" crit = false -> has_char "%" v = false ->
  parse_def_item re (crit ++ (if negated then "!" else EmptyString) ++ "=/" ++ v ++ "/")
  = Definition_init re crit (anchored v) negated.
Proof.
  intros Hv Hc Hl He Hp Hpv. unfold parse_def_item.
  assert (Hrep : Py.replace (crit ++ (if negated then "!" else EmptyString) ++ "=/" ++ v ++ "/")
                            "%%%%%" "&"
                 = (crit ++ (if negated then "!" else EmptyString)) ++ String "=" ("/" ++ v ++ "/")).
  { unfold Py.replace. rewrite replace_go_absent.
    - rewrite append_assoc. reflexivity.
    - rewrite !has_char_app, Hp, Hpv. destruct negated; reflexivity. }
  rewrite Hrep.
  change (Py.split1 ((crit ++ (if negated then "!" else EmptyString))
                     ++ String "=" ("/" ++ v ++ "/")) "=")
    with (Py.split1 ((crit ++ (if negated then "!" else EmptyString))
                     ++ String "=" ("/" ++ v ++ "/")) (Py.chr "=")).
  rewrite split1_at
    by (rewrite has_char_app, He; destruct negated; reflexivity).
  cbn [Py.nth_or nth_error of_option bind].
  assert (Hcrit : exists c,
             Py.last_char (crit ++ (if negated then "!" else EmptyString)) = Some c
             /\ Ascii.eqb c "!" = negated
             /\ (if negated then Py.slice (crit ++ "!") 0 (-1) else crit) = crit).
  { destruct negated.
    - exists "!"%char. split; [apply (last_char_app crit "!") |].
      split; [reflexivity | apply (slice_drop_last crit "!")].
    - rewrite append_empty. destruct (Py.last_char crit) as [c|] eqn:E.
      + exists c. split; [reflexivity |]. split; [| reflexivity].
        apply Ascii.eqb_neq. intros ->. apply Hl. reflexivity.
      + exfalso. apply Hc. apply last_char_none. exact E. }
  destruct Hcrit as (c & Hlast & Hneg & Hsl). rewrite Hlast. cbn [of_option bind].
  rewrite Hneg.
  assert (Hcr : (if negated
                 then Py.slice (crit ++ (if negated then "!" else EmptyString)) 0 (-1)
                 else crit ++ (if negated then "!" else EmptyString)) = crit).
  { destruct negated; [exact Hsl | apply append_empty]. }
  rewrite Hcr.
  change ("/" ++ v ++ "/") with (String "/" (v ++ Py.chr "/")).
  rewrite slice_between.
  destruct (Py.first_char v) as [c0|] eqn:E0; [| destruct v; [contradiction | discriminate E0]].
  cbn [of_option bind].
  destruct (anchored_steps v c0 E0) as (c1 & H1 & H2).
  rewrite H1. cbn [of_option bind]. rewrite H2. reflexivity.
Qed.

(** X28: a node test [crit=/v/], or [crit!=/v/], is compiled from the
    criterion [crit], the negation and the pattern [v] anchored at both
    ends: [^] is put in front unless [v] starts with it, [$] behind unless
    [v] ends with it.  Where the anchored pattern is not that of any
    text and what stands between its ends is a regular expression, the
    test holds the anchored pattern as [re.compile] returns it, and
    what the criterion is an alias of. *)
Theorem test_patterns_are_anchored
        (re : ReLib) (crit v : string) (negated : bool) :
  v <> EmptyString -> crit <> EmptyString ->
  Py.last_char crit <> Some "!"%char ->
  has_char "=" crit = false ->
  has_char "%" crit = false -> has_char "%" v = false ->
  parse_def_item re (crit ++ (if negated then "!" else EmptyString) ++ "=/" ++ v ++ "/")
  = Definition_init re crit (anchored v) negated
  /\ (forall c,
        (anchored v ==? "^.*$") && negb negated = false ->
        (re_escape re (Py.slice (anchored v) 1 (-1)) ==? Py.slice (anchored v) 1 (-1)) = false ->
        re_compile re (anchored v) = Ok c ->
        parse_def_item re (crit ++ (if negated then "!" else EmptyString) ++ "=/" ++ v ++ "/")
        = Ok {| criterion := match dict_get ALIASES crit with Some a => a | None => crit end;
                value := anchored v; negative := negated; compiled_re := Some c;
                match_func := if negated then return_regex_negative else return_regex |}).
Proof.
  intros Hv Hc Hl He Hp Hpv.
  pose proof (parse_def_item_anchors re crit v negated Hv Hc Hl He Hp Hpv) as E.
  split; [exact E |].
  intros c Hany Hesc Hcomp. rewrite E. unfold Definition_init, set_match_type.
  rewrite Hany, Hesc, Hcomp. reflexivity.
Qed.

Lemma test_patterns_are_anchored_witness :
  parse_def_item plain_re ("text" ++ (if true then "!" else EmptyString) ++ "=/" ++ "a.*b" ++ "/")
  = Definition_init plain_re "text" (anchored "a.*b") true
  /\ anchored "a.*b" = "^a.*b$"
  /\ re_compile plain_re (anchored "a.*b") = Ok pattern_a_b
  /\ parse_def_item plain_re
       ("text" ++ (if true then "!" else EmptyString) ++ "=/" ++ "a.*b" ++ "/")
     = Ok {| criterion := match dict_get ALIASES "text" with Some a => a | None => "text" end;
             value := anchored "a.*b"; negative := true; compiled_re := Some pattern_a_b;
             match_func := if true then return_regex_negative else return_regex |}
  /\ pattern_a_b "axxb" = Some []
  /\ pattern_a_b "xaxb" = None
  /\ pattern_a_b "axbx" = None.
Proof.
  destruct (test_patterns_are_anchored plain_re "text" "a.*b" true) as [H1 H2];
    try reflexivity; try discriminate.
  split; [exact H1 |]. split; [reflexivity |].
  split; [vm_compute; reflexivity |].
  split; [apply H2; vm_compute; reflexivity |].
  repeat split; vm_compute; reflexivity.
Defined.

Lemma anchored_plain (v : string) :
  v <> EmptyString ->
  Py.first_char v <> Some "^"%char -> Py.last_char v <> Some "$"%char ->
  anchored v = "^" ++ v ++ "$".
Proof.
  intros Hv Hf Hl. unfold anchored.
  assert (E1 : match Py.first_char v with
               | Some "^"%char => v
               | _ => "^" ++ v
               end = "^" ++ v).
  { destruct (Py.first_char v) as [c|]; [| reflexivity].
    destruct c as [[|] [|] [|] [|] [|] [|] [|] [|]]; try reflexivity.
    exfalso. apply Hf. reflexivity. }
  rewrite E1.
  assert (E2 : Py.last_char ("^" ++ v) = Py.last_char v)
    by (destruct v; [contradiction | reflexivity]).
  rewrite E2. rewrite append_assoc.
  destruct (Py.last_char v) as [c|]; [| reflexivity].
  destruct c as [[|] [|] [|] [|] [|] [|] [|] [|]]; try reflexivity.
  exfalso. apply Hl. reflexivity.
Qed.

Lemma not_any_text (v : string) : v <> ".*" -> ("^" ++ v ++ "$" ==? "^.*$") = false.
Proof.
  intros H. apply String.eqb_neq. intros E. apply H.
  destruct v as [|a [|b [|c v]]]; cbn [append] in E; try discriminate E.
  - injection E as -> ->. reflexivity.
  - injection E as _ _ _ E. destruct v; discriminate E.
Qed.

(** X29: a node test whose pattern holds no regular expression
    operator compares strings: [crit=/v/] accepts exactly the tokens whose
    attribute is [v], [crit!=/v/] exactly the others, and a CoNLL-U alias
    names the attribute it stands for. *)
Theorem plain_patterns_test_equality
        (re : ReLib) (crit v : string) (negated : bool) :
  v <> EmptyString -> crit <> EmptyString ->
  Py.last_char crit <> Some "!"%char ->
  has_char "=" crit = false ->
  has_char "%" crit = false -> has_char "%" v = false ->
  Py.first_char v <> Some "^"%char -> Py.last_char v <> Some "$"%char ->
  v <> ".*" -> re_escape re v = v ->
  exists d,
    parse_def_item re (crit ++ (if negated then "!" else EmptyString) ++ "=/" ++ v ++ "/")
    = Ok d
    /\ criterion d = match dict_get ALIASES crit with Some c => c | None => crit end
    /\ forall test_val,
        apply_match_func d test_val
        = Ok (if xorb (py_eq test_val (PStr v)) negated then MTrue else MFalse).
Proof.
  intros Hv Hc Hl He Hp Hpv Hf Hd Hany Hesc.
  rewrite (parse_def_item_anchors re crit v negated Hv Hc Hl He Hp Hpv).
  rewrite (anchored_plain v Hv Hf Hd).
  unfold Definition_init, set_match_type.
  rewrite (not_any_text v Hany). cbn [andb].
  change ("^" ++ v ++ "$") with (String "^" (v ++ Py.chr "$")).
  rewrite slice_between, Hesc, String.eqb_refl.
  eexists. split; [reflexivity |]. split; [reflexivity |].
  intros test_val. unfold apply_match_func. cbn [match_func value].
  destruct negated, (py_eq test_val (PStr v)); reflexivity.
Qed.

Lemma plain_patterns_test_equality_witness :
  exists d,
    parse_def_item plain_re ("form" ++ (if false then "!" else EmptyString) ++ "=/" ++ "a" ++ "/")
    = Ok d
    /\ criterion d = match dict_get ALIASES "form" with Some c => c | None => "form" end
    /\ forall test_val,
        apply_match_func d test_val
        = Ok (if xorb (py_eq test_val (PStr "a")) false then MTrue else MFalse).
Proof.
  apply (plain_patterns_test_equality plain_re "form" "a" false);
    try reflexivity; discriminate.
Defined.

(** * The lines written for a sentence *)

Lemma mapM_length {A B : Type} (f : A -> outcome B) (l : list A) :
  forall ys, mapM f l = Ok ys -> List.length ys = List.length l.
Proof.
  induction l as [|x l IH]; intros ys H.
  - simpl in H. injection H as <-. reflexivity.
  - cbn [mapM] in H. destruct (f x); simpl in H; try discriminate H.
    destruct (mapM f l) as [ys'| |]; simpl in H; try discriminate H.
    injection H as <-. simpl. rewrite (IH _ eq_refl). reflexivity.
Qed.

(** X30: a sentence is written as its annotations, one line for each
    of its tokens and super-tokens and, when asked for, the [sent_id]
    comment, after the lines written before. *)
Theorem sentence_is_written_line_by_line
        (re : ReLib) (fl : NumLib) (transformations : list Transformation)
        (docname : string) (sent_id : bool) (d d1 : driver) :
  counters_agree d ->
  _process_sentence re fl transformations docname sent_id d = Ok d1 ->
  exists tree,
    output_lines d1
    = (output_lines d ++ print_annos (current_sentence d1) ++ tree
       ++ (if sent_id then [make_sent_id docname (sent_num (current_sentence d))] else []))%list
    /\ List.length tree = (sentlength d + supertok_length d)%nat.
Proof.
  unfold counters_agree, _process_sentence. intros Hc H.
  destruct (process_sentence re fl transformations _) as [st| |] eqn:E; simpl in H;
    try discriminate H.
  destruct (serialize_output_tree fl _ _ _) as [tree| |] eqn:Es; simpl in H;
    try discriminate H.
  injection H as <-. cbn [output_lines current_sentence]. exists tree.
  unfold process_sentence in E.
  destruct (transformations_loop re fl transformations _) as [[st1 b]| |] eqn:E1;
    simpl in E; try discriminate E.
  injection E as <-. apply transformations_loop_frame in E1.
  destruct E1 as (El & En & _). cbn [tokens sentence sent_num] in El, En.
  split.
  - rewrite En, <- app_assoc. reflexivity.
  - unfold serialize_output_tree in Es. rewrite (mapM_length _ _ _ Es), El.
    rewrite length_skipn, set_last_length, Hc. lia.
Qed.

Lemma sentence_is_written_line_by_line_witness :
  exists tree,
    output_lines driver_first_written
    = (output_lines driver_first_sentence ++ print_annos (current_sentence driver_first_written)
       ++ tree
       ++ (if true then [make_sent_id "doc" (sent_num (current_sentence driver_first_sentence))]
           else []))%list
    /\ List.length tree
       = (sentlength driver_first_sentence + supertok_length driver_first_sentence)%nat.
Proof.
  apply (sentence_is_written_line_by_line plain_re whole_numbers [] "doc" true
           driver_first_sentence driver_first_written).
  - vm_compute. reflexivity.
  - vm_compute. reflexivity.
Defined.

(** * The load of a rule file *)














